(* ===== verification/_CoqProject ===== *)
-Q . S2P
Prelude.v
CStd.v
Util.v
UnitTest.v
ThreadPool.v
Display.v
Server.v
Proto.v
SawaSrv.v
Sharing.v
SawaAdmin.v
SawaClient.v
TestRun.v
TowaIpc.v
HttpSrv.v
TowaApp.v
TowaMain.v
XmlStr.v
XmlFloat.v
XmlParse.v
XmlPrint.v
XmlRound.v
XmlValue.v
XmlSave.v
TowaMgr.v
Program.v
Servlets.v
Driver.v
BlockDev.v
KernelStack.v
XmlMem.v
XmlDom.v
XmlNav.v
XmlCopy.v
XmlBuild.v
XmlAttr.v
