(* ===== verification/Prelude.v ===== *)
(** * SaWa: a verification library

    SaWa is a network block device with a web server in the same program.  A Linux
    kernel module (src/main.c, src/sawa.c, src/tcp.c) presents a remote disk as a
    block device; a server (src/server) keeps the disk in a file and answers READ,
    WRITE and INFO messages on port 5000; with [-http] the same program serves files
    and servlets on port 8080.  A client (sawa_client) sends single commands, asks
    for statistics on the administration port 5001 and runs a self test.  Servlets
    run in a second process, which holds a Java virtual machine and talks to the
    server over two named pipes; which servlets exist is read from XML descriptors
    with a copy of tinyxml2 that is part of the sources.

    ** How the parts are modelled

    Code that may fail or touch memory it does not own returns an [outcome]: a
    value, what leaves it (an integer the sources throw, an exception of the standard
    library, a call of [exit]), or [Undef], an access whose behaviour C++ leaves
    undefined.  State is passed explicitly; what runs concurrently is a step
    relation.  Integers are [Z]; where the width matters the wrap-around is written
    ([u32], [s32]).  Answers of the operating system (sockets, files, fork, thread
    creation, JNI, the kernel's queues) are arguments of the definitions, so a
    theorem holds for all of them, failures included.  Memory that is not
    initialised comes from the class [Heap].

    - Prelude, CStd: outcomes, machine integers, little-endian words, bytes; the
      parts of the C library the sources use (strings over memory, decimal
      numbers, [FILE], [atoi], stream sockets).
    - Util (util.cpp): the caseless search, the dump of memory, error messages.
      UnitTest (test_helper.cpp, test.cpp): the unit tests of the search.
    - ThreadPool (thread_pool.cpp): [Pool], the linked lists of threads on a store
      of [ConnectionThread]s, as operations and as their effect on two lists;
      [Workers], the interleaving of the accepting thread with the workers.
    - Display, Server (display.cpp, server.cpp, sawad.cpp): the screens as a record
      of operations, the accepting loop, the options.  SawaAdmin (sawa_admin.cpp).
      Program (sawad.cpp, the constructors in sawa_srv.cpp and http_srv.cpp): the
      whole of [main], as far as the call of [start], with what it catches and what
      it shows on a screen that is not initialised yet.
    - Proto (protocol.md, sawa.h): the messages and the abstract block device; the
      class [BlockDevice] is what a client relies on.  SawaSrv (sawa_srv.cpp) is
      the server, which implements it; Sharing (sawa_srv.cpp again) is the file that
      several connection threads use at once, in pieces between which they can be
      interrupted; SawaClient and TestRun
      (sawa_client_interface.cpp, sawa_client.cpp) the client, proved against it.
    - Driver (tcp.c, sawa.c), BlockDev (main.c), KernelStack (main.c, ramdisk.c): the
      kernel module.  [BlockDriver] interleaves the request function with the work
      handler; [Stack] puts driver, messages and a server together, the server
      handling a WRITE some time after the driver has gone on.  [Ramdisk] is the
      request function of ramdisk.c, whose memory nothing allocates.
    - HttpSrv (http_srv.cpp): the regular expression of the request line with a
      backtracking matcher, the file cache, the request handler.
    - TowaIpc, TowaApp, TowaMain, TowaMgr (towa_ipc.cpp, towa_app_pool.cpp, towa.cpp,
      towa_mgr.cpp): messages on the pipes, the container, its process, and the
      manager that deploys archives and restarts the process.  Servlets puts them
      together with the HTTP server: a request, its way to the virtual machine and
      the page that comes back.
    - XmlStr, XmlParse, XmlPrint, XmlRound, XmlValue, XmlSave (tinyxml2.h,
      tinyxml2.cpp): the parser and the printer on documents as trees; names of
      definitions are those of the methods.  XmlFloat is printf and scanf on float
      and double, exactly, on the rational numbers the values stand for.
    - XmlMem, XmlDom, XmlNav, XmlCopy (tinyxml2.h, tinyxml2.cpp): the same documents
      as nodes with pointers in pools: growing array, free lists, insertion,
      removal, deletion, navigation, visits, copies.  XmlBuild is the parser on
      them: what it reads from the text comes from XmlParse, what it does to the
      nodes is written out.  XmlAttr has the attributes as items of their pool.

    ** What the theorems show

    - The server is a block device: [SawaServer.readData_refines] (every message
      has the effect and the reply of the abstract device, when the system calls
      succeed and no length and no body of a message is split over two segments;
      [readData_split] and [writeFile_ignores_errors] are what happens otherwise),
      [checkValidRequest_exact] (the range check in 32 bits), [readData_terminates]
      (whatever arrives).  Several connections are served as by one device, in the
      order of completion, on every schedule that does not use the position of the
      file between the seek and the transfer of another ([serializable_schedules]);
      otherwise data goes astray ([interrupted_write_misplaced]).
    - The driver is a disk as long as no transfer touches a sector of a WRITE that the
      server has been sent and has not handled, and the race of the work handler is
      avoided: [Stack.driver_is_a_disk].  In every interleaving the transfers made are
      those of the requests, each once and in order ([requests_served]); without the race
      the queue is drained when the transfers succeed ([work_handler_drains]) and
      nothing crashes ([undisturbed_never_crashes]); with it the handler does
      ([race_crash]).  The behaviours that lose data are theorems too
      ([unacknowledged_write], [read_overtakes_write], [large_write_lost],
      [ramdisk_never_transfers]).
    - The client against any block device: a page written is the page read, the
      self test passes, and it ends only when its threads have
      ([waits_for_every_thread]).
    - The pool: the linked lists implement two lists ([handleNewConnection_refines],
      [releaseThread_refines]); in every interleaving no connection has two threads
      and none is forgotten ([Workers.connections_exclusive], [no_lost_wakeup]).
    - The program: it serves with the options it is given ([main_serves]), except that
      it crashes when the daemon, in debug mode, has to create the file
      ([main_crashes_without_log]); how it fails ([main_failures],
      [main_terminated]).
    - HTTP and servlets: requests are parsed as their grammar says, files are served
      as the file system has them (regular files that are executable apart), and over
      a whole connection without servlets the browser gets the pages of its requests in
      order, when each request is short and comes in one segment
      ([readData_session]).  Archives are unpacked and their descriptors read, each at
      its turn; one that is not there yet is undefined behaviour
      ([scanClasspath_spec]).  A request crosses the pipe unchanged and is answered in
      its turn; the browser gets the text the servlet made ([servlet_page]).
    - XML: the parser terminates on every text with a well-formed tree and depth 0
      ([Parse_terminates]); printing then parsing, and saving then loading, give a
      document back that is printable, in the sense of XmlRound ([print_parse],
      [save_load]); numbers set are numbers read, doubles included
      ([value_round_trip]), but not floats, of which two have the same text
      ([float_loses_digits]).
    - The tree in memory: the pointers of a [valid] document stand for a function
      from nodes to lists of children.  Insertions, deletions and clearing edit that
      function and keep the document valid, the memory of what is deleted goes back
      to its pool and nothing stays ([inserts_refine], [DeleteChild_refines],
      [Clear_frees_everything]); the parser builds it from a text, and leaves
      nothing behind when it fails ([Parse_builds_document]); navigation and visits
      read it
      ([element_searches], [handles_safe], [Accept_visits]); a copy equals its
      source ([DeepCopy_faithful]); the attributes of an element are a list
      ([attribute_lists_refine], [ParseAttributes_links]), and the elements share the
      pool of the attributes, each having its own ([elements_apart]).  All of it for any implementation of the class
      [Pool]; [MemPool] is one ([pool_never_aliases]).
    - Theorems that state a defect of the code have its consequence as conclusion;
      their comments say what the code was meant to do.

    ** Fuel

    Loops that are not structural take fuel, and running out of it is never the
    result of a theorem.  Message loops are bounded by the bytes still to arrive,
    the parser by the length of the text plus one ([Parse_terminates] and
    [Parse_builds_document] show it enough), the search for the exponent of a number
    by the exponents of a double, the loops over siblings by the number of nodes, recursion into a tree by
    its height ([layout_exists], [shape], the rank in [valid]), the printing of a
    number by its binary length.

    ** Not modelled

    - In [Stack] the server handles a message in one piece; the schedules on which it
      does not are in Sharing.  What the administration thread does beside [main] is in
      SawaAdmin only.
    - The request queue, the work queue and the locks of the kernel, the TCP
      protocol, curses, JNI and the virtual machine, the scheduler: they are the
      environment, seen through their answers.
    - In XmlDom and XmlBuild the attributes of an element are a list of names and
      values; their pool and links are in XmlAttr, so the clearing of this pool by
      Clear and by a failed Parse is not in [Dom.Clear] and [Build.clear_pools].  XMLConstHandle is XMLHandle; user
      data, line numbers in XmlDom and MemPoolT::Trace are left out.
    - The destructors of the
      servers, which close a file and clear a cache, and the text of the usage
      message of the client.
    - The Java classes and the Makefiles.  *)

From Stdlib Require Export ZArith Lia List Bool.
From Stdlib Require Export Strings.Byte Strings.String.
From stdpp Require Export base gmap list strings.

#[global] Open Scope Z_scope.
#[global] Open Scope list_scope.

(** ** Scope of the development *)

Declare Scope sawa_scope.
Delimit Scope sawa_scope with sawa.
#[global] Open Scope sawa_scope.

(** ** Outcomes

    A piece of C++ code returns a value, leaves by an exception or a call to
    [exit], or performs an access whose behaviour the language leaves undefined: a
    read outside an object, a null or an uninitialised pointer.  The sources throw
    integers, the standard library objects of its own; [catch (int)] sees only the
    former, and [exit] is seen by no handler. *)

Inductive std_exception := bad_array_new_length | out_of_range.
Inductive exn :=
| int_exn (code : Z)
| std_exn (e : std_exception)
| process_exit (status : Z).
Coercion int_exn : Z >-> exn.

Inductive outcome (A : Type) : Type :=
| Ret (a : A)
| Throw (e : exn)
| Undef.
Arguments Ret {A} a.
Arguments Throw {A} e.
Arguments Undef {A}.

#[export] Instance outcome_ret : MRet outcome := fun A a => Ret a.
#[export] Instance outcome_bind : MBind outcome := fun A B f m =>
  match m with
  | Ret a => f a
  | Throw c => Throw c
  | Undef => Undef
  end.

#[export] Instance std_exception_eq_dec : EqDecision std_exception.
Proof. solve_decision. Defined.
#[export] Instance exn_eq_dec : EqDecision exn.
Proof. solve_decision. Defined.
#[export] Instance outcome_eq_dec {A} `{EqDecision A} : EqDecision (outcome A).
Proof. solve_decision. Defined.

(** [try { .. } catch (int code) { .. }]. *)
Definition catch_int {A} (m : outcome A) (handler : Z -> outcome A) : outcome A :=
  match m with Throw (int_exn code) => handler code | m => m end.
(** [try { .. } catch (...) { .. }]. *)
Definition catch_all {A} (m : outcome A) (handler : outcome A) : outcome A :=
  match m with Throw (int_exn _) | Throw (std_exn _) => handler | m => m end.

(** The outcome of a partial access: [None] is an access outside the object. *)
Definition of_access {A} (o : option A) : outcome A :=
  match o with Some a => Ret a | None => Undef end.

Lemma bind_Ret_inv {A B} (m : outcome A) (f : A -> outcome B) b :
  m ≫= f = Ret b -> exists a, m = Ret a /\ f a = Ret b.
Proof. destruct m; simpl; intros; try discriminate; eauto. Qed.

(** Case analysis on every [match] of a hypothesis or of the goal, keeping the
    equations. *)
Ltac break_match_hyp H :=
  match type of H with
  | context [match ?x with _ => _ end] => destruct x eqn:?
  end.
Ltac break_match :=
  match goal with
  | |- context [match ?x with _ => _ end] => destruct x eqn:?
  end.
Ltac invc H := inversion H; subst; clear H.

(** Turns the boolean comparisons of the code into propositions. *)
Ltac bool_to_prop :=
  repeat match goal with
  | H : (_ && _)%bool = true |- _ => apply andb_prop in H as [? ?]
  | H : (_ || _)%bool = false |- _ => apply orb_false_elim in H as [? ?]
  | H : negb _ = true |- _ => apply negb_true_iff in H
  | H : negb _ = false |- _ => apply negb_false_iff in H
  | H : (_ =? _) = true |- _ => apply Z.eqb_eq in H
  | H : (_ =? _) = false |- _ => apply Z.eqb_neq in H
  | H : (_ <? _) = true |- _ => apply Z.ltb_lt in H
  | H : (_ <? _) = false |- _ => apply Z.ltb_ge in H
  | H : (_ <=? _) = true |- _ => apply Z.leb_le in H
  | H : (_ <=? _) = false |- _ => apply Z.leb_gt in H
  end.

(** ** Machine integers

    An unsigned 32-bit integer is a [Z] in [[0, 2^32)]; every arithmetic
    result is reduced by [u32].  A signed [int] is a [Z] in
    [[-2^31, 2^31)]; [s32] is the two's complement reading the compiler uses
    for conversions from unsigned to signed. *)

Definition u8 (z : Z) : Z := z mod 2 ^ 8.
Definition u32 (z : Z) : Z := z mod 2 ^ 32.
Definition s32 (z : Z) : Z := (z + 2 ^ 31) mod 2 ^ 32 - 2 ^ 31.
Definition is_u32 (z : Z) : Prop := 0 <= z < 2 ^ 32.
Definition is_s32 (z : Z) : Prop := - 2 ^ 31 <= z < 2 ^ 31.

Lemma u32_range z : is_u32 (u32 z).
Proof. apply Z.mod_pos_bound. lia. Qed.
Lemma u32_small z : is_u32 z -> u32 z = z.
Proof. intros. apply Z.mod_small; done. Qed.
Lemma s32_range z : is_s32 (s32 z).
Proof. unfold is_s32, s32. pose proof (Z.mod_pos_bound (z + 2 ^ 31) (2 ^ 32)). lia. Qed.
Lemma s32_small z : is_s32 z -> s32 z = z.
Proof. unfold is_s32, s32. intros. rewrite Z.mod_small; lia. Qed.
Lemma u32_s32 z : u32 (s32 z) = u32 z.
Proof.
  unfold u32, s32.
  rewrite (Z.mod_eq (z + 2 ^ 31) (2 ^ 32)) by lia.
  replace (z + 2 ^ 31 - 2 ^ 32 * ((z + 2 ^ 31) / 2 ^ 32) - 2 ^ 31)
    with (z + - ((z + 2 ^ 31) / 2 ^ 32) * 2 ^ 32) by ring.
  apply Z_mod_plus_full.
Qed.
Lemma s32_u32 z : s32 (u32 z) = s32 z.
Proof. unfold u32, s32. rewrite Zplus_mod_idemp_l. done. Qed.
Lemma u32_u32 z : u32 (u32 z) = u32 z.
Proof. apply u32_small, u32_range. Qed.

(** ** Bytes *)

Abbreviation byte := Byte.byte.
Abbreviation bytes := (list Byte.byte).

#[export] Instance byte_eq_dec : EqDecision byte := Byte.byte_eq_dec.

Definition b2z (b : byte) : Z := Z.of_N (Byte.to_N b).
Definition z2b (z : Z) : byte :=
  match Byte.of_N (Z.to_N (z mod 256)) with Some b => b | None => Byte.x00 end.
(** The value of a [char], which is signed on the target. *)
Definition b2s (b : byte) : Z := if b2z b <? 128 then b2z b else b2z b - 256.

Lemma b2z_range b : 0 <= b2z b < 256.
Proof. unfold b2z. pose proof (Byte.to_N_bounded b). lia. Qed.
Lemma b2z_z2b z : b2z (z2b z) = z mod 256.
Proof.
  unfold b2z, z2b. pose proof (Z.mod_pos_bound z 256 ltac:(lia)).
  destruct (Byte.of_N _) eqn:E.
  - apply Byte.to_of_N in E. rewrite E, Z2N.id; lia.
  - apply Byte.of_N_None_iff in E. lia.
Qed.
Lemma z2b_b2z b : z2b (b2z b) = b.
Proof.
  unfold z2b. pose proof (b2z_range b). rewrite Z.mod_small by lia.
  unfold b2z. rewrite N2Z.id, Byte.of_to_N. done.
Qed.
Lemma b2z_inj a b : b2z a = b2z b -> a = b.
Proof. intros E. rewrite <-(z2b_b2z a), E. apply z2b_b2z. Qed.
Lemma z2b_mod z : z2b (z mod 256) = z2b z.
Proof. apply b2z_inj. rewrite !b2z_z2b, Z.mod_mod; lia. Qed.
Lemma b2z_z2b_small z : 0 <= z < 256 -> b2z (z2b z) = z.
Proof. intros. rewrite b2z_z2b. apply Z.mod_small. lia. Qed.

#[export] Instance byte_countable : Countable byte := inj_countable' b2z z2b z2b_b2z.

Definition beqb (a b : byte) : bool := Byte.eqb a b.
Lemma beqb_spec a b : reflect (a = b) (beqb a b).
Proof.
  unfold beqb. destruct (Byte.eqb a b) eqn:E; constructor.
  - by apply Byte.byte_dec_bl.
  - intros ->. by rewrite Byte.byte_dec_lb in E.
Qed.
Lemma beqb_refl a : beqb a a = true.
Proof. by destruct (beqb_spec a a). Qed.

(** A C string literal, as its bytes without the terminating NUL. *)
Definition bs (s : string) : bytes := String.list_byte_of_string s.
Definition nul : byte := Byte.x00.
Definition nl : byte := Byte.x0a.
Definition cr : byte := Byte.x0d.

(** ** Lengths and slices

    Sizes and offsets are [Z] in the code, so the list operations take [Z]
    and never build a large unary number: every count is first bounded by the
    length of the list. *)

Definition zlen {A} (l : list A) : Z := Z.of_nat (length l).
Definition ztake {A} (n : Z) (l : list A) : list A := take (Z.to_nat (Z.min n (zlen l))) l.
Definition zdrop {A} (n : Z) (l : list A) : list A := drop (Z.to_nat (Z.min n (zlen l))) l.
Definition zrepeat {A} (n : Z) (a : A) : list A := replicate (Z.to_nat n) a.
Definition zlookup {A} (l : list A) (i : Z) : option A :=
  if (i <? 0) || (zlen l <=? i) then None else l !! Z.to_nat i.

Section slices.
Context {A : Type}.
Implicit Types (l k : list A).

Lemma zlen_nonneg l : 0 <= zlen l. Proof. unfold zlen; lia. Qed.
Lemma zlen_nil : zlen (@nil A) = 0. Proof. done. Qed.
Lemma zlen_cons a l : zlen (a :: l) = zlen l + 1.
Proof. unfold zlen. simpl. lia. Qed.
Lemma zlen_app l k : zlen (l ++ k) = zlen l + zlen k.
Proof. unfold zlen. rewrite length_app. lia. Qed.
Lemma zlen_repeat n (a : A) : 0 <= n -> zlen (zrepeat n a) = n.
Proof. intros. unfold zlen, zrepeat. rewrite length_replicate. lia. Qed.
Lemma ztake_nat n l : 0 <= n -> ztake n l = take (Z.to_nat n) l.
Proof.
  intros. unfold ztake, zlen. destruct (Z.le_ge_cases n (Z.of_nat (length l))).
  - rewrite Z.min_l by lia. done.
  - rewrite Z.min_r, Nat2Z.id by lia. rewrite !take_ge; [done|lia..].
Qed.
Lemma zdrop_nat n l : 0 <= n -> zdrop n l = drop (Z.to_nat n) l.
Proof.
  intros. unfold zdrop, zlen. destruct (Z.le_ge_cases n (Z.of_nat (length l))).
  - rewrite Z.min_l by lia. done.
  - rewrite Z.min_r, Nat2Z.id by lia. rewrite !drop_ge; [done|lia..].
Qed.
Lemma zlen_take n l : 0 <= n -> zlen (ztake n l) = Z.min n (zlen l).
Proof. intros. rewrite ztake_nat by done. unfold zlen. rewrite length_take. lia. Qed.
Lemma zlen_drop n l : 0 <= n -> zlen (zdrop n l) = Z.max 0 (zlen l - n).
Proof. intros. rewrite zdrop_nat by done. unfold zlen. rewrite length_drop. lia. Qed.
Lemma length_ztake n l : (length (ztake n l) <= length l)%nat.
Proof. unfold ztake. rewrite length_take. lia. Qed.
Lemma ztake_all n l : zlen l <= n -> ztake n l = l.
Proof. intros. unfold ztake. rewrite Z.min_r by done. apply take_ge. unfold zlen; lia. Qed.
Lemma zdrop_all n l : zlen l <= n -> zdrop n l = [].
Proof. intros. unfold zdrop. rewrite Z.min_r by done. apply drop_ge. unfold zlen; lia. Qed.
Lemma ztake_drop n l : ztake n l ++ zdrop n l = l.
Proof. apply take_drop. Qed.
Lemma ztake_app l k : ztake (zlen l) (l ++ k) = l.
Proof.
  rewrite ztake_nat by apply zlen_nonneg. unfold zlen. rewrite Nat2Z.id.
  apply take_app_length.
Qed.
Lemma zdrop_app l k : zdrop (zlen l) (l ++ k) = k.
Proof.
  rewrite zdrop_nat by apply zlen_nonneg. unfold zlen. rewrite Nat2Z.id.
  apply drop_app_length.
Qed.
Lemma zlookup_nat l i : 0 <= i -> zlookup l i = l !! Z.to_nat i.
Proof.
  intros. unfold zlookup. rewrite (proj2 (Z.ltb_ge i 0)) by done. simpl.
  destruct (Z.leb_spec (zlen l) i); [|done].
  symmetry. apply lookup_ge_None. unfold zlen in *. lia.
Qed.
Lemma zlookup_Some l i a : zlookup l i = Some a -> 0 <= i < zlen l.
Proof.
  unfold zlookup. destruct (i <? 0) eqn:?, (zlen l <=? i) eqn:?; simpl; try done.
  bool_to_prop. lia.
Qed.
Lemma zlookup_is_Some l i : 0 <= i < zlen l -> is_Some (zlookup l i).
Proof.
  intros. rewrite zlookup_nat by lia. apply lookup_lt_is_Some. unfold zlen in *. lia.
Qed.
Lemma zlookup_None l i : zlookup l i = None <-> ~ (0 <= i < zlen l).
Proof.
  split.
  - intros E H. destruct (zlookup_is_Some l i H). congruence.
  - intros H. destruct (zlookup l i) eqn:E; [|done]. apply zlookup_Some in E. lia.
Qed.
End slices.

Create HintDb sawa.
Create Rewrite HintDb zlen.
Create Rewrite HintDb slices.
#[export] Hint Resolve zlen_nonneg u32_range s32_range b2z_range : sawa.
#[export] Hint Rewrite @zlen_nil @zlen_cons @zlen_app : zlen.
#[export] Hint Rewrite @ztake_app @zdrop_app @app_nil_r : slices.

Ltac zlen_pose :=
  repeat match goal with
  | |- context [zlen ?l] => lazymatch goal with
      | _ : 0 <= zlen l |- _ => fail
      | _ => pose proof (zlen_nonneg l) end
  | _ : context [zlen ?l] |- _ => lazymatch goal with
      | _ : 0 <= zlen l |- _ => fail
      | _ => pose proof (zlen_nonneg l) end
  end.
Ltac zlen_solve := autorewrite with zlen in *; zlen_pose; lia.

(** ** Little-endian integers *)

Fixpoint le_encode (n : nat) (z : Z) : bytes :=
  match n with
  | O => []
  | S n => z2b z :: le_encode n (z / 256)
  end.
Fixpoint le_decode (l : bytes) : Z :=
  match l with
  | [] => 0
  | b :: l => b2z b + 256 * le_decode l
  end.

(** The memory representation of a [uint32_t] and of an [int]. *)
Definition put_u32 (z : Z) : bytes := le_encode 4 z.
Definition get_u32 (l : bytes) : Z := le_decode (take 4 l).

Arguments put_u32 : simpl never.
Arguments get_u32 : simpl never.

Lemma length_le_encode n z : length (le_encode n z) = n.
Proof. revert z. induction n; intros; simpl; auto. Qed.
Lemma zlen_put_u32 z : zlen (put_u32 z) = 4.
Proof. done. Qed.
Lemma le_decode_range l : 0 <= le_decode l < 256 ^ zlen l.
Proof.
  induction l as [|b l IH]; [done|]. rewrite zlen_cons, Z.pow_add_r by zlen_solve.
  simpl. pose proof (b2z_range b). lia.
Qed.
Lemma le_decode_encode n z : le_decode (le_encode n z) = z mod 256 ^ Z.of_nat n.
Proof.
  revert z. induction n as [|n IH]; intros z; [by rewrite Z.mod_1_r|].
  cbn [le_encode le_decode]. rewrite IH, b2z_z2b.
  rewrite Nat2Z.inj_succ, Z.pow_succ_r by lia.
  rewrite Z.rem_mul_r by lia. done.
Qed.
Lemma le_encode_decode l : le_encode (length l) (le_decode l) = l.
Proof.
  induction l as [|b l IH]; [done|]. cbn [length le_decode le_encode].
  pose proof (b2z_range b).
  replace ((b2z b + 256 * le_decode l) / 256) with (le_decode l)
    by (rewrite (Z.mul_comm 256), Z.div_add by lia; rewrite Z.div_small; lia).
  rewrite IH. f_equal. rewrite <-z2b_mod, (Z.mul_comm 256), Z_mod_plus_full.
  rewrite z2b_mod. apply z2b_b2z.
Qed.
Lemma get_put_u32 z l : get_u32 (put_u32 z ++ l) = u32 z.
Proof. unfold get_u32. apply (le_decode_encode 4). Qed.
Lemma get_u32_range l : is_u32 (get_u32 l).
Proof.
  unfold get_u32, is_u32. pose proof (le_decode_range (take 4 l)) as [? Hlt].
  split; [done|]. eapply Z.lt_le_trans; [exact Hlt|].
  change (2 ^ 32) with (256 ^ 4). apply Z.pow_le_mono_r; [lia|].
  unfold zlen. rewrite length_take. lia.
Qed.
Lemma put_get_u32 l : length l = 4%nat -> put_u32 (get_u32 l) = l.
Proof. intros E. unfold put_u32, get_u32. rewrite take_ge by lia. rewrite <-E. apply le_encode_decode. Qed.
Lemma put_u32_inj a b : put_u32 a = put_u32 b -> u32 a = u32 b.
Proof. intros E. rewrite <-(get_put_u32 a []), E. apply get_put_u32. Qed.
#[export] Hint Rewrite zlen_put_u32 : zlen.
