(* ===== verification/CStd.v ===== *)
(** * The parts of the C library, of stdio and of the socket API the sources use

    Character classes and string functions over memory (a [list] of bytes
    starting at the pointer; a read past its end is [Undef]), decimal and
    hexadecimal printing, a [FILE] opened for update, heap memory whose
    contents are not initialised, and a connected stream socket. *)

From S2P Require Import Prelude.

(** ** ctype.h in the C locale *)

Definition isdigit (b : byte) : bool := (48 <=? b2z b) && (b2z b <=? 57).
Definition isupper (b : byte) : bool := (65 <=? b2z b) && (b2z b <=? 90).
Definition islower (b : byte) : bool := (97 <=? b2z b) && (b2z b <=? 122).
Definition isalpha (b : byte) : bool := isupper b || islower b.
Definition isalnum (b : byte) : bool := isalpha b || isdigit b.
Definition isspace (b : byte) : bool :=
  (b2z b =? 32) || ((9 <=? b2z b) && (b2z b <=? 13)).
Definition tolower (b : byte) : byte := if isupper b then z2b (b2z b + 32) else b.

(** ** Memory and C strings *)

(** [*(p + i)], where [p] points to the start of [m]. *)
Definition peek (m : bytes) (i : Z) : outcome byte := of_access (zlookup m i).

(** [*((uint32_t * )(p + i))]. *)
Definition peek_u32 (m : bytes) (i : Z) : outcome Z :=
  if (0 <=? i) && (i + 4 <=? zlen m) then Ret (get_u32 (zdrop i m)) else Undef.

(** The bytes of a string object: the text and its terminating NUL. *)
Definition cstr (s : bytes) : bytes := s ++ [nul].

(** The text a [char *] denotes: everything before the first NUL. *)
Fixpoint c_text (m : bytes) : outcome bytes :=
  match m with
  | [] => Undef
  | b :: m => if beqb b nul then Ret [] else t ← c_text m; Ret (b :: t)
  end.

Definition strlen (m : bytes) : outcome Z := t ← c_text m; Ret (zlen t).

(** [strncmp] and [strncasecmp] differ in the map applied to each byte; both
    stop after a NUL that the two strings share. *)
Section strncmp_with.
Variable fold_case : byte -> byte.
Fixpoint strncmp_with (s t : bytes) (n : nat) {struct n} : outcome Z :=
  match n with
  | O => Ret 0
  | S n =>
      match s, t with
      | a :: s, b :: t =>
          if beqb (fold_case a) (fold_case b) then
            if beqb a nul then Ret 0 else strncmp_with s t n
          else Ret (b2z (fold_case a) - b2z (fold_case b))
      | _, _ => Undef
      end
  end.
End strncmp_with.
Definition strncmp : bytes -> bytes -> nat -> outcome Z := strncmp_with (fun b => b).
Definition strncasecmp : bytes -> bytes -> nat -> outcome Z := strncmp_with tolower.

(** No byte of a text is the terminator. *)
Definition no_nul (s : bytes) : Prop := Forall (fun b => b <> nul) s.
#[export] Instance no_nul_dec s : Decision (no_nul s).
Proof. unfold no_nul. apply _. Defined.

Lemma c_text_cstr s r : no_nul s -> c_text (cstr s ++ r) = Ret s.
Proof.
  unfold cstr. induction 1 as [|b s Hb Hs IH]; [done|]. simpl in *.
  destruct (beqb_spec b nul); [done|]. by rewrite IH.
Qed.

Lemma tolower_nul b : tolower b = nul <-> b = nul.
Proof.
  split; [|by intros ->]. intros E.
  assert (b2z (tolower b) = 0) as Hz by by rewrite E.
  revert E Hz. unfold tolower, isupper. pose proof (b2z_range b).
  destruct (_ && _)%bool eqn:Hu; intros E Hz; [|done].
  bool_to_prop. rewrite b2z_z2b_small in Hz; lia.
Qed.

(** [strncmp_with] answers zero exactly when the second text is a prefix of
    the first, up to case folding. *)
Fixpoint prefix_with (f : byte -> byte) (p s : bytes) : bool :=
  match p, s with
  | [], _ => true
  | a :: p, b :: s => beqb (f a) (f b) && prefix_with f p s
  | _ :: _, [] => false
  end.

Lemma strncmp_with_prefix f (m p : bytes) :
  (forall b, f b = nul <-> b = nul) -> no_nul p -> nul ∈ m ->
  exists z, strncmp_with f m (cstr p) (length p) = Ret z /\
            (z = 0 <-> prefix_with f p m = true).
Proof.
  intros Hf Hp. revert m. induction Hp as [|b p Hb Hp IH]; intros m Hm; [by exists 0|].
  destruct m as [|a m]; [by apply not_elem_of_nil in Hm|]. simpl.
  destruct (beqb_spec (f a) (f b)) as [E|E].
  - destruct (beqb_spec a nul) as [->|Ha].
    { exfalso. apply Hb, Hf. rewrite <-E. by apply Hf. }
    assert (nul ∈ m) as Hm' by (apply elem_of_cons in Hm as [?|?]; [congruence|done]).
    destruct (IH m Hm') as (z & Hz & Hiff).
    exists z. split; [done|]. by rewrite E, beqb_refl.
  - eexists; split; [done|]. destruct (beqb_spec (f b) (f a)) as [E'|_]; [by rewrite E' in E|].
    split; [|done]. intros E'. exfalso. apply E, b2z_inj. lia.
Qed.

(** ** Number formatting *)

(** [std::to_string] of a nonnegative number: decimal digits, most significant
    first. The fuel is the number of digits available, never reached. *)
Fixpoint digits_go (base : Z) (fuel : nat) (n : Z) (acc : list Z) : list Z :=
  match fuel with
  | O => acc
  | S fuel =>
      let acc := (n mod base) :: acc in
      if n / base =? 0 then acc else digits_go base fuel (n / base) acc
  end.
Definition digits (base n : Z) : list Z := digits_go base (S (Z.to_nat (Z.log2 n))) n [].
Definition digit_char (d : Z) : byte := if d <? 10 then z2b (48 + d) else z2b (87 + d).
Definition to_decimal (n : Z) : bytes :=
  if n <? 0 then bs "-" ++ map digit_char (digits 10 (- n)) else map digit_char (digits 10 n).
Definition to_hex (n : Z) : bytes := map digit_char (digits 16 n).
(** [setfill('0') << setw(w) << hex]. *)
Definition hex_width (w : Z) (n : Z) : bytes :=
  let h := to_hex n in zrepeat (w - zlen h) (z2b 48) ++ h.

(** The value a digit string denotes. *)
Definition undigits (base : Z) (l : list Z) : Z := fold_left (fun acc d => acc * base + d) l 0.

Lemma undigits_go base fuel n acc :
  1 < base -> 0 <= n -> n < base ^ Z.of_nat fuel ->
  fold_left (fun a d => a * base + d) (digits_go base fuel n acc) 0 =
  fold_left (fun a d => a * base + d) acc n.
Proof.
  intros Hb. revert n acc. induction fuel as [|fuel IH]; intros n acc Hn Hlt.
  - simpl in *. assert (n = 0) as -> by lia. done.
  - cbn [digits_go]. destruct (Z.eqb_spec (n / base) 0) as [E|E].
    + simpl. rewrite Z.mod_small; [done|]. apply Z.div_small_iff in E; lia.
    + rewrite IH.
      * simpl. f_equal. rewrite (Z.mul_comm (n / base)). symmetry. apply Z.div_mod. lia.
      * apply Z.div_pos; lia.
      * apply Z.div_lt_upper_bound; [lia|]. rewrite <-Z.pow_succ_r by lia.
        replace (Z.succ (Z.of_nat fuel)) with (Z.of_nat (S fuel)) by lia. done.
Qed.

Lemma undigits_digits base n : 1 < base -> 0 <= n -> undigits base (digits base n) = n.
Proof.
  intros Hb Hn. unfold undigits, digits. rewrite undigits_go; [done|done|done|].
  rewrite Nat2Z.inj_succ, Z2Nat.id by apply Z.log2_nonneg.
  destruct (Z.eq_dec n 0) as [->|]; [apply Z.pow_pos_nonneg; simpl; lia|].
  eapply Z.lt_le_trans; [apply Z.log2_spec; lia|].
  apply Z.pow_le_mono_l. lia.
Qed.

Lemma digits_go_range base fuel n acc :
  1 < base -> Forall (fun d => 0 <= d < base) acc ->
  Forall (fun d => 0 <= d < base) (digits_go base fuel n acc).
Proof.
  intros Hb. revert n acc. induction fuel as [|fuel IH]; intros n acc Ha; [done|]. simpl.
  assert (Forall (fun d => 0 <= d < base) (n mod base :: acc)).
  { constructor; [apply Z.mod_pos_bound; lia|done]. }
  destruct (_ =? _); auto.
Qed.
Lemma digits_range base n : 1 < base -> Forall (fun d => 0 <= d < base) (digits base n).
Proof. intros. apply digits_go_range; [done|constructor]. Qed.

Lemma digits_go_length base fuel : forall n acc, (length acc + Nat.min fuel 1 <= length (digits_go base fuel n acc) <= length acc + fuel)%nat.
Proof.
  induction fuel as [|fuel IH]; intros n acc; cbn [digits_go]; [lia|].
  destruct (n / base =? 0); [cbn; lia|]. specialize (IH (n / base) (n mod base :: acc)). cbn in IH. lia.
Qed.
Lemma digits_length base n : (1 <= length (digits base n) <= S (Z.to_nat (Z.log2 n)))%nat.
Proof. pose proof (digits_go_length base (S (Z.to_nat (Z.log2 n))) n []) as Hl. unfold digits. cbn [length] in Hl. lia. Qed.

(** A number has as many digits as powers of the base below it. *)
Lemma digits_go_exact base k : forall fuel n acc, 1 < base -> (k < fuel)%nat ->
  n < base ^ (Z.of_nat k + 1) -> (k = O /\ 0 <= n \/ base ^ Z.of_nat k <= n) -> length (digits_go base fuel n acc) = (length acc + S k)%nat.
Proof.
  induction k as [|k IH]; intros fuel n acc Hb Hf Hn Hk; (destruct fuel as [|fuel]; [lia|]); cbn [digits_go].
  - change (Z.of_nat 0) with 0 in *. rewrite Z.add_0_l, Z.pow_1_r in Hn. rewrite Z.pow_0_r in Hk.
    rewrite Z.div_small by lia. rewrite Z.eqb_refl. cbn [length]. lia.
  - destruct Hk as [[? _]|Hk]; [lia|]. replace (Z.of_nat (S k)) with (Z.of_nat k + 1) in * by lia.
    rewrite Z.pow_add_r, Z.pow_1_r in Hk by lia. replace (Z.of_nat k + 1 + 1) with (Z.succ (Z.of_nat k + 1)) in Hn by lia.
    rewrite Z.pow_succ_r in Hn by lia. assert (base ^ Z.of_nat k <= n / base) as Hd by (apply Z.div_le_lower_bound; lia).
    assert (0 < base ^ Z.of_nat k) by (apply Z.pow_pos_nonneg; lia).
    rewrite (proj2 (Z.eqb_neq (n / base) 0)) by lia. rewrite IH; [cbn; lia|done|lia|apply Z.div_lt_upper_bound; lia|by right].
Qed.
Lemma digits_exact base n k : 1 < base -> base ^ Z.of_nat k <= n < base ^ (Z.of_nat k + 1) -> length (digits base n) = S k.
Proof.
  intros Hb [H1 H2]. unfold digits. rewrite (digits_go_exact base k); [done|done| |done|by right].
  assert (2 ^ Z.of_nat k <= n) as Hlog by (transitivity (base ^ Z.of_nat k); [apply Z.pow_le_mono_l; lia|done]).
  assert (0 < 2 ^ Z.of_nat k) by (apply Z.pow_pos_nonneg; lia). apply Z.log2_le_pow2 in Hlog; lia.
Qed.
Lemma undigits_app base l1 l2 : undigits base (l1 ++ l2) = undigits base l1 * base ^ Z.of_nat (length l2) + undigits base l2.
Proof.
  unfold undigits. induction l2 as [|d l2 IH] using rev_ind; [rewrite !app_nil_r; cbn; lia|].
  rewrite app_assoc, (fold_left_app _ (l1 ++ l2)), IH, (fold_left_app _ l2), length_app. cbn [fold_left length].
  replace (Z.of_nat (length l2 + 1)) with (Z.succ (Z.of_nat (length l2))) by lia. rewrite Z.pow_succ_r by lia. lia.
Qed.
Lemma undigits_zeros base n : undigits base (repeat 0 n) = 0.
Proof. unfold undigits. induction n as [|n IH]; [done|]. cbn. by rewrite Z.add_0_r. Qed.

(** [atoi]-style reading of the digits, used to state what a printed number
    denotes. *)
Definition digit_value (b : byte) : Z := if isdigit b then b2z b - 48 else b2z b - 87.
Definition of_decimal (s : bytes) : Z := undigits 10 (map digit_value s).

Lemma digit_value_char d : 0 <= d < 16 -> digit_value (digit_char d) = d.
Proof.
  intros. unfold digit_value, digit_char, isdigit.
  destruct (Z.ltb_spec d 10); rewrite !b2z_z2b_small by lia.
  - rewrite (proj2 (Z.leb_le _ _)), (proj2 (Z.leb_le _ _)) by lia. simpl. lia.
  - rewrite (proj2 (Z.leb_le 48 _)), (proj2 (Z.leb_gt _ 57)) by lia. simpl. lia.
Qed.
Lemma of_to_decimal n : 0 <= n -> of_decimal (to_decimal n) = n.
Proof.
  intros Hn. unfold of_decimal, to_decimal. rewrite (proj2 (Z.ltb_ge n 0)) by done.
  rewrite map_map. rewrite <-(undigits_digits 10 n) at 2 by lia. unfold undigits.
  f_equal. rewrite <-(map_id (digits 10 n)) at 2. apply map_ext_in. intros d Hd.
  apply digit_value_char. pose proof (digits_range 10 n ltac:(lia)) as Hr.
  rewrite List.Forall_forall in Hr. specialize (Hr d Hd). lia.
Qed.
Lemma to_decimal_digits n : 0 <= n -> Forall (fun b => isdigit b = true) (to_decimal n).
Proof.
  intros Hn. unfold to_decimal. rewrite (proj2 (Z.ltb_ge n 0)) by done.
  apply Forall_map, (Forall_impl _ _ _ (digits_range 10 n ltac:(lia))).
  intros d Hd. unfold digit_char, isdigit, compose. rewrite (proj2 (Z.ltb_lt d 10)) by lia.
  rewrite b2z_z2b_small by lia.
  rewrite (proj2 (Z.leb_le _ _)), (proj2 (Z.leb_le _ _)) by lia. done.
Qed.

(** ** Heap memory that is not initialised

    [new uint8_t[n]] and the part of a buffer that a short read leaves
    untouched hold whatever the heap held.  The contents are a parameter of
    every definition that uses such memory. *)

Class Heap := { heap_byte : Z -> byte }.
Definition uninit `{Heap} (n : Z) : bytes := map (fun i => heap_byte (Z.of_nat i)) (seq 0 (Z.to_nat n)).
(** A buffer of [n] bytes whose first bytes are [data]. *)
Definition fill `{Heap} (n : Z) (data : bytes) : bytes := ztake n data ++ zdrop (zlen data) (uninit n).

(** A heap that happens to be zeroed: an instance for concrete runs. *)
Definition zero_heap : Heap := {| heap_byte _ := nul |}.

Lemma zlen_uninit `{Heap} n : 0 <= n -> zlen (uninit n) = n.
Proof. intros. unfold zlen, uninit. rewrite length_map, length_seq. lia. Qed.
Lemma zlen_fill `{Heap} n data : 0 <= n -> zlen (fill n data) = n.
Proof.
  intros. unfold fill. rewrite zlen_app, zlen_take, zlen_drop, zlen_uninit; zlen_solve.
Qed.
Lemma fill_exact `{Heap} n data : zlen data = n -> fill n data = data.
Proof.
  intros <-. unfold fill. rewrite ztake_all by lia.
  rewrite zdrop_all; [apply app_nil_r|]. rewrite zlen_uninit; zlen_solve.
Qed.
Lemma fill_prefix `{Heap} n data : zlen data <= n -> ztake (zlen data) (fill n data) = data.
Proof. intros. unfold fill. rewrite (ztake_all n) by done. apply ztake_app. Qed.

(** ** Files opened for update *)

Record FILE := mkFILE { f_data : bytes; f_pos : Z }.

(** The answers the operating system gives to one command: whether [fseek]
    succeeds, and how many bytes at most [fread] or [fwrite] transfers
    ([None] when the device imposes no limit). *)
Record io_fault := mkFault { seek_ok : bool; xfer_cap : option Z }.
Definition no_fault : io_fault := mkFault true None.

Definition cap_count (c : option Z) (n : Z) : Z :=
  match c with Some k => Z.max 0 (Z.min k n) | None => n end.

(** [fseek(fp, off, SEEK_SET)]. *)
Definition fseek (io : io_fault) (fp : FILE) (off : Z) : Z * FILE :=
  if seek_ok io then (0, mkFILE (f_data fp) off) else (-1, fp).

(** [fread(buf, 1, n, fp)]: the bytes read, at most up to the end of file. *)
Definition fread (io : io_fault) (fp : FILE) (n : Z) : bytes * FILE :=
  let data := ztake (cap_count (xfer_cap io) n) (zdrop (f_pos fp) (f_data fp)) in
  (data, mkFILE (f_data fp) (f_pos fp + zlen data)).

(** The bytes of a file after [data] has been stored at [off]; a gap after the
    old end of file reads as zero. *)
Definition store (file : bytes) (off : Z) (data : bytes) : bytes :=
  ztake off (file ++ zrepeat (off - zlen file) nul) ++ data ++ zdrop (off + zlen data) file.

(** [fwrite(buf, 1, n, fp)]: the number of bytes accepted. *)
Definition fwrite (io : io_fault) (fp : FILE) (data : bytes) : Z * FILE :=
  let data := ztake (cap_count (xfer_cap io) (zlen data)) data in
  match data with
  | [] => (0, fp)
  | _ => (zlen data, mkFILE (store (f_data fp) (f_pos fp) data) (f_pos fp + zlen data))
  end.

(** The bytes of a file at [[off, off + n)]. *)
Definition load (file : bytes) (off n : Z) : bytes := ztake n (zdrop off file).

Lemma cap_None n : cap_count None n = n. Proof. done. Qed.

Section files.
Implicit Types (file data : bytes).

Lemma zlen_load file off n :
  0 <= off -> 0 <= n -> off + n <= zlen file -> zlen (load file off n) = n.
Proof. intros. unfold load. rewrite zlen_take, zlen_drop by lia. lia. Qed.

Lemma store_within file off data :
  0 <= off -> off + zlen data <= zlen file ->
  store file off data = ztake off file ++ data ++ zdrop (off + zlen data) file.
Proof.
  intros. unfold store. f_equal. rewrite !ztake_nat by done.
  rewrite take_app_le; [done|]. unfold zlen in *. lia.
Qed.

Lemma zlen_store file off data :
  0 <= off -> off + zlen data <= zlen file -> zlen (store file off data) = zlen file.
Proof.
  intros. pose proof (zlen_nonneg data). rewrite store_within by done.
  rewrite !zlen_app, zlen_take, zlen_drop by lia. lia.
Qed.

Lemma lookup_load file off n i :
  0 <= off -> 0 <= i < n -> load file off n !! Z.to_nat i = file !! Z.to_nat (off + i).
Proof.
  intros. unfold load. rewrite ztake_nat, zdrop_nat by lia.
  rewrite lookup_take_lt by lia. rewrite lookup_drop. f_equal. lia.
Qed.

Lemma load_ext file file' off n :
  0 <= off -> 0 <= n -> off + n <= zlen file -> zlen file' = zlen file ->
  (forall i, off <= i < off + n -> file' !! Z.to_nat i = file !! Z.to_nat i) ->
  load file' off n = load file off n.
Proof.
  intros Hoff Hn Hle Hlen Heq. apply list_eq. intros i.
  destruct (decide (Z.of_nat i < n)) as [Hi|Hi].
  - replace i with (Z.to_nat (Z.of_nat i)) by lia.
    rewrite !lookup_load by lia. apply Heq. lia.
  - pose proof (zlen_load file off n) as L1. pose proof (zlen_load file' off n) as L2.
    unfold zlen in *. rewrite !(proj2 (lookup_ge_None _ _)); [done|lia..].
Qed.

Lemma lookup_store file off data i :
  0 <= off -> off + zlen data <= zlen file ->
  store file off data !! i =
    if decide (off <= Z.of_nat i < off + zlen data) then data !! (i - Z.to_nat off)%nat
    else file !! i.
Proof.
  intros Hoff Hle. pose proof (zlen_nonneg data). rewrite store_within by done.
  rewrite ztake_nat, zdrop_nat by lia. unfold zlen in *.
  assert (length (take (Z.to_nat off) file) = Z.to_nat off) as L by (rewrite length_take; lia).
  case_decide.
  - rewrite lookup_app_r by lia. rewrite L. rewrite lookup_app_l by lia. done.
  - destruct (decide (Z.of_nat i < off)).
    + rewrite lookup_app_l by lia. rewrite lookup_take_lt by lia. done.
    + rewrite lookup_app_r by lia. rewrite L. rewrite lookup_app_r by lia.
      rewrite lookup_drop. f_equal. lia.
Qed.

(** Reading back what was stored. *)
Lemma load_store_same file off data :
  0 <= off -> off + zlen data <= zlen file -> load (store file off data) off (zlen data) = data.
Proof.
  intros. pose proof (zlen_nonneg data). rewrite store_within by done. unfold load.
  assert (zlen (ztake off file) = off) as E by (rewrite zlen_take; lia).
  pose proof (zdrop_app (ztake off file) (data ++ zdrop (off + zlen data) file)) as P.
  rewrite E in P. rewrite P. apply ztake_app.
Qed.

(** A store leaves every disjoint range alone. *)
Lemma load_store_disjoint file off data off' n :
  0 <= off -> off + zlen data <= zlen file ->
  0 <= off' -> 0 <= n -> off' + n <= zlen file ->
  off' + n <= off \/ off + zlen data <= off' ->
  load (store file off data) off' n = load file off' n.
Proof.
  intros Hoff Hle Hoff' Hn Hle' Hdisj. apply load_ext; try lia.
  - by apply zlen_store.
  - intros i Hi. rewrite lookup_store by done. case_decide; [lia|done].
Qed.

(** Stores to disjoint ranges can be made in either order. *)
Lemma store_comm file off data off' data' :
  0 <= off -> off + zlen data <= zlen file -> 0 <= off' -> off' + zlen data' <= zlen file ->
  off' + zlen data' <= off \/ off + zlen data <= off' ->
  store (store file off data) off' data' = store (store file off' data') off data.
Proof.
  intros. pose proof (zlen_store file off data). pose proof (zlen_store file off' data').
  apply list_eq. intros i. rewrite !lookup_store by lia. repeat case_decide; try done; lia.
Qed.
End files.

(** Writing [data] at [off] in a heap block. *)
Definition poke (m : bytes) (off : Z) (data : bytes) : outcome bytes :=
  if (0 <=? off) && (off + zlen data <=? zlen m) then Ret (store m off data) else Undef.

Lemma poke_mid a b c data :
  zlen data = zlen b -> poke (a ++ b ++ c) (zlen a) data = Ret (a ++ data ++ c).
Proof.
  intros E. unfold poke. rewrite (proj2 (Z.leb_le 0 (zlen a))) by apply zlen_nonneg.
  rewrite (proj2 (Z.leb_le _ _)) by (rewrite !zlen_app; zlen_pose; lia). cbn [andb]. f_equal.
  rewrite store_within by (rewrite ?zlen_app; zlen_pose; lia). rewrite ztake_app, E. do 2 f_equal.
  rewrite app_assoc, <-zlen_app. apply zdrop_app.
Qed.

Lemma poke_prefix a b data :
  zlen data <= zlen b -> poke (a ++ b) (zlen a) data = Ret (a ++ data ++ zdrop (zlen data) b).
Proof.
  intros Hle. pose proof (zlen_nonneg data).
  rewrite <-(ztake_drop (zlen data) b) at 1. apply poke_mid. rewrite zlen_take by lia. lia.
Qed.

(** ** atoi

    [strtol] in base 10, clamped to 64 bits, then converted to [int]. *)
Fixpoint drop_spaces (s : bytes) : bytes :=
  match s with b :: s' => if isspace b then drop_spaces s' else s | [] => [] end.
Fixpoint take_digits (s : bytes) : bytes :=
  match s with b :: s' => if isdigit b then b :: take_digits s' else [] | [] => [] end.
Definition atoi (s : bytes) : Z :=
  let s := drop_spaces s in
  let (sign, s) :=
    match s with
    | b :: s' => if b2z b =? 45 then (-1, s') else if b2z b =? 43 then (1, s') else (1, s)
    | [] => (1, s)
    end in
  s32 (Z.max (- 2 ^ 63) (Z.min (2 ^ 63 - 1) (sign * of_decimal (take_digits s)))).

(** ** Stream sockets

    What the peer sends arrives as a sequence of segments; [read] returns at
    most one segment, blocks while none is there, returns 0 at the end of the
    stream and -1 on an error.  [write] on a blocking socket sends every
    byte. *)

Inductive rx_event := RxData (segment : bytes) | RxError.
Record sock := mkSock { rx : list rx_event; tx : bytes }.

#[export] Instance rx_event_eq_dec : EqDecision rx_event.
Proof. solve_decision. Defined.

Fixpoint sock_read_go (n : Z) (l : list rx_event) : option bytes * list rx_event :=
  match l with
  | [] => (Some [], [])
  | RxError :: l => (None, l)
  | RxData [] :: l => sock_read_go n l
  | RxData seg :: l =>
      (Some (ztake n seg), match zdrop n seg with [] => l | r => RxData r :: l end)
  end.

(** [read(fd, buf, n)]: [None] is -1. *)
Definition sock_read (n : Z) (s : sock) : option bytes * sock :=
  if n =? 0 then (Some [], s)
  else let (r, l) := sock_read_go n (rx s) in (r, mkSock l (tx s)).

(** [write(fd, buf, n)]. *)
Definition sock_write (data : bytes) (s : sock) : sock := mkSock (rx s) (tx s ++ data).

(** The bytes still to be read, with one unit for each error event: the
    measure of the loops that read a socket. *)
Fixpoint rx_size (l : list rx_event) : nat :=
  match l with
  | [] => 0
  | RxData seg :: l => length seg + rx_size l
  | RxError :: l => S (rx_size l)
  end.

Lemma sock_read_go_size n l r l' :
  0 < n -> sock_read_go n l = (r, l') ->
  match r with
  | Some d => (length d + rx_size l')%nat = rx_size l
  | None => (rx_size l' < rx_size l)%nat
  end.
Proof.
  intros Hn. revert r l'. induction l as [|[seg|] l IH]; simpl; intros r l' E.
  - by simplify_eq.
  - destruct seg as [|b seg]; [by apply IH|].
    injection E as <- <-. rewrite <-(ztake_drop n (b :: seg)) at 3. rewrite length_app.
    destruct (zdrop n (b :: seg)); simpl; lia.
  - simplify_eq. lia.
Qed.

Lemma sock_read_size n s r s' :
  0 < n -> sock_read n s = (r, s') ->
  match r with
  | Some d => (length d + rx_size (rx s'))%nat = rx_size (rx s)
  | None => (rx_size (rx s') < rx_size (rx s))%nat
  end.
Proof.
  unfold sock_read. intros Hn. destruct (Z.eqb_spec n 0); [lia|].
  destruct (sock_read_go n (rx s)) as [r0 l] eqn:E. intros [= -> <-].
  by apply (sock_read_go_size n).
Qed.
Lemma sock_read_tx n s r s' : sock_read n s = (r, s') -> tx s' = tx s.
Proof.
  unfold sock_read. destruct (_ =? _); [by intros [= _ <-]|].
  destruct (sock_read_go n (rx s)). by intros [= _ <-].
Qed.

(** Reading a segment that fits. *)
Lemma sock_read_whole n d l out :
  0 < n -> d <> [] -> zlen d <= n -> sock_read n (mkSock (RxData d :: l) out) = (Some d, mkSock l out).
Proof.
  intros Hn Hne Hd. unfold sock_read. destruct (Z.eqb_spec n 0); [lia|]. destruct d as [|b d]; [done|]. cbn [rx sock_read_go tx].
  by rewrite ztake_all, zdrop_all by done.
Qed.

(** Reading a message that lies at the front of the current segment. *)
Lemma sock_read_front n data rest l out :
  0 < n -> zlen data = n ->
  sock_read n (mkSock (RxData (data ++ rest) :: l) out) =
    (Some data, mkSock (match rest with [] => l | _ => RxData rest :: l end) out).
Proof.
  intros Hn <-. unfold sock_read. destruct (Z.eqb_spec (zlen data) 0); [lia|]. simpl.
  destruct (data ++ rest) as [|b s] eqn:E.
  { destruct data; [done|discriminate]. }
  rewrite <-E, ztake_app, zdrop_app. by destruct rest.
Qed.
