(* ===== verification/Util.v ===== *)
(** * Diagnostics and text search: server/util.cpp

    [Util::strnCaseStr] (used by the HTTP server to look for the
    [Connection: Keep-Alive] header), [Util::dumpMem] (the hexadecimal dump of
    the debug mode) and [Util::displayError]. *)

From S2P Require Import Prelude CStd.

Module Util.

(** ** strnCaseStr *)

(** The two nested loops: [m] is the memory from the current [s], [i] the
    distance already covered, [find] and [len] the rest of the pattern and its
    length. *)
Fixpoint scan (c : byte) (find : bytes) (len : nat) (i max : Z) (m : bytes) : outcome Z :=
  match m with
  | [] => Undef
  | sc :: s =>
      if max <=? i + 1 then Ret 0
      else if negb (beqb (tolower sc) c) then scan c find len (i + 1) max s
      else r ← strncasecmp s find len;
           if negb (r =? 0) then scan c find len (i + 1) max s else Ret 1
  end.

Definition strnCaseStr (s find : bytes) (max : Z) : outcome Z :=
  match find with
  | [] => Undef
  | c :: find =>
      if negb (beqb c nul) then
        len ← strlen find; scan (tolower c) find (Z.to_nat len) 0 max s
      else Ret 1
  end.

(** What the function promises: the pattern occurs, up to case, at one of the
    first [max - 1] positions. *)
Fixpoint occurs_below (p : bytes) (n : nat) (m : bytes) : bool :=
  match n, m with
  | S n, _ :: m' => prefix_with tolower p m || occurs_below p n m'
  | _, _ => false
  end.

Definition caseless_occurs (m find : bytes) (max : Z) : bool :=
  match find with [] => true | _ => occurs_below find (Z.to_nat (max - 1)) m end.

Lemma scan_correct c p i max m1 m2 :
  c <> nul -> no_nul p -> max - 1 <= i + zlen m1 ->
  scan (tolower c) (cstr p) (length p) i max (m1 ++ nul :: m2) =
  Ret (if occurs_below (c :: p) (Z.to_nat (max - 1 - i)) (m1 ++ nul :: m2) then 1 else 0).
Proof.
  intros Hc Hp. revert i. induction m1 as [|a m1 IH]; intros i Hlen.
  - rewrite zlen_nil in Hlen. simpl. rewrite (proj2 (Z.leb_le _ _)) by lia.
    by replace (Z.to_nat (max - 1 - i)) with O by lia.
  - rewrite zlen_cons in Hlen. cbn [app scan]. destruct (Z.leb_spec max (i + 1)).
    { by replace (Z.to_nat (max - 1 - i)) with O by lia. }
    replace (Z.to_nat (max - 1 - i)) with (S (Z.to_nat (max - 1 - (i + 1)))) by lia.
    cbn [occurs_below prefix_with].
    destruct (beqb_spec (tolower a) (tolower c)) as [E|E]; simpl.
    + destruct (strncmp_with_prefix tolower (m1 ++ nul :: m2) p) as (z & Hz & Hiff).
      { apply tolower_nul. } { done. } { set_solver. }
      unfold strncasecmp. rewrite Hz. simpl. rewrite E, beqb_refl. simpl.
      destruct (Z.eqb_spec z 0) as [Ez|Ez]; simpl.
      * by rewrite (proj1 Hiff Ez).
      * destruct (prefix_with _ _ _); [by destruct Ez; apply Hiff|]. apply IH. lia.
    + destruct (beqb_spec (tolower c) (tolower a)) as [E'|_]; [by rewrite E' in E|].
      apply IH. lia.
Qed.

Lemma strnCaseStr_correct (m1 m2 find : bytes) (max : Z) :
  no_nul find -> max - 1 <= zlen m1 ->
  strnCaseStr (m1 ++ nul :: m2) (cstr find) max =
  Ret (if caseless_occurs (m1 ++ nul :: m2) find max then 1 else 0).
Proof.
  intros Hp Hmax. destruct Hp as [|c p Hc Hp]; [done|].
  unfold strnCaseStr. cbn [cstr app].
  destruct (beqb_spec c nul); [done|]. cbn [negb].
  unfold strlen. fold (cstr p). pose proof (c_text_cstr p [] Hp) as E.
  rewrite app_nil_r in E. rewrite E. cbn [mbind outcome_bind].
  unfold zlen at 1. rewrite Nat2Z.id.
  rewrite scan_correct by (done || lia). unfold caseless_occurs.
  by replace (max - 1 - 0) with (max - 1) by lia.
Qed.

(** on a buffer whose bytes up to [max - 1] are readable and are followed
    by a NUL, the search is defined and answers exactly whether the pattern
    occurs, up to case, before position [max - 1]. *)
Theorem strnCaseStr_spec (m1 m2 find : bytes) (max : Z) :
  no_nul find -> max - 1 <= zlen m1 ->
  strnCaseStr (m1 ++ nul :: m2) (cstr find) max =
  Ret (if caseless_occurs (m1 ++ nul :: m2) find max then 1 else 0).
Proof. apply strnCaseStr_correct. Qed.

Lemma strnCaseStr_spec_witness :
  no_nul (bs "Keep-Alive") /\
  strnCaseStr (cstr (bs "This is a test KEEP-ALIVE")) (cstr (bs "Keep-Alive")) 25 = Ret 1.
Proof.
  split; [vm_compute; repeat constructor; discriminate|].
  etransitivity.
  - apply (strnCaseStr_spec (bs "This is a test KEEP-ALIVE") [] (bs "Keep-Alive") 25).
    + vm_compute. repeat constructor; discriminate.
    + vm_compute. discriminate.
  - vm_compute. reflexivity.
Defined.

(** the two unit tests of server/test.cpp.  The first call finds the
    pattern.  The second one passes a bound (30) larger than the 26 bytes of
    the string object: the scan ignores the terminating NUL and leaves the
    object. *)
Theorem strnCaseStr_unit_tests :
  strnCaseStr (cstr (bs "This is a test KEEP-ALIVE")) (cstr (bs "Keep-Alive")) 30 = Ret 1 /\
  strnCaseStr (cstr (bs "This is a test KEEP-ALVIE")) (cstr (bs "Keep-Alive")) 30 = Undef.
Proof. split; vm_compute; reflexivity. Qed.

(** ** dumpMem *)

(** [char ascii[256]]: printable characters stand for themselves. *)
Definition ascii : bytes :=
  replicate 32 (z2b 46) ++ map (fun i => z2b (Z.of_nat i)) (seq 32 95) ++ replicate 129 (z2b 46).

Definition spaces (n : nat) : bytes := replicate n (z2b 32).

(** One row: the columns [i..15] of the row, the position [j], the characters
    collected and the text printed so far.  [inl]: the function returns inside
    the row; [inr]: the row is complete. *)
Fixpoint dump_cols (addr : bytes) (size : Z) (cols i : nat) (j : Z) (row out : bytes)
  : outcome (bytes + (Z * bytes * bytes)) :=
  match cols with
  | O => Ret (inr (j, row, out))
  | S cols =>
      if size <=? j then
        Ret (inl (out ++ concat (replicate (S cols) (spaces 3)) ++ spaces 3 ++ row ++ [nl]))
      else
        bj ← peek addr j;
        bi ← peek addr (Z.of_nat i);
        a ← peek ascii (b2z bj);
        dump_cols addr size cols (S i) (j + 1) (<[i := a]> row)
          (out ++ spaces 1 ++ hex_width 2 (b2z bi))
  end.

(** The outer loop; [fuel] bounds the number of rows. *)
Fixpoint dump_rows (fuel : nat) (addr : bytes) (size j : Z) (out : bytes) : outcome bytes :=
  match fuel with
  | O => Undef
  | S fuel =>
      if size <=? j then Ret out
      else
        r ← dump_cols addr size 16 0 j (spaces 16) (out ++ spaces 1 ++ hex_width 4 j);
        match r with
        | inl out => Ret out
        | inr (j, row, out) => dump_rows fuel addr size j (out ++ spaces 3 ++ row ++ [nl])
        end
  end.

Definition dumpMem (debug_flag : bool) (addr : bytes) (size : Z) : outcome bytes :=
  if negb debug_flag then Ret [] else dump_rows (S (Z.to_nat size)) addr size 0 [].

(** What the rows look like.  Row [r] prints the offset, then for each of its
    [n] columns the value of the byte in that column {e of the first row}, then
    the characters of the row itself. *)
Definition ascii_of (b : byte) : byte := default nul (ascii !! Z.to_nat (b2z b)).
Definition hex_col (b : byte) : bytes := spaces 1 ++ hex_width 2 (b2z b).
Definition row_text (off : nat) (hex chars : bytes) : bytes :=
  spaces 1 ++ hex_width 4 (Z.of_nat off) ++ concat (map hex_col hex) ++
  concat (replicate (16 - length chars) (spaces 3)) ++ spaces 3 ++
  map ascii_of chars ++ spaces (16 - length chars) ++ [nl].

Fixpoint rows_text (first : bytes) (fuel off : nat) (rest : bytes) : bytes :=
  match fuel with
  | O => []
  | S fuel =>
      match rest with
      | [] => []
      | _ => let chars := take 16 rest in
             row_text off (take (length chars) first) chars ++
             rows_text first fuel (off + 16) (drop 16 rest)
      end
  end.

(** The text the dump prints for the bytes [d]. *)
Definition dump_text (d : bytes) : bytes := rows_text d (S (length d)) 0 d.

Lemma peek_ascii b : peek ascii (b2z b) = Ret (ascii_of b).
Proof. destruct b; reflexivity. Qed.

Lemma peek_nat (m : bytes) (i : nat) b : m !! i = Some b -> peek m (Z.of_nat i) = Ret b.
Proof. intros E. unfold peek. by rewrite zlookup_nat, Nat2Z.id, E by lia. Qed.

Lemma take_S_drop {A} (l : list A) i n a :
  l !! i = Some a -> take (S n) (drop i l) = a :: take n (drop (S i) l).
Proof. intros E. by rewrite (drop_S _ _ _ E). Qed.

Lemma insert_row (row : bytes) i (a : byte) (w : bytes) n :
  (i + S n <= length row)%nat -> length w = n ->
  take (S i) (<[i := a]> row) ++ w ++ drop (S i + n) (<[i := a]> row) =
  take i row ++ (a :: w) ++ drop (i + S n) row.
Proof.
  intros Hi Hw. rewrite (take_S_r _ _ a) by (apply list_lookup_insert_eq; lia).
  rewrite take_insert_ge by lia. rewrite <-app_assoc. simpl.
  rewrite drop_insert_lt by lia. by replace (i + S n)%nat with (S (i + n)) by lia.
Qed.

Lemma dump_cols_spec addr size cols : forall i j row out n,
  (i + cols = 16)%nat -> length row = 16%nat -> (i <= j <= size)%nat ->
  (size <= length addr)%nat -> n = Nat.min cols (size - j) ->
  dump_cols addr (Z.of_nat size) cols i (Z.of_nat j) row out =
  let hex := concat (map hex_col (take n (drop i addr))) in
  let row' := take i row ++ map ascii_of (take n (drop j addr)) ++ drop (i + n) row in
  Ret (if decide (n = cols) then inr (Z.of_nat (j + n), row', out ++ hex)
       else inl (out ++ hex ++ concat (replicate (cols - n) (spaces 3)) ++ spaces 3 ++ row' ++ [nl])).
Proof.
  induction cols as [|cols IH]; intros i j row out n Hi Hrow Hj Hsz Hn.
  - subst n. simpl. rewrite app_nil_r, !Nat.add_0_r, take_drop. done.
  - cbn [dump_cols]. destruct (Z.leb_spec (Z.of_nat size) (Z.of_nat j)).
    + assert (n = 0%nat) as -> by lia. rewrite decide_False by lia. simpl.
      rewrite Nat.add_0_r, take_drop. done.
    + destruct (lookup_lt_is_Some_2 addr j) as [bj Ej]; [lia|].
      destruct (lookup_lt_is_Some_2 addr i) as [bi Ei]; [lia|].
      rewrite (peek_nat _ _ _ Ej), (peek_nat _ _ _ Ei). cbn [mbind outcome_bind].
      rewrite peek_ascii. cbn [mbind outcome_bind].
      destruct n as [|n]; [lia|]. rewrite (take_S_drop _ _ n _ Ei), (take_S_drop _ _ n _ Ej).
      replace (Z.of_nat j + 1) with (Z.of_nat (S j)) by lia.
      rewrite (IH (S i) (S j) _ _ n) by (try rewrite length_insert; lia).
      cbv zeta. rewrite (insert_row row i (ascii_of bj) (map ascii_of (take n (drop (S j) addr))) n)
        by (rewrite ?length_map, ?length_take, ?length_drop; lia).
      cbn [map concat]. unfold hex_col at 1 2. rewrite <-!app_assoc.
      replace (S cols - S n)%nat with (cols - n)%nat by lia.
      destruct (decide (n = cols)), (decide (S n = S cols)); try lia; do 2 f_equal.
      do 2 f_equal. lia.
Qed.

Lemma chars_of_row (addr : bytes) (size j n : nat) :
  n = Nat.min 16 (size - j) -> take 16 (drop j (take size addr)) = take n (drop j addr).
Proof. intros ->. by rewrite skipn_firstn_comm, take_take. Qed.

Lemma rows_text_step first fuel off rest :
  rest <> [] ->
  rows_text first (S fuel) off rest =
  row_text off (take (length (take 16 rest)) first) (take 16 rest) ++
  rows_text first fuel (off + 16) (drop 16 rest).
Proof. by destruct rest. Qed.

Lemma dump_rows_spec fuel addr size j out :
  (j <= size + 16)%nat -> (size <= length addr)%nat -> (size - j < fuel)%nat ->
  dump_rows fuel addr (Z.of_nat size) (Z.of_nat j) out =
  Ret (out ++ rows_text (take size addr) fuel j (drop j (take size addr))).
Proof.
  revert j out. induction fuel as [|fuel IH]; intros j out Hj Hsz Hf; [lia|].
  cbn [dump_rows]. destruct (Z.leb_spec (Z.of_nat size) (Z.of_nat j)).
  { rewrite drop_ge by (rewrite length_take; lia). simpl. by rewrite app_nil_r. }
  assert (exists n, n = Nat.min 16 (size - j)) as [n Hn] by eauto.
  assert (length (take n (drop j addr)) = n) as Hlen by (rewrite length_take, length_drop; lia).
  rewrite (dump_cols_spec addr size 16 0 j _ _ n) by (done || lia). cbn [mbind outcome_bind].
  rewrite rows_text_step
    by (intros E; apply (f_equal length) in E; rewrite length_drop, length_take in E; simpl in E; lia).
  rewrite (chars_of_row _ _ _ _ Hn), Hlen. rewrite (take_take addr), Nat.min_l by lia.
  assert (drop n (spaces 16) = spaces (16 - n)) as Esp by apply drop_replicate.
  unfold row_text. rewrite Hlen. cbn [Nat.add take app]. rewrite Esp, drop_0.
  destruct (decide (n = 16%nat)) as [->|Hne].
  - rewrite IH by lia. rewrite drop_drop. cbn [concat replicate Nat.sub app spaces].
    rewrite <-!app_assoc. done.
  - rewrite <-!app_assoc. do 2 f_equal.
    rewrite (drop_ge (drop j (take size addr))) by (rewrite length_drop, length_take; lia).
    destruct fuel; simpl; rewrite ?app_nil_r; done.
Qed.

(** the dump terminates, reads only the [size] bytes it is given, and prints
    the rows described by [dump_text]. *)
Theorem dumpMem_spec (addr : bytes) (size : nat) :
  (size <= length addr)%nat ->
  dumpMem true addr (Z.of_nat size) = Ret (dump_text (take size addr)).
Proof.
  intros H. unfold dumpMem, dump_text. simpl negb. cbn match.
  rewrite Nat2Z.id, (dump_rows_spec (S size) addr size 0) by lia.
  rewrite length_take, Nat.min_l by lia. done.
Qed.

Lemma dumpMem_spec_witness :
  dumpMem true (bs "SaWa") 4 = Ret (bs " 0000 53 61 57 61                                       SaWa            " ++ [nl]).
Proof.
  etransitivity; [apply (dumpMem_spec (bs "SaWa") 4); simpl; lia|]. vm_compute. reflexivity.
Defined.

(** The dump a reader expects: the hexadecimal columns of a row show the bytes
    of that row. *)
Fixpoint expected_rows (fuel off : nat) (rest : bytes) : bytes :=
  match fuel with
  | O => []
  | S fuel =>
      match rest with
      | [] => []
      | _ => row_text off (take 16 rest) (take 16 rest) ++
             expected_rows fuel (off + 16) (drop 16 rest)
      end
  end.
Definition expected_dump (d : bytes) : bytes := expected_rows (S (length d)) 0 d.

Lemma dump_text_one_row d : (length d <= 16)%nat -> dump_text d = expected_dump d.
Proof.
  intros H. unfold dump_text, expected_dump. cbn [rows_text expected_rows].
  assert (take 16 d = d) as E1 by (by apply take_ge).
  assert (drop 16 d = []) as E2 by (by apply drop_ge).
  rewrite E1, E2, firstn_all. destruct d as [|b d]; done.
Qed.

(** the dump is the expected one for a buffer of at most one row, and is
    wrong from the second row on: the code prints [addr[i]] with [i] the column
    where [addr[j]] is meant, so every row repeats the first sixteen bytes. *)
Theorem dumpMem_repeats_first_row :
  (forall addr, (length addr <= 16)%nat ->
     dumpMem true addr (zlen addr) = Ret (expected_dump addr)) /\
  (let addr := replicate 16 (z2b 65) ++ [z2b 66] in
   dumpMem true addr 17 <> Ret (expected_dump addr)).
Proof.
  split.
  - intros addr H. unfold dumpMem, zlen. simpl negb. cbn match.
    rewrite Nat2Z.id, (dump_rows_spec (S (length addr)) addr (length addr) 0) by lia.
    rewrite firstn_all, drop_0. rewrite <-dump_text_one_row by done. done.
  - vm_compute. discriminate.
Qed.

(** ** displayError *)

Definition FAILURE_CREATE_SOCKET : Z := 256.
Definition FAILURE_BIND : Z := 257.
Definition FAILURE_ACCEPT : Z := 258.
Definition FAILURE_MUTEX_INIT : Z := 259.
Definition FAILURE_OPEN_FILE : Z := 260.

(** [debug_int] and [debug_str], set by the code that throws. *)
Record debug_info := { debug_int : Z; debug_str : bytes }.
Definition setDebugInt (i : Z) (d : debug_info) : debug_info :=
  {| debug_int := i; debug_str := debug_str d |}.
Definition setDebugStr (s : bytes) (d : debug_info) : debug_info :=
  {| debug_int := debug_int d; debug_str := s |}.

Definition displayError (d : debug_info) (failure_code : Z) : bytes :=
  (if failure_code =? FAILURE_CREATE_SOCKET then
     bs "Error: cannot create socket on port " ++ to_decimal (debug_int d)
   else if failure_code =? FAILURE_BIND then
     bs "Error: cannot bind socket on port " ++ to_decimal (debug_int d)
   else if failure_code =? FAILURE_ACCEPT then
     bs "Error: cannot accept incoming connection"
   else if failure_code =? FAILURE_MUTEX_INIT then
     bs "Error: cannot initialize mutex"
   else if failure_code =? FAILURE_OPEN_FILE then
     bs "Error: cannot open file '" ++ debug_str d ++ bs "' (error=" ++
     to_decimal (debug_int d) ++ bs ")"
   else bs "Error #" ++ to_decimal failure_code) ++ [nl].

End Util.
