(* ===== verification/UnitTest.v ===== *)
(** * The unit tests: server/test_helper.cpp and server/test.cpp

    [When] sets a variable of the test, [Then] compares a value with what is
    expected and prints the result.  The variables of the test are the store, by
    address. *)

From S2P Require Import Prelude CStd Util.

Module UnitTest.

(** ** The helpers *)

Abbreviation variables := (gmap nat Z).

(** [class When]: [lvalue_int] is set by one constructor only, [lvalue_str] is a copy. *)
Record When := mk_when { when_int : option nat; when_str : bytes }.
Definition When_int (nb : nat) : When := mk_when (Some nb) [].
Definition When_string (str : bytes) : When := mk_when None str.
Definition IsSetTo_int (rvalue : Z) (w : When) (vars : variables) : outcome (When * variables) :=
  a ← of_access (when_int w); Ret (w, <[a := rvalue]> vars).
Definition IsSetTo_string (rvalue : bytes) (w : When) (vars : variables) : When * variables :=
  (mk_when (when_int w) rvalue, vars).

(** [class Then]: [lvalue_int] is not initialised for a string; the constructor from
    a string is declared and never defined. *)
Record Then := mk_then { then_int : Z; then_str : bytes; op : bool; op_err_msg : bytes }.
Definition Then_int (nb : Z) : Then := mk_then nb [] true (bs " != ").
Definition Should (t : Then) : Then := t.
Definition Not (t : Then) : Then := mk_then (then_int t) (then_str t) false (bs " == ").
Definition pass : bytes := bs "PASS" ++ [nl].
(** [BeEqualTo]: the text printed. *)
Definition BeEqualTo_int (rvalue : Z) (t : Then) : bytes :=
  if (negb (then_int t =? rvalue) && op t) || ((then_int t =? rvalue) && negb (op t)) then
    bs "Error: " ++ to_decimal (then_int t) ++ bs " (found) " ++ op_err_msg t ++ to_decimal rvalue ++ bs " (expected)" ++ [nl]
  else pass.
Definition BeEqualTo_string (rvalue : bytes) (t : Then) : bytes :=
  if (negb (bool_decide (then_str t = rvalue)) && op t) || (bool_decide (then_str t = rvalue) && negb (op t)) then
    bs "Error: " ++ then_str t ++ op_err_msg t ++ rvalue ++ [nl]
  else pass.

(** ** The tests *)

(** A call of the function under test on two literals, kept in [result], then the
    comparison, with [Not] or without. *)
Definition check (s find : bytes) (max : Z) (negated : bool) (rvalue : Z) (vars : variables) : outcome (bytes * variables) :=
  let result := O in
  r ← Util.strnCaseStr (cstr s) (cstr find) max;
  x ← IsSetTo_int r (When_int result) vars;
  nb ← of_access (x.2 !! result);
  let t := Should (Then_int nb) in
  Ret (BeEqualTo_int rvalue (if negated then Not t else t), x.2).
Definition main : outcome bytes :=
  x ← check (bs "This is a test KEEP-ALIVE") (bs "Keep-Alive") 30 false 1 ∅;
  y ← check (bs "This is a test KEEP-ALVIE") (bs "Keep-Alive") 30 true 1 x.2;
  Ret (x.1 ++ y.1).

(** ** What they say *)

Lemma error_is_not_pass s : bs "Error: " ++ s <> pass.
Proof. done. Qed.

(** a comparison passes exactly when it holds, or does not hold after [Not]. *)
Theorem BeEqualTo_spec nb rvalue :
  (BeEqualTo_int rvalue (Should (Then_int nb)) = pass <-> nb = rvalue) /\
  (BeEqualTo_int rvalue (Not (Should (Then_int nb))) = pass <-> nb <> rvalue).
Proof.
  unfold BeEqualTo_int, Should, Not, Then_int. cbn [then_int op op_err_msg]. destruct (Z.eqb_spec nb rvalue) as [->|Hne]; cbn [negb andb orb].
  - split; [done|]. split; [intros E; by apply error_is_not_pass in E|done].
  - split; [|done]. split; [intros E; by apply error_is_not_pass in E|done].
Qed.

(** a test that returns has compared what the function returns. *)
Theorem check_reports s find max negated rvalue vars out vars' :
  check s find max negated rvalue vars = Ret (out, vars') ->
  exists r, Util.strnCaseStr (cstr s) (cstr find) max = Ret r /\ vars' = <[O := r]> vars /\
    (out = pass <-> if negated then r <> rvalue else r = rvalue).
Proof.
  unfold check. destruct (Util.strnCaseStr _ _ _) as [r| |]; cbn [mbind outcome_bind]; [|done..].
  unfold IsSetTo_int, When_int. cbn [when_int of_access mbind outcome_bind snd]. rewrite lookup_insert_eq.
  cbn [of_access mbind outcome_bind]. intros [= <- <-]. exists r. split; [done|]. split; [done|].
  destruct (BeEqualTo_spec r rvalue) as [H1 H2]. by destruct negated.
Qed.

(** the first test passes; the second one never reports: its bound is larger than the
    text, and the function under test reads past the end. *)
Theorem main_undefined :
  (exists vars, check (bs "This is a test KEEP-ALIVE") (bs "Keep-Alive") 30 false 1 ∅ = Ret (pass, vars)) /\ main = Undef.
Proof. split; [eexists|]; vm_compute; reflexivity. Qed.

(** setting a string changes a copy: no variable of the test has changed, and an
    integer set through the same object is written through a pointer that was never
    set. *)
Theorem IsSetTo_string_lost str rvalue nb vars :
  (IsSetTo_string rvalue (When_string str) vars).2 = vars /\ IsSetTo_int nb (When_string str) vars = Undef.
Proof. done. Qed.

Lemma check_reports_witness :
  exists r, Util.strnCaseStr (cstr (bs "Keep-Alive")) (cstr (bs "keep")) 5 = Ret r /\ r = 1.
Proof.
  destruct (check_reports (bs "Keep-Alive") (bs "keep") 5 false 1 ∅ pass {[O := 1]}) as (r & E & _ & [H _]); [vm_compute; reflexivity|].
  exists r. exact (conj E (H eq_refl)).
Defined.
End UnitTest.
