(* ===== verification/ThreadPool.v ===== *)
(** * The thread pool: server/thread_pool.h and server/thread_pool.cpp

    [ConnectionThread] objects live in a store indexed by their address; the
    stack of idle threads and the list of all threads are linked through the
    fields [next] and [next_all] of the objects, as in the code.  The module
    [Pool] has the operations of [ThreadPool], executed from start to end; the
    module [Workers] interleaves the atomic pieces of the accepting thread and
    of the worker threads. *)

From S2P Require Import Prelude CStd Util.

(** The address of a [ConnectionThread]. *)
Abbreviation loc := nat.

Module Pool.

Record ConnectionThread := mkThread {
  nb : Z;
  client_sock : Z;
  nb_connections : Z;
  info : list Z;
  next : option loc;
  next_all : option loc
}.

Definition set_client_sock (c : Z) (t : ConnectionThread) : ConnectionThread :=
  mkThread (nb t) c (nb_connections t) (info t) (next t) (next_all t).
Definition set_next (n : option loc) (t : ConnectionThread) : ConnectionThread :=
  mkThread (nb t) (client_sock t) (nb_connections t) (info t) n (next_all t).
Definition incr_connections (t : ConnectionThread) : ConnectionThread :=
  mkThread (nb t) (client_sock t) (s32 (nb_connections t + 1)) (info t) (next t) (next_all t).

(** [info[idx]++], the statistics counters [Server::updateScreen] maintains;
    the array has three elements. *)
Definition incr_info (idx : nat) (t : ConnectionThread) : outcome ConnectionThread :=
  v ← of_access (info t !! idx);
  Ret (mkThread (nb t) (client_sock t) (nb_connections t) (<[idx := s32 (v + 1)]> (info t))
         (next t) (next_all t)).

(** [ConnectionThread::ConnectionThread].  [nb] and [next_all] are left for
    [newThread] to fill in. *)
Definition new_ConnectionThread (c nb0 : Z) (next_all0 : option loc) : ConnectionThread :=
  mkThread nb0 c 1 [0; 0; 0] None next_all0.

Record ThreadPool := mkPool {
  heap : gmap loc ConnectionThread;
  fresh : loc;
  idle_threads : option loc;
  all_threads : option loc;
  thread_nb : Z
}.

Definition deref (p : ThreadPool) (l : loc) : outcome ConnectionThread := of_access (heap p !! l).
Definition upd (l : loc) (f : ConnectionThread -> ConnectionThread) (p : ThreadPool) : ThreadPool :=
  mkPool (alter f l (heap p)) (fresh p) (idle_threads p) (all_threads p) (thread_nb p).
Definition set_idle (i : option loc) (p : ThreadPool) : ThreadPool :=
  mkPool (heap p) (fresh p) i (all_threads p) (thread_nb p).

(** [ThreadPool::ThreadPool], on the results of the two [pthread_mutex_init]. *)
Definition new_ThreadPool : ThreadPool := mkPool ∅ 0%nat None None 0.
Definition make_ThreadPool (idle_init all_init : Z) : outcome ThreadPool :=
  if negb (idle_init =? 0) || negb (all_init =? 0) then Throw Util.FAILURE_MUTEX_INIT else Ret new_ThreadPool.

(** [ThreadPool::newThread]: the allocation and the critical section. *)
Definition newThread_link (c : Z) (p : ThreadPool) : loc * ThreadPool :=
  let l := fresh p in
  let t := new_ConnectionThread c (thread_nb p) (all_threads p) in
  (l, mkPool (<[l := set_next (all_threads p) t]> (heap p)) (S l) (idle_threads p)
        (Some l) (s32 (thread_nb p + 1))).

(** [create_result] is what [pthread_create] returns: zero or a positive error
    number. *)
Definition newThread (create_result c : Z) (p : ThreadPool) : option loc * ThreadPool :=
  let (l, p) := newThread_link c p in
  (if create_result <? 0 then None else Some l, p).

(** [ThreadPool::releaseThread]. *)
Definition releaseThread_push (l : loc) (p : ThreadPool) : ThreadPool :=
  set_idle (Some l) (upd l (set_next (idle_threads p)) p).
Definition releaseThread (l : loc) (p : ThreadPool) : outcome ThreadPool :=
  _ ← deref p l;
  Ret (releaseThread_push l (upd l (set_client_sock (-1)) p)).

(** [ThreadPool::reuseThread]: the critical section, then the assignment of
    the connection. *)
Definition reuseThread_pop (p : ThreadPool) : outcome (loc * ThreadPool) :=
  l ← of_access (idle_threads p);
  t ← deref p l;
  Ret (l, set_idle (next t) p).
Definition reuseThread_assign (l : loc) (c : Z) (p : ThreadPool) : ThreadPool :=
  upd l incr_connections (upd l (set_client_sock c) p).
Definition reuseThread (c : Z) (p : ThreadPool) : outcome (option loc * ThreadPool) :=
  match idle_threads p with
  | None => Ret (None, p)
  | Some _ =>
      '(l, p) ← reuseThread_pop p;
      Ret (Some l, reuseThread_assign l c p)
  end.

(** [ThreadPool::handleNewConnection]. *)
Definition handleNewConnection (create_result c : Z) (p : ThreadPool)
  : outcome (option loc * ThreadPool) :=
  '(r, p) ← reuseThread c p;
  match r with
  | Some l => Ret (Some l, p)
  | None => Ret (newThread create_result c p)
  end.

(** [ThreadStat]: two alignment bytes short of a multiple of four, hence
    [sizeof(ThreadStat) = 20]. *)
Definition sizeof_ThreadStat : Z := 20.
Definition ThreadStat_loadFrom (t : ConnectionThread) : bytes :=
  put_u32 (nb_connections t) ++ concat (map put_u32 (info t)) ++
  [z2b (if 0 <=? client_sock t then 1 else 0)].

(** [ThreadPool::serializeThreadStats]: [thread_st] walks down from the last
    entry of the buffer while [thread_info] follows [next_all]. *)
Fixpoint serializeThreadStats (fuel : nat) (p : ThreadPool) (thread_info : option loc)
    (thread_st : Z) (buffer : bytes) : outcome bytes :=
  match thread_info with
  | None => Ret buffer
  | Some l =>
      match fuel with
      | O => Undef
      | S fuel =>
          t ← deref p l;
          buffer ← poke buffer (thread_st * sizeof_ThreadStat) (ThreadStat_loadFrom t);
          serializeThreadStats fuel p (next_all t) (thread_st - 1) buffer
      end
  end.

(** [ThreadPool::getThreadStatistics]. *)
Definition getThreadStatistics (p : ThreadPool) : outcome bytes :=
  let body := zrepeat (thread_nb p * sizeof_ThreadStat) nul in
  body ← serializeThreadStats (S (size (heap p))) p (all_threads p) (thread_nb p - 1) body;
  Ret (put_u32 (thread_nb p * sizeof_ThreadStat) ++ body).

(** [ThreadPool::~ThreadPool]: the connections that are shut down, in order.
    The loop follows [next], and deletes each object it visits. *)
Fixpoint destroy (fuel : nat) (p : ThreadPool) (shut : list Z) : outcome (list Z * ThreadPool) :=
  match all_threads p with
  | None => Ret (shut, p)
  | Some l =>
      match fuel with
      | O => Undef
      | S fuel =>
          t ← deref p l;
          let shut := if 0 <=? client_sock t then shut ++ [client_sock t] else shut in
          destroy fuel (mkPool (delete l (heap p)) (fresh p) (idle_threads p) (next t) (thread_nb p)) shut
      end
  end.
Definition delete_ThreadPool (p : ThreadPool) : outcome (list Z * ThreadPool) :=
  destroy (S (size (heap p))) p [].

(** ** The abstract pool and its representation *)

(** The objects reachable from [hd] through the field [sel], in order. *)
Fixpoint chain (sel : ConnectionThread -> option loc) (h : gmap loc ConnectionThread)
    (hd : option loc) (ls : list loc) : Prop :=
  match ls with
  | [] => hd = None
  | l :: ls => hd = Some l /\ exists t, h !! l = Some t /\ chain sel h (sel t) ls
  end.

(** [idle] is the stack of idle threads, [all] every thread ever created, the
    last one first.  The [k]-th thread created is number [k]. *)
Record pool_rep (p : ThreadPool) (idle all : list loc) : Prop := {
  rep_idle : chain next (heap p) (idle_threads p) idle;
  rep_all : chain next_all (heap p) (all_threads p) all;
  rep_idle_nodup : NoDup idle;
  rep_all_nodup : NoDup all;
  rep_dom : forall l, is_Some (heap p !! l) <-> l ∈ all;
  rep_fresh : forall l, l ∈ all -> (l < fresh p)%nat;
  rep_count : thread_nb p = zlen all;
  rep_nb : forall i l t, all !! i = Some l -> heap p !! l = Some t ->
             nb t = zlen all - 1 - Z.of_nat i;
  rep_info : forall l t, heap p !! l = Some t -> length (info t) = 3%nat;
  rep_idle_sock : forall l t, l ∈ idle -> heap p !! l = Some t -> client_sock t = -1;
}.

Lemma chain_ext sel h h' hd ls :
  (forall l, l ∈ ls -> sel <$> h' !! l = sel <$> h !! l) ->
  chain sel h hd ls -> chain sel h' hd ls.
Proof.
  revert hd. induction ls as [|l ls IH]; intros hd He Hc; [done|].
  destruct Hc as [-> (t & Ht & Hc)]. split; [done|].
  pose proof (He l ltac:(set_solver)) as E. rewrite Ht in E.
  destruct (h' !! l) as [t'|] eqn:Ht'; [|done]. simpl in E. injection E as E.
  exists t'. split; [done|]. rewrite E. apply IH; [|done]. intros; apply He; set_solver.
Qed.

Lemma chain_elem sel h hd ls l : chain sel h hd ls -> l ∈ ls -> is_Some (h !! l).
Proof.
  revert hd. induction ls as [|a ls IH]; intros hd Hc Hl; [set_solver|].
  destruct Hc as [_ (t & Ht & Hc)]. apply elem_of_cons in Hl as [->|Hl]; eauto.
Qed.

Lemma chain_head sel h hd l ls : chain sel h hd (l :: ls) -> hd = Some l.
Proof. by intros [? _]. Qed.

(** An update of a field that a chain does not use. *)
Lemma chain_alter sel h hd ls f l :
  (forall t, sel (f t) = sel t) -> chain sel h hd ls -> chain sel (alter f l h) hd ls.
Proof.
  intros Hf. apply chain_ext. intros l' _. rewrite lookup_alter. case_decide; [subst|done].
  destruct (h !! l'); simpl; congruence.
Qed.
Lemma chain_alter_ne sel h hd ls f l :
  l ∉ ls -> chain sel h hd ls -> chain sel (alter f l h) hd ls.
Proof.
  intros Hl. apply chain_ext. intros l' ?. rewrite lookup_alter_ne; [done|]. set_solver.
Qed.
Lemma chain_insert_ne sel h hd ls l t :
  l ∉ ls -> chain sel h hd ls -> chain sel (<[l := t]> h) hd ls.
Proof.
  intros Hl. apply chain_ext. intros l' ?. rewrite lookup_insert_ne; [done|]. set_solver.
Qed.

Lemma new_ThreadPool_rep : pool_rep new_ThreadPool [] [].
Proof.
  split; simpl; try done; try constructor.
  - intros [t Ht]. by rewrite lookup_empty in Ht.
  - intros Hl. by apply not_elem_of_nil in Hl.
  - intros l Hl. by apply not_elem_of_nil in Hl.
Qed.

(** Updating one object, its links, number and statistics shape unchanged. *)
Lemma upd_rep p idle all l f :
  pool_rep p idle all ->
  (forall t, next (f t) = next t /\ next_all (f t) = next_all t /\ nb (f t) = nb t /\
             length (info (f t)) = length (info t)) ->
  l ∉ idle ->
  pool_rep (upd l f p) idle all.
Proof.
  intros R Hf Hl. split; simpl; try apply R.
  - apply chain_alter; [|apply R]. intros t. apply Hf.
  - apply chain_alter; [|apply R]. intros t. apply Hf.
  - intros l'. rewrite <-(rep_dom _ _ _ R). rewrite lookup_alter.
    case_decide; [subst; apply fmap_is_Some|done].
  - intros i l' t Hi Ht. rewrite lookup_alter in Ht. case_decide; [subst|by eapply R].
    apply fmap_Some in Ht as (t0 & Ht0 & ->). rewrite (proj1 (proj2 (proj2 (Hf t0)))).
    by eapply R.
  - intros l' t Ht. rewrite lookup_alter in Ht. case_decide; [subst|by eapply R].
    apply fmap_Some in Ht as (t0 & Ht0 & ->). rewrite (proj2 (proj2 (proj2 (Hf t0)))).
    by eapply R.
  - intros l' t Hi Ht. rewrite lookup_alter_ne in Ht by set_solver. by eapply R.
Qed.

Lemma newThread_rep c p idle all :
  pool_rep p idle all -> zlen all < 2 ^ 31 - 1 ->
  let (l, p') := newThread_link c p in pool_rep p' idle (l :: all) /\ l ∉ all.
Proof.
  intros R Hlen. simpl. set (l := fresh p).
  assert (l ∉ all) as Hl.
  { intros Hl. apply (rep_fresh _ _ _ R) in Hl. unfold l in Hl. lia. }
  assert (heap p !! l = None) as Hnone.
  { destruct (heap p !! l) eqn:E; [|done]. exfalso. apply Hl, (rep_dom _ _ _ R). by rewrite E. }
  assert (l ∉ idle) as Hidle.
  { intros Hi. pose proof (chain_elem _ _ _ _ _ (rep_idle _ _ _ R) Hi) as [t Ht]. congruence. }
  split; [|done]. split; simpl; try apply R.
  - apply chain_insert_ne; [done|apply R].
  - split; [done|]. eexists. split; [apply lookup_insert_eq|]. simpl.
    apply chain_insert_ne; [done|apply R].
  - constructor; [done|apply R].
  - intros l'. rewrite lookup_insert. case_decide; [subst; set_solver|].
    rewrite (rep_dom _ _ _ R). set_solver.
  - intros l' Hl'. apply elem_of_cons in Hl' as [->|Hl']; [unfold l; lia|].
    pose proof (rep_fresh _ _ _ R _ Hl'). lia.
  - rewrite (rep_count _ _ _ R), zlen_cons. apply s32_small.
    unfold is_s32. pose proof (zlen_nonneg all). lia.
  - intros [|i] l' t Hi Ht; simpl in Hi.
    + injection Hi as <-. rewrite lookup_insert_eq in Ht. injection Ht as <-. simpl.
      rewrite (rep_count _ _ _ R), zlen_cons. lia.
    + rewrite lookup_insert_ne in Ht
        by (intros <-; apply Hl; by eapply list_elem_of_lookup_2).
      rewrite (rep_nb _ _ _ R _ _ _ Hi Ht), zlen_cons. lia.
  - intros l' t Ht. rewrite lookup_insert in Ht. case_decide; [by simplify_eq|by eapply R].
  - intros l' t Hl' Ht. rewrite lookup_insert_ne in Ht by set_solver. by eapply R.
Qed.

Lemma push_rep p idle all l t :
  pool_rep p idle all -> heap p !! l = Some t -> client_sock t = -1 -> l ∉ idle ->
  pool_rep (releaseThread_push l p) (l :: idle) all.
Proof.
  intros R Ht Hc Hl. split; simpl; try apply R.
  - split; [done|]. exists (set_next (idle_threads p) t).
    rewrite lookup_alter_eq, Ht. split; [done|]. simpl.
    apply chain_alter_ne; [done|apply R].
  - apply chain_alter; [done|apply R].
  - constructor; [done|apply R].
  - intros l'. rewrite <-(rep_dom _ _ _ R), lookup_alter.
    case_decide; [subst; apply fmap_is_Some|done].
  - intros i l' t' Hi Ht'. rewrite lookup_alter in Ht'. case_decide; [subst|by eapply R].
    apply fmap_Some in Ht' as (t0 & Ht0 & ->). simpl. by eapply (rep_nb _ _ _ R).
  - intros l' t' Ht'. rewrite lookup_alter in Ht'. case_decide; [subst|by eapply R].
    apply fmap_Some in Ht' as (t0 & Ht0 & ->). simpl. by eapply (rep_info _ _ _ R).
  - intros l' t' Hl' Ht'. rewrite lookup_alter in Ht'. case_decide.
    + subst. rewrite Ht in Ht'. by simplify_eq/=.
    + eapply (rep_idle_sock _ _ _ R); [|done]. set_solver.
Qed.

Lemma pop_rep p l idle all :
  pool_rep p (l :: idle) all ->
  exists p', reuseThread_pop p = Ret (l, p') /\ heap p' = heap p /\ pool_rep p' idle all.
Proof.
  intros R. pose proof (rep_idle _ _ _ R) as [E (t & Ht & Hc)].
  unfold reuseThread_pop. rewrite E. simpl. unfold deref. rewrite Ht. simpl.
  eexists. split; [done|]. split; [done|]. split; simpl; try apply R; [done|..].
  - pose proof (rep_idle_nodup _ _ _ R) as H. by inversion H.
  - intros l' t' Hl'. apply (rep_idle_sock _ _ _ R). set_solver.
Qed.

Ltac links_kept := intros; repeat split; reflexivity.

(** C18: releasing a thread that is not idle pushes it on the stack of idle
    threads; the list of all threads, the numbering and the other objects
    keep their invariant. *)
Theorem releaseThread_refines p idle all l :
  pool_rep p idle all -> l ∈ all -> l ∉ idle ->
  exists p', releaseThread l p = Ret p' /\ pool_rep p' (l :: idle) all.
Proof.
  intros R Hl Hi. destruct (proj2 (rep_dom _ _ _ R l) Hl) as [t Ht].
  unfold releaseThread, deref. rewrite Ht. simpl. eexists. split; [done|].
  apply (push_rep _ _ _ _ (set_client_sock (-1) t));
    [apply upd_rep; [done|links_kept|done]| |reflexivity|done].
  simpl. by rewrite lookup_alter_eq, Ht.
Qed.

(** C17: a new connection is given to the most recently released thread, which
    leaves the stack and holds the connection; only when no thread is idle is
    a new one created, numbered after the existing ones. *)
Theorem handleNewConnection_refines p idle all c r :
  pool_rep p idle all -> zlen all < 2 ^ 31 - 1 -> 0 <= c -> 0 <= r ->
  exists l p', handleNewConnection r c p = Ret (Some l, p') /\
    (exists t, heap p' !! l = Some t /\ client_sock t = c) /\
    match idle with
    | l' :: idle' => l = l' /\ pool_rep p' idle' all
    | [] => l ∉ all /\ pool_rep p' [] (l :: all)
    end.
Proof.
  intros R Hlen Hc Hr. unfold handleNewConnection, reuseThread.
  destruct idle as [|l idle].
  - pose proof (rep_idle _ _ _ R) as E. simpl in E. rewrite E. cbn [mbind outcome_bind].
    pose proof (newThread_rep c p [] all R Hlen) as H. unfold newThread.
    destruct (newThread_link c p) as [l p'] eqn:El. destruct H as [R' Hl].
    rewrite (proj2 (Z.ltb_ge r 0)) by done. exists l, p'. split; [done|]. split; [|done].
    unfold newThread_link in El. simplify_eq/=. rewrite lookup_insert_eq. by eexists.
  - rewrite (chain_head _ _ _ _ _ (rep_idle _ _ _ R)).
    destruct (pop_rep _ _ _ _ R) as (p1 & E & Hh & R1). rewrite E. cbn [mbind outcome_bind].
    assert (l ∉ idle) as Hl by (pose proof (rep_idle_nodup _ _ _ R) as N; by inversion N).
    destruct (chain_elem _ _ _ _ l (rep_idle _ _ _ R) ltac:(set_solver)) as [t Ht].
    eexists l, _. split; [done|]. split.
    + unfold reuseThread_assign. simpl. rewrite !lookup_alter_eq, Hh, Ht. by eexists.
    + split; [done|]. unfold reuseThread_assign.
      apply upd_rep; [apply upd_rep|..]; first [done | links_kept].
Qed.

(** Two connections, the first one released: the pool used by the witnesses. *)
Definition example_pool : ThreadPool :=
  let p := (newThread 0 7 new_ThreadPool).2 in
  let p := (newThread 0 8 p).2 in
  match releaseThread 0%nat p with
  | Ret p => p | _ => new_ThreadPool
  end.
Lemma example_pool_rep : pool_rep example_pool [0%nat] [1%nat; 0%nat].
Proof.
  pose proof (newThread_rep 7 _ _ _ new_ThreadPool_rep ltac:(done)) as [R1 _].
  pose proof (newThread_rep 8 _ _ _ R1 ltac:(done)) as [R2 _].
  destruct (releaseThread_refines _ _ _ 0%nat R2) as (p' & E & R3); [set_solver..|].
  assert (p' = example_pool) as <-; [|exact R3].
  vm_compute in E |- *. congruence.
Qed.

(** ** Statistics *)

(** The objects at a list of addresses. *)
Definition objects (p : ThreadPool) (ls : list loc) : list ConnectionThread :=
  omap (fun l => heap p !! l) ls.

(** One [ThreadStat] in memory: the fields, then three bytes of padding. *)
Definition stat_entry (t : ConnectionThread) : bytes := ThreadStat_loadFrom t ++ zrepeat 3 nul.
Arguments stat_entry : simpl never.

Lemma zlen_loadFrom t : length (info t) = 3%nat -> zlen (ThreadStat_loadFrom t) = 17.
Proof.
  unfold ThreadStat_loadFrom. destruct (info t) as [|a [|b [|c [|]]]]; intros E; try discriminate.
  done.
Qed.

Lemma zlen_concat_entries ts :
  Forall (fun t => length (info t) = 3%nat) ts -> zlen (concat (map stat_entry ts)) = 20 * zlen ts.
Proof.
  induction 1 as [|t ts Ht Hts IH]; [done|]. cbn [map concat].
  rewrite zlen_app, zlen_cons, IH. unfold stat_entry. rewrite zlen_app, zlen_loadFrom by done.
  change (zlen (zrepeat 3 nul)) with 3. lia.
Qed.

Lemma zrepeat_split {A} (a b : Z) (x : A) :
  0 <= a -> 0 <= b -> zrepeat (a + b) x = zrepeat a x ++ zrepeat b x.
Proof. intros. unfold zrepeat. rewrite Z2Nat.inj_add by done. apply replicate_add. Qed.

(** Filling one entry of a zeroed area. *)
Lemma poke_entry k data rest :
  0 <= k -> zlen data = 17 ->
  poke (zrepeat (20 * (k + 1)) nul ++ rest) (k * sizeof_ThreadStat) data =
  Ret (zrepeat (20 * k) nul ++ (data ++ zrepeat 3 nul) ++ rest).
Proof.
  intros Hk Hd. unfold poke, sizeof_ThreadStat. pose proof (zlen_nonneg rest).
  assert (zlen (zrepeat (20 * k) nul) = k * 20) as L by (rewrite zlen_repeat; lia).
  rewrite (proj2 (Z.leb_le 0 _)), zlen_app, zlen_repeat, (proj2 (Z.leb_le _ _)) by lia.
  cbn [andb]. rewrite store_within by (rewrite ?zlen_app, ?zlen_repeat; lia).
  replace (20 * (k + 1)) with (20 * k + (17 + 3)) by lia.
  rewrite !zrepeat_split, <-!app_assoc by lia. do 2 f_equal.
  - rewrite <-L. apply ztake_app.
  - f_equal. rewrite Hd.
    rewrite (app_assoc (zrepeat (20 * k) nul)).
    replace (k * 20 + 17) with (zlen (zrepeat (20 * k) nul ++ zrepeat 17 nul))
      by (rewrite zlen_app, L; done).
    rewrite zdrop_app. done.
Qed.

Lemma serialize_spec p : forall ls fuel hd rest,
  chain next_all (heap p) hd ls -> (length ls <= fuel)%nat ->
  (forall l t, heap p !! l = Some t -> length (info t) = 3%nat) ->
  serializeThreadStats fuel p hd (zlen ls - 1) (zrepeat (20 * zlen ls) nul ++ rest) =
  Ret (concat (map stat_entry (objects p (reverse ls))) ++ rest).
Proof.
  induction ls as [|l ls IH]; intros fuel hd rest Hc Hf Hinfo.
  - simpl in Hc. subst. by destruct fuel.
  - destruct Hc as [-> (t & Ht & Hc)]. simpl in Hf. destruct fuel as [|fuel]; [lia|].
    cbn [serializeThreadStats]. unfold deref. rewrite Ht. cbn [mbind outcome_bind of_access].
    rewrite zlen_cons. replace (zlen ls + 1 - 1) with (zlen ls) by lia.
    rewrite poke_entry; [|apply zlen_nonneg|by apply zlen_loadFrom, (Hinfo l)].
    cbn [mbind outcome_bind].
    rewrite (IH fuel _ _ Hc) by (done || lia). unfold objects. rewrite reverse_cons.
    rewrite omap_app, map_app, concat_app. simpl. rewrite Ht. simpl.
    rewrite app_nil_r, <-!app_assoc. simpl. rewrite <-!app_assoc. done.
Qed.

Lemma size_heap p idle all : pool_rep p idle all -> size (heap p) = length all.
Proof.
  intros R. rewrite <-size_dom.
  assert (dom (heap p) = list_to_set (C := gset loc) all) as ->.
  { apply set_eq. intros l. rewrite elem_of_dom, elem_of_list_to_set. apply (rep_dom _ _ _ R). }
  apply size_list_to_set, R.
Qed.

(** the statistics message is the byte count followed by one entry per
    thread, in creation order, every entry at the index of its thread; no write
    leaves the buffer. *)
Theorem getThreadStatistics_spec p idle all :
  pool_rep p idle all ->
  getThreadStatistics p =
    Ret (put_u32 (20 * zlen all) ++ concat (map stat_entry (objects p (reverse all)))) /\
  (forall i l t, reverse all !! i = Some l -> heap p !! l = Some t -> nb t = Z.of_nat i).
Proof.
  intros R. split.
  - unfold getThreadStatistics, sizeof_ThreadStat.
    rewrite (rep_count _ _ _ R), (Z.mul_comm _ 20), (size_heap _ _ _ R).
    pose proof (serialize_spec p all (S (length all)) _ [] (rep_all _ _ _ R)
      ltac:(lia) (rep_info _ _ _ R)) as E.
    rewrite !app_nil_r in E. rewrite E. done.
  - intros i l t Hi Ht. apply reverse_lookup_Some in Hi as [Hi Hlt].
    rewrite (rep_nb _ _ _ R _ _ _ Hi Ht). unfold zlen. lia.
Qed.

Lemma length_objects p ls : (forall l, l ∈ ls -> is_Some (heap p !! l)) -> length (objects p ls) = length ls.
Proof.
  induction ls as [|l ls IH]; intros Hl; [done|]. unfold objects. cbn [omap list_omap].
  destruct (Hl l ltac:(set_solver)) as [t ->]. simpl. f_equal. apply IH. intros; apply Hl; set_solver.
Qed.

Lemma releaseThread_refines_witness :
  exists p', releaseThread 1%nat example_pool = Ret p' /\ pool_rep p' [1%nat; 0%nat] [1%nat; 0%nat].
Proof. apply (releaseThread_refines _ _ _ 1%nat example_pool_rep); set_solver. Defined.

Lemma handleNewConnection_refines_witness :
  exists l p', handleNewConnection 0 9 example_pool = Ret (Some l, p') /\
    (exists t, heap p' !! l = Some t /\ client_sock t = 9) /\
    l = 0%nat /\ pool_rep p' [] [1%nat; 0%nat].
Proof. apply (handleNewConnection_refines _ _ _ 9 0 example_pool_rep); done. Defined.

Lemma getThreadStatistics_spec_witness :
  getThreadStatistics example_pool =
    Ret (put_u32 40 ++ put_u32 1 ++ zrepeat 12 nul ++ zrepeat 4 nul ++
         put_u32 1 ++ zrepeat 12 nul ++ [z2b 1] ++ zrepeat 3 nul).
Proof.
  etransitivity; [apply (getThreadStatistics_spec _ _ _ example_pool_rep)|].
  vm_compute. reflexivity.
Defined.

(** ** Destruction *)

(** The live connections of a list of threads. *)
Definition live_socks (p : ThreadPool) (ls : list loc) : list Z :=
  filter (fun c => 0 <= c) (map client_sock (objects p ls)).

Lemma objects_delete p l ls f i a n :
  l ∉ ls -> objects (mkPool (delete l (heap p)) f i a n) ls = objects p ls.
Proof.
  unfold objects. simpl. induction ls as [|x ls IH]; intros Hl; [done|].
  cbn [omap list_omap]. rewrite lookup_delete_ne by set_solver. rewrite IH by set_solver. done.
Qed.

Lemma destroy_chain : forall ls fuel p shut,
  chain next (heap p) (all_threads p) ls -> NoDup ls -> (length ls <= fuel)%nat ->
  exists p', destroy fuel p shut = Ret (shut ++ live_socks p ls, p').
Proof.
  induction ls as [|l ls IH]; intros fuel p shut Hc Hnd Hf.
  - simpl in Hc. exists p. destruct fuel; simpl; rewrite Hc, app_nil_r; done.
  - destruct Hc as [E (t & Ht & Hc)]. apply NoDup_cons in Hnd as [Hl Hnd]. simpl in Hf.
    destruct fuel as [|fuel]; [lia|]. cbn [destroy]. rewrite E. unfold deref. rewrite Ht.
    cbn [mbind outcome_bind of_access].
    set (p1 := mkPool _ _ _ _ _).
    set (shut1 := if 0 <=? client_sock t then shut ++ [client_sock t] else shut).
    assert (chain next (heap p1) (all_threads p1) ls) as Hc1.
    { apply (chain_ext next (heap p)); [|exact Hc]. intros l' Hl'. simpl.
      rewrite lookup_delete_ne by (intros ->; done). done. }
    destruct (IH fuel p1 shut1 Hc1 Hnd ltac:(lia)) as [p' Ep'].
    exists p'. rewrite Ep'. unfold live_socks, p1. rewrite objects_delete by done.
    f_equal. f_equal. unfold shut1, objects. cbn [omap list_omap]. rewrite Ht. cbn [map filter].
    unfold filter at 2. cbn [list_filter].
    destruct (Z.leb_spec 0 (client_sock t)); case_decide; try lia.
    + by rewrite <-app_assoc.
    + done.
Qed.

(** as long as no thread has gone idle (every [next] still equals
    [next_all]), the destructor visits every thread once and shuts down every
    live connection. *)
Theorem delete_ThreadPool_complete p idle all :
  pool_rep p idle all ->
  (forall l t, heap p !! l = Some t -> next t = next_all t) ->
  exists p', delete_ThreadPool p = Ret (live_socks p all, p').
Proof.
  intros R Heq. unfold delete_ThreadPool. rewrite (size_heap _ _ _ R).
  apply (destroy_chain all _ p []); [|apply R|lia].
  assert (forall hd ls, chain next_all (heap p) hd ls -> chain next (heap p) hd ls) as Hall.
  { intros hd ls. revert hd. induction ls as [|l ls IH]; intros hd Hc; [done|].
    destruct Hc as [-> (t & Ht & Hc)]. split; [done|]. exists t. split; [done|].
    apply IH. by rewrite (Heq l t Ht). }
  apply Hall, R.
Qed.

Definition example_busy_pool : ThreadPool :=
  (newThread 0 8 (newThread 0 7 new_ThreadPool).2).2.
Lemma delete_ThreadPool_complete_witness :
  exists p', delete_ThreadPool example_busy_pool = Ret ([8; 7], p').
Proof.
  pose proof (newThread_rep 7 _ _ _ new_ThreadPool_rep ltac:(done)) as [R1 _].
  pose proof (newThread_rep 8 _ _ _ R1 ltac:(done)) as [R2 _].
  destruct (delete_ThreadPool_complete example_busy_pool [] [1%nat; 0%nat] R2) as [p' E].
  - intros l t Ht. assert (l ∈ [1%nat; 0%nat]) as Hl by (apply (rep_dom _ _ _ R2); eexists; exact Ht).
    repeat apply elem_of_cons in Hl as [->|Hl]; [| |by apply not_elem_of_nil in Hl];
      vm_compute in Ht; injection Ht as <-; reflexivity.
  - exists p'. rewrite E. vm_compute. reflexivity.
Defined.

(** once a thread has gone idle the destructor loses threads: the loop
    follows [next], which [releaseThread] has overwritten with the idle stack,
    instead of [next_all].  After two connections of which the second one is
    over, nothing is shut down although thread 0 still serves socket 7. *)
Theorem delete_ThreadPool_misses_connections :
  exists p p',
    releaseThread 1%nat example_busy_pool = Ret p /\
    live_socks p [1%nat; 0%nat] = [7] /\
    delete_ThreadPool p = Ret ([], p').
Proof. eexists _, _. split; [|split]; vm_compute; reflexivity. Qed.

(** a failed [pthread_create] (a positive error number) is not detected,
    because the code tests for a negative result: the connection is recorded as
    served by a thread that does not exist. *)
Theorem newThread_ignores_creation_failure c p r :
  0 <= r -> exists p', newThread r c p = (Some (fresh p), p').
Proof.
  intros Hr. unfold newThread, newThread_link. rewrite (proj2 (Z.ltb_ge r 0)) by done. eauto.
Qed.
Lemma newThread_ignores_creation_failure_witness :
  exists p', newThread 11 7 new_ThreadPool = (Some 0%nat, p').
Proof. apply (newThread_ignores_creation_failure 7 new_ThreadPool 11). lia. Defined.

End Pool.

(** * Interleavings of the accepting thread and the workers

    The accepting thread runs [handleNewConnection] for every connection; each
    worker runs the loop of [connection_handler].  Every transition below is
    one piece that the mutexes, or the fact that a single thread touches the
    data, make atomic. *)

Module Workers.
Import Pool.

(** Where a worker is in [connection_handler]. *)
Inductive worker :=
| Serving            (* in [server->readData(thread_info)] *)
| Closed             (* [close(thread_info->client_sock)] done *)
| Unset              (* in [releaseThread], [client_sock = -1] done *)
| Waiting            (* pushed on the idle stack, at or before [sigwait] *).

(** Where the accepting thread is. *)
Inductive acceptor :=
| AIdle                          (* in [accept] *)
| ATest (c : Z)                  (* about to test [idle_threads == nullptr] *)
| APop (c : Z)                   (* the test found a thread; before the lock *)
| AAssign (c : Z) (l : loc)      (* popped [l] *)
| AKick (l : loc)                (* connection assigned, before [pthread_kill] *)
| ANew (c : Z)                   (* no idle thread: in [newThread] *)
| ACreate (l : loc)              (* object linked, before [pthread_create] *).

Record sys := mkSys {
  pool : ThreadPool;
  workers : gmap loc worker;      (* the threads that exist *)
  pending : gset loc;             (* threads with a pending SIGUSR1 *)
  acc : acceptor;
  open_fds : gset Z               (* connections accepted and not closed *)
}.

#[export] Instance worker_eq_dec : EqDecision worker.
Proof. solve_decision. Defined.

Definition init : sys := mkSys new_ThreadPool ∅ ∅ AIdle ∅.

(** [S_accept]: the kernel returns a descriptor that is not in use; the counter
    of threads is assumed not to overflow.  [S_test_idle] and [S_test_none] are
    the unlocked test of [reuseThread], [S_pop] its critical section, [S_assign]
    and [S_kick] the rest of it; [S_link] is the critical section of [newThread]
    and [S_create] a successful [pthread_create].  [S_close] is the return of
    [readData] followed by [close], [S_unset] and [S_push] are [releaseThread],
    [S_wake] is [sigwait] consuming the signal. *)
Inductive step : sys -> sys -> Prop :=
| S_accept p w g o c :
    0 <= c -> c ∉ o -> thread_nb p < 2 ^ 31 - 1 ->
    step (mkSys p w g AIdle o) (mkSys p w g (ATest c) ({[c]} ∪ o))
| S_test_idle p w g o c l :
    idle_threads p = Some l -> step (mkSys p w g (ATest c) o) (mkSys p w g (APop c) o)
| S_test_none p w g o c :
    idle_threads p = None -> step (mkSys p w g (ATest c) o) (mkSys p w g (ANew c) o)
| S_pop p w g o c l p' :
    reuseThread_pop p = Ret (l, p') ->
    step (mkSys p w g (APop c) o) (mkSys p' w g (AAssign c l) o)
| S_assign p w g o c l :
    step (mkSys p w g (AAssign c l) o) (mkSys (reuseThread_assign l c p) w g (AKick l) o)
| S_kick p w g o l :
    step (mkSys p w g (AKick l) o) (mkSys p w ({[l]} ∪ g) AIdle o)
| S_link p w g o c l p' :
    newThread_link c p = (l, p') ->
    step (mkSys p w g (ANew c) o) (mkSys p' w g (ACreate l) o)
| S_create p w g o l :
    step (mkSys p w g (ACreate l) o) (mkSys p (<[l := Serving]> w) g AIdle o)
| S_close p w g a o l t :
    w !! l = Some Serving -> heap p !! l = Some t ->
    step (mkSys p w g a o) (mkSys p (<[l := Closed]> w) g a (o ∖ {[client_sock t]}))
| S_unset p w g a o l :
    w !! l = Some Closed ->
    step (mkSys p w g a o) (mkSys (upd l (set_client_sock (-1)) p) (<[l := Unset]> w) g a o)
| S_push p w g a o l :
    w !! l = Some Unset ->
    step (mkSys p w g a o) (mkSys (releaseThread_push l p) (<[l := Waiting]> w) g a o)
| S_wake p w g a o l :
    w !! l = Some Waiting -> l ∈ g ->
    step (mkSys p w g a o) (mkSys p (<[l := Serving]> w) (g ∖ {[l]}) a o).

Definition reachable (s : sys) : Prop := rtc step init s.

(** The connection the accepting thread still has to hand over. *)
Definition acc_conn (a : acceptor) : option Z :=
  match a with
  | ATest c | APop c | AAssign c _ | ANew c => Some c
  | _ => None
  end.
(** The thread the accepting thread is working on. *)
Definition acc_thread (a : acceptor) : option loc :=
  match a with AAssign _ l | AKick l | ACreate l => Some l | _ => None end.

(** Thread [l] is responsible for connection [c]: its object says so, and it
    has not closed it. *)
Definition holds (s : sys) (l : loc) (c : Z) : Prop :=
  0 <= c /\ (exists t, heap (pool s) !! l = Some t /\ client_sock t = c) /\
  workers s !! l <> Some Closed.

(** What the accepting thread has done so far to thread [l]. *)
Inductive stage := Popped | Assigned | Fresh.
Definition acc_on (a : acceptor) (l : loc) : option stage :=
  match a with
  | AAssign _ l' => if decide (l' = l) then Some Popped else None
  | AKick l' => if decide (l' = l) then Some Assigned else None
  | ACreate l' => if decide (l' = l) then Some Fresh else None
  | _ => None
  end.

(** The states a thread can be in: its program point [w], whether it is on the
    idle stack ([idl]), whether a signal is pending ([pend]), the stage of the
    accepting thread on it ([a]), its [client_sock] and whether that
    connection is live.  A worker asleep outside the idle stack always has its
    wake-up signal pending. *)
Definition local_ok (w : option worker) (idl pend : bool) (a : option stage) (c : Z)
    (live : Prop) : Prop :=
  match a, w with
  | Some Popped, Some Waiting => idl = false /\ pend = false /\ c = -1
  | Some Assigned, Some Waiting => idl = false /\ pend = false /\ live
  | Some Fresh, None => idl = false /\ pend = false /\ live
  | None, Some Serving => idl = false /\ pend = false /\ live
  | None, Some Closed => idl = false /\ pend = false
  | None, Some Unset => idl = false /\ pend = false /\ c = -1
  | None, Some Waiting => if idl then pend = false /\ c = -1 else pend = true /\ live
  | _, _ => False
  end.
Arguments local_ok : simpl never.
Arguments acc_on !a l.
Arguments reuseThread_assign : simpl never.
Arguments acc_conn !a.
Definition live (o : gset Z) (c : Z) : Prop := c ∈ o /\ 0 <= c.
Definition thread_ok (s : sys) (idle : list loc) (l : loc) (t : ConnectionThread) : Prop :=
  local_ok (workers s !! l) (bool_decide (l ∈ idle)) (bool_decide (l ∈ pending s))
    (acc_on (acc s) l) (client_sock t) (live (open_fds s) (client_sock t)).

Record inv (s : sys) (idle all : list loc) : Prop := {
  inv_rep : pool_rep (pool s) idle all;
  inv_count : thread_nb (pool s) < 2 ^ 31 - 1 \/ acc_conn (acc s) = None;
  inv_dom : forall l, is_Some (workers s !! l) \/ l ∈ pending s \/ is_Some (acc_on (acc s) l) -> l ∈ all;
  inv_local : forall l t, heap (pool s) !! l = Some t -> thread_ok s idle l t;
  inv_pop : forall c, acc s = APop c -> idle <> [];
  inv_acc_conn : forall c, acc_conn (acc s) = Some c -> live (open_fds s) c;
  inv_acc_excl : forall c l, acc_conn (acc s) = Some c -> ~ holds s l c;
  inv_excl : forall l1 l2 c, holds s l1 c -> holds s l2 c -> l1 = l2;
  inv_owner : forall c, c ∈ open_fds s ->
      acc_conn (acc s) = Some c \/ exists l, holds s l c;
}.

Lemma init_inv : inv init [] [].
Proof.
  split; simpl; try done; try apply new_ThreadPool_rep.
  - by right.
  - intros l [[w H]|[H|[? H]]]; [|set_solver|done].
    change ((∅ : gmap loc worker) !! l = Some w) in H. by rewrite lookup_empty in H.
  - intros l1 l2 c (_ & (t & Ht & _) & _). change ((∅ : gmap loc ConnectionThread) !! l1 = Some t) in Ht.
    by rewrite lookup_empty in Ht.
Qed.

Lemma local_ok_mono w idl pend a c (P Q : Prop) :
  (P -> Q) -> local_ok w idl pend a c P -> local_ok w idl pend a c Q.
Proof. unfold local_ok. repeat break_match; naive_solver. Qed.

(** A thread that holds a connection holds a live one. *)
Lemma holds_live s idle all l c : inv s idle all -> holds s l c -> live (open_fds s) c.
Proof.
  intros I (Hc & (t & Ht & <-) & Hw). pose proof (inv_local _ _ _ I _ _ Ht) as H.
  unfold thread_ok, local_ok in H. repeat break_match_hyp H; naive_solver lia.
Qed.

(** Steps that neither move nor end a connection. *)
Lemma inv_intro s s' idle all idle' :
  inv s idle all ->
  open_fds s' = open_fds s -> acc_conn (acc s') = acc_conn (acc s) ->
  (forall l c, holds s' l c <-> holds s l c) ->
  thread_nb (pool s') = thread_nb (pool s) ->
  (forall l, is_Some (workers s' !! l) \/ l ∈ pending s' \/ is_Some (acc_on (acc s') l) -> l ∈ all) ->
  (forall c, acc s' = APop c -> idle' <> []) ->
  pool_rep (pool s') idle' all ->
  (forall l t, heap (pool s') !! l = Some t -> thread_ok s' idle' l t) ->
  inv s' idle' all.
Proof.
  intros I Ho Ha Hh Hn Hd Hp R Hl. split; try done.
  - rewrite Hn, Ha. apply I.
  - intros c. rewrite Ha. unfold live. rewrite Ho. apply I.
  - intros c l. rewrite Ha, Hh. apply I.
  - intros l1 l2 c. rewrite !Hh. apply I.
  - intros c. rewrite Ho, Ha. intros Hc. destruct (inv_owner _ _ _ I c Hc) as [|[l Hl']]; [by left|].
    right. exists l. by apply Hh.
Qed.

(** What [thread_ok] says of one thread, with the state opened. *)
Ltac local_at I H Ht :=
  pose proof (inv_local _ _ _ I _ _ Ht) as H; unfold thread_ok in H; simpl in H.

Lemma bool_decide_iff (P Q : Prop) `{Decision P, Decision Q} :
  (P <-> Q) -> bool_decide P = bool_decide Q.
Proof. apply bool_decide_ext. Qed.

Lemma obj_of s idle all l : inv s idle all -> l ∈ all -> exists t, heap (pool s) !! l = Some t.
Proof. intros I Hl. destruct (proj2 (rep_dom _ _ _ (inv_rep _ _ _ I) l) Hl) as [t ?]. eauto. Qed.

Lemma inv_accept p w g o c idle all :
  0 <= c -> c ∉ o -> thread_nb p < 2 ^ 31 - 1 ->
  inv (mkSys p w g AIdle o) idle all -> inv (mkSys p w g (ATest c) ({[c]} ∪ o)) idle all.
Proof.
  intros Hc Ho Hn I.
  assert (forall l, ~ holds (mkSys p w g (ATest c) ({[c]} ∪ o)) l c) as Hnone.
  { intros l Hl. destruct (holds_live (mkSys p w g AIdle o) idle all l c I Hl) as [H _]. done. }
  split; simpl; try apply I; try done.
  - by left.
  - intros l t Ht. local_at I H Ht. unfold thread_ok; simpl. eapply local_ok_mono; [|exact H].
    unfold live; simpl. set_solver.
  - intros c' [= <-]. split; [set_solver|done].
  - intros c' l [= <-]. apply Hnone.
  - intros c' Hc'. apply elem_of_union in Hc' as [Hc'|Hc']; [set_solver|].
    destruct (inv_owner _ _ _ I c' Hc') as [|[l Hl]]; [done|]. right. by exists l.
Qed.

Lemma inv_test p w g o c idle all a :
  acc_conn a = Some c -> (forall l, acc_on a l = None) ->
  (forall c', a = APop c' -> idle_threads p <> None) ->
  inv (mkSys p w g (ATest c) o) idle all -> inv (mkSys p w g a o) idle all.
Proof.
  intros Ha Hon Hp I. apply (inv_intro _ _ _ _ idle I); simpl; try done; try apply I.
  - intros l [H|[H|H]]; [apply (inv_dom _ _ _ I); simpl; auto|apply (inv_dom _ _ _ I); simpl; auto|]. rewrite Hon in H. by destruct H.
  - intros c' E. specialize (Hp c' E). intros ->. apply Hp.
    apply (rep_idle _ _ _ (inv_rep _ _ _ I)).
  - intros l t Ht. local_at I H Ht. unfold thread_ok; simpl. rewrite Hon. exact H.
Qed.

Lemma inv_do_pop p w g o c l p' idle all :
  reuseThread_pop p = Ret (l, p') ->
  inv (mkSys p w g (APop c) o) idle all ->
  exists idle', inv (mkSys p' w g (AAssign c l) o) idle' all.
Proof.
  intros Ep I. pose proof (inv_pop _ _ _ I c eq_refl) as Hne.
  destruct idle as [|l0 idle]; [done|].
  destruct (pop_rep _ _ _ _ (inv_rep _ _ _ I)) as (p1 & E & Hh & R). simpl in E.
  rewrite E in Ep. injection Ep as -> ->. exists idle.
  pose proof (rep_idle_nodup _ _ _ (inv_rep _ _ _ I)) as Hnd. apply NoDup_cons in Hnd as [Hl _].
  assert (l ∈ all) as Hall.
  { apply (rep_dom _ _ _ R). rewrite Hh.
    eapply chain_elem; [apply (inv_rep _ _ _ I)|set_solver]. }
  apply (inv_intro _ _ _ _ idle I); simpl; try done.
  - intros l' c'. unfold holds; simpl. by rewrite Hh.
  - pose proof (rep_count _ _ _ R). pose proof (rep_count _ _ _ (inv_rep _ _ _ I)). simpl in *. lia.
  - intros l' [H|[H|H]]; [apply (inv_dom _ _ _ I); simpl; auto|apply (inv_dom _ _ _ I); simpl; auto|].
    destruct (decide (l = l')) as [<-|]; [done|by destruct H].
  - intros l' t Ht. rewrite Hh in Ht. local_at I H Ht. unfold thread_ok; simpl.
    destruct (decide (l = l')) as [<-|Hn].
    + rewrite bool_decide_true in H by set_solver. rewrite (bool_decide_false (l ∈ idle)) by done.
      unfold local_ok in *. destruct (w !! l) as [[]|]; naive_solver.
    + rewrite (bool_decide_iff (l' ∈ idle) (l' ∈ l :: idle)) by set_solver. exact H.
Qed.

Lemma inv_do_assign p w g o c l idle all :
  inv (mkSys p w g (AAssign c l) o) idle all ->
  inv (mkSys (reuseThread_assign l c p) w g (AKick l) o) idle all.
Proof.
  intros I. pose proof (inv_acc_conn _ _ _ I c eq_refl) as [Hco Hc]. simpl in Hco.
  assert (l ∈ all) as Hall by (apply (inv_dom _ _ _ I); simpl; rewrite decide_True by done; eauto).
  destruct (obj_of _ _ _ _ I Hall) as [t Ht]. simpl in Ht. local_at I Hl Ht.
  rewrite decide_True in Hl by done. unfold local_ok in Hl.
  destruct (w !! l) as [[]|] eqn:Hw; try done. destruct Hl as (Hidl & Hpend & Hm1).
  apply bool_decide_eq_false in Hidl, Hpend.
  assert (forall l' t', l' <> l -> heap (reuseThread_assign l c p) !! l' = Some t' -> heap p !! l' = Some t') as Hne.
  { intros l' t' Hn. unfold reuseThread_assign; simpl. by rewrite !lookup_alter_ne by done. }
  assert (heap (reuseThread_assign l c p) !! l = Some (incr_connections (set_client_sock c t))) as Heq.
  { unfold reuseThread_assign; simpl. by rewrite !lookup_alter_eq, Ht. }
  set (s' := mkSys (reuseThread_assign l c p) w g (AKick l) o).
  assert (forall l' c', l' <> l -> holds s' l' c' <-> holds (mkSys p w g (AAssign c l) o) l' c') as Hho.
  { intros l' c' Hn. unfold holds, s', reuseThread_assign; simpl. by rewrite !lookup_alter_ne. }
  assert (forall c', holds s' l c' <-> c' = c) as Hhl.
  { intros c'. unfold holds, s'. cbn [Workers.pool workers]. rewrite Heq, Hw. split.
    - intros (_ & (t' & [= <-] & <-) & _). done.
    - intros ->. split; [done|]. split; [|done]. by eexists. }
  split; unfold s'; cbn [Workers.pool workers pending acc open_fds acc_on acc_conn]; try done.
  - apply upd_rep; [apply upd_rep; [apply I|links_kept|done]|links_kept|done].
  - by right.
  - intros l' [H|[H|H]]; [apply (inv_dom _ _ _ I); simpl; auto|apply (inv_dom _ _ _ I); simpl; auto|].
    destruct (decide (l = l')); [by subst|by destruct H].
  - intros l' t' Ht'. destruct (decide (l' = l)) as [->|Hn].
    + rewrite Heq in Ht'. injection Ht' as <-. unfold thread_ok; simpl.
      rewrite decide_True, Hw, !bool_decide_false by done. done.
    + apply Hne in Ht'; [|done]. local_at I H Ht'. unfold thread_ok; simpl.
      rewrite decide_False in H |- * by done. exact H.
  - intros l1 l2 c' H1 H2. destruct (decide (l1 = l)) as [->|N1], (decide (l2 = l)) as [->|N2]; [done|..].
    + apply Hhl in H1 as ->. apply (Hho _ _ N2) in H2. by destruct (inv_acc_excl _ _ _ I c l2 eq_refl).
    + apply Hhl in H2 as ->. apply (Hho _ _ N1) in H1. by destruct (inv_acc_excl _ _ _ I c l1 eq_refl).
    + apply (Hho _ _ N1) in H1. apply (Hho _ _ N2) in H2. by eapply (inv_excl _ _ _ I).
  - intros c' Hc'. right. destruct (inv_owner _ _ _ I c' Hc') as [[= <-]|[l' Hl']].
    + exists l. by apply Hhl.
    + exists l'. apply Hho; [|done]. intros ->. destruct Hl' as (H0 & (t' & Ht' & <-) & _).
      simpl in Ht'. simplify_eq. lia.
Qed.

Lemma inv_kick p w g o l idle all :
  inv (mkSys p w g (AKick l) o) idle all -> inv (mkSys p w ({[l]} ∪ g) AIdle o) idle all.
Proof.
  intros I.
  assert (l ∈ all) as Hall by (apply (inv_dom _ _ _ I); simpl; rewrite decide_True by done; eauto).
  apply (inv_intro _ _ _ _ idle I); simpl; try done; try apply I.
  - intros l' [H|[H|[? H]]]; [apply (inv_dom _ _ _ I); simpl; auto| |done].
    apply elem_of_union in H as [H|H]; [set_solver|apply (inv_dom _ _ _ I); simpl; auto].
  - intros l' t Ht. local_at I H Ht. unfold thread_ok; simpl.
    destruct (decide (l = l')) as [<-|Hn].
    + rewrite (bool_decide_true (l ∈ {[l]} ∪ g)) by set_solver.
      unfold local_ok in *. destruct (w !! l) as [[]|]; try done.
      destruct H as (-> & _ & H). done.
    + rewrite (bool_decide_iff (l' ∈ {[l]} ∪ g) (l' ∈ g)) by set_solver. exact H.
Qed.

Lemma inv_link p w g o c l p' idle all :
  newThread_link c p = (l, p') ->
  inv (mkSys p w g (ANew c) o) idle all -> inv (mkSys p' w g (ACreate l) o) idle (l :: all).
Proof.
  intros El I. pose proof (inv_acc_conn _ _ _ I c eq_refl) as [Hco Hc]. simpl in Hco.
  pose proof (inv_rep _ _ _ I) as R0. simpl in R0.
  assert (zlen all < 2 ^ 31 - 1) as Hn.
  { rewrite <-(rep_count _ _ _ R0). destruct (inv_count _ _ _ I); done. }
  pose proof (newThread_rep c p idle all R0 Hn) as HR. rewrite El in HR. destruct HR as [R Hl].
  assert (w !! l = None) as Hw.
  { destruct (w !! l) eqn:E; [|done]. destruct Hl. apply (inv_dom _ _ _ I). left. eauto. }
  assert (l ∉ g) as Hg by (intros H; apply Hl, (inv_dom _ _ _ I); simpl; auto).
  assert (l ∉ idle) as Hidle.
  { intros Hi. apply Hl, (rep_dom _ _ _ R0). by eapply chain_elem; [apply R0|]. }
  assert (exists t, heap p' !! l = Some t /\ client_sock t = c) as (t & Ht & Hsock).
  { unfold newThread_link in El. injection El as <- <-. simpl. rewrite lookup_insert_eq. by eexists. }
  assert (forall l', l' <> l -> heap p' !! l' = heap p !! l') as Hh.
  { intros l' Hl'. unfold newThread_link in El. injection El as <- <-. simpl.
    by rewrite lookup_insert_ne. }
  set (s' := mkSys p' w g (ACreate l) o).
  assert (forall l' c', l' <> l -> holds s' l' c' <-> holds (mkSys p w g (ANew c) o) l' c') as Hho.
  { intros l' c' H. unfold holds; simpl. by rewrite Hh. }
  assert (forall c', holds s' l c' <-> c' = c) as Hhl.
  { intros c'. unfold holds; simpl. rewrite Ht, Hw. split.
    - intros (_ & (t' & [= <-] & <-) & _). done.
    - intros ->. split; [done|]. split; [|done]. by eexists. }
  split; unfold s'; cbn [Workers.pool workers pending acc open_fds acc_on acc_conn]; try done.
  - by right.
  - intros l' [H|[H|H]]; [right; apply (inv_dom _ _ _ I); simpl; auto..|].
    destruct (decide (l = l')); [subst; left|by destruct H].
  - intros l' t' Ht'. destruct (decide (l' = l)) as [->|N].
    + rewrite Ht in Ht'. injection Ht' as <-. unfold thread_ok; simpl.
      rewrite decide_True, Hw, !bool_decide_false by done. rewrite Hsock. done.
    + rewrite Hh in Ht' by done. local_at I H Ht'. unfold thread_ok; simpl.
      rewrite decide_False by done. exact H.
  - intros l1 l2 c' H1 H2. destruct (decide (l1 = l)) as [->|N1], (decide (l2 = l)) as [->|N2]; [done|..].
    + apply Hhl in H1 as ->. apply (Hho _ _ N2) in H2. by destruct (inv_acc_excl _ _ _ I c l2 eq_refl).
    + apply Hhl in H2 as ->. apply (Hho _ _ N1) in H1. by destruct (inv_acc_excl _ _ _ I c l1 eq_refl).
    + apply (Hho _ _ N1) in H1. apply (Hho _ _ N2) in H2. by eapply (inv_excl _ _ _ I).
  - intros c' Hc'. right. destruct (inv_owner _ _ _ I c' Hc') as [[= <-]|[l' Hl']].
    + exists l. by apply Hhl.
    + exists l'. apply Hho; [|done]. intros ->. destruct Hl' as (_ & (t' & Ht' & _) & _). simpl in Ht'.
      apply Hl, (rep_dom _ _ _ R0). eauto.
Qed.

(** Moving worker [l] from one program point to another, neither of which is
    [Closed], the rest unchanged. *)
Lemma holds_insert p w g a o p2 g2 a2 o2 l x :
  x <> Closed -> w !! l <> Some Closed -> heap p2 = heap p ->
  forall l' c, holds (mkSys p2 (<[l := x]> w) g2 a2 o2) l' c <-> holds (mkSys p w g a o) l' c.
Proof.
  intros Hx Hw Hh l' c. unfold holds; simpl. rewrite Hh, lookup_insert. case_decide; [subst|done].
  assert (Some x <> Some Closed) by congruence. tauto.
Qed.

Lemma inv_create p w g o l idle all :
  inv (mkSys p w g (ACreate l) o) idle all -> inv (mkSys p (<[l := Serving]> w) g AIdle o) idle all.
Proof.
  intros I.
  assert (l ∈ all) as Hall by (apply (inv_dom _ _ _ I); simpl; rewrite decide_True by done; eauto).
  destruct (obj_of _ _ _ _ I Hall) as [t0 Ht0]. simpl in Ht0. local_at I H0 Ht0.
  rewrite decide_True in H0 by done. unfold local_ok in H0. destruct (w !! l) eqn:Hw; [done|].
  apply (inv_intro _ _ _ _ idle I); simpl; try done; try apply I.
  - apply holds_insert; [done|by rewrite Hw|done].
  - intros l' [H|[H|[? H]]]; [|apply (inv_dom _ _ _ I); simpl; auto|done].
    rewrite lookup_insert in H. case_decide; [by subst|apply (inv_dom _ _ _ I); simpl; auto].
  - intros l' t Ht. unfold thread_ok; simpl. rewrite lookup_insert.
    destruct (decide (l = l')) as [<-|N].
    + rewrite Ht in Ht0. injection Ht0 as ->. exact H0.
    + local_at I H1 Ht. rewrite decide_False in H1 by done. exact H1.
Qed.

Lemma inv_wake p w g a o l idle all :
  w !! l = Some Waiting -> l ∈ g ->
  inv (mkSys p w g a o) idle all -> inv (mkSys p (<[l := Serving]> w) (g ∖ {[l]}) a o) idle all.
Proof.
  intros Hw Hg I. apply (inv_intro _ _ _ _ idle I); simpl; try done; try apply I.
  - apply holds_insert; [done|by rewrite Hw|done].
  - intros l' [H|[H|H]]; [|apply (inv_dom _ _ _ I); set_solver|apply (inv_dom _ _ _ I); simpl; auto].
    rewrite lookup_insert in H. case_decide; subst; apply (inv_dom _ _ _ I); simpl; auto.
  - intros l' t Ht. local_at I H Ht. unfold thread_ok; simpl. rewrite lookup_insert.
    destruct (decide (l = l')) as [<-|N].
    + rewrite Hw, (bool_decide_true (l ∈ g)) in H by done.
      rewrite (bool_decide_false (l ∈ g ∖ {[l]})) by set_solver.
      unfold local_ok in *. destruct (acc_on a l) as [[]|]; [naive_solver..|].
      destruct (bool_decide (l ∈ idle)); naive_solver.
    + rewrite (bool_decide_iff (l' ∈ g ∖ {[l]}) (l' ∈ g)) by set_solver. exact H.
Qed.

(** A worker that is not asleep is neither on the idle stack, nor signalled, nor
    being handled by the accepting thread. *)
Lemma worker_busy s idle all l x :
  inv s idle all -> workers s !! l = Some x -> x <> Waiting ->
  exists t, heap (pool s) !! l = Some t /\ l ∈ all /\ l ∉ idle /\ l ∉ pending s /\
    acc_on (acc s) l = None /\ (x = Unset -> client_sock t = -1) /\
    (x = Serving -> live (open_fds s) (client_sock t)).
Proof.
  intros I Hw Hx. assert (l ∈ all) as Hall by (apply (inv_dom _ _ _ I); eauto).
  destruct (obj_of _ _ _ _ I Hall) as [t Ht]. exists t.
  pose proof (inv_local _ _ _ I _ _ Ht) as H. unfold thread_ok, local_ok in H. rewrite Hw in H.
  split; [done|]. split; [done|].
  destruct (acc_on (acc s) l) as [[]|], x; try done; destruct H as (H1 & H2 & H3) || destruct H as (H1 & H2);
    apply bool_decide_eq_false in H1, H2; naive_solver.
Qed.

Lemma inv_close p w g a o l t idle all :
  w !! l = Some Serving -> heap p !! l = Some t ->
  inv (mkSys p w g a o) idle all ->
  inv (mkSys p (<[l := Closed]> w) g a (o ∖ {[client_sock t]})) idle all.
Proof.
  intros Hw Ht I.
  destruct (worker_busy _ _ _ l _ I Hw ltac:(done)) as (t' & Ht' & Hall & Hidle & Hg & Ha & _ & Hlive).
  simpl in *. rewrite Ht in Ht'. injection Ht' as <-. destruct (Hlive eq_refl) as [Hco Hc].
  assert (holds (mkSys p w g a o) l (client_sock t)) as Hlh.
  { split; [done|]. split; [by eexists|]. simpl. by rewrite Hw. }
  set (s' := mkSys p (<[l := Closed]> w) g a (o ∖ {[client_sock t]})).
  assert (forall l' c', holds s' l' c' <-> l' <> l /\ holds (mkSys p w g a o) l' c') as Hh.
  { intros l' c'. unfold holds; simpl. rewrite lookup_insert. case_decide; naive_solver. }
  assert (forall l' c', l' <> l -> holds (mkSys p w g a o) l' c' -> c' <> client_sock t) as Hne.
  { intros l' c' N H ->. by apply N, (inv_excl _ _ _ I _ _ (client_sock t)). }
  split; unfold s'; simpl; try apply I.
  - intros l' [H|[H|H]]; [|apply (inv_dom _ _ _ I); simpl; auto..].
    rewrite lookup_insert in H. case_decide; [by subst|apply (inv_dom _ _ _ I); simpl; auto].
  - intros l' t' Ht'. local_at I H Ht'. unfold thread_ok; simpl. rewrite lookup_insert.
    destruct (decide (l = l')) as [<-|N].
    + rewrite Ha. unfold local_ok. rewrite !bool_decide_false by done. done.
    + destruct (decide (w !! l' = Some Closed)) as [E|E].
      * rewrite E in *. unfold local_ok in *. by destruct (acc_on a l') as [[]|].
      * eapply local_ok_mono; [|exact H]. intros [Hin H0]. split; [|done].
        apply elem_of_difference. split; [done|]. rewrite elem_of_singleton.
        apply (Hne l'); [done|]. split; [done|]. split; [by eexists|done].
  - intros c' Hc'. destruct (inv_acc_conn _ _ _ I c' Hc') as [H1 H2]. split; [|done].
    apply elem_of_difference. split; [done|]. rewrite elem_of_singleton. intros ->.
    by apply (inv_acc_excl _ _ _ I _ l Hc').
  - intros c' l' Hc' H. apply Hh in H as [_ H]. by apply (inv_acc_excl _ _ _ I _ l' Hc').
  - intros l1 l2 c' H1 H2. apply Hh in H1 as [_ H1], H2 as [_ H2]. by eapply (inv_excl _ _ _ I).
  - intros c' Hc'. apply elem_of_difference in Hc' as [Hc' N]. rewrite elem_of_singleton in N.
    destruct (inv_owner _ _ _ I c' Hc') as [|[l' Hl']]; [by left|]. right. exists l'.
    apply Hh. split; [|done]. intros ->. apply N. destruct Hl' as (_ & (t' & Ht' & <-) & _).
    simpl in Ht'. by simplify_eq.
Qed.

Lemma inv_unset p w g a o l idle all :
  w !! l = Some Closed ->
  inv (mkSys p w g a o) idle all ->
  inv (mkSys (upd l (set_client_sock (-1)) p) (<[l := Unset]> w) g a o) idle all.
Proof.
  intros Hw I.
  destruct (worker_busy _ _ _ l _ I Hw ltac:(done)) as (t & Ht & Hall & Hidle & Hg & Ha & _).
  simpl in *. apply (inv_intro _ _ _ _ idle I); simpl; try done; try apply I.
  - intros l' c'. unfold holds; simpl. rewrite lookup_insert, lookup_alter.
    destruct (decide (l = l')) as [<-|N]; [|done]. rewrite Ht, Hw. simpl.
    split; [intros (H & (t' & [= <-] & <-) & _); simpl in H; lia|]. intros (_ & _ & H). done.
  - intros l' [H|[H|H]]; [|apply (inv_dom _ _ _ I); simpl; auto..].
    rewrite lookup_insert in H. case_decide; [by subst|apply (inv_dom _ _ _ I); simpl; auto].
  - apply upd_rep; [apply I|links_kept|done].
  - intros l' t' Ht'. unfold thread_ok; simpl. rewrite lookup_alter in Ht'. rewrite lookup_insert.
    destruct (decide (l = l')) as [<-|N].
    + rewrite Ht in Ht'. injection Ht' as <-. rewrite Ha, !bool_decide_false by done. done.
    + local_at I H Ht'. exact H.
Qed.

Lemma inv_push p w g a o l idle all :
  w !! l = Some Unset ->
  inv (mkSys p w g a o) idle all ->
  inv (mkSys (releaseThread_push l p) (<[l := Waiting]> w) g a o) (l :: idle) all.
Proof.
  intros Hw I.
  destruct (worker_busy _ _ _ l _ I Hw ltac:(done)) as (t & Ht & Hall & Hidle & Hg & Ha & Hs & _).
  specialize (Hs eq_refl). simpl in *. apply (inv_intro _ _ _ _ (l :: idle) I); simpl; try done.
  - intros l' c'. unfold holds; simpl. rewrite lookup_insert, lookup_alter.
    destruct (decide (l = l')) as [<-|N]; [|done]. rewrite Ht, Hw. simpl.
    split; intros (H & (t' & [= <-] & <-) & _); simpl in H; lia.
  - intros l' [H|[H|H]]; [|apply (inv_dom _ _ _ I); simpl; auto..].
    rewrite lookup_insert in H. case_decide; [by subst|apply (inv_dom _ _ _ I); simpl; auto].
  - eapply push_rep; [apply I|done..].
  - intros l' t' Ht'. unfold thread_ok; simpl. rewrite lookup_alter in Ht'. rewrite lookup_insert.
    destruct (decide (l = l')) as [<-|N].
    + rewrite Ht in Ht'. injection Ht' as <-. rewrite Ha, (bool_decide_false (l ∈ g)) by done.
      rewrite (bool_decide_true (l ∈ l :: idle)) by set_solver. done.
    + local_at I H Ht'. rewrite (bool_decide_iff (l' ∈ l :: idle) (l' ∈ idle)) by set_solver. exact H.
Qed.

(** Every transition preserves the invariant, so every reachable state has it. *)
Lemma step_inv s s' idle all :
  step s s' -> inv s idle all -> exists idle' all', inv s' idle' all'.
Proof.
  intros Hs I. destruct Hs.
  - exists idle, all. by apply inv_accept.
  - exists idle, all. apply (inv_test _ _ _ _ c); [done|done|congruence|done].
  - exists idle, all. apply (inv_test _ _ _ _ c); [done|done|congruence|done].
  - destruct (inv_do_pop _ _ _ _ _ _ _ _ _ H I) as [idle' ?]. by exists idle', all.
  - exists idle, all. by apply inv_do_assign.
  - exists idle, all. by apply inv_kick.
  - exists idle, (l :: all). by eapply inv_link.
  - exists idle, all. by apply inv_create.
  - exists idle, all. by apply inv_close.
  - exists idle, all. by apply inv_unset.
  - exists (l :: idle), all. by apply inv_push.
  - exists idle, all. by apply inv_wake.
Qed.

Lemma reachable_inv s : reachable s -> exists idle all, inv s idle all.
Proof.
  intros H. assert (forall s0, rtc step s0 s -> (exists idle all, inv s0 idle all) ->
    exists idle all, inv s idle all) as Hgen.
  { clear H. intros s0 Hr. induction Hr as [|x y z Hxy _ IH]; [done|]. intros (idle & all & I).
    apply IH. by eapply step_inv. }
  apply (Hgen init H). exists [], []. apply init_inv.
Qed.

(** C4: in every interleaving, each open connection is held by exactly one
    thread, or by the accepting thread alone. *)
Theorem connections_exclusive s c :
  reachable s -> c ∈ open_fds s ->
  (acc_conn (acc s) = Some c /\ forall l, ~ holds s l c) \/
  (acc_conn (acc s) <> Some c /\ exists l, holds s l c /\ forall l', holds s l' c -> l' = l).
Proof.
  intros Hr Hc. destruct (reachable_inv _ Hr) as (idle & all & I).
  destruct (decide (acc_conn (acc s) = Some c)) as [E|E].
  - left. split; [done|]. intros l. by apply (inv_acc_excl _ _ _ I).
  - right. split; [done|]. destruct (inv_owner _ _ _ I c Hc) as [|[l Hl]]; [done|].
    exists l. split; [done|]. intros l' Hl'. by apply (inv_excl _ _ _ I _ _ c).
Qed.

(** C38: no wake-up is lost.  A sleeping worker that has been given a connection
    always has its SIGUSR1 pending, except between the assignment and the
    [pthread_kill] of the accepting thread, so it is able to resume. *)
Theorem no_lost_wakeup s l t :
  reachable s -> workers s !! l = Some Waiting -> heap (pool s) !! l = Some t ->
  0 <= client_sock t -> acc s <> AKick l ->
  l ∈ pending s /\ exists s', step s s' /\ workers s' !! l = Some Serving.
Proof.
  intros Hr Hw Ht Hc Ha. destruct (reachable_inv _ Hr) as (idle & all & I).
  pose proof (inv_local _ _ _ I _ _ Ht) as H. unfold thread_ok, local_ok in H. rewrite Hw in H.
  assert (l ∈ pending s) as Hp.
  { destruct (acc_on (acc s) l) as [[]|] eqn:E; [naive_solver lia|..|done|].
    - destruct (acc s); simpl in E; try case_decide; simplify_eq.
    - destruct (bool_decide (l ∈ idle)); [naive_solver lia|].
      destruct H as [H' _]. by apply bool_decide_eq_true in H'. }
  split; [done|]. destruct s as [p w g a o]. simpl in *.
  eexists. split; [by apply S_wake|]. simpl. apply lookup_insert_eq.
Qed.

(** the emptiness test made before the mutex is taken is sound: only the
    accepting thread removes threads from the stack, so the head it then pops
    exists. *)
Theorem unlocked_test_sound s c :
  reachable s -> acc s = APop c ->
  exists l p', reuseThread_pop (pool s) = Ret (l, p') /\ workers s !! l = Some Waiting.
Proof.
  intros Hr Ha. destruct (reachable_inv _ Hr) as (idle & all & I).
  pose proof (inv_pop _ _ _ I c Ha). destruct idle as [|l idle]; [done|].
  destruct (pop_rep _ _ _ _ (inv_rep _ _ _ I)) as (p' & E & _ & _). exists l, p'. split; [done|].
  destruct (chain_elem _ _ _ _ l (rep_idle _ _ _ (inv_rep _ _ _ I)) ltac:(set_solver)) as [t Ht].
  pose proof (inv_local _ _ _ I _ _ Ht) as Hok. unfold thread_ok, local_ok in Hok. rewrite Ha in Hok.
  rewrite (bool_decide_true (l ∈ l :: idle)) in Hok by set_solver. simpl in Hok.
  destruct (workers (s) !! l) as [[]|]; try done; naive_solver.
Qed.

Lemma rtc_eq (s s' : sys) : s = s' -> rtc step s s'.
Proof. intros ->. apply rtc_refl. Qed.

(** A run: connection 7 is accepted and served, ends, and its thread is being
    reused for connection 9. *)
Definition run_pool : ThreadPool := (newThread_link 7 new_ThreadPool).2.
Lemma run_serving : reachable (mkSys run_pool {[0%nat := Serving]} ∅ AIdle {[7]}).
Proof.
  eapply rtc_l; [by apply (S_accept _ _ _ _ 7)|].
  eapply rtc_l; [by apply S_test_none|]. eapply rtc_l; [by apply S_link|].
  eapply rtc_l; [apply S_create|]. apply rtc_eq. reflexivity.
Qed.

Lemma connections_exclusive_witness :
  let s := mkSys run_pool {[0%nat := Serving]} ∅ AIdle {[7]} in
  acc_conn (acc s) <> Some 7 /\ exists l, holds s l 7 /\ forall l', holds s l' 7 -> l' = l.
Proof.
  destruct (connections_exclusive _ 7 run_serving) as [[H _]|H]; [set_solver|done|exact H].
Defined.

Definition idle_pool : ThreadPool := releaseThread_push 0%nat (upd 0%nat (set_client_sock (-1)) run_pool).
Lemma run_popping :
  reachable (mkSys idle_pool {[0%nat := Waiting]} ∅ (APop 9) {[9]}).
Proof.
  unfold reachable. etrans; [apply run_serving|].
  eapply rtc_l; [by eapply (S_close _ _ _ _ _ 0%nat)|].
  eapply rtc_l; [by apply (S_unset _ _ _ _ _ 0%nat)|].
  eapply rtc_l; [by apply (S_push _ _ _ _ _ 0%nat)|].
  eapply rtc_l; [by apply (S_accept _ _ _ _ 9)|].
  eapply rtc_l; [by apply (S_test_idle _ _ _ _ _ 0%nat)|]. apply rtc_eq. reflexivity.
Qed.

Lemma unlocked_test_sound_witness :
  exists l p', reuseThread_pop idle_pool = Ret (l, p') /\
    ({[0%nat := Waiting]} : gmap loc worker) !! l = Some Waiting.
Proof. apply (unlocked_test_sound _ 9 run_popping). reflexivity. Defined.

Definition woken_pool : ThreadPool :=
  reuseThread_assign 0%nat 9 (set_idle None idle_pool).
Definition woken : sys := mkSys woken_pool {[0%nat := Waiting]} {[0%nat]} AIdle {[9]}.
Lemma run_woken : reachable woken.
Proof.
  unfold reachable. etrans; [apply run_popping|].
  eapply rtc_l; [by apply S_pop|]. eapply rtc_l; [apply S_assign|].
  eapply rtc_l; [apply S_kick|]. apply rtc_eq. reflexivity.
Qed.

Lemma no_lost_wakeup_witness :
  0%nat ∈ pending woken /\ exists s', step woken s' /\ workers s' !! 0%nat = Some Serving.
Proof.
  apply (no_lost_wakeup woken 0%nat (mkThread 0 9 2 [0; 0; 0] None None) run_woken);
    first [reflexivity | discriminate | simpl; lia].
Defined.

End Workers.
