(* ===== verification/Display.v ===== *)
(** * The screen: server/display.h and server/display.cpp

    The abstract class [Display] is a record of operations on the world the
    displays write to: the cells of the curses screen, the standard streams and
    the log file.  Messages reach [debug] and [error] already formatted. *)

From S2P Require Import Prelude CStd Util ThreadPool.
Import Pool.

Module Screen.

Definition DISPLAY_DEFAULT : Z := 1.
Definition DISPLAY_DEBUG : Z := 2.
Definition DISPLAY_DAEMON : Z := 3.
Definition DISPLAY_QUIET : Z := 4.

(** [fd_log] is [None] until [DisplayDaemon::init] opens the log file. *)
Record world := mkWorld {
  cells : gmap (Z * Z) byte;
  out : bytes;
  err : bytes;
  fd_log : option bytes
}.

(** [mvaddstr]: the characters go to consecutive cells of one line. *)
Fixpoint put_text (row col : Z) (text : bytes) (g : gmap (Z * Z) byte) : gmap (Z * Z) byte :=
  match text with
  | [] => g
  | b :: text => put_text row (col + 1) text (<[(row, col) := b]> g)
  end.
Definition mvaddstr (row col : Z) (text : bytes) (w : world) : world :=
  mkWorld (put_text row col text (cells w)) (out w) (err w) (fd_log w).
Definition clear (w : world) : world := mkWorld ∅ (out w) (err w) (fd_log w).
Definition cout (text : bytes) (w : world) : world := mkWorld (cells w) (out w ++ text) (err w) (fd_log w).
Definition cerr (text : bytes) (w : world) : world := mkWorld (cells w) (out w) (err w ++ text) (fd_log w).

(** [vfprintf(fd_log, ..)]: the stream is null before [init]. *)
Definition log (text : bytes) (w : world) : outcome world :=
  match fd_log w with
  | Some l => Ret (mkWorld (cells w) (out w) (err w) (Some (l ++ text)))
  | None => Undef
  end.

(** The virtual methods. *)
Record Display := mkDisplay {
  init : Z -> world -> world;
  new_thread : ConnectionThread -> world -> world;
  thread_update : ConnectionThread -> world -> world;
  cleanup : world -> outcome world;
  debug : bytes -> world -> outcome world;
  error : bytes -> world -> outcome world;
  refresh_thread : ConnectionThread -> nat -> world -> outcome world;
  status : ConnectionThread -> bool -> world -> world
}.

(** ** DisplayDefault *)

Definition info_label (http : bool) : list bytes :=
  if http then [bs "200"; bs "404"; bs "500"] else [bs "Info"; bs "Reads"; bs "Writes"].

(** [init] draws the two title lines. *)
Definition draw_labels (labels : list bytes) (w : world) : world :=
  fold_left (fun w il =>
    match snd il with
    | [] => w
    | label => mvaddstr 1 (24 + Z.of_nat (fst il) * 8) label w
    end) (imap pair labels) w.
Definition default_init (http : bool) (port : Z) (w : world) : world :=
  let buffer := bs "Server started on port " ++ to_decimal port in
  let w := mvaddstr 0 0 buffer (clear w) in
  let w := mvaddstr 1 0 (bs "Thread# Active? #Conn") w in
  draw_labels (info_label http) w.

(** The indices of [info] and of [info_label] are those of the request. *)
Definition default_refresh_thread (http : bool) (t : ConnectionThread) (i : nat) (w : world)
  : outcome world :=
  v ← of_access (info t !! i);
  label ← of_access (info_label http !! i);
  match label with
  | [] => Ret w
  | _ => Ret (mvaddstr (nb t + 2) (24 + Z.of_nat i * 8) (to_decimal v) w)
  end.
Definition default_thread_update (t : ConnectionThread) (w : world) : world :=
  mvaddstr (nb t + 2) 16 (to_decimal (nb_connections t)) w.
Definition default_status (t : ConnectionThread) (is_on : bool) (w : world) : world :=
  if is_on then mvaddstr (nb t + 2) 8 (bs "Y") w else mvaddstr (nb t + 2) 8 (bs ".") w.
Definition default_new_thread (t : ConnectionThread) (w : world) : world :=
  default_status t true (default_thread_update t (mvaddstr (nb t + 2) 0 (to_decimal (nb t)) w)).

(** [vsprintf] into [char buffer[256]]. *)
Definition default_error (message : bytes) (w : world) : outcome world :=
  if zlen message + 1 <=? 256 then Ret (mvaddstr 6 0 message w) else Undef.

Definition DisplayDefault (http : bool) : Display :=
  mkDisplay (default_init http) default_new_thread default_thread_update Ret
    (fun _ w => Ret w) default_error (default_refresh_thread http) default_status.

(** ** DisplayDebug *)

Section displays.
(** [tv_usec] when [gettimeofday] is called, and [debug_flag]. *)
Variable tv_usec : Z.
Variable debug_flag : bool.

Definition started (port : Z) : bytes := bs "Server started on port " ++ to_decimal port ++ [nl].
Definition stamp : bytes := bs "[" ++ to_decimal (tv_usec / 1000) ++ bs "] ".

Definition DisplayDebug : Display :=
  mkDisplay (fun port => cout (started port))
    (fun t => cout (bs "Created thread " ++ to_decimal (nb t) ++ [nl]))
    (fun _ w => w) Ret
    (fun message w => Ret (cout (stamp ++ message) w))
    (fun message w => Ret (cerr message w))
    (fun _ _ w => Ret w)
    (fun t is_on =>
       cout (stamp ++ (if is_on then bs "Resumed thread " else bs "Release thread ") ++
             to_decimal (nb t) ++ [nl])).

(** ** DisplayDaemon: [existing] is the log file [fopen(.., "a+")] finds. *)

Definition DisplayDaemon (existing : bytes) : Display :=
  mkDisplay (fun _ w => mkWorld (cells w) (out w) (err w) (Some existing))
    (fun _ w => w) (fun _ w => w)
    (fun w => match fd_log w with Some _ => Ret w | None => Undef end)
    (fun message w => if negb debug_flag then Ret w else log message w)
    log (fun _ _ w => Ret w) (fun _ _ w => w).

(** ** DisplayQuiet *)

Definition DisplayQuiet : Display :=
  mkDisplay (fun port => cout (started port)) (fun _ w => w) (fun _ w => w) Ret
    (fun _ w => Ret w) (fun message w => Ret (cerr message w)) (fun _ _ w => Ret w) (fun _ _ w => w).

(** [select_display]. *)
Definition select_display (existing_log : bytes) (display_code : Z) (http : bool) : Display :=
  if display_code =? DISPLAY_DEFAULT then DisplayDefault http
  else if display_code =? DISPLAY_DEBUG then DisplayDebug
  else if display_code =? DISPLAY_DAEMON then DisplayDaemon existing_log
  else if display_code =? DISPLAY_QUIET then DisplayQuiet
  else DisplayDefault http.
(** The same with the constructor of [DisplayDefault], on the result of its
    [pthread_mutex_init]. *)
Definition make_display (mutex_init : Z) (existing_log : bytes) (display_code : Z) (http : bool) : outcome Display :=
  if negb (existsb (Z.eqb display_code) [DISPLAY_DEBUG; DISPLAY_DAEMON; DISPLAY_QUIET]) && negb (mutex_init =? 0)
  then Throw Util.FAILURE_MUTEX_INIT else Ret (select_display existing_log display_code http).
End displays.

(** ** What the table shows *)

Definition text_at (g : gmap (Z * Z) byte) (row col : Z) (n : nat) : list (option byte) :=
  map (fun i => g !! (row, col + Z.of_nat i)) (seq 0 n).

Lemma put_text_other row col text g r c :
  r <> row \/ c < col \/ col + zlen text <= c -> put_text row col text g !! (r, c) = g !! (r, c).
Proof.
  revert col g. induction text as [|b text IH]; intros col g Hd; [done|]. cbn [put_text].
  rewrite zlen_cons in Hd. pose proof (zlen_nonneg text).
  rewrite IH by lia. apply lookup_insert_ne. intros [= <- <-]. lia.
Qed.

Lemma put_text_at row text : forall col g i b,
  text !! i = Some b -> put_text row col text g !! (row, col + Z.of_nat i) = Some b.
Proof.
  induction text as [|a text IH]; intros col g i b Hi; [done|]. cbn [put_text].
  destruct i as [|i]; simpl in Hi.
  - injection Hi as ->. rewrite put_text_other by lia. rewrite Z.add_0_r. apply lookup_insert_eq.
  - replace (col + Z.of_nat (S i)) with (col + 1 + Z.of_nat i) by lia. by apply IH.
Qed.

Lemma text_at_put row col text g : text_at (put_text row col text g) row col (length text) = map Some text.
Proof.
  apply list_eq. intros i. unfold text_at. rewrite !list_lookup_fmap.
  destruct (decide (i < length text)%nat) as [Hi|Hi].
  - rewrite lookup_seq_lt by done. destruct (lookup_lt_is_Some_2 text i Hi) as [b Hb].
    rewrite Hb. simpl. f_equal. by apply put_text_at.
  - rewrite lookup_seq_ge by lia. rewrite lookup_ge_None_2 by lia. done.
Qed.

(** The text of a column of a thread's line. *)
Definition shows (w : world) (t : ConnectionThread) (col : Z) (text : bytes) : Prop :=
  text_at (cells w) (nb t + 2) col (length text) = map Some text.

Lemma shows_mvaddstr w t col text : shows (mvaddstr (nb t + 2) col text w) t col text.
Proof. apply text_at_put. Qed.

Lemma shows_frame w t col text row' col' text' :
  shows w t col text ->
  row' <> nb t + 2 \/ col + zlen text <= col' \/ col' + zlen text' <= col ->
  shows (mvaddstr row' col' text' w) t col text.
Proof.
  unfold shows. intros <- Hd. apply map_ext_in. intros i Hi. apply in_seq in Hi. simpl.
  apply put_text_other. unfold zlen in *. lia.
Qed.

(** The line of a thread: its number, whether it is active, its number of
    connections and its three counters. *)
Definition columns (t : ConnectionThread) (is_on : bool) : list (Z * bytes) :=
  [(0, to_decimal (nb t)); (8, if is_on then bs "Y" else bs "."); (16, to_decimal (nb_connections t))] ++
  imap (fun i v => (24 + Z.of_nat i * 8, to_decimal v)) (info t).
Definition line_shows (w : world) (t : ConnectionThread) (is_on : bool) : Prop :=
  Forall (fun c => shows w t c.1 c.2) (columns t is_on).
(** No text is wider than its column. *)
Definition line_fits (t : ConnectionThread) : Prop :=
  Forall (fun c => zlen c.2 <= 8) (columns t true).

(** A line survives whatever is written on another line. *)
Lemma line_frame w t is_on row col text :
  row <> nb t + 2 -> line_shows w t is_on -> line_shows (mvaddstr row col text w) t is_on.
Proof.
  intros Hr Hw. eapply Forall_impl; [exact Hw|]. intros c Hc. apply shows_frame; [done|by left].
Qed.

(** counting a request keeps every line of the table up to date: the
    displayed counter of the thread becomes the new one, its other columns and
    the lines of the other threads keep what they show, as long as no number is
    wider than its column. *)
Theorem refresh_thread_correct http w t i t' is_on :
  length (info t) = 3%nat -> incr_info i t = Ret t' ->
  line_shows w t is_on -> line_fits t' ->
  exists w', default_refresh_thread http t' i w = Ret w' /\ line_shows w' t' is_on /\
    forall t2 on2, nb t2 <> nb t -> line_shows w t2 on2 -> line_shows w' t2 on2.
Proof.
  intros Hl Hi Hw Hfit. destruct (info t) as [|a [|b [|c [|]]]] eqn:Ei; try discriminate. clear Hl.
  unfold incr_info in Hi. rewrite Ei in Hi.
  unfold line_shows, line_fits, columns in *. rewrite Ei in Hw.
  assert (forall w0 text col t2 on2, nb t2 <> nb t ->
     Forall (fun c => shows w0 t2 c.1 c.2) (columns t2 on2) ->
     Forall (fun c => shows (mvaddstr (nb t + 2) col text w0) t2 c.1 c.2) (columns t2 on2)) as Hf.
  { intros. apply line_frame; [lia|done]. }
  unfold columns in Hf.
  assert (zlen (if is_on then bs "Y" else bs ".") = 1) as HY by by destruct is_on.
  cbn in HY. destruct i as [|[|[|i]]]; simpl in Hi; try discriminate; injection Hi as <-;
    cbn in Hfit, Hw |- *; rewrite !Forall_cons in Hfit, Hw; cbn [fst snd] in Hw, Hfit;
    destruct Hw as (H1 & H2 & H3 & H4 & H5 & H6 & _), Hfit as (F1 & F2 & F3 & F4 & F5 & F6 & _);
    (eexists; split; [unfold default_refresh_thread; simpl; destruct http; reflexivity|]; split;
      [rewrite !Forall_cons; cbn [fst snd]; repeat split; try apply Forall_nil; try done;
       first [refine (shows_mvaddstr _ (mkThread _ _ _ _ _ _) _ _) | apply shows_frame; [done|]; right; lia]
      | intros t2 on2 Hne H; by apply Hf]).
Qed.

Definition blank : world := mkWorld ∅ [] [] None.
Definition shown_thread : ConnectionThread := mkThread 3 7 12 [4; 99; 0] None None.
Lemma refresh_thread_correct_witness :
  let w := default_new_thread shown_thread blank in
  let w := mvaddstr 5 24 (bs "4") (mvaddstr 5 32 (bs "99") (mvaddstr 5 40 (bs "0") w)) in
  exists w', default_refresh_thread false (mkThread 3 7 12 [4; 100; 0] None None) 1 w = Ret w' /\
    line_shows w' (mkThread 3 7 12 [4; 100; 0] None None) true.
Proof.
  intros w w0.
  destruct (refresh_thread_correct false w0 shown_thread 1 (mkThread 3 7 12 [4; 100; 0] None None) true)
    as (w' & E & L & _); [done|done| | |by exists w'];
    repeat (apply Forall_cons; split); try apply Forall_nil; vm_compute; done.
Defined.

End Screen.
