(* ===== verification/Server.v ===== *)
(** * The server base class and the daemon: server/server.cpp, server/sawad.cpp

    [Server] opens the listening socket and hands every accepted connection to
    the thread pool; [Daemon] has the options of [main] and the fork ([main] itself is
    in Program).  The operating system's answers ([socket], [bind], [accept],
    [pthread_create]) are arguments. *)

From S2P Require Import Prelude CStd Util ThreadPool Display.
Import Pool.

Module Server.

Record t := mk { socket_desc : Z; port : Z }.

(** [Server::Server]: [socket_result] and [bind_result] are what the two calls
    return; the debug information set before an exception is kept. *)
Definition new (socket_result bind_result port : Z) (d : Util.debug_info)
  : outcome t * Util.debug_info :=
  if socket_result =? -1 then (Throw Util.FAILURE_CREATE_SOCKET, Util.setDebugInt port d)
  else if bind_result <? 0 then (Throw Util.FAILURE_BIND, Util.setDebugInt port d)
  else (Ret (mk socket_result port), d).

(** [Server::start]: each element is what [accept] returns and what
    [pthread_create] would return for that connection; at the end of the list
    the call to [accept] blocks, and the function has not returned ([None]). *)
Fixpoint start (accepts : list (Z * Z)) (p : ThreadPool) : option (outcome unit) * outcome ThreadPool :=
  match accepts with
  | [] => (None, Ret p)
  | (client_sock, create_result) :: accepts =>
      if negb (client_sock =? 0) then
        match handleNewConnection create_result client_sock p with
        | Ret (_, p) => start accepts p
        | Throw c => (Some (Throw c), Ret p)
        | Undef => (Some Undef, Ret p)
        end
      else
        (Some (if client_sock <? 0 then Throw Util.FAILURE_ACCEPT else Ret tt), Ret p)
  end.

(** [Server::stop]: the connections that are shut down; the admin thread and the
    screen are released. *)
Definition stop (screen : Screen.Display) (p : ThreadPool) (w : Screen.world)
  : outcome (list Z * Screen.world) :=
  '(shut, _) ← delete_ThreadPool p;
  w ← Screen.debug screen (bs "Shutting down...(" ++ to_decimal (zlen shut) ++ bs " connections dropped)" ++ [nl]) w;
  w ← Screen.cleanup screen w;
  Ret (shut, w).

(** [Server::updateScreen]. *)
Definition updateScreen (screen : Screen.Display) (idx : nat) (thread_info : ConnectionThread)
    (w : Screen.world) : outcome (ConnectionThread * Screen.world) :=
  thread_info ← incr_info idx thread_info;
  w ← Screen.refresh_thread screen thread_info idx w;
  Ret (thread_info, w).

(** ** Accepting connections *)

(** Without any release in between, the connections take the idle threads, last
    released first, and then new threads. *)
Definition serving (p : ThreadPool) (l : loc) (c : Z) : Prop :=
  exists t, heap p !! l = Some t /\ client_sock t = c.

Lemma start_step c r accepts p idle all :
  pool_rep p idle all -> zlen all < 2 ^ 31 - 1 -> 0 < c -> 0 <= r ->
  exists l p' idle' all', start ((c, r) :: accepts) p = start accepts p' /\
    pool_rep p' idle' all' /\ serving p' l c /\
    idle' = tail idle /\ all' = (match idle with [] => [l] | _ => [] end) ++ all.
Proof.
  intros R Hl Hc Hr. cbn [start]. rewrite (proj2 (Z.eqb_neq c 0)) by lia. cbn [negb].
  destruct (handleNewConnection_refines p idle all c r R Hl ltac:(lia) Hr) as (l & p' & E & Hs & H).
  rewrite E. exists l, p'. destruct idle as [|l' idle]; destruct H as [Hl' R'].
  - exists [], (l :: all). done.
  - exists idle, all. done.
Qed.

(** as long as [accept] succeeds, [start] does not return, and every
    connection is handed over: the threads that were idle are used up before new
    ones are created, one per further connection. *)
Theorem start_serves accepts : forall p idle all,
  pool_rep p idle all -> zlen all + zlen accepts < 2 ^ 31 - 1 ->
  Forall (fun a => 0 < a.1 /\ 0 <= a.2) accepts ->
  exists p' new, start accepts p = (None, Ret p') /\
    pool_rep p' (drop (length accepts) idle) (new ++ all) /\
    length new = (length accepts - length idle)%nat.
Proof.
  induction accepts as [|[c r] accepts IH]; intros p idle all R Hl Ha.
  - exists p, []. rewrite drop_0. done.
  - apply Forall_cons in Ha as [[Hc Hr] Ha]. simpl in Hc, Hr. rewrite zlen_cons in Hl.
    pose proof (zlen_nonneg accepts).
    destruct (start_step c r accepts p idle all R ltac:(lia) Hc Hr) as (l & p1 & idle1 & all1 & E & R1 & _ & -> & ->).
    destruct (IH p1 _ _ R1) as (p2 & new & E2 & R2 & Hn); [|done|].
    { destruct idle; simpl; [rewrite zlen_cons|]; lia. }
    rewrite E, E2. exists p2, (new ++ match idle with [] => [l] | _ => [] end).
    split; [done|]. rewrite <-app_assoc. split.
    + destruct idle; simpl in R2 |- *; [by rewrite drop_nil in R2|done].
    + rewrite length_app, Hn. destruct idle; simpl; lia.
Qed.

(** [start] never reports [FAILURE_ACCEPT]: the loop condition takes the -1
    of a failed [accept] for a connection, which gets a thread like any other. *)
Theorem start_accept_failure accepts p :
  (start accepts p).1 <> Some (Throw Util.FAILURE_ACCEPT) /\
  forall r, 0 <= r -> start [(-1, r)] new_ThreadPool =
    (None, Ret (newThread_link (-1) new_ThreadPool).2).
Proof.
  split.
  - revert p. induction accepts as [|[c r] accepts IH]; intros p; [done|]. cbn [start].
    destruct (Z.eqb_spec c 0) as [->|]; cbn [negb]; [done|].
    unfold handleNewConnection, reuseThread, reuseThread_pop, deref, of_access.
    destruct (idle_threads p); cbn [mbind outcome_bind].
    + destruct (heap p !! _); cbn [mbind outcome_bind]; [apply IH|done].
    + destruct (newThread r c p). apply IH.
  - intros r Hr. cbn. unfold newThread. simpl. done.
Qed.

Lemma start_serves_witness :
  exists p' new, start [(9, 0); (10, 0)] example_pool = (None, Ret p') /\
    pool_rep p' [] (new ++ [1; 0]%nat) /\ length new = 1%nat.
Proof.
  apply (start_serves [(9, 0); (10, 0)] example_pool [0%nat] [1; 0]%nat);
    [apply example_pool_rep|done|by repeat constructor].
Defined.

End Server.

Module Daemon.

Record options := mkOptions { daemon : bool; http : bool; quiet : bool; debug_flag : bool; towa_flag : bool }.
Definition no_options : options := mkOptions false false false false false.

(** The loop over [argv]: [None] when [-help] ends the program. *)
Fixpoint parse (args : list bytes) (o : options) : option options :=
  match args with
  | [] => Some o
  | a :: args =>
      let o := if bool_decide (a = bs "-daemon") then mkOptions true (http o) (quiet o) (debug_flag o) (towa_flag o) else o in
      let o := if bool_decide (a = bs "-debug") then mkOptions (daemon o) (http o) (quiet o) true (towa_flag o) else o in
      let o := if bool_decide (a = bs "-towa") then mkOptions (daemon o) (http o) (quiet o) (debug_flag o) true else o in
      let o := if bool_decide (a = bs "-quiet") then mkOptions (daemon o) (http o) true (debug_flag o) (towa_flag o) else o in
      if bool_decide (a = bs "-help") then None
      else
        let o := if bool_decide (a = bs "-http") then mkOptions (daemon o) true (quiet o) (debug_flag o) (towa_flag o) else o in
        parse args o
  end.

Definition display_code (o : options) : Z :=
  if daemon o then Screen.DISPLAY_DAEMON
  else if debug_flag o then Screen.DISPLAY_DEBUG
  else if quiet o then Screen.DISPLAY_QUIET
  else Screen.DISPLAY_DEFAULT.

Lemma bool_decide_cons (x a : bytes) args :
  bool_decide (x ∈ a :: args) = bool_decide (a = x) || bool_decide (x ∈ args).
Proof.
  apply eq_true_iff_eq. rewrite orb_true_iff, !bool_decide_eq_true, elem_of_cons. naive_solver.
Qed.

(** every option is recognised wherever it stands, repeated or not. *)
Theorem parse_spec args : forall o,
  bs "-help" ∉ args ->
  parse args o = Some (mkOptions (daemon o || bool_decide (bs "-daemon" ∈ args))
    (http o || bool_decide (bs "-http" ∈ args)) (quiet o || bool_decide (bs "-quiet" ∈ args))
    (debug_flag o || bool_decide (bs "-debug" ∈ args)) (towa_flag o || bool_decide (bs "-towa" ∈ args))).
Proof.
  induction args as [|a args IH]; intros o Hh.
  - cbn [parse]. rewrite !(bool_decide_eq_false_2 (_ ∈ [])) by apply not_elem_of_nil.
    rewrite !orb_false_r. by destruct o.
  - apply not_elem_of_cons in Hh as [Hne Hh]. cbn [parse]. cbv zeta.
    rewrite (bool_decide_eq_false_2 (a = bs "-help")) by congruence. rewrite IH by done.
    rewrite !bool_decide_cons. f_equal.
    destruct (bool_decide (a = bs "-daemon")), (bool_decide (a = bs "-debug")),
      (bool_decide (a = bs "-towa")), (bool_decide (a = bs "-quiet")), (bool_decide (a = bs "-http")),
      (daemon o) eqn:E1, (http o) eqn:E2, (quiet o) eqn:E3, (debug_flag o) eqn:E4, (towa_flag o) eqn:E5; reflexivity.
Qed.

Lemma parse_spec_witness :
  parse [bs "-quiet"; bs "-http"; bs "-quiet"] no_options = Some (mkOptions false true true false false).
Proof. etrans; [apply (parse_spec [bs "-quiet"; bs "-http"; bs "-quiet"] no_options)|reflexivity].
  rewrite !not_elem_of_cons. repeat split; try discriminate. apply not_elem_of_nil.
Defined.

(** [start_as_daemon]: the exit code of the process that was started, and
    whether the child goes on to [Server::start]. *)
Definition EXIT_SUCCESS : Z := 0.
Definition EXIT_FAILURE : Z := 1.
Inductive daemon_process := Exit (code : Z) | Serve.
Definition start_as_daemon (fork_result setsid_result : Z) : daemon_process :=
  if fork_result <? 0 then Exit EXIT_FAILURE
  else if 0 <? fork_result then Exit EXIT_SUCCESS
  else if setsid_result <? 0 then Exit EXIT_FAILURE
  else Serve.

End Daemon.
