(* ===== verification/Proto.v ===== *)
(** * The client/server protocol: protocol.md, server/sawa.h

    The command codes, the messages the documentation describes, the abstract
    block device a server stands for, and the interface ([BlockDevice]) the
    clients are verified against. *)

From S2P Require Import Prelude CStd.

Definition SAWA_INFO : Z := 1.
Definition SAWA_READ : Z := 2.
Definition SAWA_WRITE : Z := 3.
Definition SAWA_STOP : Z := 4.
Definition SAWA_STAT : Z := 5.
Definition SAWA_MSG_OK : Z := 66.
Definition SAWA_MSG_ERR : Z := 67.
Definition SAWA_MSG_NOAUTH : Z := 68.

Module Proto.

(** ** Messages *)

Inductive request :=
| Info
| Read (offset size : Z)
| Write (offset : Z) (data : bytes).

(** The message without its length prefix. *)
Definition body (r : request) : bytes :=
  match r with
  | Info => [z2b SAWA_INFO]
  | Read off n => z2b SAWA_READ :: put_u32 off ++ put_u32 n
  | Write off data => z2b SAWA_WRITE :: put_u32 off ++ data
  end.
(** "A 4-bytes unsigned integer which tells how long is the message (excluding
    the present integer)", then the message. *)
Definition frame (r : request) : bytes := put_u32 (zlen (body r)) ++ body r.

(** Messages the server reads completely and whose range does not wrap around
    in 32 bits. *)
Definition wf_request (r : request) : Prop :=
  match r with
  | Info => True
  | Read off n => 0 <= off /\ 0 <= n /\ off + n < 2 ^ 32
  | Write off data => 0 <= off /\ off + zlen data < 2 ^ 32 /\ 5 + zlen data <= 32768
  end.
#[export] Instance wf_request_dec r : Decision (wf_request r).
Proof. destruct r; simpl; apply _. Defined.

(** ** The abstract device *)

Definition exec (r : request) (disk : bytes) : bytes * bytes :=
  match r with
  | Info => (put_u32 (zlen disk / 512), disk)
  | Read off n =>
      if off + n <=? zlen disk then (load disk off n, disk) else ([z2b SAWA_MSG_NOAUTH], disk)
  | Write off data =>
      if off + zlen data <=? zlen disk then ([z2b SAWA_MSG_OK], store disk off data)
      else ([z2b SAWA_MSG_NOAUTH], disk)
  end.

Fixpoint exec_all (rs : list request) (disk : bytes) : bytes * bytes :=
  match rs with
  | [] => ([], disk)
  | r :: rs =>
      let (reply, disk) := exec r disk in
      let (replies, disk) := exec_all rs disk in
      (reply ++ replies, disk)
  end.

Lemma zlen_exec r disk : wf_request r -> zlen (exec r disk).2 = zlen disk.
Proof.
  destruct r as [|off n|off data]; simpl; intros H; [done| |].
  - by destruct (_ <=? _).
  - destruct (_ <=? _) eqn:E; [|done]. bool_to_prop. apply zlen_store; lia.
Qed.

Lemma zlen_body_pos r : 0 < zlen (body r).
Proof. destruct r; simpl; rewrite zlen_cons; zlen_solve. Qed.
Lemma zlen_body_le r : wf_request r -> zlen (body r) <= 32768.
Proof. destruct r; intros H; cbn [body wf_request] in *; [done|done|]. rewrite zlen_cons, zlen_app, zlen_put_u32. lia. Qed.

End Proto.

(** ** What a block device promises to its clients

    [dev_handle] runs one message body on the device and returns the bytes sent
    back.  The laws state the protocol: requests are answered as the abstract
    device answers them. *)

Class BlockDevice (D : Type) := {
  dev_wf : D -> Prop;
  dev_contents : D -> bytes;
  dev_handle : bytes -> D -> outcome (bytes * D);
}.

Class BlockDeviceLaws (D : Type) `{BlockDevice D} := {
  dev_exec : forall d r,
    dev_wf d -> Proto.wf_request r ->
    exists d', dev_handle (Proto.body r) d = Ret ((Proto.exec r (dev_contents d)).1, d') /\
               dev_wf d' /\ dev_contents d' = (Proto.exec r (dev_contents d)).2;
}.
