(* ===== verification/SawaSrv.v ===== *)
(** * The SaWa file server: server/sawa_srv.cpp

    [SawaServer] answers INFO, READ and WRITE requests on a flat file.  The
    state is the number of sectors and the [FILE]; what the operating system
    answers to each file operation is the argument [io], and memory the code
    does not initialise comes from the [Heap].  The constructor shows a message when
    it creates the file. *)

From S2P Require Import Prelude CStd Util ThreadPool Display Proto.
Import Pool.

Module SawaServer.

Record t := mk { nb_sectors : Z; fp : FILE }.

Definition set_fp (f : FILE) (s : t) : t := mk (nb_sectors s) f.

Definition SAWA_INFO_COL : nat := 0.
Definition SAWA_READ_COL : nat := 1.
Definition SAWA_WRITE_COL : nat := 2.

(** [SawaServer::sendInfo]: the bytes written to the socket. *)
Definition sendInfo (s : t) : bytes := put_u32 (nb_sectors s).

(** [SawaServer::checkValidRequest]: the sums and the product are computed on
    [uint32_t]. *)
Definition checkValidRequest (s : t) (offset size : Z) : bool * bytes :=
  if u32 (size + offset) <=? u32 (nb_sectors s * 512) then (true, [])
  else (false, [z2b SAWA_MSG_NOAUTH]).

Section with_heap.
Context `{Heap}.

(** [SawaServer::readFile]: the results of [fseek] and [fread] are ignored. *)
Definition readFile (io : io_fault) (s : t) (offset size : Z) : bytes * t :=
  let (ok, err) := checkValidRequest s offset size in
  if negb ok then (err, s)
  else
    let (_, f) := fseek io (fp s) offset in
    let (data, f) := fread io f size in
    (fill size data, set_fp f s).

(** [SawaServer::writeFile]. [fwrite] returns a [size_t], which is never
    negative. *)
Definition writeFile (io : io_fault) (s : t) (addr : bytes) (offset size : Z) : bytes * t :=
  let (ok, err) := checkValidRequest s offset size in
  if negb ok then (err, s)
  else
    let (r, f) := fseek io (fp s) offset in
    if 0 <=? r then
      let (n, f) := fwrite io f (ztake size addr) in
      if 0 <=? n then ([z2b SAWA_MSG_OK], set_fp f s)
      else ([z2b SAWA_MSG_ERR], set_fp f s)
    else ([z2b SAWA_MSG_ERR], set_fp f s).

(** [SawaServer::processRequest]: the bytes sent, the server and the object of
    the thread, whose statistics [updateScreen] increments. *)
Definition processRequest (io : io_fault) (s : t) (thread_info : ConnectionThread)
    (addr : bytes) (size : Z) : outcome (bytes * t * ConnectionThread) :=
  op ← peek addr 0;
  if b2z op =? SAWA_INFO then
    ti ← incr_info SAWA_INFO_COL thread_info; Ret (sendInfo s, s, ti)
  else
    offset ← peek_u32 addr 1;
    if b2z op =? SAWA_READ then
      size ← peek_u32 addr 5;
      let (out, s) := readFile io s offset size in
      ti ← incr_info SAWA_READ_COL thread_info; Ret (out, s, ti)
    else if b2z op =? SAWA_WRITE then
      let size := u32 (size - 5) in
      let (out, s) := writeFile io s (zdrop 5 addr) offset size in
      ti ← incr_info SAWA_WRITE_COL thread_info; Ret (out, s, ti)
    else Ret ([], s, thread_info).

(** [SawaServer::readData], which serves a connection until it ends.  [ios k]
    are the operating system's answers to the [k]-th command.  [None] means the
    fuel is exhausted. *)
Fixpoint readData (fuel : nat) (ios : nat -> io_fault) (s : t) (thread_info : ConnectionThread)
    (sk : sock) : option (outcome (t * ConnectionThread * sock)) :=
  match fuel with
  | O => None
  | S fuel =>
      let (n, sk) := sock_read 4 sk in
      match n with
      | None => Some (Ret (s, thread_info, sk))
      | Some hdr =>
          if zlen hdr <? 4 then Some (Ret (s, thread_info, sk))
          else
            let expected_size := get_u32 hdr in
            if 32768 <? expected_size then Some (Ret (s, thread_info, sk))
            else if 0 <? expected_size then
              let (n, sk) := sock_read expected_size sk in
              match n with
              | None => Some (Ret (s, thread_info, sk))
              | Some data =>
                  match processRequest (ios O) s thread_info (fill expected_size data) expected_size with
                  | Ret (out, s, thread_info) =>
                      readData fuel (fun k => ios (S k)) s thread_info (sock_write out sk)
                  | Throw c => Some (Throw c)
                  | Undef => Some Undef
                  end
              end
            else readData fuel ios s thread_info sk
      end
  end.

End with_heap.

(** [SawaServer::getFilesystemFile]: [existing] is the file if [fopen(.., "r+")]
    finds it, [can_create] whether [fopen(.., "w+")] succeeds, [io] the answer to the
    [fwrite], which is not looked at.  The message that the file is created goes to
    the screen, whose [init] has not been called yet. *)
Definition creating : bytes := bs "Filesystem file does not exist, creating it..." ++ [nl].
Definition getFilesystemFile (screen : Screen.Display) (w : Screen.world) (io : io_fault) (existing : option bytes)
    (can_create : bool) (nb_sectors : Z) : outcome FILE * Screen.world :=
  match existing with
  | Some data => (Ret (mkFILE data 0), w)
  | None =>
      match Screen.debug screen creating w with
      | Ret w =>
          (if can_create then
             let nb_bytes := nb_sectors * 512 in
             Ret (fwrite io (mkFILE [] 0) (zrepeat nb_bytes nul)).2
           else Throw Util.FAILURE_OPEN_FILE, w)
      | Throw e => (Throw e, w)
      | Undef => (Undef, w)
      end
  end.

(** [SawaServer::SawaServer]. *)
Definition new (screen : Screen.Display) (w : Screen.world) (io : io_fault) (existing : option bytes) (can_create : bool)
  : outcome t * Screen.world :=
  let (f, w) := getFilesystemFile screen w io existing can_create 2048 in
  (f ← f; Ret (mk 2048 f), w).
Lemma getFilesystemFile_created screen w w' n :
  Screen.debug screen creating w = Ret w' -> 0 < n ->
  getFilesystemFile screen w no_fault None true n = (Ret (mkFILE (zrepeat (n * 512) nul) (n * 512)), w').
Proof.
  intros Hd Hn. unfold getFilesystemFile, fwrite. rewrite Hd. cbn [no_fault xfer_cap cap_count f_data f_pos].
  assert (zlen (zrepeat (n * 512) nul) = n * 512) as El by (apply zlen_repeat; lia).
  rewrite ztake_all by lia. destruct (zrepeat (n * 512) nul) as [|b l] eqn:E; [rewrite zlen_nil in El; lia|].
  rewrite <-E in *. cbn [snd]. rewrite El. unfold store. rewrite El. do 4 f_equal.
  rewrite (ztake_nat 0), take_0 by lia. cbn [app]. by rewrite zdrop_nat, drop_nil, app_nil_r by lia.
Qed.

(** ** The server is a block device *)

(** The file holds exactly the sectors. *)
Definition wf (s : t) : Prop :=
  0 <= nb_sectors s < 2 ^ 23 /\ zlen (f_data (fp s)) = nb_sectors s * 512.

Lemma check_in_range s off n :
  wf s -> 0 <= off -> 0 <= n -> off + n < 2 ^ 32 ->
  checkValidRequest s off n =
    if off + n <=? zlen (f_data (fp s)) then (true, []) else (false, [z2b SAWA_MSG_NOAUTH]).
Proof.
  intros [Hn ->] ???. unfold checkValidRequest.
  rewrite !u32_small by (unfold is_u32; lia). by rewrite (Z.add_comm n).
Qed.

Section requests.
Context `{Heap}.

Lemma readFile_exec s off n :
  wf s -> Proto.wf_request (Proto.Read off n) ->
  exists s', readFile no_fault s off n = ((Proto.exec (Proto.Read off n) (f_data (fp s))).1, s') /\
    wf s' /\ f_data (fp s') = f_data (fp s).
Proof.
  intros W (Hoff & Hn & Hlt). unfold readFile. rewrite check_in_range by done. simpl.
  destruct (Z.leb_spec (off + n) (zlen (f_data (fp s)))) as [Hle|]; simpl; [|by exists s].
  eexists. split; [f_equal; apply fill_exact; by apply zlen_load|]. by split.
Qed.

Lemma store_nil file off : 0 <= off <= zlen file -> store file off [] = file.
Proof.
  intros. pose proof (@zlen_nil byte). rewrite store_within by lia. simpl. rewrite Z.add_0_r.
  apply ztake_drop.
Qed.

Lemma writeFile_exec s off data :
  wf s -> Proto.wf_request (Proto.Write off data) ->
  exists s', writeFile no_fault s data off (zlen data) =
      ((Proto.exec (Proto.Write off data) (f_data (fp s))).1, s') /\
    wf s' /\ f_data (fp s') = (Proto.exec (Proto.Write off data) (f_data (fp s))).2.
Proof.
  intros W (Hoff & Hlt & _). unfold writeFile. pose proof (zlen_nonneg data).
  rewrite check_in_range by done. simpl Proto.exec.
  destruct (Z.leb_spec (off + zlen data) (zlen (f_data (fp s)))) as [Hle|]; cbn [negb]; [|by exists s].
  unfold fseek. cbn [no_fault seek_ok]. cbn match. rewrite (ztake_all (zlen data)) by lia.
  unfold fwrite. cbn [no_fault xfer_cap cap_count]. rewrite ztake_all by lia.
  destruct data as [|b data'] eqn:E; [|rewrite <-E in *].
  - eexists. split; [done|]. split; [exact W|]. simpl. rewrite store_nil; [done|]. pose proof (@zlen_nil byte). lia.
  - rewrite (proj2 (Z.leb_le 0 (zlen data))) by lia.
    eexists. split; [done|]. split; [|done]. destruct W as [W1 W2]. split; [done|]. simpl.
    rewrite zlen_store by done. done.
Qed.

(** The statistics column of a request. *)
Definition column (r : Proto.request) : nat :=
  match r with Proto.Info => SAWA_INFO_COL | Proto.Read _ _ => SAWA_READ_COL | Proto.Write _ _ => SAWA_WRITE_COL end.
Definition bump (i : nat) (ti : ConnectionThread) : ConnectionThread :=
  match incr_info i ti with Ret ti => ti | _ => ti end.

Lemma incr_info_ok i ti : length (info ti) = 3%nat -> (i < 3)%nat -> incr_info i ti = Ret (bump i ti).
Proof.
  intros Hl Hi. unfold bump, incr_info.
  destruct (lookup_lt_is_Some_2 (info ti) i) as [v Hv]; [lia|]. by rewrite Hv.
Qed.
Lemma length_info_bump i ti : length (info (bump i ti)) = length (info ti).
Proof.
  unfold bump, incr_info. destruct (info ti !! i) eqn:E; [|done]. simpl. apply length_insert.
Qed.

Lemma peek_u32_app pre z post :
  peek_u32 (pre ++ put_u32 z ++ post) (zlen pre) = Ret (u32 z).
Proof.
  unfold peek_u32. rewrite (proj2 (Z.leb_le 0 (zlen pre))) by apply zlen_nonneg.
  rewrite (proj2 (Z.leb_le (zlen pre + 4) _)) by zlen_solve. cbn [andb].
  by rewrite zdrop_app, get_put_u32.
Qed.

Lemma processRequest_exec s ti r :
  wf s -> Proto.wf_request r -> length (info ti) = 3%nat ->
  exists s', processRequest no_fault s ti (Proto.body r) (zlen (Proto.body r)) =
      Ret ((Proto.exec r (f_data (fp s))).1, s', bump (column r) ti) /\
    wf s' /\ f_data (fp s') = (Proto.exec r (f_data (fp s))).2.
Proof.
  intros W Wr Hi. unfold processRequest. destruct r as [|off n|off data]; cbn [Proto.body].
  - exists s. simpl. rewrite (incr_info_ok 0) by (done || lia). simpl.
    split; [|done]. do 3 f_equal. unfold sendInfo. destruct W as [_ ->]. rewrite Z.div_mul by lia. done.
  - destruct Wr as (Hoff & Hn & Hlt).
    pose proof (peek_u32_app [z2b SAWA_READ] off (put_u32 n)) as E1.
    pose proof (peek_u32_app ([z2b SAWA_READ] ++ put_u32 off) n []) as E2.
    rewrite app_nil_r, <-app_assoc in E2. rewrite !u32_small in E1, E2 by (unfold is_u32; lia).
    change (zlen [z2b SAWA_READ]) with 1 in E1.
    change (zlen ([z2b SAWA_READ] ++ put_u32 off)) with 5 in E2. cbn [app] in E1, E2.
    cbn [peek]. simpl (peek _ 0). cbn [mbind outcome_bind]. simpl (b2z _ =? _). cbn match.
    rewrite E1. cbn [mbind outcome_bind]. rewrite E2. cbn [mbind outcome_bind].
    destruct (readFile_exec s off n W) as (s' & E & W' & Hd); [done|].
    rewrite E, (incr_info_ok 1) by (done || lia). exists s'. split; [done|]. split; [done|].
    rewrite Hd. simpl. by destruct (_ <=? _).
  - pose proof (peek_u32_app [z2b SAWA_WRITE] off data) as E1.
    rewrite u32_small in E1 by (destruct Wr; pose proof (zlen_nonneg data); unfold is_u32; lia).
    change (zlen [z2b SAWA_WRITE]) with 1 in E1. cbn [app] in E1.
    simpl (peek _ 0). cbn [mbind outcome_bind]. simpl (b2z _ =? _). cbn match.
    rewrite E1. cbn [mbind outcome_bind].
    rewrite zlen_cons, zlen_app, zlen_put_u32.
    replace (4 + zlen data + 1 - 5) with (zlen data) by lia.
    rewrite (u32_small (zlen data)) by (destruct Wr; pose proof (zlen_nonneg data); unfold is_u32; lia).
    pose proof (zdrop_app ([z2b SAWA_WRITE] ++ put_u32 off) data) as E2.
    rewrite <-app_assoc in E2. change (zlen _) with 5 in E2. cbn [app] in E2. rewrite E2.
    destruct (writeFile_exec s off data W Wr) as (s' & E & W' & Hd).
    rewrite E, (incr_info_ok 2) by (done || lia). by exists s'.
Qed.

(** ** A whole connection *)

Lemma sock_read_empty n l out :
  n <> 0 -> sock_read n (mkSock (RxData [] :: l) out) = sock_read n (mkSock l out).
Proof. intros Hn. unfold sock_read. by destruct (Z.eqb_spec n 0). Qed.

(** What the server reads of a message, in two pieces: the length and the body; and
    what arrives when the network puts whole pieces into its segments. *)
Definition pieces (r : Proto.request) : list bytes := [put_u32 (zlen (Proto.body r)); Proto.body r].
Definition stream (segments : list (list bytes)) : list rx_event := map (fun s => RxData (concat s)) segments.

Lemma sock_read_piece u us segments out :
  u <> [] -> Forall (fun x => x <> []) us -> concat segments = u :: us ->
  exists segments', sock_read (zlen u) (mkSock (stream segments) out) = (Some u, mkSock (stream segments') out) /\
    concat segments' = us.
Proof.
  intros Hu Hus. assert (0 < zlen u) as Hpos by (destruct u; [done|]; rewrite zlen_cons; pose proof (zlen_nonneg u); lia).
  induction segments as [|[|x rest] segments IH]; intros E; [done| |].
  - cbn [stream map concat]. rewrite sock_read_empty by lia. by apply IH.
  - cbn [concat app] in E. injection E as -> E. cbn [stream map concat]. rewrite sock_read_front by done.
    destruct (concat rest) as [|c cs] eqn:Er.
    + exists segments. split; [done|]. destruct rest as [|y rest]; [done|]. cbn [concat app] in Er, E.
      rewrite <-E in Hus. apply Forall_cons in Hus as [Hy _]. by destruct y.
    + exists (rest :: segments). cbn [stream map concat]. by rewrite Er.
Qed.
Lemma sock_read_end n segments out :
  n <> 0 -> concat segments = [] -> sock_read n (mkSock (stream segments) out) = (Some [], mkSock [] out).
Proof.
  intros Hn. unfold sock_read. destruct (Z.eqb_spec n 0); [done|]. cbn [rx tx].
  induction segments as [|[|x rest] segments IH]; intros E; [done|by apply IH|done].
Qed.

(** One message. *)
Lemma readData_request fuel ios s ti r us segments out :
  wf s -> Proto.wf_request r -> length (info ti) = 3%nat -> ios O = no_fault ->
  Forall (fun x => x <> []) us -> concat segments = pieces r ++ us ->
  exists s' segments',
    readData (S fuel) ios s ti (mkSock (stream segments) out) =
    readData fuel (fun k => ios (S k)) s' (bump (column r) ti)
      (mkSock (stream segments') (out ++ (Proto.exec r (f_data (fp s))).1)) /\
    concat segments' = us /\ wf s' /\ f_data (fp s') = (Proto.exec r (f_data (fp s))).2.
Proof.
  intros W Wr Hi Hio Hus E. pose proof (Proto.zlen_body_pos r) as Hpos. pose proof (Proto.zlen_body_le r Wr) as Hle.
  assert (Proto.body r <> []) as Hb by (intros Hb; by rewrite Hb in Hpos).
  destruct (processRequest_exec s ti r W Wr Hi) as (s' & Ex & W' & Hd).
  destruct (sock_read_piece (put_u32 (zlen (Proto.body r))) (Proto.body r :: us) segments out) as (seg1 & E1 & C1);
    [done|by constructor|done|].
  destruct (sock_read_piece (Proto.body r) us seg1 out Hb Hus C1) as (seg2 & E2 & C2).
  exists s', seg2. split; [|done]. cbn [readData]. rewrite zlen_put_u32 in E1. rewrite E1, zlen_put_u32. cbn match.
  rewrite (proj2 (Z.ltb_ge 4 4)) by lia.
  replace (get_u32 (put_u32 (zlen (Proto.body r)))) with (zlen (Proto.body r)).
  2: { pose proof (get_put_u32 (zlen (Proto.body r)) []) as G. rewrite app_nil_r in G.
       rewrite G. symmetry. apply u32_small. unfold is_u32. lia. }
  rewrite (proj2 (Z.ltb_ge 32768 (zlen (Proto.body r)))), (proj2 (Z.ltb_lt 0 (zlen (Proto.body r)))) by lia.
  rewrite E2, fill_exact by done. by rewrite Hio, Ex.
Qed.

Definition bump_all (rs : list Proto.request) (ti : ConnectionThread) : ConnectionThread :=
  fold_left (fun ti r => bump (column r) ti) rs ti.

Lemma pieces_nonempty rs : Forall (fun x : bytes => x <> []) (concat (map pieces rs)).
Proof.
  induction rs as [|r rs IH]; [constructor|]. cbn. constructor; [done|]. constructor; [|exact IH].
  intros E. pose proof (Proto.zlen_body_pos r) as Hpos. by rewrite E in Hpos.
Qed.

(** C1: when the system calls succeed and no length and no body is split (a segment
    holds any number of whole ones, so a message may arrive in two segments and a
    segment may carry several messages), a connection is served exactly as the
    abstract device serves its requests: the replies are sent in order, the file
    becomes the abstract disk, every request is counted, and the loop ends with the
    stream.  What happens without these conditions is in [readData_split] and
    [writeFile_ignores_errors]. *)
Theorem readData_refines (segments : list (list bytes)) (rs : list Proto.request) fuel s ti out :
  concat segments = concat (map pieces rs) ->
  wf s -> Forall Proto.wf_request rs -> length (info ti) = 3%nat -> (length rs < fuel)%nat ->
  exists s',
    readData fuel (fun _ => no_fault) s ti (mkSock (stream segments) out) =
    Some (Ret (s', bump_all rs ti, mkSock [] (out ++ (Proto.exec_all rs (f_data (fp s))).1))) /\
    wf s' /\ f_data (fp s') = (Proto.exec_all rs (f_data (fp s))).2.
Proof.
  revert segments fuel s ti out. induction rs as [|r rs IH]; intros segments fuel s ti out E W Hrs Hi Hf;
    (destruct fuel as [|fuel]; [simpl in Hf; lia|]).
  - exists s. cbn [readData]. rewrite sock_read_end by done. by rewrite app_nil_r.
  - apply Forall_cons in Hrs as [Wr Hrs]. cbn [length] in Hf.
    destruct (readData_request fuel (fun _ => no_fault) s ti r (concat (map pieces rs)) segments out W Wr Hi eq_refl)
      as (s1 & seg1 & E1 & C1 & W1 & D1); [apply pieces_nonempty|exact E|]. rewrite E1.
    destruct (IH seg1 fuel s1 (bump (column r) ti) (out ++ (Proto.exec r (f_data (fp s))).1) C1 W1 Hrs)
      as (s2 & E2 & W2 & D2); [by rewrite length_info_bump|lia|].
    exists s2. rewrite E2, D2, D1. cbn [Proto.exec_all]. destruct (Proto.exec r (f_data (fp s))) as [reply disk].
    cbn [fst snd]. destruct (Proto.exec_all rs disk) as [replies disk']. by rewrite <-app_assoc.
Qed.

(** C35: the loop of [readData] terminates whatever the peer sends and however
    the system calls answer: one unit of fuel per byte received and per error
    is enough. *)
Theorem readData_terminates fuel ios s ti sk :
  (rx_size (rx sk) < fuel)%nat -> readData fuel ios s ti sk <> None.
Proof.
  revert ios s ti sk. induction fuel as [|fuel IH]; intros ios s ti sk Hf; [lia|].
  cbn [readData]. destruct (sock_read 4 sk) as [[hdr|] sk1] eqn:E1; [|done].
  pose proof (sock_read_size 4 sk _ _ ltac:(lia) E1) as Hs1. simpl in Hs1.
  destruct (Z.ltb_spec (zlen hdr) 4); [done|]. unfold zlen in *.
  destruct (32768 <? get_u32 hdr); [done|].
  destruct (Z.ltb_spec 0 (get_u32 hdr)); [|apply IH; lia].
  destruct (sock_read (get_u32 hdr) sk1) as [[data|] sk2] eqn:E2; [|done].
  pose proof (sock_read_size _ sk1 _ _ ltac:(eassumption) E2) as Hs2. simpl in Hs2.
  destruct (processRequest _ _ _ _ _) as [[[o s1] ti1]|c|]; [|done|done].
  apply IH. simpl. lia.
Qed.

(** ** The range check *)

(** C34: [checkValidRequest] accepts exactly the ranges inside the file and those
    whose end wraps around past 2^32 into the file. *)
Theorem checkValidRequest_exact s off n :
  wf s -> is_u32 off -> is_u32 n ->
  (checkValidRequest s off n).1 = true <->
  off + n <= zlen (f_data (fp s)) \/ 2 ^ 32 <= off + n <= 2 ^ 32 + zlen (f_data (fp s)).
Proof.
  intros [Hn ->] Ho Hs. unfold checkValidRequest, is_u32 in *.
  rewrite (u32_small (nb_sectors s * 512)) by (unfold is_u32; lia).
  destruct (Z.lt_ge_cases (off + n) (2 ^ 32)).
  - rewrite u32_small by (unfold is_u32; lia). destruct (Z.leb_spec (n + off) (nb_sectors s * 512)); simpl.
    + split; [left; lia|done].
    + split; [done|lia].
  - assert (u32 (n + off) = n + off - 2 ^ 32) as ->.
    { unfold u32. symmetry. apply Z.mod_unique with 1; lia. }
    destruct (Z.leb_spec (n + off - 2 ^ 32) (nb_sectors s * 512)); simpl; split; try done; lia.
Qed.

(** a WRITE whose end wraps around is acknowledged, and the file grows up to
    the unwrapped end, past the capacity of the device. *)
Theorem writeFile_wraps s off data :
  wf s -> is_u32 off -> 2 ^ 32 <= off + zlen data <= 2 ^ 32 + zlen (f_data (fp s)) ->
  zlen data < 2 ^ 31 ->
  exists s', writeFile no_fault s data off (zlen data) = ([z2b SAWA_MSG_OK], s') /\
    zlen (f_data (fp s')) = off + zlen data /\ ~ wf s'.
Proof.
  intros W Ho Hw Hd. pose proof (zlen_nonneg data).
  assert ((checkValidRequest s off (zlen data)).1 = true) as E.
  { apply checkValidRequest_exact; [done..|unfold is_u32 in *; lia|lia]. }
  destruct W as [Hn Hf]. unfold writeFile.
  assert (zlen (store (f_data (fp s)) off data) = off + zlen data) as L.
  { unfold is_u32 in *. unfold store.
    rewrite !zlen_app, zlen_take, zlen_app, zlen_drop by lia.
    unfold zlen, zrepeat in *. rewrite length_replicate. lia. }
  destruct (checkValidRequest _ _ _) as [ok err]. cbn [fst] in E. subst ok. cbn [negb].
  unfold fseek. cbn [no_fault seek_ok]. cbn match. rewrite ztake_all by lia.
  unfold fwrite. cbn [no_fault xfer_cap cap_count]. rewrite ztake_all by lia.
  destruct data as [|b data'] eqn:Ed; [unfold is_u32 in *; pose proof (@zlen_nil byte); lia|rewrite <-Ed in *].
  rewrite (proj2 (Z.leb_le 0 (zlen data))) by lia.
  eexists. split; [done|]. simpl. rewrite L. split; [done|]. intros [? HH]. simpl in HH. rewrite L in HH. lia.
Qed.

(** ** Messages shorter than their command *)

(** the server does not check that a message holds the operands of its
    command: it reads outside the buffer of every non-empty message that is not
    INFO and is shorter than five bytes, and of every READ shorter than nine. *)
Theorem processRequest_short s ti io op rest :
  b2z op <> SAWA_INFO ->
  zlen (op :: rest) < 5 \/ (b2z op = SAWA_READ /\ zlen (op :: rest) < 9) ->
  processRequest io s ti (op :: rest) (zlen (op :: rest)) = Undef.
Proof.
  intros Hop Hs. unfold processRequest.
  replace (peek (op :: rest) 0) with (Ret op) by done. cbn [mbind outcome_bind].
  rewrite (proj2 (Z.eqb_neq _ _) Hop).
  assert (forall i, 0 <= i -> zlen (op :: rest) < i + 4 -> peek_u32 (op :: rest) i = Undef) as Hp.
  { intros i Hi ?. unfold peek_u32. rewrite (proj2 (Z.leb_gt (i + 4) _)) by lia. by rewrite andb_false_r. }
  destruct Hs as [Hs|[-> Hs]]; [rewrite (Hp 1) by lia; done|].
  destruct (peek_u32 (op :: rest) 1) as [v|c|] eqn:E; cbn [mbind outcome_bind]; [|by unfold peek_u32 in E; destruct (_ && _)|done].
  rewrite (Hp 5) by lia. done.
Qed.

(** ** Messages split over several segments *)

(** when only a part of the body has arrived, the server does not wait for
    the rest: it serves the part completed with whatever the heap holds, and
    takes what follows for the next message. *)
Theorem readData_split fuel ios s ti part n l out :
  0 < n <= 32768 -> 0 < zlen part < n ->
  readData (S fuel) ios s ti (mkSock (RxData (put_u32 n ++ part) :: l) out) =
  match processRequest (ios O) s ti (part ++ zdrop (zlen part) (uninit n)) n with
  | Ret (reply, s, ti) => readData fuel (fun k => ios (S k)) s ti (mkSock l (out ++ reply))
  | Throw c => Some (Throw c)
  | Undef => Some Undef
  end.
Proof.
  intros Hn Hp. cbn [readData]. rewrite sock_read_front by done.
  rewrite zlen_put_u32. cbn match. rewrite (proj2 (Z.ltb_ge 4 4)) by lia.
  replace (get_u32 (put_u32 n)) with n.
  2: { pose proof (get_put_u32 n []) as G. rewrite app_nil_r in G.
       rewrite G. symmetry. apply u32_small. unfold is_u32. lia. }
  rewrite (proj2 (Z.ltb_ge 32768 n)), (proj2 (Z.ltb_lt 0 n)) by lia.
  destruct part as [|b part'] eqn:Ep; [pose proof (@zlen_nil byte); lia|]. rewrite <-Ep in *.
  unfold sock_read. destruct (Z.eqb_spec n 0); [lia|]. cbn [rx tx]. rewrite Ep at 1. cbn [sock_read_go]. rewrite <-Ep.
  rewrite ztake_all, zdrop_all by lia. unfold fill. rewrite ztake_all by lia.
  by destruct (processRequest _ _ _ _ _) as [[[reply s1] ti1]|c|].
Qed.

(** ** A failing device *)

(** [fwrite] reports failures by a short count, which the code compares with
    zero as an unsigned number: a WRITE of which no byte reaches the file is
    still answered OK. *)
Theorem writeFile_ignores_errors s off data :
  wf s -> Proto.wf_request (Proto.Write off data) -> off + zlen data <= zlen (f_data (fp s)) ->
  exists s', writeFile (mkFault true (Some 0)) s data off (zlen data) = ([z2b SAWA_MSG_OK], s') /\
    f_data (fp s') = f_data (fp s).
Proof.
  intros W (Ho & Hlt & _) Hle. pose proof (zlen_nonneg data). unfold writeFile.
  rewrite check_in_range by done. rewrite (proj2 (Z.leb_le _ _) Hle). cbn [negb].
  unfold fseek, fwrite. cbn [seek_ok xfer_cap cap_count]. cbn match.
  replace (Z.max 0 (Z.min 0 (zlen (ztake (zlen data) data)))) with 0 by (zlen_pose; lia).
  rewrite (ztake_nat 0) by lia. simpl. by eexists.
Qed.
End requests.

(** The interface the clients rely on. *)
#[export] Instance device `{Heap} : BlockDevice t := {
  dev_wf := wf;
  dev_contents s := f_data (fp s);
  dev_handle m s :=
    r ← processRequest no_fault s (new_ConnectionThread 0 0 None) m (zlen m);
    let '(out, s, _) := r in Ret (out, s);
}.
#[export] Instance device_laws `{Heap} : BlockDeviceLaws t.
Proof.
  constructor. intros s r W Wr.
  destruct (processRequest_exec s (new_ConnectionThread 0 0 None) r W Wr eq_refl) as (s' & E & W' & Hd).
  exists s'. simpl. rewrite E. done.
Qed.

End SawaServer.

(** ** Concrete runs *)
Section witnesses.
Import SawaServer.
#[local] Existing Instance zero_heap.

(** A device of two sectors. *)
Definition small : SawaServer.t := SawaServer.mk 2 (mkFILE (zrepeat 1024 nul) 0).
Definition thread0 : ConnectionThread := new_ConnectionThread 4 0 None.
Lemma wf_small : wf small.
Proof. done. Qed.

(** Three messages in three segments: the second one is cut between its length and
    its body. *)
Lemma readData_refines_witness :
  exists s' ti', readData 4 (fun _ => no_fault) small thread0
    (mkSock [RxData (Proto.frame Proto.Info ++ put_u32 10);
             RxData (Proto.body (Proto.Write 10 (bs "hello")));
             RxData (Proto.frame (Proto.Read 9 7))] []) =
    Some (Ret (s', ti', mkSock [] (put_u32 2 ++ [z2b SAWA_MSG_OK] ++ [nul] ++ bs "hello" ++ [nul]))).
Proof.
  set (rs := [Proto.Info; Proto.Write 10 (bs "hello"); Proto.Read 9 7]).
  destruct (readData_refines [pieces Proto.Info ++ [put_u32 10]; [Proto.body (Proto.Write 10 (bs "hello"))]; pieces (Proto.Read 9 7)]
    rs 4 small thread0 []) as (s' & E & _ & _); [reflexivity|apply wf_small|by repeat constructor|reflexivity|simpl; lia|].
  exists s', (bump_all rs thread0). etrans; [exact E|]. vm_compute. reflexivity.
Defined.

Lemma readData_terminates_witness :
  readData 7 (fun _ => mkFault false None) small thread0
    (mkSock [RxData (bs "ab"); RxError; RxData [nul; nul; nul]] []) <> None.
Proof. apply readData_terminates. simpl. lia. Defined.

Lemma checkValidRequest_exact_witness :
  (checkValidRequest small 4294967295 5).1 = true.
Proof. apply (checkValidRequest_exact small 4294967295 5); [apply wf_small|done..|]. right. done. Defined.

Lemma writeFile_wraps_witness :
  exists s', writeFile no_fault small (bs "ab") 4294967295 2 = ([z2b SAWA_MSG_OK], s') /\
    zlen (f_data (fp s')) = 4294967297 /\ ~ wf s'.
Proof. apply (writeFile_wraps small 4294967295 (bs "ab")); [apply wf_small|done..]. Defined.

Lemma processRequest_short_witness :
  processRequest no_fault small thread0 [z2b SAWA_READ] 1 = Undef.
Proof. apply (processRequest_short small thread0 no_fault (z2b SAWA_READ) []); [done|by left]. Defined.

Lemma readData_split_witness :
  exists s' ti', readData 3 (fun _ => no_fault) small thread0
    (mkSock [RxData (put_u32 8 ++ z2b SAWA_WRITE :: put_u32 0 ++ bs "a"); RxData (bs "bc")] []) =
    Some (Ret (s', ti', mkSock [] [z2b SAWA_MSG_OK])) /\
    load (f_data (fp s')) 0 3 = bs "a" ++ [nul; nul].
Proof.
  do 2 eexists. split.
  - etrans; [apply (readData_split 2 (fun _ => no_fault) small thread0
                      (z2b SAWA_WRITE :: put_u32 0 ++ bs "a") 8 [RxData (bs "bc")] []); done|].
    vm_compute. reflexivity.
  - vm_compute. reflexivity.
Defined.

Lemma writeFile_ignores_errors_witness :
  exists s', writeFile (mkFault true (Some 0)) small (bs "ab") 3 2 = ([z2b SAWA_MSG_OK], s') /\
    f_data (fp s') = zrepeat 1024 nul.
Proof. apply (writeFile_ignores_errors small 3 (bs "ab")); [apply wf_small|done..]. Defined.

End witnesses.
