(* ===== verification/Sharing.v ===== *)
(** * Connections sharing the file: server/sawa_srv.cpp with several threads

    Each connection thread runs [readData] on its own, but all of them use the
    same [FILE].  stdio makes one call atomic, not an [fseek] with the [fread] or
    [fwrite] that follows it: a thread is interrupted between the two. *)

From S2P Require Import Prelude CStd Proto SawaSrv.

Module SharedFile.
Import SawaServer.

Record conn := mkConn { todo : list Proto.request; sought : bool; replies : bytes }.

Section with_heap.
Context `{Heap}.

(** The next uninterrupted piece of a thread's work on the file: the range check
    with the [fseek], then the transfer. *)
Definition piece (s : t) (c : conn) : option (t * conn) :=
  match todo c with
  | [] => None
  | Proto.Info :: rest => Some (s, mkConn rest false (replies c ++ sendInfo s))
  | Proto.Read off n :: rest =>
      if sought c then
        let (data, f) := fread no_fault (fp s) n in
        Some (set_fp f s, mkConn rest false (replies c ++ fill n data))
      else
        let (ok, err) := checkValidRequest s off n in
        if ok then Some (set_fp (fseek no_fault (fp s) off).2 s, mkConn (todo c) true (replies c))
        else Some (s, mkConn rest false (replies c ++ err))
  | Proto.Write off data :: rest =>
      if sought c then
        Some (set_fp (fwrite no_fault (fp s) data).2 s,
              mkConn rest false (replies c ++ [z2b SAWA_MSG_OK]))
      else
        let (ok, err) := checkValidRequest s off (zlen data) in
        if ok then Some (set_fp (fseek no_fault (fp s) off).2 s, mkConn (todo c) true (replies c))
        else Some (s, mkConn rest false (replies c ++ err))
  end.

(** A schedule names the thread that runs next. *)
Definition sched_step (i : nat) (st : t * list conn) : t * list conn :=
  match st.2 !! i with
  | Some c => match piece st.1 c with Some (s, c) => (s, <[i := c]> st.2) | None => st end
  | None => st
  end.
Definition run_schedule (sched : list nat) (st : t * list conn) : t * list conn :=
  fold_left (fun st i => sched_step i st) sched st.

(** ** Requests and their pieces *)

(** Whether a request reaches the file: INFO does not, and one that is refused does not. *)
Definition in_range (r : Proto.request) (disk : bytes) : bool :=
  match r with
  | Proto.Info => false
  | Proto.Read off n => off + n <=? zlen disk
  | Proto.Write off data => off + zlen data <=? zlen disk
  end.
Definition offset_of (r : Proto.request) : Z :=
  match r with Proto.Info => 0 | Proto.Read off _ | Proto.Write off _ => off end.
(** The number of pieces of a request. *)
Definition pieces (s : t) (r : Proto.request) : nat := if in_range r (f_data (fp s)) then 2 else 1.

Lemma sched_step_at i s cs c s' c' :
  cs !! i = Some c -> piece s c = Some (s', c') -> sched_step i (s, cs) = (s', <[i := c']> cs).
Proof. intros E P. unfold sched_step. cbn [fst snd]. by rewrite E, P. Qed.

(** The first piece of a request: it sets the position, or is the whole request. *)
Lemma piece_first s r rest out :
  wf s -> Proto.wf_request r ->
  piece s (mkConn (r :: rest) false out) =
    if in_range r (f_data (fp s))
    then Some (set_fp (mkFILE (f_data (fp s)) (offset_of r)) s, mkConn (r :: rest) true out)
    else Some (s, mkConn rest false (out ++ (Proto.exec r (f_data (fp s))).1)).
Proof.
  intros W Wr. unfold piece. cbn [todo sought replies]. destruct r as [|off n|off data]; cbn [in_range offset_of Proto.exec].
  - unfold sendInfo. destruct W as [_ ->]. by rewrite Z.div_mul.
  - rewrite check_in_range by (done || apply Wr). by destruct (_ <=? _).
  - rewrite check_in_range by (done || apply zlen_nonneg || apply Wr). by destruct (_ <=? _).
Qed.
Lemma refused_keeps r disk : in_range r disk = false -> (Proto.exec r disk).2 = disk.
Proof. by destruct r; cbn [in_range Proto.exec]; [|intros ->..]. Qed.

(** The second piece, when the position is still there. *)
Lemma piece_second s r rest out :
  wf s -> Proto.wf_request r -> in_range r (f_data (fp s)) = true -> f_pos (fp s) = offset_of r ->
  exists s', piece s (mkConn (r :: rest) true out) =
      Some (s', mkConn rest false (out ++ (Proto.exec r (f_data (fp s))).1)) /\
    wf s' /\ f_data (fp s') = (Proto.exec r (f_data (fp s))).2.
Proof.
  intros W Wr Hin Hpos. unfold piece. cbn [todo sought replies].
  destruct r as [|off n|off data]; cbn [in_range offset_of Proto.exec] in *; [done|..]; rewrite Hin; apply Z.leb_le in Hin.
  - destruct Wr as (Ho & Hn & _). unfold fread. cbn [no_fault xfer_cap cap_count]. rewrite Hpos.
    fold (load (f_data (fp s)) off n). eexists. rewrite fill_exact by (by apply zlen_load). split; [done|]. by split.
  - destruct Wr as (Ho & _ & _). eexists. split; [done|]. unfold fwrite. cbn [no_fault xfer_cap cap_count].
    rewrite ztake_all by lia. destruct data as [|b data'] eqn:Ed; [|rewrite <-Ed in *; cbn [snd f_data f_pos fp set_fp]].
    + cbn [f_data fp set_fp snd]. rewrite store_nil by (pose proof (@zlen_nil byte); lia). by split.
    + rewrite Hpos. split; [|done]. destruct W as [W1 W2]. split; [done|]. cbn [f_data fp nb_sectors set_fp]. by rewrite zlen_store.
Qed.

(** a request whose pieces no other thread interrupts takes effect at once: the reply
    and the file are those of the abstract device. *)
Theorem uninterrupted_request_atomic i s cs r rest out :
  wf s -> Proto.wf_request r -> cs !! i = Some (mkConn (r :: rest) false out) ->
  exists s',
    run_schedule (replicate (pieces s r) i) (s, cs) =
      (s', <[i := mkConn rest false (out ++ (Proto.exec r (f_data (fp s))).1)]> cs) /\
    wf s' /\ f_data (fp s') = (Proto.exec r (f_data (fp s))).2.
Proof.
  intros W Wr E. pose proof (piece_first s r rest out W Wr) as P1. unfold pieces.
  destruct (in_range r (f_data (fp s))) eqn:Hin; cbn [replicate]; unfold run_schedule; cbn [fold_left].
  - rewrite (sched_step_at i s cs _ _ _ E P1).
    destruct (piece_second (set_fp (mkFILE (f_data (fp s)) (offset_of r)) s) r rest out) as (s' & P2 & W' & D); [done..|].
    exists s'. split; [|done]. erewrite sched_step_at; [|apply list_lookup_insert_eq; by eapply lookup_lt_Some|exact P2].
    by rewrite list_insert_insert_eq.
  - rewrite (sched_step_at i s cs _ _ _ E P1). exists s. by rewrite refused_keeps.
Qed.

(** without such a schedule the offset of another connection is used: between
    the [fseek] of a WRITE at [off1] and its [fwrite], a READ at [off2] moves the
    shared position, and the data, acknowledged, lands at [off2]. *)
Theorem interrupted_write_misplaced s data off1 off2 n :
  wf s -> data <> [] -> Proto.wf_request (Proto.Write off1 data) -> Proto.wf_request (Proto.Read off2 n) ->
  off1 + zlen data <= zlen (f_data (fp s)) -> off2 + n <= zlen (f_data (fp s)) ->
  let st := run_schedule [0; 1; 0]%nat
    (s, [mkConn [Proto.Write off1 data] false []; mkConn [Proto.Read off2 n] false []]) in
  f_data (fp st.1) = store (f_data (fp s)) off2 data /\
  st.2 !! 0%nat = Some (mkConn [] false [z2b SAWA_MSG_OK]).
Proof.
  intros W Hne (Ho1 & Hlt1 & _) (Ho2 & Hn & Hlt2) Hle1 Hle2 st. pose proof (zlen_nonneg data).
  assert (st = (set_fp (mkFILE (store (f_data (fp s)) off2 data) (off2 + zlen data)) s,
                [mkConn [] false [z2b SAWA_MSG_OK]; mkConn [Proto.Read off2 n] true []])) as ->; [|done].
  unfold st, run_schedule. cbn [fold_left].
  erewrite (sched_step_at 0 s _ _ _ _); [|reflexivity|].
  2: { unfold piece. cbn [todo sought]. rewrite check_in_range by done.
       rewrite (proj2 (Z.leb_le _ _) Hle1). reflexivity. }
  erewrite (sched_step_at 1 _ _ _ _ _); [|reflexivity|].
  2: { unfold piece. cbn [todo sought]. rewrite check_in_range by done.
       cbn [f_data fp set_fp fseek no_fault seek_ok snd].
       rewrite (proj2 (Z.leb_le _ _) Hle2). reflexivity. }
  erewrite (sched_step_at 0 _ _ _ _ _); [|reflexivity|].
  2: { unfold piece. cbn [todo sought]. unfold fwrite. cbn [no_fault xfer_cap cap_count].
       rewrite ztake_all by lia. destruct data; [congruence|]. reflexivity. }
  done.
Qed.

(** ** Schedules that serialize *)

(** Whether the next piece of a connection uses the position of the file, and the
    request it completes. *)
Definition touches (s : t) (c : conn) : bool :=
  match todo c with r :: _ => sought c || in_range r (f_data (fp s)) | [] => false end.
Definition completes (s : t) (c : conn) : option Proto.request :=
  match todo c with r :: _ => if sought c || negb (in_range r (f_data (fp s))) then Some r else None | [] => None end.

(** A schedule that never uses the position between the [fseek] and the transfer of
    another connection; INFO and requests that are refused may come there. *)
Definition undisturbed (i : nat) (st : t * list conn) : bool :=
  match st.2 !! i with
  | Some c => negb (touches st.1 c) || bool_decide (Forall (fun p => sought p.2 = true -> p.1 = i) (imap pair st.2))
  | None => true
  end.
Fixpoint serializable (sched : list nat) (st : t * list conn) : bool :=
  match sched with
  | [] => true
  | i :: sched => undisturbed i st && serializable sched (sched_step i st)
  end.

(** The requests in the order in which they are completed, with their connections. *)
Fixpoint log (sched : list nat) (st : t * list conn) : list (nat * Proto.request) :=
  match sched with
  | [] => []
  | i :: sched =>
      match c ← st.2 !! i; completes st.1 c with Some r => [(i, r)] | None => [] end ++ log sched (sched_step i st)
  end.
(** One device that serves them in that order. *)
Fixpoint serve (l : list (nat * Proto.request)) (disk : bytes) : list (nat * bytes) * bytes :=
  match l with
  | [] => ([], disk)
  | (i, r) :: l =>
      let (reply, disk) := Proto.exec r disk in
      let (answers, disk) := serve l disk in ((i, reply) :: answers, disk)
  end.
Definition of_conn {A} (i : nat) (l : list (nat * A)) : list A := snd <$> filter (fun p => p.1 = i) l.

(** Every connection that has set the position finds it there. *)
Record ready (s : t) (cs : list conn) : Prop := {
  rd_wf : wf s;
  rd_requests : forall i c, cs !! i = Some c -> Forall Proto.wf_request (todo c);
  rd_sought : forall i c, cs !! i = Some c -> sought c = true ->
    exists r rest, todo c = r :: rest /\ in_range r (f_data (fp s)) = true /\ f_pos (fp s) = offset_of r }.

Lemma undisturbed_alone i s cs c :
  undisturbed i (s, cs) = true -> cs !! i = Some c -> touches s c = true ->
  forall j d, cs !! j = Some d -> sought d = true -> j = i.
Proof.
  unfold undisturbed. cbn [fst snd]. intros Hu E Ht. rewrite E, Ht in Hu. cbn [negb orb] in Hu.
  apply bool_decide_eq_true in Hu. intros j d Hd. rewrite Forall_lookup in Hu.
  apply (Hu j (j, d)). by rewrite list_lookup_imap, Hd.
Qed.

(** What one piece does. *)
Lemma sched_step_ready i s cs c :
  ready s cs -> undisturbed i (s, cs) = true -> cs !! i = Some c ->
  exists s' c', sched_step i (s, cs) = (s', <[i := c']> cs) /\ ready s' (<[i := c']> cs) /\
    match completes s c with
    | Some r => todo c = r :: todo c' /\ replies c' = replies c ++ (Proto.exec r (f_data (fp s))).1 /\
                f_data (fp s') = (Proto.exec r (f_data (fp s))).2
    | None => todo c' = todo c /\ replies c' = replies c /\ f_data (fp s') = f_data (fp s)
    end.
Proof.
  intros [W Rq So] Hu E. pose proof (lookup_lt_Some _ _ _ E) as Hi. pose proof (undisturbed_alone i s cs c Hu E) as Halone.
  assert (forall s' c', wf s' -> Forall Proto.wf_request (todo c') ->
    (forall j d, <[i := c']> cs !! j = Some d -> sought d = true ->
       exists r rest, todo d = r :: rest /\ in_range r (f_data (fp s')) = true /\ f_pos (fp s') = offset_of r) ->
    ready s' (<[i := c']> cs)) as Hready.
  { intros s' c' W' F So'. split; [done| |done]. intros j d [(<- & <- & _)|(_ & Hd)]%list_lookup_insert_Some; [done|by apply (Rq j)]. }
  assert (forall s' c' j d, touches s c = true -> sought c' = false ->
    <[i := c']> cs !! j = Some d -> sought d = true -> exists r rest, todo d = r :: rest /\
      in_range r (f_data (fp s')) = true /\ f_pos (fp s') = offset_of r) as Hnone.
  { intros s' c' j d Ht Hc' [(<- & <- & _)|(Hne & Hd)]%list_lookup_insert_Some Hs; [congruence|]. by destruct Hne; rewrite (Halone Ht j d). }
  destruct c as [todo sk out]. pose proof (Rq i _ E) as F. unfold completes, touches in *. cbn [SharedFile.todo sought replies] in *.
  destruct todo as [|r rest].
  { exists s, (mkConn [] sk out). unfold sched_step. cbn [fst snd]. rewrite E. cbn. rewrite list_insert_id by done. done. }
  apply Forall_cons in F as [Wr F]. pose proof (piece_first s r rest out W Wr) as P1.
  destruct sk; cbn [orb].
  - destruct (So i _ E eq_refl) as (r' & rest' & [= <- <-] & Hin & Hpos).
    destruct (piece_second s r rest out W Wr Hin Hpos) as (s' & P2 & W' & D).
    eexists s', _. split; [exact (sched_step_at i s cs _ _ _ E P2)|]. split; [|done].
    apply Hready; [done|done|]. intros j d. by apply Hnone.
  - destruct (in_range r (f_data (fp s))) eqn:Hin; cbn [negb]; eexists _, _; (split; [exact (sched_step_at i s cs _ _ _ E P1)|]).
    + split; [|done]. apply Hready; [done|by constructor|].
      intros j d [(<- & <- & _)|(Hne & Hd)]%list_lookup_insert_Some Hs; [by exists r, rest|]. by destruct Hne; rewrite (Halone eq_refl j d).
    + split; [|by rewrite refused_keeps]. apply Hready; [done|done|].
      intros j d [(<- & <- & _)|(_ & Hd)]%list_lookup_insert_Some Hs; [done|]. by apply (So j).
Qed.

Lemma of_conn_app {A} i (l1 l2 : list (nat * A)) : of_conn i (l1 ++ l2) = of_conn i l1 ++ of_conn i l2.
Proof. unfold of_conn. by rewrite filter_app, fmap_app. Qed.
Lemma of_conn_cons {A} i j (x : A) l : of_conn i ((j, x) :: l) = (if decide (j = i) then [x] else []) ++ of_conn i l.
Proof. unfold of_conn. rewrite filter_cons. cbn [fst]. by destruct (decide (j = i)). Qed.

(** C14: the connections share one device: on every schedule that never uses the position
    of the file between the [fseek] and the transfer of another connection, the server
    and all its connections end as if one device had served the requests one after the
    other, in the order in which they were completed; each connection's requests are
    served in its order, and it has got exactly their replies. *)
Theorem serializable_schedules sched s cs :
  ready s cs -> serializable sched (s, cs) = true ->
  let st := run_schedule sched (s, cs) in
  let '(answers, disk) := serve (log sched (s, cs)) (f_data (fp s)) in
  ready st.1 st.2 /\ f_data (fp st.1) = disk /\
  forall i c, cs !! i = Some c -> exists c', st.2 !! i = Some c' /\
    todo c = of_conn i (log sched (s, cs)) ++ todo c' /\ replies c' = replies c ++ concat (of_conn i answers).
Proof.
  revert s cs. induction sched as [|i sched IH]; intros s cs R Hs; cbn [serializable log serve] in *.
  - split; [done|]. split; [done|]. intros i c E. exists c. by rewrite app_nil_r.
  - apply andb_true_iff in Hs as [Hu Hs]. change (run_schedule (i :: sched) (s, cs)) with (run_schedule sched (sched_step i (s, cs))).
    cbn [fst snd]. destruct (cs !! i) as [c|] eqn:E; cbn [mbind option_bind].
    2: { assert (sched_step i (s, cs) = (s, cs)) as Es by (unfold sched_step; cbn [fst snd]; by rewrite E). rewrite Es in *. by apply IH. }
    destruct (sched_step_ready i s cs c R Hu E) as (s' & c' & Es & R' & Hc). rewrite Es in *.
    specialize (IH s' _ R' Hs). destruct (completes s c) as [r|]; cbn [app serve].
    + destruct Hc as (Ht & Hr & Hd). destruct (Proto.exec r (f_data (fp s))) as [reply disk] eqn:Ex. cbn [fst snd] in Hr, Hd. rewrite Hd in IH.
      destruct (serve (log sched (s', <[i:=c']> cs)) disk) as [answers disk'].
      destruct IH as (I1 & I2 & I3). split; [done|]. split; [done|]. intros j d Hj. rewrite !of_conn_cons.
      destruct (decide (i = j)) as [<-|Hne].
      * destruct (I3 i c') as (c2 & H2 & H3 & H4); [apply list_lookup_insert_eq; by eapply lookup_lt_Some|]. exists c2. split; [done|].
        assert (d = c) as -> by congruence. rewrite Ht, H3, H4, Hr. cbn [app concat]. by rewrite <-app_assoc.
      * destruct (I3 j d) as (c2 & H2 & H3 & H4); [by rewrite list_lookup_insert_ne|]. by exists c2.
    + destruct Hc as (Ht & Hr & Hd). rewrite Hd in IH. destruct (serve _ _) as [answers disk].
      destruct IH as (I1 & I2 & I3). split; [done|]. split; [done|]. intros j d Hj.
      destruct (decide (i = j)) as [<-|Hne].
      * destruct (I3 i c') as (c2 & H2 & H3 & H4); [apply list_lookup_insert_eq; by eapply lookup_lt_Some|]. exists c2.
        assert (d = c) as -> by congruence. by rewrite <-Ht, <-Hr.
      * destruct (I3 j d) as (c2 & H2 & H3 & H4); [by rewrite list_lookup_insert_ne|]. by exists c2.
Qed.

End with_heap.
End SharedFile.

(** ** Concrete runs *)
Section witnesses.
Import SawaServer SharedFile.
#[local] Existing Instance zero_heap.
#[local] Existing Instance Proto.wf_request_dec.

Lemma uninterrupted_request_atomic_witness :
  exists s', run_schedule [0; 0]%nat (small, [mkConn [Proto.Write 1 (bs "xy")] false []]) =
      (s', [mkConn [] false [z2b SAWA_MSG_OK]]) /\
    wf s' /\ f_data (fp s') = store (zrepeat 1024 nul) 1 (bs "xy").
Proof.
  apply (uninterrupted_request_atomic 0 small [mkConn [Proto.Write 1 (bs "xy")] false []]
           (Proto.Write 1 (bs "xy")) [] []); [apply wf_small|done..].
Defined.

Lemma interrupted_write_misplaced_witness :
  load (f_data (fp (run_schedule [0; 1; 0]%nat
    (small, [mkConn [Proto.Write 0 (bs "xy")] false []; mkConn [Proto.Read 512 16] false []])).1)) 512 2
  = bs "xy".
Proof.
  destruct (interrupted_write_misplaced small (bs "xy") 0 512 16) as [E _]; [apply wf_small|done..|].
  rewrite E. vm_compute. reflexivity.
Defined.
(** Two writes and a read of three connections, with an INFO in the middle of one. *)
Definition three_connections : list conn :=
  [mkConn [Proto.Write 0 (bs "ab"); Proto.Info] false []; mkConn [Proto.Write 1 (bs "cd")] false []; mkConn [Proto.Info; Proto.Read 0 3] false []].
Lemma serializable_schedules_witness :
  exists s', run_schedule [1; 2; 1; 0; 0; 2; 2; 0]%nat (small, three_connections) =
    (s', [mkConn [] false (z2b SAWA_MSG_OK :: put_u32 2); mkConn [] false [z2b SAWA_MSG_OK]; mkConn [] false (put_u32 2 ++ bs "abd")]) /\
    f_data (fp s') = store (store (zrepeat 1024 nul) 1 (bs "cd")) 0 (bs "ab").
Proof.
  assert (ready small three_connections) as R.
  { split; [apply wf_small| |].
    - intros i c E. destruct i as [|[|[|i]]]; [injection E as <-..|done]; cbn [todo]; apply (bool_decide_unpack _); vm_compute; exact I.
    - intros i c E. by destruct i as [|[|[|i]]]; [injection E as <-..|]. }
  pose proof (serializable_schedules [1; 2; 1; 0; 0; 2; 2; 0]%nat small three_connections R ltac:(vm_compute; reflexivity)) as T.
  eexists. split; [vm_compute; reflexivity|]. destruct T as (_ & T & _). etrans; [|etrans; [exact T|]]; vm_compute; reflexivity.
Defined.
End witnesses.
