(* ===== verification/SawaAdmin.v ===== *)
(** * The administration interface: server/sawa_admin.cpp

    A second listening socket answers STAT with the statistics of the thread
    pool and STOP by ending the program. *)

From S2P Require Import Prelude CStd Util ThreadPool Display Server Proto.
Import Pool.

Module AdminInterface.

Definition ADMIN_PORT : Z := 5001.

(** [AdminInterface::statCommand]: the bytes written to the socket.  The first
    word of the buffer is the size of what follows it. *)
Definition statCommand (pool : ThreadPool) : outcome bytes :=
  buffer ← getThreadStatistics pool;
  buffer_size ← peek_u32 buffer 0;
  Ret (ztake (s32 buffer_size) buffer).

(** [AdminInterface::processCommand]: [None] when the command ends the program. *)
Definition processCommand (pool : ThreadPool) (buffer_in : bytes) : outcome (option bytes) :=
  op ← peek buffer_in 0;
  if b2z op =? SAWA_STOP then Ret None
  else if b2z op =? SAWA_STAT then out ← statCommand pool; Ret (Some out)
  else Ret (Some []).

(** How [readCommand] ends. *)
Inductive ending := Returned (sk : sock) | Stopped (sk : sock) | Failed.

Section with_heap.
Context `{Heap}.

(** [AdminInterface::readCommand]; [pools k] is the pool when the [k]-th command
    is processed, since the server goes on meanwhile.  [expected_size] is an
    [int]. *)
Fixpoint readCommand (fuel : nat) (pools : nat -> ThreadPool) (sk : sock) : option ending :=
  match fuel with
  | O => None
  | S fuel =>
      let (n, sk) := sock_read 4 sk in
      match n with
      | None => Some (Returned sk)
      | Some hdr =>
          if zlen hdr <? 4 then Some (Returned sk)
          else
            let expected_size := s32 (get_u32 hdr) in
            if 1024 <? expected_size then Some (Returned sk)
            else if 0 <? expected_size then
              let (n, sk) := sock_read expected_size sk in
              match n with
              | None => Some (Returned sk)
              | Some data =>
                  match processCommand (pools O) (fill expected_size data) with
                  | Ret (Some out) => readCommand fuel (fun k => pools (S k)) (sock_write out sk)
                  | Ret None => Some (Stopped sk)
                  | _ => Some Failed
                  end
              end
            else readCommand fuel pools sk
      end
  end.

(** [AdminInterface::connectionHandler]: administrators are served one after
    the other.  [None] means the thread is still waiting or serving; the
    connections are given by what they send and the pools they observe. *)
Fixpoint connectionHandler (fuel : nat) (conns : list ((nat -> ThreadPool) * sock)) (served : list ending)
  : list ending :=
  match conns with
  | [] => served
  | (pools, sk) :: conns =>
      match readCommand fuel pools sk with
      | Some (Returned sk) => connectionHandler fuel conns (served ++ [Returned sk])
      | Some e => served ++ [e]
      | None => served
      end
  end.

(** The whole thread: the messages it shows and how the connections ended.  A socket
    that could not be created is reported and used nevertheless. *)
Definition open_socket (socket_result bind_result : Z) : list bytes * bool :=
  let errors := if socket_result =? -1 then [bs "Could not create socket"] else [] in
  if bind_result <? 0 then (errors ++ [bs "bind failed. Error"], false) else (errors, true).
Definition admin_thread (fuel : nat) (socket_result bind_result : Z) (conns : list ((nat -> ThreadPool) * sock))
  : list bytes * list ending :=
  let (errors, listening) := open_socket socket_result bind_result in
  (errors, if listening : bool then connectionHandler fuel conns [] else []).
(** [AdminInterface::AdminInterface]: [pthread_create] fails with a positive number,
    and the test is for a negative one. *)
Definition new_AdminInterface (create_result : Z) : list bytes :=
  if create_result <? 0 then [bs "could not create admin thread"] else [].

(** ** STAT *)

(** the reply to STAT lacks the last four bytes of the statistics: the size
    in the buffer does not count itself, and is used as the number of bytes to
    send.  What is lost is the activity flag (and padding) of the thread created
    last. *)
Theorem statCommand_truncated p idle all last rest t :
  pool_rep p idle all -> all = last :: rest -> heap p !! last = Some t -> zlen all < 2 ^ 20 ->
  exists sent,
    statCommand p = Ret sent /\ zlen sent = 20 * zlen all /\
    sent ++ [z2b (if 0 <=? client_sock t then 1 else 0); nul; nul; nul] =
    put_u32 (20 * zlen all) ++ concat (map stat_entry (objects p (reverse all))).
Proof.
  intros R Eall Ht Hl. destruct (getThreadStatistics_spec p idle all R) as [E _].
  pose proof (zlen_nonneg all) as Hn.
  assert (u32 (20 * zlen all) = 20 * zlen all) as Eu by (apply u32_small; unfold is_u32; lia).
  unfold statCommand. rewrite E. cbn [mbind outcome_bind].
  set (body := concat _).
  assert (peek_u32 (put_u32 (20 * zlen all) ++ body) 0 = Ret (20 * zlen all)) as Ep.
  { unfold peek_u32. rewrite (proj2 (Z.leb_le (0 + 4) _)) by (rewrite zlen_app, zlen_put_u32; pose proof (zlen_nonneg body); lia).
    cbn [Z.leb andb]. simpl (0 <=? 0). cbn [andb]. rewrite (zdrop_nat 0), drop_0 by lia.
    by rewrite get_put_u32, Eu. }
  rewrite Ep. cbn [mbind outcome_bind]. rewrite s32_small by (unfold is_s32; lia).
  assert (objects p (reverse all) = objects p (reverse rest) ++ [t]) as Eo.
  { subst all. rewrite reverse_cons. unfold objects. rewrite omap_app. simpl. by rewrite Ht. }
  assert (body = concat (map stat_entry (objects p (reverse rest))) ++
     (put_u32 (nb_connections t) ++ concat (map put_u32 (info t))) ++
     [z2b (if 0 <=? client_sock t then 1 else 0); nul; nul; nul]) as Eb.
  { unfold body. rewrite Eo, map_app, concat_app. simpl. rewrite app_nil_r.
    unfold stat_entry, ThreadStat_loadFrom. by rewrite <-!app_assoc. }
  assert (zlen body = 20 * zlen all) as Lb.
  { unfold body. rewrite zlen_concat_entries.
    - unfold zlen. rewrite length_objects; [by rewrite length_reverse|].
      intros l Hin. apply (rep_dom _ _ _ R). by apply elem_of_reverse.
    - apply Forall_forall. intros t' Ht'. apply list_elem_of_omap in Ht' as (l & _ & Hl'). by apply (rep_info _ _ _ R l). }
  exists (put_u32 (20 * zlen all) ++ concat (map stat_entry (objects p (reverse rest))) ++
     (put_u32 (nb_connections t) ++ concat (map put_u32 (info t)))).
  assert (zlen (concat (map stat_entry (objects p (reverse rest))) ++
     (put_u32 (nb_connections t) ++ concat (map put_u32 (info t)))) = 20 * zlen all - 4) as Ls.
  { rewrite <-Lb, Eb. rewrite !zlen_app.
    change (zlen [z2b (if 0 <=? client_sock t then 1 else 0); nul; nul; nul]) with 4. lia. }
  split; [|split].
  - f_equal. rewrite Eb. revert Ls. generalize (concat (map stat_entry (objects p (reverse rest)))).
    generalize (put_u32 (nb_connections t) ++ concat (map put_u32 (info t))). intros Y X Ls.
    pose proof (ztake_app (put_u32 (20 * zlen all) ++ X ++ Y)
      [z2b (if 0 <=? client_sock t then 1 else 0); nul; nul; nul]) as P.
    rewrite zlen_app, zlen_put_u32, Ls in P. replace (4 + (20 * zlen all - 4)) with (20 * zlen all) in P by lia.
    by rewrite <-!app_assoc in P.
  - rewrite zlen_app, Ls, zlen_put_u32. lia.
  - rewrite Eb. by rewrite <-!app_assoc.
Qed.

(** ** The command loop *)

Inductive command := Stat | Ignored (op : byte) (args : bytes).
Definition wf_command (c : command) : Prop :=
  match c with
  | Stat => True
  | Ignored op args => b2z op <> SAWA_STOP /\ b2z op <> SAWA_STAT /\ zlen (op :: args) <= 1024
  end.
Definition command_body (c : command) : bytes :=
  match c with Stat => [z2b SAWA_STAT] | Ignored op args => op :: args end.
Definition command_frame (c : command) : bytes := put_u32 (zlen (command_body c)) ++ command_body c.
Definition stop_frame : bytes := put_u32 1 ++ [z2b SAWA_STOP].

Definition reply (p : ThreadPool) (c : command) : bytes :=
  match c, statCommand p with Stat, Ret out => out | _, _ => [] end.
Fixpoint replies (pools : nat -> ThreadPool) (cs : list command) : bytes :=
  match cs with
  | [] => []
  | c :: cs => reply (pools O) c ++ replies (fun k => pools (S k)) cs
  end.

Lemma readCommand_read fuel pools body l out :
  0 < zlen body <= 1024 ->
  readCommand (S fuel) pools (mkSock (RxData (put_u32 (zlen body) ++ body) :: l) out) =
  match processCommand (pools O) body with
  | Ret (Some o) => readCommand fuel (fun k => pools (S k)) (mkSock l (out ++ o))
  | Ret None => Some (Stopped (mkSock l out))
  | _ => Some Failed
  end.
Proof.
  intros Hb. cbn [readCommand]. rewrite sock_read_front by done.
  rewrite zlen_put_u32. cbn match. rewrite (proj2 (Z.ltb_ge 4 4)) by lia.
  replace (s32 (get_u32 (put_u32 (zlen body)))) with (zlen body).
  2: { pose proof (get_put_u32 (zlen body) []) as G. rewrite app_nil_r in G.
       rewrite G, s32_u32. symmetry. apply s32_small. unfold is_s32. lia. }
  rewrite (proj2 (Z.ltb_ge 1024 _)), (proj2 (Z.ltb_lt 0 (zlen body))) by lia.
  destruct body as [|b body'] eqn:Eb; [pose proof (@zlen_nil byte); lia|]. rewrite <-Eb in *.
  pose proof (sock_read_front (zlen body) body [] l out ltac:(lia) eq_refl) as F.
  rewrite app_nil_r in F. rewrite Eb in F at 2. rewrite Eb at 2. rewrite F. rewrite fill_exact by done.
  destruct (processCommand (pools O) body) as [[o|]|c|]; done.
Qed.

(** the loop answers each STAT with the statistics of the moment, ignores
    unknown commands, and ends the program at STOP, whatever follows. *)
Theorem readCommand_commands cs : forall fuel pools l out,
  Forall wf_command cs -> (forall k, (k < length cs)%nat -> exists b, statCommand (pools k) = Ret b) ->
  (length cs < fuel)%nat ->
  readCommand fuel pools
    (mkSock (map (fun c => RxData (command_frame c)) cs ++ RxData stop_frame :: l) out) =
  Some (Stopped (mkSock l (out ++ replies pools cs))).
Proof.
  induction cs as [|c cs IH]; intros fuel pools l out Hc Hp Hf;
    (destruct fuel as [|fuel]; [simpl in Hf; lia|]).
  - simpl app. unfold stop_frame. rewrite (readCommand_read fuel pools [z2b SAWA_STOP]) by done.
    simpl. by rewrite app_nil_r.
  - apply Forall_cons in Hc as [Hc Hcs]. cbn [map app]. unfold command_frame.
    rewrite readCommand_read.
    2: { destruct c as [|op args]; simpl; [done|]. destruct Hc as (_ & _ & Hle).
         pose proof (zlen_nonneg args). rewrite zlen_cons in *. lia. }
    cbn [replies]. rewrite app_assoc.
    rewrite <-(IH fuel (fun k => pools (S k)) l (out ++ reply (pools O) c));
      [|done|intros k Hk; apply Hp; simpl; lia|simpl in Hf; lia].
    destruct (Hp O) as [b Hb]; [simpl; lia|].
    destruct c as [|op args]; simpl command_body.
    + unfold processCommand, reply. rewrite Hb.
      replace (peek [z2b SAWA_STAT] 0) with (Ret (z2b SAWA_STAT)) by done. cbn [mbind outcome_bind].
      replace (b2z (z2b SAWA_STAT)) with SAWA_STAT by done. cbn [Z.eqb Pos.eqb SAWA_STAT SAWA_STOP].
      done.
    + destruct Hc as (H1 & H2 & _). unfold processCommand.
      replace (peek (op :: args) 0) with (Ret op) by done. cbn [mbind outcome_bind].
      rewrite (proj2 (Z.eqb_neq _ _) H1), (proj2 (Z.eqb_neq _ _) H2). by simpl.
Qed.

(** the loop of [readCommand] terminates on every finite input; a size that
    is zero or negative is skipped. *)
Theorem readCommand_terminates fuel pools sk :
  (rx_size (rx sk) < fuel)%nat -> readCommand fuel pools sk <> None.
Proof.
  revert pools sk. induction fuel as [|fuel IH]; intros pools sk Hf; [lia|].
  cbn [readCommand]. destruct (sock_read 4 sk) as [[hdr|] sk1] eqn:E1; [|done].
  pose proof (sock_read_size 4 sk _ _ ltac:(lia) E1) as Hs1. simpl in Hs1.
  destruct (Z.ltb_spec (zlen hdr) 4); [done|]. unfold zlen in *.
  destruct (1024 <? s32 (get_u32 hdr)); [done|].
  destruct (Z.ltb_spec 0 (s32 (get_u32 hdr))) as [Hpos|]; [|apply IH; lia].
  destruct (sock_read (s32 (get_u32 hdr)) sk1) as [[data|] sk2] eqn:E2; [|done].
  pose proof (sock_read_size _ sk1 _ _ Hpos E2) as Hs2. simpl in Hs2.
  destruct (processCommand _ _) as [[o|]|c|]; [|done..].
  apply IH. simpl. lia.
Qed.


(** A size above 1024 ends the connection. *)
Lemma readCommand_too_long fuel pools n rest l out :
  1024 < n < 2 ^ 31 ->
  exists sk, readCommand (S fuel) pools (mkSock (RxData (put_u32 n ++ rest) :: l) out) =
    Some (Returned sk) /\ tx sk = out.
Proof.
  intros Hn. cbn [readCommand]. rewrite sock_read_front by done.
  rewrite zlen_put_u32. cbn match. rewrite (proj2 (Z.ltb_ge 4 4)) by lia.
  replace (s32 (get_u32 (put_u32 n))) with n.
  2: { pose proof (get_put_u32 n []) as G. rewrite app_nil_r in G.
       rewrite G, s32_u32. symmetry. apply s32_small. unfold is_s32. lia. }
  rewrite (proj2 (Z.ltb_lt 1024 n)) by lia. by eexists.
Qed.

End with_heap.

Section witnesses.
#[local] Existing Instance zero_heap.

Lemma statCommand_truncated_witness :
  exists sent, statCommand example_pool = Ret sent /\ zlen sent = 40 /\
    sent ++ [z2b 1; nul; nul; nul] =
    put_u32 40 ++ concat (map stat_entry (objects example_pool [0; 1]%nat)).
Proof.
  apply (statCommand_truncated example_pool [0%nat] [1; 0]%nat 1%nat [0%nat]
    (mkThread 1 8 1 [0; 0; 0] (Some 0%nat) (Some 0%nat)));
    [apply example_pool_rep|done| |done]. vm_compute. reflexivity.
Defined.

Lemma readCommand_commands_witness :
  exists out, readCommand 4 (fun _ => example_pool)
    (mkSock [RxData (command_frame (Ignored nul [])); RxData (command_frame Stat); RxData stop_frame; RxError] []) =
    Some (Stopped (mkSock [RxError] out)) /\ zlen out = 40.
Proof.
  eexists. split.
  - apply (readCommand_commands [Ignored nul []; Stat] 4 (fun _ => example_pool) [RxError] []);
      [by repeat constructor|intros k Hk; eexists; vm_compute; reflexivity|simpl; lia].
  - vm_compute. reflexivity.
Defined.

Lemma readCommand_terminates_witness :
  readCommand 9 (fun _ => example_pool) (mkSock [RxData (put_u32 (-1)); RxData (put_u32 0)] []) <> None.
Proof. apply readCommand_terminates. vm_compute. lia. Defined.
End witnesses.
End AdminInterface.
