(* ===== verification/SawaClient.v ===== *)
(** * The command-line client: server/sawa_client_interface.cpp, server/sawa_client.cpp

    [SawaInterface] is a connection with its outgoing buffer; [SawaClient] sends
    one command and reads its reply.  The replies are the segments waiting in
    the socket.  The theorems about the server's behaviour are proved against
    the interface [BlockDevice]. *)

From S2P Require Import Prelude CStd Util ThreadPool Display Proto SawaSrv.

Module Client.

Definition server_port : Z := 5000.
Definition admin_port : Z := 5001.

Record SawaInterface := mkInterface { socket : sock; buffer_out : bytes; total_size : Z }.

(** [SawaInterface::SawaInterface]: [connection] is what [connect] yields for the
    port; the program exits with code 1 when there is none. *)
Definition new_SawaInterface (connection : Z -> option sock) (port : Z) : outcome SawaInterface :=
  match connection port with
  | Some sk => Ret (mkInterface sk [] 0)
  | None => Throw (process_exit 1)
  end.

Section with_heap.
Context `{Heap}.

(** [SawaInterface::prepareCommand]; the payload starts at offset 5 of
    [buffer_out]. *)
Definition prepareCommand (op payload_size : Z) (it : SawaInterface) : SawaInterface :=
  mkInterface (socket it) (put_u32 (payload_size + 1) ++ [z2b op] ++ uninit payload_size)
    (4 + 1 + payload_size).
Definition payload_at : Z := 5.

(** [SawaInterface::sendCmdToServer]. *)
Definition sendCmdToServer (it : SawaInterface) : SawaInterface :=
  mkInterface (sock_write (ztake (total_size it) (buffer_out it)) (socket it)) [] (total_size it).

(** [SawaInterface::sendSingleCmdToServer]. *)
Definition sendSingleCmdToServer (op : Z) (it : SawaInterface) : SawaInterface :=
  mkInterface (sock_write (put_u32 1 ++ [z2b op]) (socket it)) (buffer_out it) (total_size it).

(** [SawaInterface::readFromServer(uint8_t * , int)]: the result of [read], and
    the bytes it stores. *)
Definition readFromServer (size : Z) (it : SawaInterface) : Z * bytes * SawaInterface :=
  let (r, sk) := sock_read size (socket it) in
  let it := mkInterface sk (buffer_out it) (total_size it) in
  match r with
  | Some d => (zlen d, d, it)
  | None => (-1, [], it)
  end.

(** [SawaInterface::readFromServer(uint8_t ** )]: the payload size, and the block
    allocated for it, if any. *)
Definition readPayloadFromServer (debug_flag : bool) (it : SawaInterface)
  : outcome (Z * option bytes * bytes * SawaInterface) :=
  let '(n, d, it) := readFromServer 4 it in
  if n <? 4 then Ret (0, None, [], it)
  else
    let payload_size := get_u32 d in
    let '(n, d, it) := readFromServer payload_size it in
    let buffer_in := fill payload_size d in
    dump ← Util.dumpMem debug_flag buffer_in n;
    Ret (s32 payload_size, Some buffer_in, dump, it).

(** ** SawaClient *)

(** The interface to use: the one given, or a new connection. *)
Definition get_interface (connection : Z -> option sock) (sawa : option SawaInterface)
  : outcome SawaInterface :=
  match sawa with Some it => Ret it | None => new_SawaInterface connection server_port end.

(** [SawaClient::sendReadCmd]. *)
Definition sendReadCmd (connection : Z -> option sock) (offset payload_size : Z)
    (sawa : option SawaInterface) : outcome (bytes * SawaInterface) :=
  if payload_size <? 0 then Throw (std_exn bad_array_new_length)
  else
    it ← get_interface connection sawa;
    let it := prepareCommand SAWA_READ (2 * 4) it in
    b ← poke (buffer_out it) payload_at (put_u32 offset);
    b ← poke b (payload_at + 4) (put_u32 payload_size);
    let it := sendCmdToServer (mkInterface (socket it) b (total_size it)) in
    let '(n, d, it) := readFromServer payload_size it in
    let buffer_in := fill payload_size d in
    if n =? 1 then c ← peek buffer_in 0; Throw (b2z c)
    else Ret (buffer_in, it).

(** The [response] after one byte has been asked for: it stays 0xFF when none
    comes; a [char] is signed. *)
Definition read_response (it : SawaInterface) : Z * SawaInterface :=
  let '(_, d, it) := readFromServer 1 it in
  (match d with b :: _ => b2s b | [] => b2s (z2b 255) end, it).

(** The common part of the two [SawaClient::sendWriteCmd]: [data] is what is
    copied into the payload. *)
Definition sendWriteBytes (connection : Z -> option sock) (data : bytes) (offset : Z)
    (sawa : option SawaInterface) : outcome (Z * SawaInterface) :=
  it ← get_interface connection sawa;
  let it := prepareCommand SAWA_WRITE (4 + 4096) it in
  b ← poke (buffer_out it) payload_at (put_u32 offset);
  b ← poke b (payload_at + 4) data;
  let it := sendCmdToServer (mkInterface (socket it) b (total_size it)) in
  Ret (read_response it).

(** [SawaClient::sendWriteCmd] with the bytes to write: [memcpy] reads
    [payload_size] bytes, a size that is negative being taken for a huge one. *)
Definition sendWriteCmd (connection : Z -> option sock) (payload : bytes) (offset payload_size : Z)
    (sawa : option SawaInterface) : outcome (Z * SawaInterface) :=
  if (payload_size <? 0) || (zlen payload <? payload_size) then Undef
  else sendWriteBytes connection (ztake payload_size payload) offset sawa.

(** [SawaClient::sendWriteCmd] that fills the payload with 0xFF. *)
Definition sendFillCmd (connection : Z -> option sock) (offset payload_size : Z)
    (sawa : option SawaInterface) : outcome (Z * SawaInterface) :=
  if payload_size <? 0 then Undef
  else sendWriteBytes connection (zrepeat payload_size (z2b 255)) offset sawa.

(** [SawaClient::sendInfoCmd]: the number of sectors and what is printed. *)
Definition sendInfoCmd (connection : Z -> option sock) : outcome (Z * bytes * SawaInterface) :=
  it ← new_SawaInterface connection server_port;
  let it := sendSingleCmdToServer SAWA_INFO it in
  let '(n, d, it) := readFromServer 4 it in
  let result := s32 (get_u32 (store (put_u32 0) 0 d)) in
  if n =? 1 then Throw result
  else Ret (result, bs "Number of sectors: " ++ to_decimal result ++ [nl], it).

(** [SawaClient::sendStopCmd]. *)
Definition sendStopCmd (connection : Z -> option sock) : outcome SawaInterface :=
  it ← new_SawaInterface connection admin_port;
  Ret (sendSingleCmdToServer SAWA_STOP it).

(** One [ThreadStat] of the reply, as printed. *)
Definition sizeof_ThreadStat : Z := 20.
Definition tab : bytes := [z2b 9].
Definition print_stat (stats : bytes) (i : Z) : outcome bytes :=
  active ← peek stats (i * sizeof_ThreadStat + 16);
  conns ← peek_u32 stats (i * sizeof_ThreadStat);
  i0 ← peek_u32 stats (i * sizeof_ThreadStat + 4);
  i1 ← peek_u32 stats (i * sizeof_ThreadStat + 8);
  i2 ← peek_u32 stats (i * sizeof_ThreadStat + 12);
  Ret (to_decimal i ++ tab ++ [active] ++ tab ++ to_decimal (s32 conns) ++ tab ++
       to_decimal (s32 i0) ++ tab ++ to_decimal (s32 i1) ++ tab ++ to_decimal (s32 i2) ++ [nl]).
Fixpoint print_stats (k : nat) (stats : bytes) (i : Z) : outcome bytes :=
  match k with
  | O => Ret []
  | S k => row ← print_stat stats i; rows ← print_stats k stats (i + 1); Ret (row ++ rows)
  end.

(** [SawaClient::sendStatCmd]: [delete] at the end is given an uninitialised
    pointer when nothing was received.  The division by [sizeof] is done on
    64-bit unsigned numbers. *)
Definition sendStatCmd (connection : Z -> option sock) (debug_flag : bool) : outcome bytes :=
  it ← new_SawaInterface connection admin_port;
  let it := sendSingleCmdToServer SAWA_STAT it in
  '(n, buffer_in, dump, it) ← readPayloadFromServer debug_flag it;
  let nb_threads := s32 (n mod 2 ^ 64 / sizeof_ThreadStat) in
  match buffer_in with
  | None => Undef
  | Some stats =>
      rows ← print_stats (Z.to_nat nb_threads) stats 0;
      Ret (dump ++ bs "There are " ++ to_decimal nb_threads ++ bs " threads" ++ [nl] ++
           bs "Thread# Active? #Conn   Info    Reads   Writes" ++ [nl] ++ rows)
  end.

(** [SawaClient::sendCommand]: what is printed. *)
Definition sendCommand (connection : Z -> option sock) (debug_flag : bool) (op offset size : Z)
  : outcome bytes :=
  if op =? SAWA_READ then
    '(buffer, _) ← sendReadCmd connection offset size None;
    Util.dumpMem debug_flag buffer size
  else if op =? SAWA_WRITE then
    '(response, _) ← sendFillCmd connection offset size None;
    Ret (if response =? SAWA_MSG_OK then bs "Success!" ++ [nl]
         else if response =? SAWA_MSG_ERR then bs "Error!" ++ [nl]
         else if response =? SAWA_MSG_NOAUTH then bs "Not authorized!" ++ [nl]
         else bs "Unknown response: " ++ to_decimal response ++ [nl])
  else Ret (bs "Unknown operation: " ++ [z2b op] ++ [nl]).

(** ** The self test *)

(** The contents of page [i]. *)
Definition test_page (i : Z) : bytes := map (fun j => z2b ((i + Z.of_nat j) mod 256)) (seq 0 (Z.to_nat 4096)).

(** One iteration of the loop of [SawaClient::threadTest]: what it prints. *)
Definition test_iteration (connection : Z -> option sock) (i : Z) (it : SawaInterface)
  : outcome (bytes * SawaInterface) :=
  '(result, it) ← sendWriteCmd connection (test_page i) (i * 4096) 4096 (Some it);
  let out := if negb (result =? SAWA_MSG_OK)
             then bs "Error code " ++ to_decimal result ++ bs " at page " ++ to_decimal i ++ [nl] else [] in
  '(buffer_in, it) ← sendReadCmd connection (i * 4096) 4096 (Some it);
  d ← strncmp buffer_in (test_page i) (Z.to_nat 4096);
  Ret (out ++ (if negb (d =? 0)
               then bs "Error page " ++ to_decimal i ++ bs " read/write operation failed" ++ [nl] else []), it).
Fixpoint test_loop (connection : Z -> option sock) (k : nat) (i : Z) (it : SawaInterface)
  : outcome (bytes * SawaInterface) :=
  match k with
  | O => Ret ([], it)
  | S k =>
      '(o1, it) ← test_iteration connection i it;
      '(o2, it) ← test_loop connection k (i + 1) it;
      Ret (o1 ++ o2, it)
  end.

(** [SawaClient::threadTest], up to the end of its body: the function is declared to
    return a pointer and has no [return], which C++ leaves undefined; the model gives
    what it has printed and sent by then. *)
Definition threadTest (connection : Z -> option sock) (thread_id : Z) : outcome (bytes * SawaInterface) :=
  it ← new_SawaInterface connection server_port;
  let it := sendSingleCmdToServer SAWA_INFO it in
  let '(_, _, it) := readFromServer 4 it in
  '(out, it) ← test_loop connection 256 0 it;
  Ret (out ++ bs "End thread " ++ to_decimal thread_id ++ [nl], it).

End with_heap.

(** [timeval_subtract]: the difference and the returned flag. *)
Record timeval := mkTimeval { tv_sec : Z; tv_usec : Z }.
Definition timeval_subtract (x y : timeval) : timeval * bool :=
  let y :=
    if tv_usec x <? tv_usec y then
      let nsec := Z.quot (tv_usec y - tv_usec x) 1000000 + 1 in
      mkTimeval (tv_sec y + nsec) (tv_usec y - 1000000 * nsec)
    else y in
  let y :=
    if 1000000 <? tv_usec x - tv_usec y then
      let nsec := Z.quot (tv_usec y - tv_usec x) 1000000 in
      mkTimeval (tv_sec y - nsec) (tv_usec y + 1000000 * nsec)
    else y in
  (mkTimeval (tv_sec x - tv_sec y) (tv_usec x - tv_usec y), tv_sec x <? tv_sec y).

(** [SawaClient::testServer]: the number of threads started, [None] when the
    allocation of their identifiers fails. *)
Definition testServer (nb_threads : Z) : option Z :=
  if nb_threads <? 0 then None else Some (if 10 <? nb_threads then 10 else nb_threads).

(** ** The command line *)

Inductive invocation :=
| Usage (err : bytes)
| InfoCmd
| StopCmd
| StatCmd
| TestCmd (nb_threads : Z)
| Command (op offset size : Z).

(** The decisions of [main]; [args] are the arguments after the program name.
    [offset] and [size] are unsigned. *)
Definition parse_args (args : list bytes) : invocation :=
  match args with
  | [] => Usage []
  | cmd :: args =>
      if bool_decide (cmd = bs "info") then InfoCmd
      else if bool_decide (cmd = bs "stop") then StopCmd
      else if bool_decide (cmd = bs "stat") then StatCmd
      else if bool_decide (cmd = bs "test") then
        TestCmd (match args with n :: _ => atoi n | [] => 1 end)
      else
        let op := if bool_decide (cmd = bs "read") then Some SAWA_READ
                  else if bool_decide (cmd = bs "write") then Some SAWA_WRITE else None in
        match op with
        | None => Usage (bs "Unknown operation: " ++ cmd ++ [nl])
        | Some op =>
            match args with
            | [] => Usage (bs "Offset missing" ++ [nl])
            | off :: args =>
                let offset := u32 (atoi off) in
                let size := match args with n :: _ => u32 (atoi n) | [] => 4096 end in
                if size <=? 0 then Usage (bs "Invalid size: " ++ to_decimal size ++ [nl])
                else Command op offset size
            end
        end
  end.

(** What [main] does with a READ or WRITE: the parameters of [sendCommand] are
    [int]s. *)
Definition run_command `{Heap} (connection : Z -> option sock) (debug_flag : bool) (op offset size : Z)
  : outcome bytes :=
  out ← sendCommand connection debug_flag op (s32 offset) (s32 size);
  Ret (bs "Operation: " ++ to_decimal op ++ bs "   offset: " ++ to_decimal offset ++
       bs "   size: " ++ to_decimal size ++ [nl] ++ out).


(** ** The messages the client sends *)

Lemma zlen_map_seq (f : nat -> byte) n : 0 <= n -> zlen (map f (seq 0 (Z.to_nat n))) = n.
Proof. intros. unfold zlen. rewrite length_map, length_seq. lia. Qed.
Lemma zlen_test_page i : zlen (test_page i) = 4096.
Proof. by apply zlen_map_seq. Qed.
Lemma lookup_test_page i k : (k < Z.to_nat 4096)%nat -> test_page i !! k = Some (z2b ((i + Z.of_nat k) mod 256)).
Proof. intros Hk. unfold test_page. by rewrite list_lookup_fmap, lookup_seq_lt. Qed.

Lemma strncmp_refl (s : bytes) (n : nat) : (n <= length s)%nat -> strncmp s s n = Ret 0.
Proof.
  unfold strncmp. revert s. induction n as [|n IH]; intros s Hn; [done|].
  destruct s as [|b s]; simpl in *; [lia|]. rewrite beqb_refl.
  destruct (beqb b nul); [done|]. apply IH. lia.
Qed.
Lemma strncmp_same (s : bytes) n : n <= zlen s -> strncmp s s (Z.to_nat n) = Ret 0.
Proof. intros. apply strncmp_refl. unfold zlen in *. lia. Qed.
Lemma strncmp_shared_nul (p r r' : bytes) n : strncmp (p ++ nul :: r) (p ++ nul :: r') n = Ret 0.
Proof.
  unfold strncmp. revert n. induction p as [|b p IH]; intros [|n]; try done. simpl. rewrite beqb_refl.
  destruct (beqb b nul); [done|]. apply IH.
Qed.

(** Pages and buffers are never unfolded by the proofs. *)
#[local] Opaque uninit zrepeat.

Section messages.
Context `{Heap}.
Implicit Types (it : SawaInterface) (connection : Z -> option sock).

Lemma poke_at a b data at_ :
  at_ = zlen a -> zlen data <= zlen b -> poke (a ++ b) at_ data = Ret (a ++ data ++ zdrop (zlen data) b).
Proof. intros ->. apply poke_prefix. Qed.

(** The reply waiting in an interface. *)
Definition awaiting (reply : bytes) (rest : list rx_event) (sent : bytes) : SawaInterface :=
  mkInterface (mkSock (RxData reply :: rest) sent) [] 0.

Lemma readFromServer_segment n reply l sent b total :
  0 < n -> 0 < zlen reply <= n ->
  readFromServer n (mkInterface (mkSock (RxData reply :: l) sent) b total) =
  (zlen reply, reply, mkInterface (mkSock l sent) b total).
Proof.
  intros Hn Hr. unfold readFromServer. cbn [socket]. rewrite sock_read_whole; [done|done| |lia].
  intros ->. unfold zlen in Hr. simpl in Hr. lia.
Qed.

(** The buffer of a READ command is the frame the protocol prescribes. *)
Lemma read_buffer connection offset n it :
  0 <= n ->
  sendReadCmd connection offset n (Some it) =
  (let it := mkInterface (sock_write (Proto.frame (Proto.Read offset n)) (socket it)) [] 13 in
   let '(r, d, it) := readFromServer n it in
   let buffer_in := fill n d in
   if r =? 1 then (c ← peek buffer_in 0; Throw (b2z c)) else Ret (buffer_in, it)).
Proof.
  intros Hn. unfold sendReadCmd. rewrite (proj2 (Z.ltb_ge n 0)) by done. cbn [get_interface mbind outcome_bind].
  unfold prepareCommand. cbn [buffer_out].
  rewrite app_assoc, (poke_at _ (uninit (2 * 4))) by (rewrite ?zlen_uninit; done). cbn [mbind outcome_bind].
  rewrite app_assoc, poke_at by (rewrite ?zlen_drop, ?zlen_uninit; done). cbn [mbind outcome_bind].
  unfold sendCmdToServer. cbn [socket buffer_out total_size].
  rewrite (zdrop_all _ (zdrop _ _)) by (rewrite zlen_drop, zlen_uninit; done).
  rewrite ztake_all by done. by rewrite app_nil_r, <-!app_assoc.
Qed.

(** What a WRITE command carries: always 4096 bytes, the data followed by
    whatever the buffer held. *)
Definition page_of (data : bytes) : bytes := data ++ zdrop (zlen data) (zdrop 4 (uninit 4100)).
Lemma page_of_full data : zlen data = 4096 -> page_of data = data.
Proof.
  intros E. unfold page_of. rewrite (zdrop_all (zlen data)); [apply app_nil_r|].
  rewrite zlen_drop, zlen_uninit by lia. lia.
Qed.
Lemma zlen_page_of data : zlen data <= 4096 -> zlen (page_of data) = 4096.
Proof.
  intros. unfold page_of. pose proof (zlen_nonneg data).
  rewrite zlen_app, !zlen_drop, zlen_uninit by lia. lia.
Qed.

Lemma write_buffer connection data offset it :
  zlen data <= 4096 ->
  sendWriteBytes connection data offset (Some it) =
  Ret (read_response (mkInterface
    (sock_write (Proto.frame (Proto.Write offset (page_of data))) (socket it)) [] 4105)).
Proof.
  intros Hd. unfold sendWriteBytes. cbn [get_interface mbind outcome_bind].
  unfold prepareCommand. cbn [buffer_out].
  rewrite app_assoc, (poke_at _ (uninit (4 + 4096))) by (rewrite ?zlen_uninit; done). cbn [mbind outcome_bind].
  rewrite app_assoc, poke_at by (rewrite ?zlen_drop, ?zlen_uninit by lia; done). cbn [mbind outcome_bind].
  unfold sendCmdToServer. cbn [socket buffer_out total_size]. do 4 f_equal.
  pose proof (zlen_page_of data Hd) as Lp. change (4 + 4096) with 4100.
  change (zlen (put_u32 offset)) with 4. fold (page_of data).
  unfold Proto.frame. cbn [Proto.body]. rewrite zlen_cons, zlen_app, zlen_put_u32, Lp.
  change (4 + 4096 + 1) with (4100 + 1). rewrite ztake_all.
  - by rewrite <-!app_assoc.
  - rewrite !zlen_app, Lp. done.
Qed.

Lemma sendWriteCmd_frame connection data offset it reply l :
  zlen data <= 4096 -> rx (socket it) = RxData [reply] :: l ->
  sendWriteCmd connection data offset (zlen data) (Some it) =
  Ret (b2s reply, mkInterface
    (mkSock l (tx (socket it) ++ Proto.frame (Proto.Write offset (page_of data)))) [] 4105).
Proof.
  intros Hd Hr. unfold sendWriteCmd. pose proof (zlen_nonneg data).
  rewrite (proj2 (Z.ltb_ge _ 0)), (proj2 (Z.ltb_ge (zlen data) _)) by lia. cbn [orb].
  rewrite (ztake_all (zlen data)) by lia. rewrite write_buffer by done. f_equal.
  unfold sock_write, read_response. rewrite Hr. rewrite readFromServer_segment by done. done.
Qed.

(** a WRITE of at most 4096 bytes always transmits 4096: the payload size is
    a constant, so the data is followed by uninitialised heap bytes, which the
    server stores after it. *)
Theorem sendWriteCmd_sends_page connection data offset it reply l :
  zlen data <= 4096 -> rx (socket it) = RxData [reply] :: l ->
  exists rest it', zlen rest = 4096 - zlen data /\
    sendWriteCmd connection data offset (zlen data) (Some it) = Ret (b2s reply, it') /\
    tx (socket it') = tx (socket it) ++ Proto.frame (Proto.Write offset (data ++ rest)) /\
    rest = zdrop (4 + zlen data) (uninit 4100).
Proof.
  intros Hd Hr. pose proof (zlen_nonneg data). eexists _, _.
  split; [|split; [by apply sendWriteCmd_frame|split; [reflexivity|]]].
  - rewrite !zlen_drop, zlen_uninit by lia. lia.
  - rewrite !zdrop_nat, drop_drop by lia. f_equal. lia.
Qed.

(** a WRITE of more than 4096 bytes overruns the outgoing buffer. *)
Theorem sendFillCmd_overrun connection offset n it :
  4096 < n -> sendFillCmd connection offset n (Some it) = Undef.
Proof.
  intros Hn. unfold sendFillCmd. rewrite (proj2 (Z.ltb_ge n 0)) by lia.
  unfold sendWriteBytes. cbn [get_interface mbind outcome_bind].
  unfold prepareCommand. cbn [buffer_out].
  rewrite app_assoc, (poke_at _ (uninit (4 + 4096))) by (rewrite ?zlen_uninit; done). cbn [mbind outcome_bind].
  unfold poke. rewrite (proj2 (Z.leb_gt (payload_at + 4 + _) _)); [by rewrite andb_false_r|].
  rewrite zlen_repeat by lia. change (zlen (put_u32 offset)) with 4.
  rewrite !zlen_app, zlen_drop, zlen_uninit by lia. rewrite !zlen_put_u32.
  change (zlen [z2b SAWA_WRITE]) with 1. unfold payload_at. lia.
Qed.

(** a READ of one byte never succeeds: the reply of one byte is taken for an
    error code and thrown, whatever the byte. *)
Theorem sendReadCmd_one_byte connection offset it b l :
  rx (socket it) = RxData [b] :: l ->
  sendReadCmd connection offset 1 (Some it) = Throw (b2z b).
Proof.
  intros Hr. rewrite read_buffer by done. unfold sock_write. rewrite Hr.
  cbv zeta. rewrite readFromServer_segment by done. done.
Qed.

Lemma sendReadCmd_reply connection offset n it reply l :
  1 < n -> zlen reply = n -> rx (socket it) = RxData reply :: l ->
  sendReadCmd connection offset n (Some it) =
  Ret (reply, mkInterface (mkSock l (tx (socket it) ++ Proto.frame (Proto.Read offset n))) [] 13).
Proof.
  intros Hn Hl Hr. rewrite read_buffer by lia. unfold sock_write. rewrite Hr. cbv zeta.
  rewrite readFromServer_segment by lia. rewrite (proj2 (Z.eqb_neq _ 1)) by lia.
  by rewrite fill_exact.
Qed.

(** when the reply to a READ comes in pieces, the client takes the first
    piece for the whole: the rest of the buffer is uninitialised, or, when the
    piece has one byte, the byte is thrown as an error. *)
Theorem sendReadCmd_partial connection offset n it part l :
  1 < n -> 0 < zlen part < n -> rx (socket it) = RxData part :: l ->
  sendReadCmd connection offset n (Some it) =
  match part with
  | [b] => Throw (b2z b)
  | _ => Ret (part ++ zdrop (zlen part) (uninit n),
              mkInterface (mkSock l (tx (socket it) ++ Proto.frame (Proto.Read offset n))) [] 13)
  end.
Proof.
  intros Hn Hp Hr. rewrite read_buffer by lia. unfold sock_write. rewrite Hr. cbv zeta.
  rewrite readFromServer_segment by lia. unfold fill. rewrite ztake_all by lia.
  destruct part as [|b [|c part]]; [pose proof (@zlen_nil byte); lia|done|].
  rewrite (proj2 (Z.eqb_neq _ 1)); [done|]. rewrite !zlen_cons. pose proof (zlen_nonneg part). lia.
Qed.
End messages.

(** ** Client and server together *)

Section end_to_end.
Context `{Heap} `{BlockDeviceLaws D}.

(** C20: a page written by the client and read back is the page, on every server
    that answers as a block device: both messages are the frames the server
    expects, and both replies are understood. *)
Theorem write_read_page connection (d : D) offset data sent :
  dev_wf d -> zlen data = 4096 -> 0 <= offset -> offset + 4096 <= zlen (dev_contents d) ->
  offset + 4096 < 2 ^ 32 ->
  exists r1 d1 it1 r2 d2 it2,
    dev_handle (Proto.body (Proto.Write offset data)) d = Ret (r1, d1) /\
    sendWriteCmd connection data offset 4096 (Some (awaiting r1 [] sent)) = Ret (SAWA_MSG_OK, it1) /\
    tx (socket it1) = sent ++ Proto.frame (Proto.Write offset data) /\
    dev_handle (Proto.body (Proto.Read offset 4096)) d1 = Ret (r2, d2) /\
    sendReadCmd connection offset 4096 (Some (awaiting r2 [] (tx (socket it1)))) = Ret (data, it2) /\
    tx (socket it2) = tx (socket it1) ++ Proto.frame (Proto.Read offset 4096) /\
    dev_contents d2 = store (dev_contents d) offset data.
Proof.
  intros W Hl Ho Hle Hlt.
  destruct (dev_exec d (Proto.Write offset data) W) as (d1 & E1 & W1 & C1); [simpl; lia|].
  cbn [Proto.exec] in E1, C1. rewrite (proj2 (Z.leb_le (offset + zlen data) (zlen (dev_contents d)))) in E1, C1 by lia. cbn [fst snd] in E1, C1.
  destruct (dev_exec d1 (Proto.Read offset 4096) W1) as (d2 & E2 & _ & C2); [simpl; lia|].
  assert (zlen (dev_contents d1) = zlen (dev_contents d)) as L1 by (rewrite C1; apply zlen_store; lia).
  cbn [Proto.exec] in E2, C2. rewrite (proj2 (Z.leb_le (offset + 4096) (zlen (dev_contents d1)))) in E2, C2 by lia. cbn [fst snd] in E2, C2.
  assert (load (dev_contents d1) offset 4096 = data) as LS
    by (rewrite C1, <-Hl; apply load_store_same; lia).
  rewrite LS in E2.
  exists [z2b SAWA_MSG_OK], d1. eexists. exists data, d2. eexists.
  split; [done|]. split.
  { rewrite <-Hl. rewrite (sendWriteCmd_frame connection data offset _ (z2b SAWA_MSG_OK) []); [reflexivity|lia|done]. }
  cbn [socket tx awaiting]. split; [by rewrite page_of_full|]. split; [done|]. split.
  { rewrite (sendReadCmd_reply connection offset 4096 _ data []); [reflexivity|lia|lia|done]. }
  by split; [|congruence].
Qed.

(** INFO, end to end. *)
Lemma sendInfoCmd_device connection (d : D) l sent :
  dev_wf d -> zlen (dev_contents d) < 2 ^ 31 -> 
  connection server_port = Some (mkSock (RxData (put_u32 (zlen (dev_contents d) / 512)) :: l) sent) ->
  exists d' it, dev_handle (Proto.body Proto.Info) d = Ret (put_u32 (zlen (dev_contents d) / 512), d') /\
    sendInfoCmd connection = Ret (zlen (dev_contents d) / 512,
      bs "Number of sectors: " ++ to_decimal (zlen (dev_contents d) / 512) ++ [nl], it) /\
    tx (socket it) = sent ++ Proto.frame Proto.Info.
Proof.
  intros W Hlt Hc. destruct (dev_exec d Proto.Info W I) as (d' & E & _ & _).
  exists d'. eexists. split; [exact E|]. unfold sendInfoCmd, new_SawaInterface. rewrite Hc.
  cbn [mbind outcome_bind]. unfold sendSingleCmdToServer, sock_write. cbn [socket rx tx].
  rewrite readFromServer_segment by (rewrite ?zlen_put_u32; done). rewrite zlen_put_u32. cbn match.
  pose proof (zlen_nonneg (dev_contents d)).
  assert (0 <= zlen (dev_contents d) / 512 < 2 ^ 31) as Hr by (split; [apply Z.div_pos|apply Z.div_lt_upper_bound]; lia).
  replace (s32 (get_u32 (store (put_u32 0) 0 (put_u32 (zlen (dev_contents d) / 512)))))
    with (zlen (dev_contents d) / 512); [by split|].
  rewrite store_within by done. rewrite (ztake_nat 0), take_0 by lia. cbn [app].
  by rewrite get_put_u32, s32_u32, s32_small by (unfold is_s32; lia).
Qed.

(** *** The self test *)

#[local] Opaque sendWriteCmd sendReadCmd strncmp to_decimal.

(** The replies of a device to a sequence of requests. *)
Fixpoint dev_run (d : D) (rs : list Proto.request) : outcome (list bytes * D) :=
  match rs with
  | [] => Ret ([], d)
  | r :: rs =>
      '(reply, d) ← dev_handle (Proto.body r) d;
      '(replies, d) ← dev_run d rs;
      Ret (reply :: replies, d)
  end.
Fixpoint test_requests (k : nat) (i : Z) : list Proto.request :=
  match k with
  | O => []
  | S k => Proto.Write (i * 4096) (test_page i) :: Proto.Read (i * 4096) 4096 :: test_requests k (i + 1)
  end.

Lemma test_iteration_ok connection i data l sent b t :
  test_page i = data -> zlen data = 4096 ->
  test_iteration connection i
    (mkInterface (mkSock (RxData [z2b SAWA_MSG_OK] :: RxData data :: l) sent) b t) =
  Ret ([], mkInterface (mkSock l (sent ++ Proto.frame (Proto.Write (i * 4096) data) ++
                                  Proto.frame (Proto.Read (i * 4096) 4096))) [] 13).
Proof.
  intros Ep Lp. unfold test_iteration. rewrite Ep.
  pose proof (sendWriteCmd_frame connection data (i * 4096)
    (mkInterface (mkSock (RxData [z2b SAWA_MSG_OK] :: RxData data :: l) sent) b t)
    (z2b SAWA_MSG_OK) (RxData data :: l) ltac:(lia) eq_refl) as F.
  rewrite Lp, (page_of_full data Lp) in F. rewrite F. cbn [mbind outcome_bind socket tx].
  rewrite (sendReadCmd_reply connection (i * 4096) 4096 _ data l) by (exact Lp || reflexivity).
  cbn [mbind outcome_bind socket tx]. rewrite strncmp_same by (rewrite Lp; apply Z.le_refl).
  cbn [mbind outcome_bind]. by rewrite <-!app_assoc.
Qed.

(** One page on the device. *)
Lemma page_on_device (d : D) i data :
  dev_wf d -> zlen data = 4096 -> 0 <= i -> (i + 1) * 4096 <= zlen (dev_contents d) < 2 ^ 32 ->
  exists d1 d2,
    dev_handle (Proto.body (Proto.Write (i * 4096) data)) d = Ret ([z2b SAWA_MSG_OK], d1) /\
    dev_handle (Proto.body (Proto.Read (i * 4096) 4096)) d1 = Ret (data, d2) /\
    dev_wf d2 /\ zlen (dev_contents d2) = zlen (dev_contents d).
Proof.
  intros W Lp Hi Hc.
  destruct (dev_exec d (Proto.Write (i * 4096) data) W) as (d1 & E1 & W1 & C1); [simpl; lia|].
  cbn [Proto.exec] in E1, C1.
  rewrite (proj2 (Z.leb_le (i * 4096 + zlen data) (zlen (dev_contents d)))) in E1, C1 by lia.
  cbn [fst snd] in E1, C1.
  assert (zlen (dev_contents d1) = zlen (dev_contents d)) as L1 by (rewrite C1; apply zlen_store; lia).
  destruct (dev_exec d1 (Proto.Read (i * 4096) 4096) W1) as (d2 & E2 & W2 & C2); [simpl; lia|].
  cbn [Proto.exec] in E2, C2.
  rewrite (proj2 (Z.leb_le (i * 4096 + 4096) (zlen (dev_contents d1)))) in E2, C2 by lia. cbn [fst snd] in E2, C2.
  assert (load (dev_contents d1) (i * 4096) 4096 = data) as LS
    by (rewrite C1, <-Lp; apply load_store_same; lia).
  rewrite LS in E2. exists d1, d2. by rewrite C2.
Qed.

Lemma test_loop_device k : forall i (d : D),
  dev_wf d -> 0 <= i -> (i + Z.of_nat k) * 4096 <= zlen (dev_contents d) < 2 ^ 32 ->
  exists replies d', dev_run d (test_requests k i) = Ret (replies, d') /\
    forall connection l sent b t, exists b' t',
      test_loop connection k i (mkInterface (mkSock (map RxData replies ++ l) sent) b t) =
      Ret ([], mkInterface (mkSock l (sent ++ concat (map Proto.frame (test_requests k i)))) b' t').
Proof.
  induction k as [|k IH]; intros i d W Hi Hc.
  { exists [], d. split; [done|]. intros connection l sent b t. exists b, t. simpl. by rewrite app_nil_r. }
  destruct (page_on_device d i (test_page i) W (zlen_test_page i) Hi) as (d1 & d2 & E1 & E2 & W2 & C2); [lia|].
  destruct (IH (i + 1) d2 W2) as (replies & d' & E & IHl); [lia|rewrite C2; lia|].
  exists ([z2b SAWA_MSG_OK] :: test_page i :: replies), d'. split.
  { cbn [test_requests dev_run]. rewrite E1. cbn [mbind outcome_bind]. rewrite E2. cbn [mbind outcome_bind].
    by rewrite E. }
  intros connection l sent b t. cbn [map app test_loop].
  rewrite (test_iteration_ok connection i (test_page i)) by (reflexivity || apply zlen_test_page).
  cbn [mbind outcome_bind].
  destruct (IHl connection l (sent ++ Proto.frame (Proto.Write (i * 4096) (test_page i)) ++
     Proto.frame (Proto.Read (i * 4096) 4096)) [] 13) as (b' & t' & ->).
  exists b', t'. cbn [mbind outcome_bind test_requests map concat]. by rewrite <-!app_assoc.
Qed.

(** C19: against any server that answers as a block device of at least one
    megabyte, the self test reports no error, and sends exactly one INFO and the
    256 pairs of WRITE and READ. *)
Theorem threadTest_passes (d : D) thread_id :
  dev_wf d -> 2 ^ 20 <= zlen (dev_contents d) < 2 ^ 32 ->
  exists replies d', dev_run d (Proto.Info :: test_requests 256 0) = Ret (replies, d') /\
    forall connection, connection server_port = Some (mkSock (map RxData replies) []) ->
     exists it, threadTest connection thread_id =
       Ret (bs "End thread " ++ to_decimal thread_id ++ [nl], it) /\
       socket it = mkSock [] (concat (map Proto.frame (Proto.Info :: test_requests 256 0))).
Proof.
  intros W Hc. destruct (dev_exec d Proto.Info W I) as (d1 & E1 & W1 & C1). cbn [Proto.exec fst snd] in E1, C1.
  destruct (test_loop_device 256 0 d1 W1) as (replies & d' & E & Hl); [lia|rewrite C1; lia|].
  exists (put_u32 (zlen (dev_contents d) / 512) :: replies), d'. split.
  { unfold dev_run; fold dev_run. rewrite E1. cbn [mbind outcome_bind]. by rewrite E. }
  intros connection Hconn. unfold threadTest, new_SawaInterface. rewrite Hconn. cbn [mbind outcome_bind].
  unfold sendSingleCmdToServer, sock_write. cbn [socket rx tx map].
  rewrite readFromServer_segment by (rewrite ?zlen_put_u32; done).
  destruct (Hl connection [] ([] ++ put_u32 1 ++ [z2b SAWA_INFO]) [] 0) as (b' & t' & El).
  rewrite app_nil_r in El. cbn [buffer_out total_size]. rewrite El. cbn [mbind outcome_bind].
  eexists. split; [done|]. done.
Qed.
End end_to_end.

(** the comparison of the self test stops at the first NUL of the page: what
    the server returns after position [(256 - i) mod 256] of page [i] is not
    checked. *)
Theorem test_page_check_stops_at_nul i buffer :
  0 <= i < 256 ->
  take (S (Z.to_nat ((256 - i) mod 256))) buffer = take (S (Z.to_nat ((256 - i) mod 256))) (test_page i) ->
  strncmp buffer (test_page i) (Z.to_nat 4096) = Ret 0.
Proof.
  intros Hi E. set (k := Z.to_nat ((256 - i) mod 256)) in *.
  pose proof (Z.mod_pos_bound (256 - i) 256 ltac:(lia)) as Hk.
  assert (test_page i !! k = Some nul) as Hn.
  { rewrite lookup_test_page by lia. f_equal.
    unfold k. rewrite Z2Nat.id by lia. rewrite Zplus_mod_idemp_r.
    replace (i + (256 - i)) with 256 by lia. done. }
  assert (buffer !! k = Some nul) as Hb.
  { rewrite <-Hn, <-(lookup_take_lt buffer (S k)), E by lia. apply lookup_take_lt. lia. }
  assert (take k buffer = take k (test_page i)) as Ek.
  { apply (f_equal (take k)) in E. rewrite !take_take in E. by rewrite Nat.min_l in E by lia. }
  rewrite <-(take_drop_middle _ _ _ Hn), <-(take_drop_middle _ _ _ Hb), Ek. apply strncmp_shared_nul.
Qed.

(** for times in normal form, [timeval_subtract] computes the difference, in
    normal form, and tells whether it is negative; the second carry is never
    taken. *)
Theorem timeval_subtract_spec x y :
  0 <= tv_usec x < 1000000 -> 0 <= tv_usec y < 1000000 ->
  let (r, negative) := timeval_subtract x y in
  tv_sec r * 1000000 + tv_usec r =
    (tv_sec x * 1000000 + tv_usec x) - (tv_sec y * 1000000 + tv_usec y) /\
  0 <= tv_usec r < 1000000 /\
  (negative = true <-> tv_sec x * 1000000 + tv_usec x < tv_sec y * 1000000 + tv_usec y).
Proof.
  intros Hx Hy. unfold timeval_subtract. destruct (Z.ltb_spec (tv_usec x) (tv_usec y)).
  - rewrite Z.quot_small by lia. cbn [tv_sec tv_usec].
    rewrite (proj2 (Z.ltb_ge 1000000 _)) by lia. cbn [tv_sec tv_usec]. rewrite Z.ltb_lt. lia.
  - rewrite (proj2 (Z.ltb_ge 1000000 _)) by lia. cbn [tv_sec tv_usec]. rewrite Z.ltb_lt. lia.
Qed.

(** the check for a positive size is made on an unsigned number: a negative
    size is accepted, and a READ then throws at its allocation. *)
Theorem negative_size_accepted `{Heap} connection debug_flag off n :
  atoi n < 0 -> is_s32 (atoi n) ->
  parse_args [bs "read"; off; n] = Command SAWA_READ (u32 (atoi off)) (u32 (atoi n)) /\
  run_command connection debug_flag SAWA_READ (u32 (atoi off)) (u32 (atoi n)) = Throw (std_exn bad_array_new_length).
Proof.
  intros Hn Hr. unfold parse_args.
  rewrite !bool_decide_eq_false_2 by (vm_compute; discriminate). rewrite bool_decide_eq_true_2 by done.
  assert (u32 (atoi n) = atoi n + 2 ^ 32) as E.
  { unfold u32, is_s32 in *. symmetry. apply (Z.mod_unique _ _ (-1)); lia. }
  rewrite (proj2 (Z.leb_gt (u32 (atoi n)) 0)) by (unfold is_s32 in *; lia). split; [done|].
  unfold run_command, sendCommand. cbn [Z.eqb Pos.eqb SAWA_READ]. unfold sendReadCmd.
  rewrite s32_u32, (s32_small (atoi n)), (proj2 (Z.ltb_lt (atoi n) 0)) by done. done.
Qed.

(** ** Concrete runs *)

Section witnesses.
#[local] Existing Instance zero_heap.
#[local] Existing Instance SawaServer.device.
#[local] Existing Instance SawaServer.device_laws.
Definition no_connection : Z -> option sock := fun _ => None.

(** The server a first start creates. *)
Definition fresh_server : SawaServer.t := SawaServer.mk 2048 (mkFILE (zrepeat 1048576 nul) 1048576).
Lemma fresh_server_new w :
  SawaServer.new (Screen.DisplayDefault false) w no_fault None true = (Ret fresh_server, w).
Proof. unfold SawaServer.new. by rewrite (SawaServer.getFilesystemFile_created _ w w). Qed.
Lemma zlen_fresh_server : zlen (dev_contents fresh_server) = 2 ^ 20.
Proof. apply (zlen_repeat 1048576). lia. Qed.
Lemma wf_server n data pos :
  0 <= n < 2 ^ 23 -> zlen data = n * 512 -> SawaServer.wf (SawaServer.mk n (mkFILE data pos)).
Proof. done. Qed.
Lemma wf_fresh_server : SawaServer.wf fresh_server.
Proof. apply wf_server; [done|]. rewrite zlen_repeat; done. Qed.

Lemma sendWriteCmd_sends_page_witness :
  exists rest it', zlen rest = 4094 /\
    sendWriteCmd no_connection (bs "hi") 8 2 (Some (awaiting [z2b SAWA_MSG_OK] [] [])) = Ret (SAWA_MSG_OK, it') /\
    tx (socket it') = Proto.frame (Proto.Write 8 (bs "hi" ++ rest)) /\ rest = zdrop 6 (uninit 4100).
Proof. apply (sendWriteCmd_sends_page no_connection (bs "hi") 8 (awaiting [z2b SAWA_MSG_OK] [] []) (z2b SAWA_MSG_OK) []); done. Defined.

Lemma sendFillCmd_overrun_witness : sendFillCmd no_connection 0 4097 (Some (awaiting [] [] [])) = Undef.
Proof. by apply sendFillCmd_overrun. Defined.

Lemma sendReadCmd_one_byte_witness :
  sendReadCmd no_connection 5 1 (Some (awaiting (bs "z") [] [])) = Throw 122.
Proof. by apply (sendReadCmd_one_byte no_connection 5 (awaiting (bs "z") [] []) (z2b 122) []). Defined.

Lemma sendReadCmd_partial_witness :
  sendReadCmd no_connection 5 4 (Some (awaiting (bs "z") [RxData (bs "oom")] [])) = Throw 122.
Proof. by apply (sendReadCmd_partial no_connection 5 4 (awaiting (bs "z") [RxData (bs "oom")] []) (bs "z") [RxData (bs "oom")]). Defined.

Lemma write_read_page_witness :
  exists r1 d1 it1 r2 d2 it2,
    dev_handle (Proto.body (Proto.Write 8192 (test_page 3))) fresh_server = Ret (r1, d1) /\
    sendWriteCmd no_connection (test_page 3) 8192 4096 (Some (awaiting r1 [] [])) = Ret (SAWA_MSG_OK, it1) /\
    tx (socket it1) = [] ++ Proto.frame (Proto.Write 8192 (test_page 3)) /\
    dev_handle (Proto.body (Proto.Read 8192 4096)) d1 = Ret (r2, d2) /\
    sendReadCmd no_connection 8192 4096 (Some (awaiting r2 [] (tx (socket it1)))) = Ret (test_page 3, it2) /\
    tx (socket it2) = tx (socket it1) ++ Proto.frame (Proto.Read 8192 4096) /\
    dev_contents d2 = store (dev_contents fresh_server) 8192 (test_page 3).
Proof.
  apply (write_read_page no_connection fresh_server 8192 (test_page 3) []);
    [apply wf_fresh_server|apply zlen_test_page|lia|rewrite zlen_fresh_server; lia|lia].
Defined.

Lemma threadTest_passes_witness :
  exists replies d', dev_run fresh_server (Proto.Info :: test_requests 256 0) = Ret (replies, d') /\
    exists it, threadTest (fun _ => Some (mkSock (map RxData replies) [])) 7 = Ret (bs "End thread 7" ++ [nl], it) /\
      socket it = mkSock [] (concat (map Proto.frame (Proto.Info :: test_requests 256 0))).
Proof.
  destruct (threadTest_passes fresh_server 7) as (replies & d' & E & Ht);
    [apply wf_fresh_server|rewrite zlen_fresh_server; lia|].
  exists replies, d'. split; [exact E|]. exact (Ht (fun _ => Some (mkSock (map RxData replies) [])) eq_refl).
Defined.

Lemma test_page_check_stops_at_nul_witness :
  strncmp (nul :: bs "corrupted") (test_page 0) (Z.to_nat 4096) = Ret 0.
Proof. apply (test_page_check_stops_at_nul 0); [done|]. vm_compute. reflexivity. Defined.

Lemma timeval_subtract_spec_witness :
  let (r, negative) := timeval_subtract (mkTimeval 12 100) (mkTimeval 10 999999) in
  tv_sec r * 1000000 + tv_usec r = 1000101 /\ 0 <= tv_usec r < 1000000 /\ (negative = true <-> 12000100 < 10999999).
Proof. apply (timeval_subtract_spec (mkTimeval 12 100) (mkTimeval 10 999999)); done. Defined.

Lemma negative_size_accepted_witness :
  parse_args [bs "read"; bs "0"; bs "-5"] = Command SAWA_READ 0 4294967291 /\
  run_command no_connection true SAWA_READ 0 4294967291 = Throw (std_exn bad_array_new_length).
Proof. apply (negative_size_accepted no_connection true (bs "0") (bs "-5")); vm_compute; done. Defined.
End witnesses.

End Client.
