(* ===== verification/TestRun.v ===== *)
(** * The self test of the client: SawaClient::testServer in
    server/sawa_client_interface.cpp

    The main thread sets a counter, starts the test threads, each of which
    ([Client.threadTest]) decrements it atomically at its end, and waits in a loop
    for the counter to reach zero.  The steps of the threads are interleaved. *)

From stdpp Require Import fin_sets.
From S2P Require Import Prelude CStd Util Proto SawaSrv SawaClient.
#[local] Open Scope Z_scope.

Module TestServer.

Inductive main_counter := Starting | Waiting | Completed.

Section run.
(** Whether [pthread_create] succeeds for a thread; its result is not tested. *)
Context (create_ok : nat -> bool) (nb_threads : nat).

Record state := mk_state {
  main : main_counter; started : nat; test_counter : Z; running : gset nat; finished : gset nat }.
Definition init : state := mk_state Starting 0 (Z.of_nat nb_threads) ∅ ∅.

Inductive step : state -> state -> Prop :=
| S_create i c r f :
    (i < nb_threads)%nat -> create_ok i = true ->
    step (mk_state Starting i c r f) (mk_state Starting (S i) c ({[i]} ∪ r) f)
| S_create_fails i c r f :
    (i < nb_threads)%nat -> create_ok i = false ->
    step (mk_state Starting i c r f) (mk_state Starting (S i) c r f)
| S_all_created i c r f :
    (nb_threads <= i)%nat -> step (mk_state Starting i c r f) (mk_state Waiting i c r f)
| S_atomic_dec m n c r f i :
    i ∈ r -> step (mk_state m n c r f) (mk_state m n (c - 1) (r ∖ {[i]}) ({[i]} ∪ f))
| S_loop n c r f :
    0 < c -> step (mk_state Waiting n c r f) (mk_state Waiting n c r f)
| S_loop_ends n c r f :
    c <= 0 -> step (mk_state Waiting n c r f) (mk_state Completed n c r f).

Definition reachable : state -> Prop := rtc step init.

Record invariant (s : state) : Prop := {
  i_counter : test_counter s = Z.of_nat nb_threads - Z.of_nat (size (finished s));
  i_threads : forall i, i ∈ running s \/ i ∈ finished s <-> (i < started s)%nat /\ create_ok i = true;
  i_disjoint : running s ## finished s;
  i_started : (started s <= nb_threads)%nat;
  i_main : main s <> Starting -> started s = nb_threads;
  i_completed : main s = Completed -> test_counter s <= 0 }.

Lemma test_invariant_step s s' : invariant s -> step s s' -> invariant s'.
Proof.
  intros [I1 I2 I3 I4 I5 I6] Hs. inversion Hs; subst; cbn in *.
  - split; cbn; [done| | |lia|done|done].
    + intros j. specialize (I2 j). split.
      * intros [[->%elem_of_singleton|Hj]%elem_of_union|Hj]; [split; [lia|done]|..].
        -- destruct (proj1 I2 (or_introl Hj)). split; [lia|done].
        -- destruct (proj1 I2 (or_intror Hj)). split; [lia|done].
      * intros [Hj Hok]. destruct (decide (j = i)) as [->|]; [left; set_solver|].
        destruct (proj2 I2) as [|]; [split; [lia|done]|left; set_solver|by right].
    + apply disjoint_union_l. split; [|done]. intros j ->%elem_of_singleton Hj.
      destruct (proj1 (I2 i) (or_intror Hj)). lia.
  - split; cbn; [done| |done|lia|done|done]. intros j. rewrite I2. split; intros [H1 H2]; (split; [|done]); [lia|].
    destruct (decide (j = i)) as [->|]; [congruence|lia].
  - split; cbn; [done|done|done|done| |done]. intros _. lia.
  - assert (i ∉ f) as Hif by (intros X; by apply (I3 i)).
    split; cbn; [| | |done|done|].
    + rewrite size_union by set_solver. rewrite size_singleton. lia.
    + intros j. rewrite <-I2, elem_of_difference, elem_of_union, elem_of_singleton. destruct (decide (j = i)) as [->|]; tauto.
    + set_solver.
    + intros E. specialize (I6 E). lia.
  - by split.
  - split; cbn; [done|done|done|done| |done]. intros _. by apply I5.
Qed.

Lemma test_reachable_invariant s : reachable s -> invariant s.
Proof.
  intros Hr. assert (invariant init) as H0.
  { split; cbn; [rewrite size_empty; lia| |done|lia|done|done]. intros i. split; [set_solver|lia]. }
  unfold reachable in Hr. revert H0. induction Hr as [|s1 s2 s3 H12 _ IH]; [done|]. intros H1. apply IH.
  by apply (test_invariant_step s1).
Qed.

(** C22: the main thread leaves its loop only when every thread has been created and
    has finished; if the creation of one of them has failed it never does. *)
Theorem waits_for_every_thread s :
  reachable s -> main s = Completed ->
  (forall i, (i < nb_threads)%nat -> create_ok i = true /\ i ∈ finished s) /\ running s ≡ ∅ /\ test_counter s = 0.
Proof.
  intros Hr Hm. destruct (test_reachable_invariant s Hr) as [I1 I2 I3 I4 I5 I6].
  assert (finished s ⊆ set_seq 0 nb_threads) as Hsub.
  { intros i Hi. apply elem_of_set_seq. destruct (proj1 (I2 i) (or_intror Hi)). lia. }
  pose proof (subseteq_size _ _ Hsub) as Hsz. rewrite size_set_seq in Hsz. specialize (I6 Hm).
  assert (finished s ≡ set_seq 0 nb_threads) as Eq by (apply set_subseteq_size_equiv; [done|rewrite size_set_seq; lia]).
  split; [|split; [|lia]].
  - intros i Hi. assert (i ∈ finished s) as Hf by (apply Eq, elem_of_set_seq; lia).
    split; [|done]. by destruct (proj1 (I2 i) (or_intror Hf)).
  - intros i. split; [|set_solver]. intros Hi. exfalso. apply (I3 i); [done|]. apply Eq, elem_of_set_seq.
    destruct (proj1 (I2 i) (or_introl Hi)). lia.
Qed.

(** The threads that run can all finish. *)
Lemma finish_all k : forall s, size (running s) = k ->
  exists s', rtc step s s' /\ main s' = main s /\ running s' ≡ ∅.
Proof.
  induction k as [|k IH]; intros s Hk.
  - exists s. split; [done|]. split; [done|]. by apply size_empty_iff.
  - destruct (size_pos_elem_of (running s)) as [i Hi]; [lia|]. destruct s as [m n c r f]. cbn in *.
    destruct (IH (mk_state m n (c - 1) (r ∖ {[i]}) ({[i]} ∪ f))) as (s' & Hs & Hm & Hr).
    { cbn. rewrite size_difference, size_singleton by set_solver. lia. }
    exists s'. split; [|done]. eapply rtc_l; [by apply S_atomic_dec|done].
Qed.
(** The main thread can create the others. *)
Lemma create_all k : (forall i, create_ok i = true) -> forall s, main s = Starting -> (nb_threads - started s <= k)%nat ->
  exists s', rtc step s s' /\ main s' = Waiting.
Proof.
  intros Hok. induction k as [|k IH]; intros [m n c r f]; cbn; intros -> Hk.
  - eexists. split; [apply rtc_once, S_all_created; lia|done].
  - destruct (decide (n < nb_threads)%nat) as [Hlt|Hge].
    + destruct (IH (mk_state Starting (S n) c ({[n]} ∪ r) f)) as (s' & Hs & Hm); [done|cbn; lia|].
      exists s'. split; [|done]. eapply rtc_l; [by apply S_create|done].
    + eexists. split; [apply rtc_once, S_all_created; lia|done].
Qed.

(** when every creation succeeds the test can end, from wherever the threads
    stand. *)
Theorem test_can_end s :
  (forall i, create_ok i = true) -> reachable s -> exists s', rtc step s s' /\ main s' = Completed.
Proof.
  intros Hok Hr. assert (exists s1, rtc step s s1 /\ main s1 <> Starting) as (s1 & H1 & M1).
  { destruct (main s) eqn:E; [|exists s; split; [done|congruence]..].
    destruct (create_all (nb_threads - started s) Hok s E) as (s' & Hs & Hm); [done|]. exists s'. split; [done|congruence]. }
  destruct (finish_all (size (running s1)) s1 eq_refl) as (s2 & H2 & M2 & R2).
  assert (reachable s2) as Hr2 by (unfold reachable in *; etrans; [exact Hr|]; etrans; [exact H1|exact H2]).
  destruct (test_reachable_invariant s2 Hr2) as [I1 I2 I3 I4 I5 I6].
  assert (rtc step s s2) as H12 by (by etrans).
  destruct (main s2) eqn:E2; [congruence| |by exists s2].
  assert (finished s2 ≡ set_seq 0 nb_threads) as Eq.
  { intros i. rewrite elem_of_set_seq. specialize (I2 i). rewrite I5 in I2 by congruence. rewrite R2 in I2.
    split; [intros Hi; destruct (proj1 I2 (or_intror Hi)); lia|]. intros Hi.
    assert (i < nb_threads)%nat as Hlt by lia. destruct (proj2 I2 (conj Hlt (Hok i))); [set_solver|done]. }
  assert (test_counter s2 = 0) as Hc by (rewrite I1, Eq, size_set_seq; lia).
  destruct s2 as [m n c r f]. cbn in *. subst m c. eexists. split; [eapply rtc_r; [exact H12|apply S_loop_ends; lia]|done].
Qed.

End run.

(** A test with one thread. *)
Definition one_done : state := mk_state Completed 1 0 (({[0%nat]} ∪ ∅) ∖ {[0%nat]}) ({[0%nat]} ∪ ∅).
Lemma waits_for_every_thread_witness : reachable (fun _ => true) 1 one_done /\ 0%nat ∈ finished one_done.
Proof.
  assert (reachable (fun _ => true) 1 one_done) as Hr.
  { eapply rtc_l; [apply S_create; [lia|done]|]. eapply rtc_l; [apply S_all_created; lia|].
    eapply rtc_l; [apply (S_atomic_dec _ _ _ _ _ _ _ 0); set_solver|]. apply rtc_once. apply S_loop_ends. lia. }
  split; [exact Hr|]. apply (waits_for_every_thread (fun _ => true) 1 one_done Hr); [done|lia].
Defined.

Lemma test_can_end_witness : exists s', rtc (step (fun _ => true) 10) (init 10) s' /\ main s' = Completed.
Proof. apply (test_can_end (fun _ => true) 10 (init 10)); [done|apply rtc_refl]. Defined.

End TestServer.
