(* ===== verification/TowaIpc.v ===== *)
(** * Messages between the server and the servlet container: server/towa_ipc.cpp

    A [Message] is a block of bytes with its size, preceded on the pipe by the
    size, and, in the direction of the server, by one byte of status.  A pipe
    is the bytes written to it until it is closed. *)

From S2P Require Import Prelude CStd Util.

Module TowaIPC.

Definition FAILURE_TOWA_IPC_CANNOT_CREATE_PIPE : Z := 48.
Definition TOWA_HTTP_200 : Z := 1.
Definition TOWA_HTTP_404 : Z := 2.
Definition TOWA_HTTP_500 : Z := 3.

(** [header] is uninitialised unless the message was read with one. *)
Record Message := mkMessage { content : bytes; size : Z; header : option byte }.

Definition getContent (m : Message) : bytes := content m.
Definition getSize (m : Message) : Z := size m.
(** [string((const char * )content, size)]. *)
Definition getString (m : Message) : outcome bytes :=
  if (0 <=? size m) && (size m <=? zlen (content m)) then Ret (ztake (size m) (content m)) else Undef.
Definition getHeader (m : Message) : outcome byte := of_access (header m).

(** [Message::Message(string)] and [Message::Message(int, uint8_t * )]. *)
Definition of_string (s : bytes) : Message := mkMessage s (zlen s) None.
Definition of_buffer (n : Z) (content : bytes) : Message := mkMessage content n None.

(** [Message::sendTo]: the bytes written. *)
Definition sendTo (m : Message) : outcome bytes :=
  s ← getString m; Ret (put_u32 (size m) ++ s).

Section with_heap.
Context `{Heap}.

(** [Message::Message(FILE * , bool)] on a pipe that holds [pipe]; each [fread]
    takes what is there, the rest of its buffer keeps its value. *)
Definition read_Message (pipe : bytes) (hasHeader : bool) : outcome Message :=
  let size := s32 (get_u32 (store (put_u32 0) 0 (ztake 4 pipe))) in
  let pipe := zdrop 4 pipe in
  let '(header, size, pipe) :=
    if hasHeader then (head pipe, s32 (size - 1), zdrop 1 pipe) else (None, size, pipe) in
  if size <? 0 then Throw (std_exn bad_array_new_length)
  else Ret (mkMessage (fill size (ztake size pipe)) size header).

(** [TowaPipe::TowaPipe]: results of the two [mknod], with [errno]. *)
Definition new_TowaPipe (ping pong : Z * Z) : outcome unit :=
  if (ping.1 <? 0) && negb (ping.2 =? 17) then Throw FAILURE_TOWA_IPC_CANNOT_CREATE_PIPE
  else if (pong.1 <? 0) && negb (pong.2 =? 17) then Throw FAILURE_TOWA_IPC_CANNOT_CREATE_PIPE
  else Ret tt.

(** [TowaPipe::sendMsg]: what is written to the ping pipe, and the message read
    from what the pong pipe then holds.  [None] stands for a pipe that cannot be
    opened. *)
Definition request_text (verb classname querystring : bytes) : bytes :=
  verb ++ bs "|" ++ classname ++ bs "|" ++ querystring.
Definition sendMsg (opens : bool) (verb classname querystring : bytes)
    (pong : bytes -> option bytes) : outcome (bytes * Message) :=
  ping ← (if opens then sendTo (of_string (request_text verb classname querystring)) else Undef);
  answer ← of_access (pong ping);
  msg_in ← read_Message answer true;
  Ret (ping, msg_in).

(** [TowaPipe::listenToMsg]: the bytes written to the pong pipe.  The callback
    may return a null pointer. *)
Definition listenToMsg (ping : option bytes) (callback : Message -> outcome (option Message))
  : outcome bytes :=
  ping ← of_access ping;
  msg_in ← read_Message ping false;
  r ← callback msg_in;
  msg_out ← of_access r;
  sendTo msg_out.

(** The other transports are stubs: no message is sent, the answer is a null pointer
    and the callback is never called. *)
Definition TowaTCP_sendMsg (verb classname querystring : bytes) : outcome (option Message) := Ret None.
Definition TowaTCP_listenToMsg (callback : Message -> outcome (option Message)) : outcome unit := Ret tt.
Definition TowaSharedMem_sendMsg (verb classname querystring : bytes) : outcome (option Message) := Ret None.
Definition TowaSharedMem_listenToMsg (callback : Message -> outcome (option Message)) : outcome unit := Ret tt.

(** ** Round trips *)

Lemma sendTo_of_string s : sendTo (of_string s) = Ret (put_u32 (zlen s) ++ s).
Proof.
  unfold sendTo, getString, of_string. cbn [size content].
  rewrite (proj2 (Z.leb_le 0 (zlen s))), (proj2 (Z.leb_le (zlen s) (zlen s))) by (apply zlen_nonneg || lia).
  cbn [andb mbind outcome_bind]. by rewrite ztake_all.
Qed.

Lemma get_u32_store_full d : zlen d = 4 -> get_u32 (store (put_u32 0) 0 d) = get_u32 d.
Proof.
  intros Hd. rewrite store_within by (rewrite ?zlen_put_u32; lia).
  rewrite (ztake_nat 0), take_0 by lia. rewrite Hd. by rewrite zdrop_all, app_nil_r by done.
Qed.

Lemma ztake_put_u32 z l : ztake 4 (put_u32 z ++ l) = put_u32 z.
Proof. apply (ztake_app (put_u32 z)). Qed.
Lemma zdrop_put_u32 z l : zdrop 4 (put_u32 z ++ l) = l.
Proof. apply (zdrop_app (put_u32 z)). Qed.
Lemma get_u32_put z : get_u32 (put_u32 z) = u32 z.
Proof. pose proof (get_put_u32 z []) as E. by rewrite app_nil_r in E. Qed.

Lemma read_no_header s : zlen s < 2 ^ 31 -> 
  read_Message (put_u32 (zlen s) ++ s) false = Ret (mkMessage s (zlen s) None).
Proof.
  intros Hs. pose proof (zlen_nonneg s). unfold read_Message.
  rewrite ztake_put_u32, zdrop_put_u32, get_u32_store_full, get_u32_put, s32_u32, s32_small
    by (unfold is_s32; done || lia).
  rewrite (proj2 (Z.ltb_ge (zlen s) 0)) by lia. rewrite ztake_all by lia. by rewrite fill_exact.
Qed.

Lemma read_with_header h s : zlen s + 1 < 2 ^ 31 ->
  read_Message (put_u32 (zlen s + 1) ++ h :: s) true = Ret (mkMessage s (zlen s) (Some h)).
Proof.
  intros Hs. pose proof (zlen_nonneg s). unfold read_Message.
  rewrite ztake_put_u32, zdrop_put_u32, get_u32_store_full, get_u32_put, s32_u32
    by (unfold is_s32; done || lia).
  rewrite (s32_small (zlen s + 1)) by (unfold is_s32; lia). rewrite s32_small by (unfold is_s32; lia).
  replace (zlen s + 1 - 1) with (zlen s) by lia.
  rewrite (proj2 (Z.ltb_ge (zlen s) 0)) by lia. cbn [head].
  pose proof (zdrop_app [h] s) as Ez. change (zlen [h]) with 1 in Ez. cbn [app] in Ez. rewrite Ez.
  rewrite ztake_all by lia. by rewrite fill_exact.
Qed.

(** a request sent by the server reaches the callback of the container as the
    text [verb|classname|query], and what the callback answers reaches the
    server, its first byte as the header, the rest as the content. *)
Theorem pipe_round_trip verb classname query callback h answer :
  zlen (request_text verb classname query) < 2 ^ 31 -> zlen answer + 1 < 2 ^ 31 ->
  callback (of_string (request_text verb classname query)) = Ret (Some (of_string (h :: answer))) ->
  sendMsg true verb classname query (fun ping => match listenToMsg (Some ping) callback with Ret b => Some b | _ => None end) =
  Ret (put_u32 (zlen (request_text verb classname query)) ++ request_text verb classname query,
       mkMessage answer (zlen answer) (Some h)).
Proof.
  intros Hq Ha Hc. unfold sendMsg. rewrite sendTo_of_string. cbn [mbind outcome_bind].
  unfold listenToMsg. cbn [of_access mbind outcome_bind]. rewrite read_no_header by done.
  cbn [mbind outcome_bind]. unfold of_string in Hc at 1. rewrite Hc. cbn [mbind outcome_bind of_access].
  rewrite sendTo_of_string. cbn [of_access mbind outcome_bind].
  rewrite zlen_cons, read_with_header by done. done.
Qed.

(** an answer without a status byte (size zero) makes the server allocate a
    block of -1 bytes, and so does an empty pipe. *)
Theorem empty_answer_throws rest :
  read_Message (put_u32 0 ++ rest) true = Throw (std_exn bad_array_new_length) /\ read_Message [] true = Throw (std_exn bad_array_new_length).
Proof.
  split; [|done]. unfold read_Message. by rewrite ztake_put_u32.
Qed.

(** when the callback returns a null pointer, the container dereferences it. *)
Theorem null_answer ping msg callback :
  read_Message ping false = Ret msg -> callback msg = Ret None ->
  listenToMsg (Some ping) callback = Undef.
Proof. intros E Hc. unfold listenToMsg. cbn [of_access mbind outcome_bind]. rewrite E. cbn [mbind outcome_bind]. by rewrite Hc. Qed.

End with_heap.

Section witnesses.
#[local] Existing Instance zero_heap.
Lemma pipe_round_trip_witness :
  sendMsg true (bs "GET") (bs "Hello") (bs "a=1")
    (fun ping => match listenToMsg (Some ping) (fun _ => Ret (Some (of_string (z2b TOWA_HTTP_200 :: bs "ok")))) with
                 | Ret b => Some b | _ => None end) =
  Ret (put_u32 13 ++ bs "GET|Hello|a=1", mkMessage (bs "ok") 2 (Some (z2b TOWA_HTTP_200))).
Proof.
  apply (pipe_round_trip (bs "GET") (bs "Hello") (bs "a=1")
    (fun _ => Ret (Some (of_string (z2b TOWA_HTTP_200 :: bs "ok")))) (z2b TOWA_HTTP_200) (bs "ok")); done.
Defined.
Lemma null_answer_witness :
  listenToMsg (Some (put_u32 3 ++ bs "GET")) (fun _ => Ret None) = Undef.
Proof. apply (null_answer _ (mkMessage (bs "GET") 3 None)); vm_compute; reflexivity. Defined.
End witnesses.

End TowaIPC.
