(* ===== verification/HttpSrv.v ===== *)
(** * The HTTP server: server/http_srv.cpp

    [Regex] is the part of ECMAScript regular expressions the request line is
    parsed with; [HTTPRequest] the request, [WebFile] and [getFile] the files
    with their cache, [HTTPServer] the request handler and the reading loop. *)

From S2P Require Import Prelude CStd Util ThreadPool TowaIpc.
Import Pool.

(** ** Regular expressions with captures *)
Module Regex.

(** One character of a class, greedy repetitions of a class, sequences,
    optional parts and capturing groups. *)
Inductive re :=
| Cls (p : byte -> bool)
| Star (p : byte -> bool)
| Plus (p : byte -> bool)
| Seq (r1 r2 : re)
| Opt (r : re)
| Group (n : nat) (r : re).

Definition captures := nat -> bytes.
Definition no_captures : captures := fun _ => [].
Definition capture (n : nat) (s : bytes) (c : captures) : captures :=
  fun k => if Nat.eqb k n then s else c k.

(** A greedy repetition: one more character if that leads to a match, else the
    rest of the expression. *)
Fixpoint star {R} (p : byte -> bool) (s : bytes) (k : bytes -> option R) : option R :=
  match s with
  | b :: s' =>
      if p b then match star p s' k with Some r => Some r | None => k s end
      else k s
  | [] => k s
  end.

(** Backtracking search of the first match, in continuation-passing style: the
    continuation gets what remains of the subject and the captures. *)
Fixpoint matches {R} (r : re) (s : bytes) (c : captures) (k : bytes -> captures -> option R) : option R :=
  match r with
  | Cls p => match s with b :: s => if p b then k s c else None | [] => None end
  | Star p => star p s (fun s => k s c)
  | Plus p => match s with b :: s => if p b then star p s (fun s => k s c) else None | [] => None end
  | Seq r1 r2 => matches r1 s c (fun s c => matches r2 s c k)
  | Opt r => match matches r s c k with Some x => Some x | None => k s c end
  | Group n r => matches r s c (fun s' c => k s' (capture n (take (length s - length s') s) c))
  end.

(** [std::regex_search] for an expression anchored at the start: the captures
    and the suffix. *)
Definition search (r : re) (s : bytes) : option (captures * bytes) :=
  matches r s no_captures (fun s c => Some (c, s)).

Definition chr (b : byte) : re := Cls (beqb b).
Fixpoint str (s : bytes) (r : re) : re :=
  match s with [] => r | b :: s => Seq (chr b) (str s r) end.
End Regex.

Module HTTPRequest.
Import Regex.

Definition request_message_len : Z := 1016.

Definition word_char (b : byte) : bool := isalnum b || (b2z b =? 95).
(** The class [[\w\.\-/]]. *)
Definition path_char (b : byte) : bool :=
  word_char b || (b2z b =? 46) || (b2z b =? 45) || (b2z b =? 47).
(** The dot of ECMAScript excludes line terminators. *)
Definition any_char (b : byte) : bool := negb ((b2z b =? 10) || (b2z b =? 13)).

(** The expression GET, spaces, the path, an optional query after a question
    mark, spaces, HTTP. *)
Definition tail_re : re := Seq (Plus isspace) (str (bs "HTT") (chr (z2b 80))).
Definition after_path : re :=
  Seq (Opt (Group 2 (Seq (chr (z2b 63)) (Group 3 (Star any_char))))) tail_re.
Definition request_line : re :=
  str (bs "GET") (Seq (Plus isspace) (Seq (Group 1 (Plus path_char)) after_path)).

Record t := mk { method : bytes; path : bytes; query_string : bytes; valid : bool; keep_alive : bool }.

(** [std::getline]: the text before the first newline. *)
Fixpoint getline (s : bytes) : bytes :=
  match s with b :: s => if beqb b nl then [] else b :: getline s | [] => [] end.

(** The body of the loop over the submatches; [case 1] falls through. *)
Definition assign (idx : nat) (x : bytes) (pq : bytes * bytes) : bytes * bytes :=
  match idx with
  | 1%nat => (x, x)
  | 3%nat => (pq.1, x)
  | _ => pq
  end.
(** The loop over the matches: [idx] goes on counting from one match to the
    next.  Each match has four submatches. *)
Fixpoint parse_loop (fuel : nat) (idx : nat) (s : bytes) (pq : bytes * bytes) : bytes * bytes :=
  match fuel with
  | O => pq
  | S fuel =>
      match search request_line s with
      | None => pq
      | Some (c, suffix) =>
          let x0 := take (length s - length suffix) s in
          let pq := assign idx x0 pq in
          let pq := assign (idx + 1) (c 1%nat) pq in
          let pq := assign (idx + 2) (c 2%nat) pq in
          let pq := assign (idx + 3) (c 3%nat) pq in
          parse_loop fuel (idx + 4) suffix pq
      end
  end.

(** The constructor: [buffer_in] is the memory from the request on. *)
Definition new (buffer_in : bytes) : outcome t :=
  text ← c_text buffer_in;
  let s := getline text in
  let '(path, query_string) := parse_loop (S (length s)) 0 s ([], []) in
  keep ← Util.strnCaseStr buffer_in (cstr (bs "Connection: Keep-Alive")) request_message_len;
  Ret (mk (bs "GET") path query_string (negb (bool_decide (path = []))) (negb (keep =? 0))).

(** ** What the expression accepts *)

(** A repetition that stops at a character outside the class, when the rest
    cannot match any earlier. *)
Lemma star_stop {R} p (w s : bytes) (k : bytes -> option R) :
  Forall (fun b => p b = true) w -> match s with b :: _ => p b = false | [] => True end ->
  (forall w1 b w2, w = w1 ++ b :: w2 -> k (b :: w2 ++ s) = None) ->
  star p (w ++ s) k = k s.
Proof.
  intros Hw Hs. induction Hw as [|b w Hb Hw IH]; simpl; intros Hk.
  - destruct s as [|b s]; [done|]. simpl. by rewrite Hs.
  - rewrite Hb, IH.
    + destruct (k s); [done|]. apply (Hk [] b w eq_refl).
    + intros w1 b' w2 ->. apply (Hk (b :: w1) b' w2 eq_refl).
Qed.

Lemma star_none {R} p (s : bytes) (k : bytes -> option R) :
  (forall s1 s2, s = s1 ++ s2 -> k s2 = None) -> star p s k = None.
Proof.
  induction s as [|b s IH]; intros Hk; simpl; [by apply (Hk [] [])|].
  destruct (p b); [|by apply (Hk [])].
  rewrite IH; [by apply (Hk [])|]. intros s1 s2 ->. by apply (Hk (b :: s1)).
Qed.

(** A repetition takes as much as lets the rest match. *)
Lemma star_last {R} p (w : bytes) b s (k : bytes -> option R) r :
  Forall (fun b => p b = true) w -> k (b :: s) = Some r ->
  (forall s1 s2, s = s1 ++ s2 -> k s2 = None) ->
  star p (w ++ b :: s) k = Some r.
Proof.
  intros Hw Hk Hs. induction Hw as [|a w Ha Hw IH]; simpl.
  - destruct (p b); [|done]. by rewrite (star_none p s k).
  - by rewrite Ha, IH.
Qed.

Lemma path_not_space b : path_char b = true -> isspace b = false.
Proof.
  unfold path_char, word_char, isalnum, isalpha, isupper, islower, isdigit, isspace.
  rewrite !orb_true_iff, !andb_true_iff, !Z.leb_le, !Z.eqb_eq, orb_false_iff, andb_false_iff, !Z.leb_gt, Z.eqb_neq.
  lia.
Qed.
Lemma space_not_path b : isspace b = true -> path_char b = false.
Proof. intros E. destruct (path_char b) eqn:P; [|done]. by rewrite (path_not_space b P) in E. Qed.
Lemma path_not_question b : path_char b = true -> beqb (z2b 63) b = false.
Proof. intros E. by destruct (beqb_spec (z2b 63) b) as [<-|]. Qed.

Lemma matches_str {R} s r (rest : bytes) c (k : bytes -> captures -> option R) :
  matches (str s r) (s ++ rest) c k = matches r rest c k.
Proof. induction s as [|b s IH]; [done|]. simpl. by rewrite beqb_refl. Qed.

Lemma tail_not_space {R} b s c (k : bytes -> captures -> option R) :
  isspace b = false -> matches tail_re (b :: s) c k = None.
Proof. intros Hb. simpl. by rewrite Hb. Qed.

Lemma after_path_fail {R} b s c (k : bytes -> captures -> option R) :
  path_char b = true -> matches after_path (b :: s) c k = None.
Proof. intros Hb. unfold after_path. simpl. by rewrite path_not_question, path_not_space. Qed.

(** What follows the method and the path: the version holds no white space, and
    the line ends with nothing or a carriage return. *)
Definition wf_version (v eol : bytes) : Prop :=
  Forall (fun b => isspace b = false) v /\ (eol = [] \/ eol = [cr]).

Lemma tail_none {R} v eol c (k : bytes -> captures -> option R) :
  wf_version v eol -> matches tail_re (v ++ eol) c k = None.
Proof.
  intros [Hv He]. destruct Hv as [|b v Hb Hv]; [by destruct He as [->| ->]|].
  by apply tail_not_space.
Qed.

Lemma wf_version_suffix v eol s1 s2 :
  wf_version v eol -> v ++ eol = s1 ++ s2 ->
  exists v' eol', s2 = v' ++ eol' /\ wf_version v' eol'.
Proof.
  intros [Hv He] E. apply app_eq_app in E as [l [[-> ->]|[-> Ee]]].
  - exists l, eol. split; [done|]. split; [|done]. by apply Forall_app in Hv as [_ ?].
  - exists [], s2. split; [done|]. split; [constructor|].
    destruct He as [->| ->].
    + symmetry in Ee. apply app_nil in Ee as [_ ->]. by left.
    + destruct l as [|a l]; simpl in Ee; [by right; symmetry|].
      injection Ee as <- Ee. symmetry in Ee. apply app_nil in Ee as [_ ->]. by left.
Qed.

Lemma take_diff (a b : bytes) : take (length (a ++ b) - length b) (a ++ b) = a.
Proof. rewrite length_app. replace (_ + _ - _)%nat with (length a) by lia. apply take_app_length. Qed.

Lemma after_path_query {R} q v eol c (k : bytes -> captures -> option R) r :
  Forall (fun b => any_char b = true) q -> wf_version v eol ->
  k (v ++ eol) (capture 2 (z2b 63 :: q) (capture 3 q c)) = Some r ->
  matches after_path (z2b 63 :: q ++ bs " HTTP" ++ v ++ eol) c k = Some r.
Proof.
  intros Hq Hv Hk. unfold after_path. cbn [matches chr]. rewrite beqb_refl.
  set (K := fun s' => _).
  assert (star any_char (q ++ bs " HTTP" ++ v ++ eol) K = Some r) as ->; [|done].
  change (bs " HTTP" ++ v ++ eol) with (z2b 32 :: bs "HTTP" ++ v ++ eol).
  apply star_last; [done| |].
  - unfold K.
    pose proof (take_diff q (z2b 32 :: bs "HTTP" ++ v ++ eol)) as T1.
    pose proof (take_diff (z2b 63 :: q) (z2b 32 :: bs "HTTP" ++ v ++ eol)) as T2.
    change (bs " HTTP" ++ v ++ eol) with (z2b 32 :: bs "HTTP" ++ v ++ eol).
    cbn [app] in T2. rewrite T1, T2. exact Hk.
  - intros s1 s2 E. unfold K.
    rewrite app_assoc in E.
    destruct (wf_version_suffix (bs "HTTP" ++ v) eol s1 s2) as (v' & eol' & -> & Hv'); [|done|by apply tail_none].
    destruct Hv as [Hv He]. split; [|done]. apply Forall_app. split; [|done]. by repeat constructor.
Qed.

(** The request line, as a client writes it. *)
Definition query_part (q : option bytes) : bytes := match q with Some q => z2b 63 :: q | None => [] end.
Definition line (spaces path : bytes) (q : option bytes) (v eol : bytes) : bytes :=
  bs "GET" ++ spaces ++ path ++ query_part q ++ bs " HTTP" ++ v ++ eol.
Definition wf_line (spaces path : bytes) (q : option bytes) (v eol : bytes) : Prop :=
  spaces <> [] /\ Forall (fun b => isspace b = true) spaces /\
  path <> [] /\ Forall (fun b => path_char b = true) path /\
  match q with Some q => Forall (fun b => any_char b = true) q | None => True end /\ wf_version v eol.

Lemma search_line spaces path q v eol :
  wf_line spaces path q v eol ->
  exists c, search request_line (line spaces path q v eol) = Some (c, v ++ eol) /\
    c 1%nat = path /\ c 3%nat = default [] q.
Proof.
  intros (Hne & Hsp & Hpe & Hp & Hq & Hv). unfold search, request_line, line. rewrite matches_str.
  destruct spaces as [|b spaces]; [done|]. destruct path as [|p path]; [done|].
  apply Forall_cons in Hsp as [Hb Hsp]. apply Forall_cons in Hp as [Hp0 Hp].
  set (rest := query_part q ++ bs " HTTP" ++ v ++ eol).
  assert (forall c, exists r, matches after_path rest c (fun s c => Some (c, s)) = Some (r, v ++ eol) /\
     r 1%nat = c 1%nat /\ (c 3%nat = [] -> r 3%nat = default [] q)) as Hrest.
  { intros c. unfold rest. destruct q as [q|]; cbn [query_part app].
    - eexists. split; [by apply after_path_query|]. done.
    - exists c. split; [|split; [done|done]]. reflexivity. }
  destruct (Hrest (capture 1 (p :: path) no_captures)) as (c & Hc & H1 & H3).
  exists c. split; [|split; [exact H1|by apply H3]].
  cbn [matches app]. rewrite Hb.
  rewrite (star_stop isspace spaces (p :: path ++ rest)).
  - cbn [matches]. rewrite Hp0. rewrite star_stop; [|done| |].
    + pose proof (take_diff (p :: path) rest) as T. cbn [app] in T. rewrite T. exact Hc.
    + unfold rest. by destruct q.
    + intros w1 a w2 ->. apply after_path_fail.
      apply Forall_app in Hp as [_ Hp]. by apply Forall_cons in Hp as [? _].
  - done.
  - by apply path_not_space.
  - intros w1 a w2 ->. cbn [matches].
    apply Forall_app in Hsp as [_ Hsp]. apply Forall_cons in Hsp as [Ha _].
    by rewrite space_not_path.
Qed.

Lemma parse_loop_done fuel idx s pq : (4 <= idx)%nat -> parse_loop fuel idx s pq = pq.
Proof.
  revert idx s pq. induction fuel as [|fuel IH]; intros idx s pq Hi; [done|]. cbn [parse_loop].
  destruct (search request_line s) as [[c suffix]|]; [|done].
  rewrite IH by lia. do 4 (destruct idx as [|idx]; [lia|]). done.
Qed.

Lemma getline_line s : Forall (fun b => b <> nl) s -> forall r, getline (s ++ nl :: r) = s /\ getline s = s.
Proof.
  induction 1 as [|b s Hb Hs IH]; intros r; [done|]. simpl.
  destruct (beqb_spec b nl); [done|]. destruct (IH r) as [-> ->]. done.
Qed.

(** the request line is understood as written: for a GET with a path made of
    the characters the code allows and an optional query, both are found
    exactly, whatever the headers that follow; the connection is kept alive
    exactly when the header is found, up to case, in the message. *)
Theorem new_spec spaces path q v eol headers rest m1 m2 :
  wf_line spaces path q v eol -> Forall (fun b => b <> nl) (line spaces path q v eol) ->
  no_nul (line spaces path q v eol ++ nl :: headers) ->
  line spaces path q v eol ++ nl :: headers ++ nul :: rest = m1 ++ nul :: m2 -> 1015 <= zlen m1 ->
  new (line spaces path q v eol ++ nl :: headers ++ nul :: rest) =
  Ret (mk (bs "GET") path (default [] q) true
         (Util.caseless_occurs (m1 ++ nul :: m2) (bs "Connection: Keep-Alive") 1016)).
Proof.
  intros Hl Hnl Hn Hm Hlen. unfold new.
  set (l := line spaces path q v eol) in *.
  pose proof (c_text_cstr (l ++ nl :: headers) rest Hn) as Ec.
  unfold cstr in Ec. rewrite <-!app_assoc in Ec. cbn [app] in Ec. rewrite Ec. cbn [mbind outcome_bind].
  destruct (getline_line l Hnl headers) as [-> _].
  destruct (search_line _ _ _ _ _ Hl) as (c & Es & E1 & E3). fold l in Es. cbn [parse_loop]. rewrite Es.
  cbn [assign Nat.add fst snd]. rewrite parse_loop_done by lia. rewrite E1, E3.
  unfold request_message_len.
  rewrite Hm, Util.strnCaseStr_correct by (lia || by repeat constructor).
  cbn [mbind outcome_bind]. do 2 f_equal.
  - rewrite bool_decide_eq_false_2; [done|]. by destruct Hl as (_ & _ & ? & _).
  - by destruct (Util.caseless_occurs _ _ _).
Qed.

(** a request that is not recognised leaves no path and is marked invalid:
    [valid] is equivalent to a match of the expression. *)
Theorem new_valid_iff buffer_in text r :
  c_text buffer_in = Ret text -> new buffer_in = Ret r ->
  valid r = true <-> exists c s, search request_line (getline text) = Some (c, s) /\ c 1%nat <> [].
Proof.
  intros Et E. unfold new in E. rewrite Et in E. cbn [mbind outcome_bind] in E.
  cbn [parse_loop] in E. destruct (search request_line (getline text)) as [[c s]|] eqn:Es.
  - rewrite parse_loop_done in E by lia. cbn [assign Nat.add fst snd] in E.
    destruct (Util.strnCaseStr _ _ _) as [z|z|]; cbn [mbind outcome_bind] in E; try discriminate.
    injection E as <-. cbn [valid]. rewrite negb_true_iff, bool_decide_eq_false.
    split; [intros; by exists c, s|]. intros (c' & s' & [= <- <-] & Hc). done.
  - destruct (Util.strnCaseStr _ _ _) as [z|z|]; cbn [mbind outcome_bind] in E; try discriminate.
    injection E as <-. simpl. split; [done|]. by intros (c' & s' & ? & _).
Qed.

End HTTPRequest.

(** ** Files and their cache *)
Module WebFiles.

(** What [stat], [fopen] and [fread] say about a path: the mode, the size and
    the bytes delivered; [n_content] is [None] when the file cannot be opened. *)
Record node := mkNode { st_mode : Z; st_size : Z; n_content : option bytes }.
Definition filesystem := bytes -> option node.

Definition S_IFDIR : Z := 16384.
Definition root_dir : bytes := bs "./wwwroot".
Definition index_html : bytes := bs "index.html".

Record WebFile := mkWebFile { content : bytes; size : Z }.
Abbreviation cache_t := (gmap bytes (option WebFile)).

(** [ends_with]: [std::equal] on the reversed strings. *)
Fixpoint equal_prefix (a b : bytes) : bool :=
  match a, b with
  | [], _ => true
  | x :: a, y :: b => beqb x y && equal_prefix a b
  | _ :: _, [] => false
  end.
Definition ends_with (value ending : bytes) : bool :=
  if zlen value <? zlen ending then false else equal_prefix (rev ending) (rev value).

Section with_heap.
Context `{Heap}.

(** [WebFile::WebFile(string, int)] and [WebFile::WebFile(Message * )]; the size of the
    file is converted to [int]. *)
Definition load_WebFile (n : node) : outcome WebFile :=
  let file_size := s32 (st_size n) in
  if file_size <? 0 then Throw (std_exn bad_array_new_length)
  else
    data ← of_access (n_content n);
    Ret (mkWebFile (fill file_size (ztake file_size data)) file_size).
Definition of_Message (m : TowaIPC.Message) : WebFile :=
  mkWebFile (TowaIPC.getContent m) (TowaIPC.getSize m).

(** [cache[path]] creates an empty entry. *)
Definition touch (path : bytes) (cache : cache_t) : cache_t :=
  match cache !! path with None => <[path := None]> cache | Some _ => cache end.

(** The last part of [getFile]: load, save, return. *)
Definition load_and_cache (n : node) (path : bytes) (cache : cache_t)
  : outcome (option WebFile * cache_t) :=
  the_file ← load_WebFile n;
  Ret (Some the_file, <[path := Some the_file]> cache).

(** The condition [st.st_mode & S_IFDIR != 0]: the comparison binds tighter. *)
Definition folder_test (st : node) : bool :=
  negb (Z.land (st_mode st) (if negb (S_IFDIR =? 0) then 1 else 0) =? 0).
Definition index_path (path : bytes) : bytes :=
  if ends_with path (bs "/") then path ++ index_html else path ++ bs "/" ++ index_html.

(** [HTTPServer::getFile]. *)
Definition getFile (fs : filesystem) (cache : cache_t) (path : bytes)
  : outcome (option WebFile * cache_t) :=
  let path := root_dir ++ path in
  match cache !! path with
  | Some (Some the_file) => Ret (Some the_file, cache)
  | _ =>
      let cache := touch path cache in
      match fs path with
      | None => Ret (None, cache)
      | Some st =>
          if folder_test st then
            let path := index_path path in
            match fs path with
            | None => Ret (None, cache)
            | Some st => load_and_cache st path cache
            end
          else load_and_cache st path cache
      end
  end.

(** ** What is served *)

Lemma equal_prefix_spec a b : equal_prefix a b = true <-> a `prefix_of` b.
Proof.
  revert b. induction a as [|x a IH]; intros b; simpl.
  - split; [intros _; apply prefix_nil|done].
  - destruct b as [|y b]; [split; [done|intros [k E]; discriminate]|].
    rewrite andb_true_iff, IH. destruct (beqb_spec x y) as [->|Hne].
    + split; [intros [_ [k ->]]; by exists k|intros [k E]; split; [done|]; injection E as ->; by exists k].
    + split; [by intros [? _]|intros [k E]; injection E as -> _; done].
Qed.

(** [ends_with] decides whether the second string is a suffix of the first. *)
Theorem ends_with_spec value ending : ends_with value ending = true <-> ending `suffix_of` value.
Proof.
  unfold ends_with. destruct (Z.ltb_spec (zlen value) (zlen ending)) as [Hlt|Hge].
  - split; [done|]. intros [k ->]. rewrite zlen_app in Hlt. pose proof (zlen_nonneg k). lia.
  - rewrite equal_prefix_spec. split.
    + intros [k E]. exists (rev k). apply (f_equal (@rev _)) in E.
      by rewrite rev_app_distr, !rev_involutive in E.
    + intros [k ->]. exists (rev k). by rewrite rev_app_distr.
Qed.

(** A file system whose files can be read and whose sizes are [int]s, and where exactly the folders carry
    the permission the code looks at; index files are not folders. *)
Definition is_dir (n : node) : bool := Z.testbit (st_mode n) 14.
Record well_behaved (fs : filesystem) : Prop := {
  wb_file : forall p n, fs p = Some n -> is_dir n = false ->
              exists c, n_content n = Some c /\ zlen c = st_size n /\ st_size n < 2 ^ 31;
  wb_mode : forall p n, fs p = Some n -> Z.odd (st_mode n) = is_dir n;
  wb_index : forall p n, fs (p ++ index_html) = Some n -> is_dir n = false;
}.

(** What a path denotes: a file, or the index of a folder. *)
Definition file_at (fs : filesystem) (path : bytes) : option WebFile :=
  n ← fs path; c ← n_content n; Some (mkWebFile c (st_size n)).
Definition resolve (fs : filesystem) (path : bytes) : option WebFile :=
  match fs path with
  | None => None
  | Some n => if is_dir n then file_at fs (index_path path) else file_at fs path
  end.
Definition coherent (fs : filesystem) (cache : cache_t) : Prop :=
  forall p f, cache !! p = Some (Some f) -> file_at fs p = Some f /\ resolve fs p = Some f.

Lemma folder_test_odd st : folder_test st = Z.odd (st_mode st).
Proof.
  unfold folder_test, S_IFDIR. change (if negb (16384 =? 0) then 1 else 0) with 1.
  change 1 with (Z.ones 1). rewrite Z.land_ones by lia. change (2 ^ 1) with 2.
  rewrite Zmod_odd. by destruct (Z.odd _).
Qed.

Lemma index_path_index p : exists q, index_path p = q ++ index_html.
Proof. unfold index_path. destruct (ends_with p (bs "/")); [by exists p|]. exists (p ++ bs "/"). by rewrite <-app_assoc. Qed.

Lemma coherent_touch fs path cache : coherent fs cache -> coherent fs (touch path cache).
Proof.
  intros Hc. unfold touch. destruct (cache !! path) eqn:E; [done|]. intros p f Hp.
  destruct (decide (path = p)) as [->|Hne]; [by rewrite lookup_insert_eq in Hp|].
  rewrite lookup_insert_ne in Hp by done. by apply Hc.
Qed.

Lemma load_and_cache_spec fs p n cache :
  well_behaved fs -> coherent fs cache -> fs p = Some n -> is_dir n = false ->
  exists f, load_and_cache n p cache = Ret (Some f, <[p := Some f]> cache) /\
    file_at fs p = Some f /\ coherent fs (<[p := Some f]> cache).
Proof.
  intros Hw Hc Hp Hd. destruct (wb_file fs Hw p n Hp Hd) as (c & Ec & El & Hmax). pose proof (zlen_nonneg c).
  assert (file_at fs p = Some (mkWebFile c (st_size n))) as Ef by (unfold file_at; rewrite Hp; simpl; by rewrite Ec).
  exists (mkWebFile c (st_size n)). split; [|split; [done|]].
  - unfold load_and_cache, load_WebFile. rewrite Ec, s32_small by (unfold is_s32; lia).
    rewrite (proj2 (Z.ltb_ge _ _)) by lia. cbn [of_access mbind outcome_bind]. rewrite ztake_all by lia. by rewrite fill_exact.
  - intros q f Hq. destruct (decide (p = q)) as [<-|Hne].
    + rewrite lookup_insert_eq in Hq. injection Hq as <-. split; [done|]. unfold resolve. by rewrite Hp, Hd.
    + rewrite lookup_insert_ne in Hq by done. by apply Hc.
Qed.

Lemma getFile_correct fs cache path :
  well_behaved fs -> coherent fs cache ->
  exists cache', getFile fs cache path = Ret (resolve fs (root_dir ++ path), cache') /\ coherent fs cache'.
Proof.
  intros Hw Hc. unfold getFile. set (p := root_dir ++ path).
  destruct (cache !! p) as [[f|]|] eqn:E.
  { exists cache. destruct (Hc p f E) as [_ ->]. done. }
  all: pose proof (coherent_touch fs p cache Hc) as Ht; unfold resolve;
    destruct (fs p) as [n|] eqn:Ep; [|by eexists]; rewrite folder_test_odd, (wb_mode fs Hw p n Ep);
    (destruct (is_dir n) eqn:Ed;
    [ destruct (fs (index_path p)) as [n2|] eqn:Ei;
      [ destruct (index_path_index p) as [q Eq];
        destruct (load_and_cache_spec fs (index_path p) n2 (touch p cache) Hw Ht Ei) as (f & E1 & E2 & E3);
          [rewrite Eq in Ei; by apply (wb_index fs Hw q)|]; eexists; split; [by rewrite E1, E2|done]
      | eexists; split; [|done]; unfold file_at; by rewrite Ei ]
    | destruct (load_and_cache_spec fs p n (touch p cache) Hw Ht Ep Ed) as (f & E1 & E2 & E3);
      eexists; split; [by rewrite E1, E2|done] ]).
Qed.

(** C37: on a well-behaved file system that does not change, [getFile] returns the
    file a path denotes, or the index of the folder, and nothing when there is
    none; the cache only holds current contents. *)
Theorem getFile_spec fs cache path :
  well_behaved fs -> coherent fs cache ->
  exists cache', getFile fs cache path = Ret (resolve fs (root_dir ++ path), cache') /\ coherent fs cache'.
Proof. apply getFile_correct. Qed.

(** because of the precedence of the operators, the folder test looks at the
    permission "execute for others": a regular file that has it is taken for a
    folder and not found. *)
Theorem executable_file_not_served fs cache path n :
  cache !! (root_dir ++ path) = None -> fs (root_dir ++ path) = Some n ->
  is_dir n = false -> Z.odd (st_mode n) = true -> fs (index_path (root_dir ++ path)) = None ->
  getFile fs cache path = Ret (None, <[root_dir ++ path := None]> cache).
Proof.
  intros Hc Hp Hd Ho Hi. unfold getFile. rewrite Hc, Hp, folder_test_odd, Ho, Hi.
  unfold touch. by rewrite Hc.
Qed.

(** a file of two to four gigabytes makes the constructor ask for a negative number of
    bytes. *)
Theorem large_file_throws fs cache path n :
  cache !! (root_dir ++ path) = None -> fs (root_dir ++ path) = Some n -> Z.odd (st_mode n) = false ->
  2 ^ 31 <= st_size n < 2 ^ 32 -> getFile fs cache path = Throw (std_exn bad_array_new_length).
Proof.
  intros Hc Hp Ho Hn. unfold getFile. rewrite Hc, Hp, folder_test_odd, Ho. unfold load_and_cache, load_WebFile.
  assert (s32 (st_size n) = st_size n - 2 ^ 32) as ->.
  { unfold s32. replace (st_size n + 2 ^ 31) with (st_size n - 2 ^ 31 + 1 * 2 ^ 32) by lia.
    rewrite Z_mod_plus_full, Z.mod_small; lia. }
  by rewrite (proj2 (Z.ltb_lt _ _)) by lia.
Qed.

(** a regular file once served is served unchanged for ever, whatever happens
    to the file system. *)
Theorem getFile_cached fs cache cache' path f :
  getFile fs cache path = Ret (Some f, cache') ->
  (forall n, fs (root_dir ++ path) = Some n -> Z.odd (st_mode n) = false) ->
  forall fs', getFile fs' cache' path = Ret (Some f, cache').
Proof.
  intros E Hm fs'. unfold getFile in E |- *. set (p := root_dir ++ path) in *.
  destruct (cache !! p) as [[g|]|] eqn:Ec; [injection E as -> <-; by rewrite Ec|..];
    (destruct (fs p) as [n|] eqn:Ep; [|discriminate];
     rewrite folder_test_odd, (Hm n eq_refl) in E; unfold load_and_cache in E;
     destruct (load_WebFile n); cbn [mbind outcome_bind] in E; try discriminate;
     injection E as -> <-; by rewrite lookup_insert_eq).
Qed.

End with_heap.
End WebFiles.

(** ** The server *)
Module HTTPServer.
Import WebFiles.

Definition HTTP_200_COL : nat := 0.
Definition HTTP_404_COL : nat := 1.
Definition HTTP_500_COL : nat := 2.
Definition request_message_len : Z := HTTPRequest.request_message_len.

Definition HTTP_200 : bytes :=
  bs "HTTP/1.1 200 OK" ++ [nl] ++ bs "Keep-Alive: timeout=15, max=95" ++ [nl] ++ bs "Connection: Keep-Alive" ++ [nl].
Definition HTTP_404_body : bytes := bs "Error 404 - Not found" ++ [nl; nl].
Definition HTTP_404 : bytes :=
  bs "HTTP/1.1 404 Not Found" ++ [nl] ++ bs "Content-Type: text/html; charset=UTF-8" ++ [nl] ++
  bs "Content-Length: 12" ++ [nl; nl] ++ HTTP_404_body.

(** [HTTPServer::generate500Response]. *)
Definition generate500Response (desc : bytes) : bytes :=
  let content := bs "<h1>500 Internal Server Error</h1>" ++ [nl] ++ desc in
  bs "HTTP/1.1 500 Internal Server Error" ++ [nl] ++ bs "Content-Type: text/html; charset=UTF-8" ++ [nl] ++
  bs "Content-Length: " ++ to_decimal (zlen content) ++ [nl; nl] ++ content.

(** The response to a request whose file is there. *)
Definition response_200 (the_file : WebFile) : bytes :=
  HTTP_200 ++ bs "Content-Length: " ++ to_decimal (size the_file) ++ [nl] ++
  bs "Content-Type: text/html;" ++ [nl; nl] ++ ztake (size the_file) (content the_file).

Section with_heap.
Context `{Heap}.
(** The servlet container when [towa_flag] is set: [TowaMgr::sendMsg] on method,
    path without its first character, and query. *)
Variable towa : option (bytes -> bytes -> bytes -> outcome TowaIPC.Message).
(** The bytes of the pointer to the next part of a long request. *)
Variable next_ptr : bytes.

(** [HTTPServer::processRequest]: whether the connection is kept, the bytes
    sent, the cache and the thread object. *)
Definition processRequest (fs : filesystem) (cache : cache_t) (thread_info : ConnectionThread)
    (buffer_in : bytes) : outcome (bool * bytes * cache_t * ConnectionThread) :=
  request ← HTTPRequest.new buffer_in;
  if negb (HTTPRequest.valid request) then
    ti ← incr_info HTTP_500_COL thread_info;
    Ret (false, generate500Response (bs "Invalid request"), cache, ti)
  else
    let found : outcome (bytes + option WebFile * cache_t) :=
      match towa with
      | Some sendMsg =>
          msg_in ← sendMsg (HTTPRequest.method request) (drop 1 (HTTPRequest.path request))
                     (HTTPRequest.query_string request);
          header ← TowaIPC.getHeader msg_in;
          if (b2z header =? TowaIPC.TOWA_HTTP_200) || (b2z header =? TowaIPC.TOWA_HTTP_404) then
            Ret (inr (Some (of_Message msg_in), cache))
          else
            text ← TowaIPC.getString msg_in; Ret (inl text)
      | None => r ← getFile fs cache (HTTPRequest.path request); Ret (inr r)
      end in
    r ← found;
    match r with
    | inl text =>
        ti ← incr_info HTTP_500_COL thread_info;
        Ret (false, generate500Response text, cache, ti)
    | inr (None, cache) =>
        ti ← incr_info HTTP_404_COL thread_info;
        Ret (false, HTTP_404, cache, ti)
    | inr (Some the_file, cache) =>
        ti ← incr_info HTTP_200_COL thread_info;
        Ret (HTTPRequest.keep_alive request, response_200 the_file, cache, ti)
    end.

(** The memory of a request: the data of its first part, then the pointer to the
    next part. *)
Definition zeros : bytes := zrepeat 8 nul.
Definition end_of_message (data : bytes) : outcome bool :=
  t ← c_text (zdrop (request_message_len - 4) (data ++ zeros));
  Ret (negb (bool_decide (t = [cr; nl; cr; nl]))).

(** [HTTPServer::readData]. [top] is the first part when the message has grown
    over one; [fss k] is the file system when the [k]-th request is served. *)
Fixpoint readData (fuel : nat) (fss : nat -> filesystem) (cache : cache_t) (thread_info : ConnectionThread)
    (top : option bytes) (sk : sock) : option (outcome (cache_t * ConnectionThread * sock)) :=
  match fuel with
  | O => None
  | S fuel =>
      let (n, sk) := sock_read request_message_len sk in
      match n with
      | None | Some [] => Some (Ret (cache, thread_info, sk))
      | Some d =>
          let msg := store (zrepeat request_message_len nul) 0 d in
          match (if zlen d <? request_message_len then Ret true else end_of_message msg) with
          | Ret true =>
              let memory := match top with None => msg ++ zeros | Some first => first ++ next_ptr end in
              match processRequest (fss O) cache thread_info memory with
              | Ret (keep, out, cache, thread_info) =>
                  let sk := sock_write out sk in
                  if keep then readData fuel (fun k => fss (S k)) cache thread_info None sk
                  else Some (Ret (cache, thread_info, sk))
              | Throw c => Some (Throw c)
              | Undef => Some Undef
              end
          | Ret false =>
              readData fuel fss cache thread_info (Some (default msg top)) sk
          | Throw c => Some (Throw c)
          | Undef => Some Undef
          end
      end
  end.

(** the reading loop terminates on every finite input. *)
Theorem readData_terminates_http fuel fss cache ti top sk :
  (rx_size (rx sk) < fuel)%nat -> readData fuel fss cache ti top sk <> None.
Proof.
  revert fss cache ti top sk. induction fuel as [|fuel IH]; intros fss cache ti top sk Hf; [lia|].
  cbn [readData]. destruct (sock_read request_message_len sk) as [[d|] sk1] eqn:E1; [|done].
  pose proof (sock_read_size request_message_len sk _ _ ltac:(done) E1) as Hs. simpl in Hs.
  destruct d as [|b d]; [done|]. simpl in Hs.
  destruct (if _ <? _ then _ else _) as [[]|c|]; [..|done|done].
  - destruct (processRequest _ _ _ _) as [[[[keep out] cache'] ti']|c|]; [|done..].
    destruct keep; [|done]. apply IH. simpl. lia.
  - apply IH. lia.
Qed.

(** the test for the end of a message is inverted: a request of exactly 1016
    bytes that ends with an empty line is not answered, the server waits for
    more. *)
Theorem readData_full_message fuel fss cache ti d l out :
  zlen d = request_message_len -> zdrop (request_message_len - 4) d = [cr; nl; cr; nl] ->
  readData (S fuel) fss cache ti None (mkSock (RxData d :: l) out) =
  readData fuel fss cache ti (Some d) (mkSock l out).
Proof.
  intros Hl He. cbn [readData].
  pose proof (sock_read_front request_message_len d [] l out ltac:(done) Hl) as F.
  rewrite app_nil_r in F. rewrite F.
  destruct d as [|b d'] eqn:Ed; [discriminate|]. rewrite <-Ed in *. rewrite Ed at 1.
  assert (store (zrepeat request_message_len nul) 0 d = d) as ->.
  { rewrite store_within by (rewrite ?zlen_repeat by done; lia).
    rewrite (ztake_nat 0), take_0 by lia. rewrite zdrop_all by (rewrite zlen_repeat by done; lia).
    apply app_nil_r. }
  rewrite <-Ed, (proj2 (Z.ltb_ge (zlen d) request_message_len)) by lia.
  unfold end_of_message.
  assert (zdrop (request_message_len - 4) (d ++ zeros) = zdrop (request_message_len - 4) d ++ zeros) as ->.
  { rewrite !zdrop_nat by done. apply drop_app_le. unfold zlen, request_message_len, HTTPRequest.request_message_len in *. lia. }
  rewrite He. reflexivity.
Qed.

(** ** The responses *)

Lemma incr_info_total i ti : length (info ti) = 3%nat -> (i < 3)%nat -> exists ti', incr_info i ti = Ret ti'.
Proof.
  intros Hl Hi. unfold incr_info.
  destruct (lookup_lt_is_Some_2 (info ti) i) as [v Hv]; [lia|]. rewrite Hv. by eexists.
Qed.

(** What one request observes and changes. *)
Definition outcome_for (fs : filesystem) (path : bytes) (keep : bool) : bool * bytes * nat :=
  match resolve fs (root_dir ++ path) with
  | Some the_file => (keep, response_200 the_file, HTTP_200_COL)
  | None => (false, HTTP_404, HTTP_404_COL)
  end.

(** without a servlet container, a well-formed request gets the file its path
    denotes, announced with its length, or the "not found" page; the connection
    stays open exactly when the file was found and the client asked for it; the
    matching counter of the thread is incremented. *)
Theorem processRequest_serves fs cache ti spaces path q v eol headers rest m1 m2 :
  towa = None -> well_behaved fs -> coherent fs cache -> length (info ti) = 3%nat ->
  HTTPRequest.wf_line spaces path q v eol ->
  Forall (fun b => b <> nl) (HTTPRequest.line spaces path q v eol) ->
  no_nul (HTTPRequest.line spaces path q v eol ++ nl :: headers) ->
  HTTPRequest.line spaces path q v eol ++ nl :: headers ++ nul :: rest = m1 ++ nul :: m2 -> 1015 <= zlen m1 ->
  exists cache' ti',
    let '(keep, response, col) := outcome_for fs path
      (Util.caseless_occurs (m1 ++ nul :: m2) (bs "Connection: Keep-Alive") 1016) in
    processRequest fs cache ti (m1 ++ nul :: m2) = Ret (keep, response, cache', ti') /\
    incr_info col ti = Ret ti' /\ coherent fs cache'.
Proof.
  intros Ht Hw Hc Hi Hl Hnl Hn Hm Hlen.
  pose proof (HTTPRequest.new_spec _ _ _ _ _ _ _ _ _ Hl Hnl Hn Hm Hlen) as E. rewrite Hm in E.
  destruct (getFile_correct fs cache path Hw Hc) as (cache' & Eg & Hc').
  unfold processRequest, outcome_for. rewrite E. cbn [mbind outcome_bind HTTPRequest.valid negb].
  rewrite Ht. cbn [HTTPRequest.path]. rewrite Eg. cbn [mbind outcome_bind].
  destruct (resolve fs (root_dir ++ path)) as [f|].
  - destruct (incr_info_total HTTP_200_COL ti Hi) as [ti' Ei]; [unfold HTTP_200_COL; lia|].
    exists cache', ti'. rewrite Ei. done.
  - destruct (incr_info_total HTTP_404_COL ti Hi) as [ti' Ei]; [unfold HTTP_404_COL; lia|].
    exists cache', ti'. rewrite Ei. done.
Qed.

(** ** A whole connection *)

(** A request as a browser sends it, in one segment shorter than a part. *)
Record http_request := mk_request {
  r_spaces : bytes; r_path : bytes; r_query : option bytes; r_version : bytes; r_eol : bytes; r_headers : bytes }.
Definition r_line (r : http_request) : bytes := HTTPRequest.line (r_spaces r) (r_path r) (r_query r) (r_version r) (r_eol r).
Definition r_text (r : http_request) : bytes := r_line r ++ nl :: r_headers r.
Definition r_memory (r : http_request) : bytes := store (zrepeat request_message_len nul) 0 (r_text r) ++ zeros.
Definition r_keep (r : http_request) : bool := Util.caseless_occurs (r_memory r) (bs "Connection: Keep-Alive") 1016.
Definition wf_http (r : http_request) : Prop :=
  HTTPRequest.wf_line (r_spaces r) (r_path r) (r_query r) (r_version r) (r_eol r) /\
  Forall (fun b => b <> nl) (r_line r) /\ no_nul (r_text r) /\ zlen (r_text r) < request_message_len.

(** What a browser gets that sends the requests one after the other, and the counters
    that are incremented: the connection ends after a page that is not kept alive or
    not there. *)
Fixpoint session (fs : filesystem) (rs : list http_request) : bytes * list nat :=
  match rs with
  | [] => ([], [])
  | r :: rs =>
      let '(keep, response, col) := outcome_for fs (r_path r) (r_keep r) in
      if keep then let (out, cols) := session fs rs in (response ++ out, col :: cols) else (response, [col])
  end.
Fixpoint count (cols : list nat) (ti : ConnectionThread) : outcome ConnectionThread :=
  match cols with [] => Ret ti | col :: cols => ti ← incr_info col ti; count cols ti end.

Lemma store_front n d : zlen d <= n -> store (zrepeat n nul) 0 d = d ++ zrepeat (n - zlen d) nul.
Proof.
  intros Hd. pose proof (zlen_nonneg d). rewrite store_within by (rewrite ?zlen_repeat; lia).
  rewrite (ztake_nat 0), take_0 by lia. cbn [app]. f_equal. rewrite Z.add_0_l.
  unfold zrepeat. rewrite zdrop_nat by done. rewrite drop_replicate. f_equal. lia.
Qed.
Lemma incr_info_length i ti ti' : incr_info i ti = Ret ti' -> length (info ti') = length (info ti).
Proof.
  unfold incr_info. destruct (info ti !! i); cbn; [|done]. intros [= <-]. cbn. apply length_insert.
Qed.

(** One request of the connection. *)
Lemma processRequest_memory fs cache ti r :
  towa = None -> well_behaved fs -> coherent fs cache -> length (info ti) = 3%nat -> wf_http r ->
  exists cache' ti',
    let '(keep, response, col) := outcome_for fs (r_path r) (r_keep r) in
    processRequest fs cache ti (r_memory r) = Ret (keep, response, cache', ti') /\
    incr_info col ti = Ret ti' /\ coherent fs cache'.
Proof.
  intros Ht Hw Hc Hi (Hl & Hnl & Hn & Hlen). set (n := request_message_len - zlen (r_text r)) in *.
  assert (r_memory r = store (zrepeat request_message_len nul) 0 (r_text r) ++ nul :: zrepeat 7 nul) as Em by done.
  unfold r_keep. rewrite Em.
  apply (processRequest_serves fs cache ti (r_spaces r) (r_path r) (r_query r) (r_version r) (r_eol r) (r_headers r)
    (zrepeat (n - 1) nul ++ zeros)); [done..| |].
  - fold (r_line r). rewrite store_front by lia. fold n.
    assert (zrepeat n nul = nul :: zrepeat (n - 1) nul) as ->.
    { unfold zrepeat. replace (Z.to_nat n) with (S (Z.to_nat (n - 1))) by lia. done. }
    unfold r_text. rewrite <-!app_assoc. done.
  - rewrite zlen_store; rewrite ?zlen_repeat; unfold request_message_len, HTTPRequest.request_message_len in *; lia.
Qed.

(** C15: without servlets ([towa] is off), over a whole connection the browser gets, for
    the requests it sends one after the other, exactly the pages of [session], up to
    the first that is not found or not to be kept alive; every page served is counted,
    in its column.  Conditions: the file system is [well_behaved] (regular files are
    not executable for others, folders are, files have the size [stat] gives, below
    2^31), and each request is well formed, shorter than 1016 bytes and comes in one
    segment ([executable_file_not_served] and [readData_full_message] are what happens
    otherwise). *)
Theorem readData_session fs : forall rs fuel cache ti out,
  towa = None -> well_behaved fs -> coherent fs cache -> length (info ti) = 3%nat -> Forall wf_http rs ->
  (length rs < fuel)%nat ->
  exists cache' ti' rest,
    readData fuel (fun _ => fs) cache ti None (mkSock (map (fun r => RxData (r_text r)) rs) out) =
      Some (Ret (cache', ti', mkSock rest (out ++ (session fs rs).1))) /\
    count (session fs rs).2 ti = Ret ti' /\ coherent fs cache'.
Proof.
  induction rs as [|r rs IH]; intros fuel cache ti out Ht Hw Hc Hi Hwf Hf; (destruct fuel as [|fuel]; [lia|]).
  - exists cache, ti, []. split; [|done]. cbn. by rewrite app_nil_r.
  - apply Forall_cons in Hwf as [Hr Hwf]. destruct (processRequest_memory fs cache ti r Ht Hw Hc Hi Hr) as (cache' & ti' & Hp).
    destruct (outcome_for fs (r_path r) (r_keep r)) as [[keep response] col] eqn:Eo. destruct Hp as (Ep & Ei & Hc').
    pose proof Hr as (_ & _ & _ & Hlen).
    assert (r_text r <> []) as Hne by (unfold r_text; by destruct (r_line r)).
    cbn [readData map session]. rewrite Eo, sock_read_whole by (done || unfold request_message_len, HTTPRequest.request_message_len in *; lia).
    destruct (r_text r) as [|b d] eqn:Ed; [done|]. rewrite <-Ed in *. rewrite (proj2 (Z.ltb_lt _ _)) by done.
    change (store (zrepeat request_message_len nul) 0 (r_text r) ++ zeros) with (r_memory r). rewrite Ep. unfold sock_write. cbn [rx tx].
    destruct keep.
    + destruct (IH fuel cache' ti' (out ++ response)) as (cache2 & ti2 & rest & E & Ec & Hc2); [done|done|done|by rewrite (incr_info_length _ _ _ Ei)|done|cbn in Hf; lia|].
      exists cache2, ti2, rest. destruct (session fs rs) as [o cols]. cbn [fst snd count] in *. rewrite E, Ei, <-app_assoc. done.
    + exists cache', ti'. eexists. split; [done|]. cbn [snd count]. by rewrite Ei.
Qed.

(** an answer of the servlet container marked "not found" is sent as a
    success, with its text as the page. *)
Theorem towa_404_served_as_200 fs cache ti buffer_in request sendMsg msg h :
  towa = Some sendMsg -> HTTPRequest.new buffer_in = Ret request -> HTTPRequest.valid request = true ->
  sendMsg (HTTPRequest.method request) (drop 1 (HTTPRequest.path request)) (HTTPRequest.query_string request) = Ret msg ->
  TowaIPC.header msg = Some h -> b2z h = TowaIPC.TOWA_HTTP_404 -> length (info ti) = 3%nat ->
  exists ti', incr_info HTTP_200_COL ti = Ret ti' /\
    processRequest fs cache ti buffer_in =
    Ret (HTTPRequest.keep_alive request, response_200 (of_Message msg), cache, ti').
Proof.
  intros Ht Er Hv Es Hh Eh Hi. unfold processRequest. rewrite Er. cbn [mbind outcome_bind].
  rewrite Hv, Ht. cbn [negb]. rewrite Es. cbn [mbind outcome_bind]. unfold TowaIPC.getHeader. rewrite Hh.
  cbn [of_access mbind outcome_bind]. rewrite Eh. cbn [Z.eqb Pos.eqb orb mbind outcome_bind].
  destruct (incr_info_total HTTP_200_COL ti Hi) as [ti' Ei]; [unfold HTTP_200_COL; lia|].
  exists ti'. by rewrite Ei.
Qed.

End with_heap.

(** The value of the header [Content-Length] of a response, as a client reads
    it, and what follows the empty line. *)
Fixpoint after (pat s : bytes) : option bytes :=
  if equal_prefix pat s then Some (drop (length pat) s)
  else match s with [] => None | _ :: s => after pat s end.
Definition content_length (response : bytes) : option Z :=
  s ← after (bs "Content-Length: ") response; Some (of_decimal (take_digits s)).
Definition body_of (response : bytes) : option bytes := after [nl; nl] response.

Lemma after_here pat s : after pat (pat ++ s) = Some s.
Proof.
  assert (equal_prefix pat (pat ++ s) = true) as E by (apply equal_prefix_spec; by exists s).
  destruct (pat ++ s) eqn:Ep; simpl; rewrite E; by rewrite <-Ep, drop_app_length.
Qed.
Lemma take_digits_app ds s :
  Forall (fun b => isdigit b = true) ds -> match s with b :: _ => isdigit b = false | [] => True end ->
  take_digits (ds ++ s) = ds.
Proof.
  intros Hd Hs. induction Hd as [|b ds Hb Hd IH]; simpl.
  - destruct s as [|b s]; [done|]. simpl. by rewrite Hs.
  - by rewrite Hb, IH.
Qed.

(** Skipping a text in which the pattern does not start. *)
Lemma after_skip (b : byte) pat pre s :
  head pat = Some b -> Forall (fun a => a <> b) pre -> after pat (pre ++ s) = after pat s.
Proof.
  intros Hp Hf. induction Hf as [|a pre Ha Hf IH]; [done|]. cbn [app after].
  destruct pat as [|b' pat]; [discriminate|]. injection Hp as ->. cbn [equal_prefix].
  destruct (beqb_spec b a) as [->|]; [done|]. cbn [andb]. exact IH.
Qed.

Lemma digits_not (b : byte) ds :
  isdigit b = false -> Forall (fun a => isdigit a = true) ds -> Forall (fun a => a <> b) ds.
Proof. intros Hb Hd. eapply Forall_impl; [exact Hd|]. intros a Ha ->. simpl in Ha. congruence. Qed.

(** the error page announces exactly the number of bytes of its body, for
    every description. *)
Theorem generate500Response_length desc :
  exists body, body_of (generate500Response desc) = Some body /\
    content_length (generate500Response desc) = Some (zlen body).
Proof.
  exists (bs "<h1>500 Internal Server Error</h1>" ++ [nl] ++ desc). unfold generate500Response.
  set (content := bs "<h1>500 Internal Server Error</h1>" ++ [nl] ++ desc).
  pose proof (zlen_nonneg content) as Hn. pose proof (to_decimal_digits (zlen content) Hn) as Hd. split.
  - unfold body_of. 
    change (after [nl; nl] (bs "HTTP/1.1 500 Internal Server Error" ++ [nl] ++
      bs "Content-Type: text/html; charset=UTF-8" ++ [nl] ++ bs "Content-Length: " ++ to_decimal (zlen content) ++ [nl; nl] ++ content))
      with (after [nl; nl] (to_decimal (zlen content) ++ [nl; nl] ++ content)).
    rewrite (after_skip nl) by (done || by apply digits_not). apply (after_here [nl; nl]).
  - unfold content_length.
    change (after (bs "Content-Length: ") (bs "HTTP/1.1 500 Internal Server Error" ++ [nl] ++
      bs "Content-Type: text/html; charset=UTF-8" ++ [nl] ++ bs "Content-Length: " ++ to_decimal (zlen content) ++ [nl; nl] ++ content))
      with (Some (to_decimal (zlen content) ++ [nl; nl] ++ content)).
    cbn [mbind option_bind]. rewrite take_digits_app by done. by rewrite of_to_decimal.
Qed.

(** a served file is announced with its size. *)
Lemma response_200_length (f : WebFile) :
  zlen (content f) = size f ->
  body_of (response_200 f) = Some (content f) /\ content_length (response_200 f) = Some (size f).
Proof.
  intros Hl. pose proof (zlen_nonneg (content f)) as Hn. pose proof (to_decimal_digits (size f) ltac:(lia)) as Hd.
  unfold response_200. rewrite ztake_all by lia. split.
  - unfold body_of.
    change (after [nl; nl] (HTTP_200 ++ bs "Content-Length: " ++ to_decimal (size f) ++ [nl] ++
      bs "Content-Type: text/html;" ++ [nl; nl] ++ content f))
      with (after [nl; nl] (to_decimal (size f) ++ [nl] ++ bs "Content-Type: text/html;" ++ [nl; nl] ++ content f)).
    rewrite (after_skip nl) by (done || by apply digits_not). reflexivity.
  - unfold content_length.
    change (after (bs "Content-Length: ") (HTTP_200 ++ bs "Content-Length: " ++ to_decimal (size f) ++ [nl] ++
      bs "Content-Type: text/html;" ++ [nl; nl] ++ content f))
      with (Some (to_decimal (size f) ++ [nl] ++ bs "Content-Type: text/html;" ++ [nl; nl] ++ content f)).
    cbn [mbind option_bind]. rewrite take_digits_app by done. by rewrite of_to_decimal by lia.
Qed.

(** the "not found" page announces 12 bytes and has 23. *)
Theorem HTTP_404_length_wrong :
  content_length HTTP_404 = Some 12 /\ body_of HTTP_404 = Some HTTP_404_body /\ zlen HTTP_404_body = 23.
Proof. split; [|split]; vm_compute; reflexivity. Qed.


(** ** Concrete runs *)
Section witnesses.
#[local] Existing Instance zero_heap.

(** A document root with one page, and a file outside of it. *)
Definition example_fs : filesystem := fun p =>
  if bool_decide (p = bs "./wwwroot/") then Some (mkNode (16384 + 493) 4096 None)
  else if bool_decide (p = bs "./wwwroot/index.html") then Some (mkNode (32768 + 420) 7 (Some (bs "welcome")))
  else if bool_decide (p = bs "./wwwroot/../secret") then Some (mkNode (32768 + 420) 4 (Some (bs "1234")))
  else if bool_decide (p = bs "./wwwroot/run.html") then Some (mkNode (32768 + 493) 2 (Some (bs "ok")))
  else None.
Lemma example_fs_well_behaved : well_behaved (fun p => if bool_decide (p = bs "./wwwroot/run.html") then None else example_fs p).
Proof.
  split; intros p n; unfold example_fs; intros E; repeat case_bool_decide; try discriminate; injection E as <-;
    try done; intros; try (eexists; split; [reflexivity|done]).
  exfalso. destruct p as [|b p]; [discriminate|].
  match goal with E : _ = bs "./wwwroot/" |- _ => apply (f_equal length) in E; rewrite length_app in E; simpl in E; lia end.
Qed.

Definition thread0 : ConnectionThread := new_ConnectionThread 4 0 None.
(** The memory of a request that came in one segment. *)
Definition memory (text : bytes) : bytes := store (zrepeat 1016 nul) 0 text ++ zeros.
Definition eol2 : bytes := [cr; nl].

Lemma wf_line_crlf spaces path q v :
  bool_decide (spaces <> [] /\ Forall (fun b => isspace b = true) spaces /\
    path <> [] /\ Forall (fun b => HTTPRequest.path_char b = true) path /\
    Forall (fun b => HTTPRequest.any_char b = true) (default [] q) /\ Forall (fun b => isspace b = false) v) = true ->
  HTTPRequest.wf_line spaces path q v [cr].
Proof.
  rewrite bool_decide_eq_true. intros (? & ? & ? & ? & ? & ?). split_and!; try done.
  - by destruct q.
  - split; [done|by right].
Qed.

Lemma new_spec_witness :
  HTTPRequest.new (memory (bs "GET /a.html?x=1 HTTP/1.1" ++ [cr; nl] ++ bs "connection: KEEP-alive" ++ eol2)) =
  Ret (HTTPRequest.mk (bs "GET") (bs "/a.html") (bs "x=1") true true).
Proof.
  etrans; [apply (HTTPRequest.new_spec (bs " ") (bs "/a.html") (Some (bs "x=1")) (bs "/1.1") [cr]
    (bs "connection: KEEP-alive" ++ eol2) (zrepeat 973 nul)
    (store (zrepeat 1016 nul) 0 (bs "GET /a.html?x=1 HTTP/1.1" ++ [cr; nl] ++ bs "connection: KEEP-alive" ++ eol2))
    (zrepeat 7 nul))|vm_compute; reflexivity].
  - by apply wf_line_crlf.
  - apply (bool_decide_unpack _). vm_compute. done.
  - apply (bool_decide_unpack _). vm_compute. done.
  - vm_compute. reflexivity.
  - vm_compute. discriminate.
Defined.

Definition plain_fs : filesystem := fun p => if bool_decide (p = bs "./wwwroot/run.html") then None else example_fs p.
Lemma coherent_empty fs : coherent fs ∅.
Proof. intros p f E. by rewrite lookup_empty in E. Qed.

Lemma new_valid_iff_witness :
  false = true <-> exists c s, Regex.search HTTPRequest.request_line (bs "POST / HTTP/1.1") = Some (c, s) /\ c 1%nat <> [].
Proof.
  apply (HTTPRequest.new_valid_iff (memory (bs "POST / HTTP/1.1")) (bs "POST / HTTP/1.1")
    (HTTPRequest.mk (bs "GET") [] [] false false)); vm_compute; reflexivity.
Defined.

Lemma getFile_spec_witness :
  exists cache', getFile plain_fs ∅ (bs "/") = Ret (Some (mkWebFile (bs "welcome") 7), cache') /\
    coherent plain_fs cache'.
Proof. apply (getFile_spec plain_fs ∅ (bs "/") example_fs_well_behaved (coherent_empty _)). Defined.

Lemma executable_file_not_served_witness :
  getFile example_fs ∅ (bs "/run.html") = Ret (None, <[bs "./wwwroot/run.html" := None]> ∅).
Proof.
  apply (executable_file_not_served example_fs ∅ (bs "/run.html") (mkNode (32768 + 493) 2 (Some (bs "ok"))));
    vm_compute; reflexivity.
Defined.

Definition warm_cache : cache_t := <[bs "./wwwroot/index.html" := Some (mkWebFile (bs "welcome") 7)]> ∅.
Lemma getFile_cached_witness :
  getFile (fun _ => None) warm_cache (bs "/index.html") = Ret (Some (mkWebFile (bs "welcome") 7), warm_cache).
Proof.
  refine (getFile_cached plain_fs warm_cache warm_cache (bs "/index.html") (mkWebFile (bs "welcome") 7) _ _ (fun _ => None)).
  - unfold getFile, warm_cache. change (root_dir ++ bs "/index.html") with (bs "./wwwroot/index.html").
    by rewrite lookup_insert_eq.
  - intros n E. vm_compute in E. injection E as <-. reflexivity.
Defined.

Lemma readData_terminates_http_witness :
  readData None [] 9 (fun _ => plain_fs) ∅ thread0 None (mkSock [RxData (bs "GET"); RxError] []) <> None.
Proof. apply readData_terminates_http. simpl. lia. Defined.

Lemma readData_full_message_witness :
  readData None [] 2 (fun _ => plain_fs) ∅ thread0 None
    (mkSock [RxData (zrepeat 1012 (z2b 65) ++ [cr; nl; cr; nl])] []) =
  readData None [] 1 (fun _ => plain_fs) ∅ thread0 (Some (zrepeat 1012 (z2b 65) ++ [cr; nl; cr; nl])) (mkSock [] []).
Proof.
  refine (readData_full_message None [] 1 (fun _ => plain_fs) ∅ thread0
    (zrepeat 1012 (z2b 65) ++ [cr; nl; cr; nl]) [] [] _ _); vm_compute; reflexivity.
Defined.

Lemma processRequest_serves_witness :
  exists cache' ti',
    processRequest None plain_fs ∅ thread0 (memory (bs "GET / HTTP/1.1" ++ [cr; nl])) =
      Ret (false, response_200 (mkWebFile (bs "welcome") 7), cache', ti') /\
    incr_info HTTP_200_COL thread0 = Ret ti' /\ coherent plain_fs cache'.
Proof.
  apply (processRequest_serves None plain_fs ∅ thread0 (bs " ") (bs "/") None (bs "/1.1") [cr] [] (zrepeat 1007 nul)
    (store (zrepeat 1016 nul) 0 (bs "GET / HTTP/1.1" ++ [cr; nl])) (zrepeat 7 nul)).
  - reflexivity.
  - apply example_fs_well_behaved.
  - apply coherent_empty.
  - reflexivity.
  - by apply wf_line_crlf.
  - apply (bool_decide_unpack _). vm_compute. done.
  - apply (bool_decide_unpack _). vm_compute. done.
  - vm_compute. reflexivity.
  - vm_compute. discriminate.
Defined.

Definition two_requests : list http_request :=
  [mk_request (bs " ") (bs "/") None (bs "/1.1") [cr] (bs "Connection: Keep-Alive");
   mk_request (bs " ") (bs "/no.html") (Some (bs "a=1")) (bs "/1.1") [cr] []].
Lemma readData_session_witness :
  exists cache' ti' rest,
    readData None [] 3 (fun _ => plain_fs) ∅ thread0 None (mkSock (map (fun r => RxData (r_text r)) two_requests) []) =
      Some (Ret (cache', ti', mkSock rest (response_200 (mkWebFile (bs "welcome") 7) ++ HTTP_404))) /\
    count [HTTP_200_COL; HTTP_404_COL] thread0 = Ret ti' /\ coherent plain_fs cache'.
Proof.
  destruct (readData_session None [] plain_fs two_requests 3 ∅ thread0 []) as (cache' & ti' & rest & E & Ec & Hc).
  - reflexivity.
  - apply example_fs_well_behaved.
  - apply coherent_empty.
  - reflexivity.
  - repeat constructor; cbn [r_spaces r_path r_query r_version r_eol];
      try (by apply wf_line_crlf); apply (bool_decide_unpack _); vm_compute; exact I.
  - simpl. lia.
  - exists cache', ti', rest. assert (session plain_fs two_requests =
      (response_200 (mkWebFile (bs "welcome") 7) ++ HTTP_404, [HTTP_200_COL; HTTP_404_COL])) as Es by (vm_compute; reflexivity).
    rewrite Es in E, Ec. cbn [fst snd app] in E, Ec. exact (conj E (conj Ec Hc)).
Defined.

Lemma towa_404_served_as_200_witness :
  exists ti', incr_info HTTP_200_COL thread0 = Ret ti' /\
    processRequest (Some (fun _ _ _ => Ret (TowaIPC.mkMessage (bs "no class") 8 (Some (z2b 2))))) plain_fs ∅ thread0
      (memory (bs "GET /x HTTP/1.1")) =
    Ret (false, response_200 (mkWebFile (bs "no class") 8), ∅, ti').
Proof.
  apply (towa_404_served_as_200 (Some (fun _ _ _ => Ret (TowaIPC.mkMessage (bs "no class") 8 (Some (z2b 2))))) plain_fs ∅ thread0
    (memory (bs "GET /x HTTP/1.1")) (HTTPRequest.mk (bs "GET") (bs "/x") [] true false)
    (fun _ _ _ => Ret (TowaIPC.mkMessage (bs "no class") 8 (Some (z2b 2))))
    (TowaIPC.mkMessage (bs "no class") 8 (Some (z2b 2))) (z2b 2)); try reflexivity; vm_compute; reflexivity.
Defined.

(** nothing keeps a path inside the document root: dots and slashes are
    allowed, and a request for a path with [..] is answered with a file that
    lies outside of it. *)
Theorem path_traversal :
  exists cache ti, processRequest None example_fs ∅ thread0 (memory (bs "GET /../secret HTTP/1.1")) =
    Ret (false, response_200 (mkWebFile (bs "1234") 4), cache, ti).
Proof.
  assert (HTTPRequest.new (memory (bs "GET /../secret HTTP/1.1")) =
    Ret (HTTPRequest.mk (bs "GET") (bs "/../secret") [] true false)) as E by (vm_compute; reflexivity).
  assert (example_fs (root_dir ++ bs "/../secret") = Some (mkNode (32768 + 420) 4 (Some (bs "1234")))) as Ef
    by (vm_compute; reflexivity).
  do 2 eexists. unfold processRequest. rewrite E. cbn [mbind outcome_bind HTTPRequest.valid negb HTTPRequest.path].
  unfold getFile. rewrite lookup_empty, Ef. reflexivity.
Qed.
End witnesses.
End HTTPServer.
