(* ===== verification/TowaApp.v ===== *)
(** * The servlet container: server/towa_app_pool.cpp

    Requests arrive as the text [verb|classname|query]; the class is looked up
    in the Java virtual machine, its method [doGet] is called, and the answer is
    a status byte with the output, or with the trace of the Java exception.  The
    functions of the virtual machine (JNI) are parameters. *)

From S2P Require Import Prelude CStd TowaIpc.
Import TowaIPC.

Module TowaAppPool.

(** ** The request *)

Definition bar : byte := z2b 124.

(** The loop on [getline(ss, item, '|')]: [cur] is the text since the last bar,
    reversed. No item is produced when nothing follows the last bar. *)
Fixpoint split_go (cur s : bytes) : list bytes :=
  match s with
  | [] => match cur with [] => [] | _ => [rev cur] end
  | b :: s => if beqb b bar then rev cur :: split_go [] s else split_go (b :: cur) s
  end.
Definition tokens (s : bytes) : list bytes := split_go [] s.

(** ** Java exceptions *)

(** What [toString], [getStackTrace] (null when it fails) and [getCause] of a
    throwable answer. *)
Inductive throwable :=
| Throwable (text : bytes) (frames : option (list bytes)) (cause : option throwable).

(** [TowaAppPool::GetJNIException]: the length of the array of frames is taken
    before the array is compared with null. *)
Fixpoint GetJNIException (exc : throwable) (errorMsg : bytes) : outcome bytes :=
  match exc with
  | Throwable text frames cause =>
      match frames with
      | None => Undef
      | Some frames =>
          let errorMsg :=
            match errorMsg with
            | [] => text
            | _ => errorMsg ++ [nl] ++ bs "Caused by: " ++ text
            end in
          let errorMsg := fold_left (fun m frame => m ++ [nl] ++ bs "    " ++ frame) frames errorMsg in
          match cause with
          | None => Ret errorMsg
          | Some cause => GetJNIException cause errorMsg
          end
      end
  end.

(** ** Running a servlet *)

(** A computation inside the [try] block: a value, an exception that reaches
    the handler with the value of [errorMsg] at that point, the end of the process
    (a servlet can call [exit]), or a crash. *)
Inductive attempt (A : Type) :=
| Done (a : A)
| Caught (errorMsg : option Message)
| Exited (status : Z)
| Crash.
Arguments Done {A} a.
Arguments Caught {A} errorMsg.
Arguments Exited {A} status.
Arguments Crash {A}.
#[export] Instance attempt_bind : MBind attempt := fun A B f m =>
  match m with Done a => f a | Caught e => Caught e | Exited c => Exited c | Crash => Crash end.
(** A call whose exceptions reach the handler, which catches all of them, with
    [errorMsg] as given. *)
Definition attempt_with {A} (errorMsg : option Message) (m : outcome A) : attempt A :=
  match m with
  | Ret a => Done a
  | Throw (process_exit c) => Exited c
  | Throw _ => Caught errorMsg
  | Undef => Crash
  end.
Definition attempt_of {A} (m : outcome A) : attempt A := attempt_with None m.

Section jvm.
(** References to Java objects; [None] is null. [Throw] stands for the exception
    the handler of SIGSEGV throws. *)
Variable jref : Type.
Notation jobject := (option jref).
Variable NewStringUTF : bytes -> outcome jobject.
Variable FindClass : bytes -> outcome jobject.
Variable GetMethodID : jobject -> bytes -> bytes -> outcome jobject.
Variable NewObject : jobject -> jobject -> list jobject -> outcome jobject.
(** [CallVoidMethod] and the exception pending after it. *)
Variable CallVoidMethod : jobject -> jobject -> list jobject -> outcome (option throwable).
(** [getOutput] of a response, called through [CallObjectMethod]: null, or the
    memory [GetByteArrayElements] points to. *)
Variable GetOutput : jobject -> outcome (option bytes).
Variables RequestClass RequestClassConstructor ResponseClass ResponseClassConstructor : jobject.

(** [TowaAppPool::getTowaRequest]. *)
Definition getTowaRequest (method queryString : bytes) : outcome jobject :=
  jmethod ← NewStringUTF method;
  jqueryString ← NewStringUTF queryString;
  NewObject RequestClass RequestClassConstructor [jmethod; jqueryString].

(** [TowaAppPool::findClass] and [TowaAppPool::findMethod]. *)
Definition findClass (className errorTxt : bytes) : attempt jobject :=
  attempt_with (Some (of_string (z2b TOWA_HTTP_404 :: errorTxt))) (FindClass className).
Definition findMethod (theClass : jobject) (method params errorTxt : bytes) : attempt jobject :=
  attempt_with (Some (of_string (z2b TOWA_HTTP_500 :: errorTxt))) (GetMethodID theClass method params).

Definition doGet_signature : bytes :=
  bs "(Ljavax/servlet/http/HttpServletRequest;Ljavax/servlet/http/HttpServletResponse;)V".

(** The [try] block of [processRequest]: the message, or a null pointer. *)
Definition run_servlet (className : bytes) (requestInstance : jobject) : attempt (option Message) :=
  TargetClass ← findClass className (bs "Cannot find " ++ className ++ bs ".class");
  TargetClassConstructor ← findMethod TargetClass (bs "<init>") (bs "()V")
    (bs "Cannot find contructor for class " ++ className ++ bs ".class");
  targetInstance ← attempt_of (NewObject TargetClass TargetClassConstructor []);
  responseInstance ← attempt_of (NewObject ResponseClass ResponseClassConstructor []);
  TargetClassGetMethod ← findMethod TargetClass (bs "doGet")
    doGet_signature
    (bs "Cannot find method 'doGet' in class " ++ className ++ bs ".class");
  exc ← attempt_of (CallVoidMethod targetInstance TargetClassGetMethod [requestInstance; responseInstance]);
  match exc with
  | Some exc =>
      error ← attempt_of (GetJNIException exc []);
      Done (Some (of_string (z2b TOWA_HTTP_500 :: bs "<pre>" ++ error ++ bs "</pre>")))
  | None =>
      j_value ← attempt_of (GetOutput responseInstance);
      match j_value with
      | None => Done None
      | Some memory =>
          text ← attempt_of (c_text memory);
          Done (Some (of_string (z2b TOWA_HTTP_200 :: text)))
      end
  end.

(** [TowaAppPool::processRequest]: when an exception is caught and no message
    was prepared, the uninitialised [msg_out] is returned. *)
Definition processRequest (msg_in : Message) : outcome (option Message) :=
  msg_in_str ← getString msg_in;
  match tokens msg_in_str with
  | method :: className :: rest =>
      let queryString := match rest with q :: _ => q | [] => [] end in
      requestInstance ← getTowaRequest method queryString;
      match run_servlet className requestInstance with
      | Done msg_out => Ret msg_out
      | Caught (Some errorMsg) => Ret (Some errorMsg)
      | Caught None => Undef
      | Exited c => Throw (process_exit c)
      | Crash => Undef
      end
  | _ => Ret None
  end.

(** ** What the container understands *)

Lemma split_go_word w s cur : bar ∉ w -> split_go cur (w ++ bar :: s) = (rev cur ++ w) :: split_go [] s.
Proof.
  revert cur. induction w as [|b w IH]; intros cur Hw.
  - simpl. by rewrite app_nil_r.
  - apply not_elem_of_cons in Hw as [Hb Hw]. cbn [app split_go].
    destruct (beqb_spec b bar); [congruence|]. rewrite IH by done. simpl. by rewrite <-app_assoc.
Qed.
Lemma split_go_end w cur : bar ∉ w -> split_go cur w = match rev cur ++ w with [] => [] | t => [t] end.
Proof.
  revert cur. induction w as [|b w IH]; intros cur Hw.
  - simpl. rewrite app_nil_r. destruct cur as [|c cur]; [done|]. simpl. by destruct (rev cur ++ [c]) eqn:E; [destruct (rev cur)|].
  - apply not_elem_of_cons in Hw as [Hb Hw]. cbn [split_go].
    destruct (beqb_spec b bar); [congruence|]. rewrite IH by done. simpl. by rewrite <-app_assoc.
Qed.

(** the container takes a request apart into the verb and the class the server
    sent, and the query up to its first bar: a query with a bar is truncated. *)
Theorem tokens_request verb classname q rest :
  bar ∉ verb -> bar ∉ classname -> bar ∉ q ->
  tokens (request_text verb classname (q ++ bar :: rest)) = verb :: classname :: q :: tokens rest /\
  tokens (request_text verb classname q) = verb :: classname :: match q with [] => [] | _ => [q] end.
Proof.
  intros Hv Hc Hq. unfold tokens, request_text. change (bs "|") with [bar]. cbn [app].
  rewrite !split_go_word by done. cbn [rev app]. rewrite (split_go_end q) by done. split; [done|by destruct q].
Qed.

(** a servlet that terminates normally is answered with status 200 and its
    output, up to the first NUL. *)
Theorem processRequest_success verb classname q text rest c m o r g mq qq rq :
  bar ∉ verb -> bar ∉ classname -> bar ∉ q -> no_nul text ->
  zlen (request_text verb classname q) < 2 ^ 31 ->
  NewStringUTF verb = Ret mq -> NewStringUTF q = Ret qq ->
  NewObject RequestClass RequestClassConstructor [mq; qq] = Ret rq ->
  FindClass classname = Ret c -> GetMethodID c (bs "<init>") (bs "()V") = Ret m ->
  GetMethodID c (bs "doGet") doGet_signature = Ret g ->
  NewObject c m [] = Ret o -> NewObject ResponseClass ResponseClassConstructor [] = Ret r ->
  CallVoidMethod o g [rq; r] = Ret None -> GetOutput r = Ret (Some (cstr text ++ rest)) ->
  processRequest (of_string (request_text verb classname q)) =
  Ret (Some (of_string (z2b TOWA_HTTP_200 :: text))).
Proof.
  intros Hv Hc Hq Ht Hl E1 E2 E3 E4 E5 E5' E6 E7 E8 E9. unfold processRequest, getString, of_string.
  cbn [size content]. pose proof (zlen_nonneg (request_text verb classname q)).
  set (t := request_text verb classname q) in *.
  rewrite (proj2 (Z.leb_le 0 (zlen t))), (proj2 (Z.leb_le (zlen t) (zlen t))) by lia.
  cbn [andb mbind outcome_bind]. rewrite (ztake_all (zlen t)) by lia. unfold t.
  destruct (tokens_request verb classname q [] Hv Hc Hq) as [_ ->].
  assert (match match q with [] => [] | _ => [q] end with q0 :: _ => q0 | [] => [] end = q) as -> by by destruct q.
  unfold getTowaRequest. rewrite E1. cbn [mbind outcome_bind]. rewrite E2. cbn [mbind outcome_bind]. rewrite E3.
  cbn [mbind outcome_bind]. unfold run_servlet, findClass, findMethod, attempt_of. rewrite E4. cbn [mbind attempt_bind attempt_with].
  rewrite E5. cbn [mbind attempt_bind attempt_with]. rewrite E6. cbn [mbind attempt_bind attempt_with]. rewrite E7. cbn [mbind attempt_bind attempt_with].
  rewrite E5'. cbn [mbind attempt_bind attempt_with]. rewrite E8. cbn [mbind attempt_bind attempt_with].
  rewrite E9. cbn [mbind attempt_bind attempt_with]. by rewrite c_text_cstr by done.
Qed.

(** a failure inside the virtual machine that is not one of the two look-ups
    (for instance in the constructor of the servlet) is caught, but the message
    returned was never set. *)
Theorem processRequest_unset_answer msg_in text method className rest rq :
  getString msg_in = Ret text -> tokens text = method :: className :: rest ->
  getTowaRequest method (match rest with q :: _ => q | [] => [] end) = Ret rq ->
  run_servlet className rq = Caught None ->
  processRequest msg_in = Undef.
Proof.
  intros E1 E2 E3 E4. unfold processRequest. rewrite E1. cbn [mbind outcome_bind]. rewrite E2, E3.
  cbn [mbind outcome_bind]. by rewrite E4.
Qed.

End jvm.

(** The trace of an exception, as a list: the text and the frames of the
    exception and of each of its causes. *)
Fixpoint causes (e : throwable) : list (bytes * list bytes) :=
  match e with
  | Throwable text frames cause =>
      (text, default [] frames) :: match cause with Some c => causes c | None => [] end
  end.
Fixpoint has_frames (e : throwable) : Prop :=
  match e with
  | Throwable text frames cause =>
      frames <> None /\ match cause with Some c => has_frames c | None => True end
  end.
Definition entry_text (e : bytes * list bytes) : bytes :=
  e.1 ++ concat (map (fun f => [nl] ++ bs "    " ++ f) e.2).

Lemma fold_frames frames m :
  fold_left (fun m frame => m ++ [nl] ++ bs "    " ++ frame) frames m =
  m ++ concat (map (fun f => [nl] ++ bs "    " ++ f) frames).
Proof.
  revert m. induction frames as [|f frames IH]; intros m; simpl; [by rewrite app_nil_r|].
  rewrite IH. by rewrite <-!app_assoc.
Qed.

(** Structural induction on throwables through their cause. *)
Lemma throwable_ind' (P : throwable -> Prop) :
  (forall text frames, P (Throwable text frames None)) ->
  (forall text frames c, P c -> P (Throwable text frames (Some c))) -> forall e, P e.
Proof.
  intros H1 H2. fix IH 1. intros [text frames [c|]]; [apply H2, IH|apply H1].
Qed.

Lemma GetJNIException_go e : forall msg,
  has_frames e -> msg <> [] ->
  GetJNIException e msg =
  Ret (msg ++ concat (map (fun x => [nl] ++ bs "Caused by: " ++ entry_text x) (causes e))).
Proof.
  induction e as [text frames|text frames c IH] using throwable_ind'; intros msg [Hf Hc] Hm;
    (destruct frames as [frames|]; [|done]); cbn [GetJNIException causes map concat default];
    (destruct msg as [|b msg]; [done|]); rewrite fold_frames.
  - unfold entry_text. simpl fst. simpl snd. rewrite app_nil_r. by rewrite <-!app_assoc.
  - rewrite IH by done. unfold entry_text at 2. simpl fst. simpl snd. by rewrite <-!app_assoc.
Qed.

(** the report of a Java exception lists the exception and all its causes in
    order, each with its frames, separated by "Caused by". *)
Theorem GetJNIException_spec text frames cause :
  has_frames (Throwable text frames cause) -> text <> [] ->
  GetJNIException (Throwable text frames cause) [] =
  Ret (entry_text (text, default [] frames) ++
       concat (map (fun x => [nl] ++ bs "Caused by: " ++ entry_text x)
                (match cause with Some c => causes c | None => [] end))).
Proof.
  intros [Hf Hc] Ht. destruct frames as [frames|]; [|done]. cbn [GetJNIException default].
  rewrite fold_frames. destruct cause as [c|]; [|by rewrite app_nil_r].
  rewrite GetJNIException_go; [done|done|]. by destruct text.
Qed.

(** ** Concrete runs *)

Lemma tokens_request_witness :
  tokens (bs "GET|Hello|a=1|b") = [bs "GET"; bs "Hello"; bs "a=1"; bs "b"] /\
  tokens (bs "GET|Hello|a=1") = [bs "GET"; bs "Hello"; bs "a=1"].
Proof.
  apply (tokens_request (bs "GET") (bs "Hello") (bs "a=1") (bs "b")); apply (bool_decide_unpack _); vm_compute; done.
Defined.

(** A virtual machine with one servlet, whose objects are numbers. *)
Lemma processRequest_success_witness :
  processRequest nat (fun s => Ret (Some (length s))) (fun _ => Ret (Some 1%nat)) (fun _ _ _ => Ret (Some 2%nat))
    (fun _ _ _ => Ret (Some 3%nat)) (fun _ _ _ => Ret None) (fun _ => Ret (Some (cstr (bs "hi") ++ bs "garbage")))
    None None None None (of_string (bs "GET|Hello|")) =
  Ret (Some (of_string (z2b TOWA_HTTP_200 :: bs "hi"))).
Proof.
  apply (processRequest_success nat (fun s => Ret (Some (length s))) (fun _ => Ret (Some 1%nat)) (fun _ _ _ => Ret (Some 2%nat))
    (fun _ _ _ => Ret (Some 3%nat)) (fun _ _ _ => Ret None) (fun _ => Ret (Some (cstr (bs "hi") ++ bs "garbage")))
    None None None None (bs "GET") (bs "Hello") [] (bs "hi") (bs "garbage")
    (Some 1%nat) (Some 2%nat) (Some 3%nat) (Some 3%nat) (Some 2%nat) (Some 3%nat) (Some 0%nat) (Some 3%nat));
    try reflexivity; try (apply (bool_decide_unpack _); vm_compute; done).
Defined.

Lemma processRequest_unset_answer_witness :
  processRequest nat (fun s => Ret (Some (length s))) (fun _ => Ret (Some 1%nat)) (fun _ _ _ => Ret (Some 2%nat))
    (fun _ _ args => match args with [] => Throw 42 | _ => Ret (Some 3%nat) end) (fun _ _ _ => Ret None)
    (fun _ => Ret None) None None None None (of_string (bs "GET|Hello|")) = Undef.
Proof.
  apply (processRequest_unset_answer nat (fun s => Ret (Some (length s))) (fun _ => Ret (Some 1%nat)) (fun _ _ _ => Ret (Some 2%nat))
    (fun _ _ args => match args with [] => Throw 42 | _ => Ret (Some 3%nat) end) (fun _ _ _ => Ret None)
    (fun _ => Ret None) None None None None (of_string (bs "GET|Hello|")) (bs "GET|Hello|") (bs "GET") (bs "Hello") [] (Some 3%nat));
    vm_compute; reflexivity.
Defined.

Lemma GetJNIException_spec_witness :
  GetJNIException (Throwable (bs "A") (Some [bs "f"]) (Some (Throwable (bs "B") (Some []) None))) [] =
  Ret (bs "A" ++ [nl] ++ bs "    f" ++ [nl] ++ bs "Caused by: B").
Proof.
  apply (GetJNIException_spec (bs "A") (Some [bs "f"]) (Some (Throwable (bs "B") (Some []) None))); [|done].
  by repeat split.
Defined.

End TowaAppPool.
