(* ===== verification/TowaMain.v ===== *)
(** * The servlet process: server/towa.cpp and the constructor of
    server/towa_app_pool.cpp

    The process creates the virtual machine, looks up the classes it needs and
    answers the messages of its pipe one after the other, for ever. *)

From S2P Require Import Prelude CStd TowaIpc TowaApp.
#[local] Open Scope Z_scope.
Import TowaIPC TowaAppPool.

Module TowaMain.

Section jvm.
Variable jref : Type.
Notation jobject := (option jref).
Variable NewStringUTF : bytes -> outcome jobject.
Variable FindClass : bytes -> outcome jobject.
Variable GetMethodID : jobject -> bytes -> bytes -> outcome jobject.
Variable NewObject : jobject -> jobject -> list jobject -> outcome jobject.
Variable CallVoidMethod : jobject -> jobject -> list jobject -> outcome (option throwable).
Variable GetOutput : jobject -> outcome (option bytes).

(** [class TowaAppPool]: the references; [None] for a field that was never set. *)
Record pool := mk_pool {
  RequestClass : option jobject; RequestClassConstructor : option jobject;
  ResponseClass : jobject; ResponseClassConstructor : jobject; ResponseClassGetOutput : jobject;
  ThrowableClass : jobject; ThrowableClassGetCause : jobject; ThrowableClassGetStackTrace : jobject; ThrowableClassToString : jobject;
  StackTraceElementClass : jobject; StackTraceElementClassToString : jobject }.

(** The [try] block of the constructor; an integer that is thrown in it is only
    printed, and what has been assigned before stays. *)
Definition request_class : outcome (option jobject * option jobject) :=
  catch_int
    (c ← FindClass (bs "TowaRequest");
     catch_int
       (m ← GetMethodID c (bs "<init>") (bs "(Ljava/lang/String;Ljava/lang/String;)V"); Ret (Some c, Some m))
       (fun _ => Ret (Some c, None)))
    (fun _ => Ret (None, None)).
(** [TowaAppPool::TowaAppPool], after the creation of the virtual machine, whose
    result is not tested. *)
Definition new_TowaAppPool : outcome pool :=
  r ← request_class;
  response ← FindClass (bs "TowaResponse");
  response_init ← GetMethodID response (bs "<init>") (bs "()V");
  output ← GetMethodID response (bs "getOutput") (bs "()[B");
  throwable ← FindClass (bs "java/lang/Throwable");
  cause ← GetMethodID throwable (bs "getCause") (bs "()Ljava/lang/Throwable;");
  trace ← GetMethodID throwable (bs "getStackTrace") (bs "()[Ljava/lang/StackTraceElement;");
  text ← GetMethodID throwable (bs "toString") (bs "()Ljava/lang/String;");
  element ← FindClass (bs "java/lang/StackTraceElement");
  element_text ← GetMethodID element (bs "toString") (bs "()Ljava/lang/String;");
  Ret (mk_pool (fst r) (snd r) response response_init output throwable cause trace text element element_text).

(** [callback]: a request is run with the references of the pool. *)
Definition callback (refs : pool) (msg : Message) : outcome (option Message) :=
  match RequestClass refs, RequestClassConstructor refs with
  | Some c, Some m =>
      processRequest jref NewStringUTF FindClass GetMethodID NewObject CallVoidMethod GetOutput c m
        (ResponseClass refs) (ResponseClassConstructor refs) msg
  | _, _ => Undef
  end.

(** The loop of [main]: the answers to the messages that arrive on the pipe ([None]
    when it cannot be opened), and how the loop ended, if it did. *)
Fixpoint listen `{Heap} (refs : pool) (pings : list (option bytes)) (answers : list bytes) : list bytes * option (outcome unit) :=
  match pings with
  | [] => (answers, None)
  | ping :: pings =>
      match listenToMsg ping (callback refs) with
      | Ret pong => listen refs pings (answers ++ [pong])
      | Throw e => (answers, Some (Throw e))
      | Undef => (answers, Some Undef)
      end
  end.
(** [main]: the constructor, the pipe, the loop; how it ends and what it has
    printed.  An integer that is thrown is printed on two lines, and the program
    ends; another exception leaves [main], which terminates the process. *)
Definition main `{Heap} (errno : Z) (ping pong : Z * Z) (pings : list (option bytes)) : list bytes * option (outcome bytes) :=
  let report e := Ret (bs "Error " ++ to_decimal e ++ [nl] ++ to_decimal errno ++ [nl]) in
  match (refs ← new_TowaAppPool; new_TowaPipe ping pong;; Ret refs) with
  | Ret refs =>
      let (answers, ending) := listen refs pings [] in
      (answers, option_map (fun r => catch_int (r;; Ret []) report) ending)
  | Throw e => ([], Some (catch_int (Throw e) report))
  | Undef => ([], Some Undef)
  end.

(** ** Serving requests *)

Section with_heap.
Context `{Heap}.

Definition frame (s : bytes) : bytes := put_u32 (zlen s) ++ s.
Definition answers_to (refs : pool) (request answer : bytes) : Prop :=
  zlen request < 2 ^ 31 /\ callback refs (of_string request) = Ret (Some (of_string answer)).

Lemma listen_app refs reqs answers : Forall2 (answers_to refs) reqs answers -> forall pings acc,
  listen refs (map (fun s => Some (frame s)) reqs ++ pings) acc = listen refs pings (acc ++ map frame answers).
Proof.
  induction 1 as [|s a reqs answers [Hs Ha] _ IH]; intros pings acc; [by rewrite app_nil_r|].
  cbn [map app listen]. unfold listenToMsg at 1, frame at 1. cbn [of_access mbind outcome_bind].
  rewrite read_no_header by done. cbn [mbind outcome_bind]. unfold of_string in Ha at 1. rewrite Ha. cbn [mbind outcome_bind of_access].
  rewrite sendTo_of_string, IH. by rewrite <-app_assoc.
Qed.

(** C40: the servlet process answers the requests of its pipe one after the other, in
    their order, each with the answer of its servlet, and goes on listening. *)
Theorem answers_in_order refs reqs answers :
  Forall2 (answers_to refs) reqs answers ->
  listen refs (map (fun s => Some (frame s)) reqs) [] = (map frame answers, None).
Proof. intros Hr. rewrite <-(app_nil_r (map _ reqs)). by rewrite (listen_app refs reqs answers). Qed.

(** a request without a class name ends the process: the container answers it
    with a null pointer, which the pipe dereferences; the requests that come after
    are lost. *)
Theorem request_without_class refs reqs answers bad rest :
  Forall2 (answers_to refs) reqs answers -> is_Some (RequestClass refs) -> is_Some (RequestClassConstructor refs) ->
  zlen bad < 2 ^ 31 -> bar ∉ bad ->
  listen refs (map (fun s => Some (frame s)) reqs ++ Some (frame bad) :: rest) [] = (map frame answers, Some Undef).
Proof.
  intros Hr [c Hc] [m Hm] Hb Hbar. rewrite (listen_app refs reqs answers) by done. cbn [listen app].
  unfold listenToMsg, frame. cbn [of_access mbind outcome_bind]. rewrite read_no_header by done. cbn [mbind outcome_bind].
  unfold callback. rewrite Hc, Hm. unfold processRequest, getString. cbn [size content].
  rewrite (proj2 (Z.leb_le 0 _)), (proj2 (Z.leb_le _ _)) by (apply zlen_nonneg || done). cbn [andb mbind outcome_bind].
  rewrite ztake_all by done. unfold tokens. rewrite split_go_end by done. by destruct bad.
Qed.

(** when the class of the requests is missing, the constructor only prints a
    message: the container starts, and the first request it is sent is undefined
    behaviour. *)
Theorem missing_request_class refs c bad rest :
  FindClass (bs "TowaRequest") = Throw (int_exn c) -> new_TowaAppPool = Ret refs -> zlen bad < 2 ^ 31 ->
  listen refs (Some (frame bad) :: rest) [] = ([], Some Undef).
Proof.
  intros Hf Hn Hb. assert (RequestClass refs = None) as Hc.
  { unfold new_TowaAppPool, request_class in Hn. rewrite Hf in Hn. cbn [mbind outcome_bind catch_int] in Hn.
    repeat match type of Hn with (?m ≫= _) = _ => destruct m; cbn [mbind outcome_bind] in Hn; try discriminate end.
    by injection Hn as <-. }
  cbn [listen]. unfold listenToMsg, frame. cbn [of_access mbind outcome_bind]. rewrite read_no_header by done. cbn [mbind outcome_bind].
  unfold callback. by rewrite Hc.
Qed.

End with_heap.
End jvm.

Section witnesses.
#[local] Existing Instance zero_heap.
(** A virtual machine whose servlets all answer [hi]. *)
Notation with_vm f := (f nat (fun s => Ret (Some (length s))) (fun _ => Ret (Some 1%nat)) (fun _ _ _ => Ret (Some 2%nat))
  (fun _ _ _ => Ret (Some 3%nat)) (fun _ _ _ => Ret None) (fun _ => Ret (Some (cstr (bs "hi"))))).
Notation references := (mk_pool nat (Some (Some 1%nat)) (Some (Some 2%nat)) (Some 1%nat) (Some 2%nat) (Some 2%nat) (Some 1%nat)
  (Some 2%nat) (Some 2%nat) (Some 2%nat) (Some 1%nat) (Some 2%nat)).
Notation ok := (z2b TOWA_HTTP_200 :: bs "hi").

Lemma answers_in_order_witness :
  with_vm listen references [Some (frame (bs "GET|A|")); Some (frame (bs "GET|B|x=1"))] [] = ([frame ok; frame ok], None).
Proof.
  refine (with_vm answers_in_order references [bs "GET|A|"; bs "GET|B|x=1"] [ok; ok] _).
  constructor; [split; [reflexivity|vm_compute; reflexivity]|].
  constructor; [split; [reflexivity|vm_compute; reflexivity]|constructor].
Defined.
Lemma request_without_class_witness :
  with_vm listen references [Some (frame (bs "GET|A|")); Some (frame (bs "GET")); Some (frame (bs "GET|B|"))] [] = ([frame ok], Some Undef).
Proof.
  refine (with_vm request_without_class references [bs "GET|A|"] [ok] (bs "GET") [Some (frame (bs "GET|B|"))] _ _ _ _ _).
  - constructor; [split; [reflexivity|vm_compute; reflexivity]|constructor].
  - by eexists.
  - by eexists.
  - reflexivity.
  - apply (bool_decide_unpack _). vm_compute. exact I.
Defined.
Lemma missing_request_class_witness :
  listen nat (fun s => Ret (Some (length s))) (fun c => if bool_decide (c = bs "TowaRequest") then Throw 42 else Ret (Some 1%nat))
    (fun _ _ _ => Ret (Some 2%nat)) (fun _ _ _ => Ret (Some 3%nat)) (fun _ _ _ => Ret None) (fun _ => Ret None)
    (mk_pool nat None None (Some 1%nat) (Some 2%nat) (Some 2%nat) (Some 1%nat) (Some 2%nat) (Some 2%nat) (Some 2%nat) (Some 1%nat) (Some 2%nat))
    [Some (frame (bs "GET|A|"))] [] = ([], Some Undef).
Proof.
  refine (missing_request_class nat (fun s => Ret (Some (length s)))
    (fun c => if bool_decide (c = bs "TowaRequest") then Throw 42 else Ret (Some 1%nat)) (fun _ _ _ => Ret (Some 2%nat))
    (fun _ _ _ => Ret (Some 3%nat)) (fun _ _ _ => Ret None) (fun _ => Ret None) _ 42 (bs "GET|A|") [] _ _ _); vm_compute; reflexivity.
Defined.
End witnesses.
End TowaMain.
