(* ===== verification/XmlStr.v ===== *)
(** * Strings of the XML parser: tinyxml2.h and tinyxml2.cpp, XMLUtil and StrPair

    The text of a document is parsed in place: a [StrPair] marks a range of the
    buffer, which is rewritten (entities, line ends, white space) the first time
    it is read.  Positions in the buffer are the rest of its text, the
    terminating NUL being the end of the list. *)

From S2P Require Import Prelude CStd.

Module XMLUtil.

Definition LF : byte := nl.
Definition CR : byte := cr.
Definition semicolon : byte := z2b 59.
Definition ampersand : byte := z2b 38.
Definition hash : byte := z2b 35.

Definition IsUTF8Continuation (p : byte) : bool := negb (Z.land (b2z p) 128 =? 0).
Definition IsWhiteSpace (p : byte) : bool := negb (IsUTF8Continuation p) && isspace p.
Definition IsNameStartChar (ch : byte) : bool :=
  if 128 <=? b2z ch then true
  else if isalpha ch then true
  else (b2z ch =? 58) || (b2z ch =? 95).
Definition IsNameChar (ch : byte) : bool :=
  IsNameStartChar ch || isdigit ch || (b2z ch =? 46) || (b2z ch =? 45).

(** [XMLUtil::SkipWhiteSpace]: the new position and the line number. *)
Fixpoint SkipWhiteSpace (p : bytes) (line : Z) : bytes * Z :=
  match p with
  | b :: p' =>
      if IsWhiteSpace b then SkipWhiteSpace p' (if beqb b nl then line + 1 else line)
      else (p, line)
  | [] => (p, line)
  end.

(** [XMLUtil::StringEqual] with a count: whether the text at [p] starts with a
    pattern without NUL. *)
Fixpoint starts_with (pat p : bytes) : bool :=
  match pat, p with
  | [], _ => true
  | a :: pat, b :: p => beqb a b && starts_with pat p
  | _ :: _, [] => false
  end.

(** [XMLUtil::ReadBOM]. *)
Definition bom_bytes : bytes := [z2b 239; z2b 187; z2b 191].
Definition ReadBOM (p : bytes) : bytes * bool :=
  if starts_with bom_bytes p then (drop 3 p, true) else (p, false).

(** [XMLUtil::ConvertUTF32ToUTF8]: the bytes written. *)
Definition BYTE_MASK : Z := 191.
Definition BYTE_MARK : Z := 128.
Definition FIRST_BYTE_MARK (length : Z) : Z :=
  if length =? 2 then 192 else if length =? 3 then 224 else if length =? 4 then 240 else 0.
Definition tail_byte (input : Z) : byte := z2b (Z.land (Z.lor input BYTE_MARK) BYTE_MASK).
Definition ConvertUTF32ToUTF8 (input : Z) : bytes :=
  let length :=
    if input <? 128 then 1 else if input <? 2048 then 2
    else if input <? 65536 then 3 else if input <? 2097152 then 4 else 0 in
  if length =? 0 then []
  else
    let out : bytes := [] in
    let '(out, input) := if 4 <=? length then (tail_byte input :: out, Z.shiftr input 6) else (out, input) in
    let '(out, input) := if 3 <=? length then (tail_byte input :: out, Z.shiftr input 6) else (out, input) in
    let '(out, input) := if 2 <=? length then (tail_byte input :: out, Z.shiftr input 6) else (out, input) in
    z2b (Z.lor input (FIRST_BYTE_MARK length)) :: out.

(** [strchr(q, ';')]: the text before the semicolon. *)
Fixpoint before_semicolon (q : bytes) : option bytes :=
  match q with
  | [] => None
  | b :: q => if beqb b semicolon then Some [] else l ← before_semicolon q; Some (b :: l)
  end.

Definition hex_digit (b : byte) : option Z :=
  if isdigit b then Some (b2z b - 48)
  else if (97 <=? b2z b) && (b2z b <=? 102) then Some (b2z b - 97 + 10)
  else if (65 <=? b2z b) && (b2z b <=? 70) then Some (b2z b - 65 + 10)
  else None.
Definition dec_digit (b : byte) : option Z := if isdigit b then Some (b2z b - 48) else None.

(** The loop that reads the digits from the semicolon back to the mark ([x] or
    [#]): [mult] and each product are 32-bit unsigned numbers, the sum is a
    64-bit one. *)
Fixpoint digits_back (digit : byte -> option Z) (base : Z) (mark : byte) (q : bytes) (mult ucs : Z)
  : option Z :=
  match q with
  | [] => Some ucs
  | b :: q =>
      if beqb b mark then Some ucs
      else match digit b with
           | None => None
           | Some d => digits_back digit base mark q (u32 (mult * base)) ((ucs + u32 (mult * d)) mod 2 ^ 64)
           end
  end.

(** [XMLUtil::GetCharacterRef] at [p], which starts with an ampersand: the
    distance to the next position and the bytes, or [None] for a null pointer. *)
Definition GetCharacterRef (p : bytes) : option (nat * bytes) :=
  match p with
  | _ :: h :: c :: rest =>
      if beqb h hash then
        if beqb c (z2b 120) then
          match rest with
          | [] => None
          | _ =>
              match before_semicolon rest with
              | None => None
              | Some q =>
                  match digits_back hex_digit 16 (z2b 120) (rev q) 1 0 with
                  | None => None
                  | Some ucs => Some ((length q + 4)%nat, ConvertUTF32ToUTF8 ucs)
                  end
              end
          end
        else
          match before_semicolon (c :: rest) with
          | None => None
          | Some q =>
              match digits_back dec_digit 10 hash (rev q) 1 0 with
              | None => None
              | Some ucs => Some ((length q + 3)%nat, ConvertUTF32ToUTF8 ucs)
              end
          end
      else Some (1%nat, [])
  | _ => Some (1%nat, [])
  end.

(** [XMLUtil::ToStr] of integers and booleans; [writeBoolTrue] and
    [writeBoolFalse] are the texts of [SetBoolSerialization]. *)
Definition ToStr_int (v : Z) : bytes := to_decimal v.
Definition SetBoolSerialization (writeTrue writeFalse : option bytes) : bytes * bytes :=
  (default (bs "true") writeTrue, default (bs "false") writeFalse).
Definition ToStr_bool (names : bytes * bytes) (v : bool) : bytes := if v then names.1 else names.2.

(** [sscanf(str, "%d", ..)]: white space, a sign, digits; [None] when there is
    no digit.  The value is what [strtol] gives, converted to the type. *)
Definition scan_decimal (str : bytes) : option Z :=
  let s := drop_spaces str in
  let '(sign, s) :=
    match s with
    | b :: s' => if b2z b =? 45 then (-1, s') else if b2z b =? 43 then (1, s') else (1, s)
    | [] => (1, s)
    end in
  match take_digits s with
  | [] => None
  | ds => Some (sign * of_decimal ds)
  end.
Definition clamp64 (v : Z) : Z := Z.max (- 2 ^ 63) (Z.min (2 ^ 63 - 1) v).
Definition ToInt (str : bytes) : option Z := v ← scan_decimal str; Some (s32 (clamp64 v)).
Definition ToUnsigned (str : bytes) : option Z := v ← scan_decimal str; Some (u32 (if v <? 0 then - Z.min (2 ^ 64 - 1) (- v) else Z.min (2 ^ 64 - 1) v)).
Definition ToInt64 (str : bytes) : option Z := v ← scan_decimal str; Some (clamp64 v).
Definition ToBool (str : bytes) : option bool :=
  match ToInt str with
  | Some ival => Some (negb (ival =? 0))
  | None =>
      if bool_decide (str = bs "true") then Some true
      else if bool_decide (str = bs "false") then Some false
      else None
  end.

(** ** UTF-8 *)

(** Reading a code point, as RFC 3629 writes it. *)
Definition cont (b : byte) : option Z :=
  if (128 <=? b2z b) && (b2z b <? 192) then Some (b2z b - 128) else None.
Definition utf8_decode (s : bytes) : option Z :=
  match s with
  | [a] => if b2z a <? 128 then Some (b2z a) else None
  | [a; b] => if (192 <=? b2z a) && (b2z a <? 224) then
      b ← cont b; Some ((b2z a - 192) * 64 + b) else None
  | [a; b; c] => if (224 <=? b2z a) && (b2z a <? 240) then
      b ← cont b; c ← cont c; Some (((b2z a - 224) * 64 + b) * 64 + c) else None
  | [a; b; c; d] => if (240 <=? b2z a) && (b2z a <? 248) then
      b ← cont b; c ← cont c; d ← cont d; Some ((((b2z a - 240) * 64 + b) * 64 + c) * 64 + d) else None
  | _ => None
  end.

Lemma lor_disjoint k x m :
  0 <= k -> 0 <= x < 2 ^ k -> Z.lor x (m * 2 ^ k) = x + m * 2 ^ k.
Proof.
  intros Hk Hx. assert (Z.land x (m * 2 ^ k) = 0) as Hl.
  { apply Z.bits_inj'. intros i Hi. rewrite Z.land_spec, Z.bits_0.
    destruct (Z.lt_ge_cases i k).
    - rewrite Z.mul_pow2_bits_low by lia. apply andb_false_r.
    - assert (x = 0 \/ 0 < x) as [->|Hp] by lia; [by rewrite Z.bits_0|].
      rewrite (Z.bits_above_log2 x i); [done|lia|].
      apply Z.lt_le_trans with k; [|lia]. apply Z.log2_lt_pow2; lia. }
  pose proof (Z.add_lor_land x (m * 2 ^ k)) as E. lia.
Qed.

Lemma b2z_tail_byte n : b2z (tail_byte n) = 128 + n mod 64.
Proof.
  unfold tail_byte, BYTE_MARK, BYTE_MASK. rewrite b2z_z2b.
  assert (Z.land (Z.lor n 128) 191 = 128 + n mod 64) as ->.
  { rewrite Z.land_lor_distr_l. change (Z.land 128 191) with 128.
    change 191 with (Z.lor 63 128) at 1. rewrite Z.land_lor_distr_r, <-Z.lor_assoc.
    assert (Z.lor (Z.land n 128) 128 = 128) as ->.
    { apply Z.bits_inj'. intros i Hi. rewrite Z.lor_spec, Z.land_spec.
      by destruct (Z.testbit n i), (Z.testbit 128 i). }
    change 63 with (Z.ones 6). rewrite Z.land_ones by lia.
    pose proof (lor_disjoint 6 (n mod 2 ^ 6) 2 ltac:(lia) (Z.mod_pos_bound n (2 ^ 6) ltac:(lia))) as E.
    change (2 * 2 ^ 6) with 128 in E. rewrite E. change (2 ^ 6) with 64. lia. }
  apply Z.mod_small. pose proof (Z.mod_pos_bound n 64). lia.
Qed.

Lemma cont_tail_byte n : cont (tail_byte n) = Some (n mod 64).
Proof.
  unfold cont. rewrite b2z_tail_byte. pose proof (Z.mod_pos_bound n 64 ltac:(lia)).
  rewrite (proj2 (Z.leb_le _ _)), (proj2 (Z.ltb_lt _ _)) by lia. simpl. f_equal. lia.
Qed.

(** for every code below 2^21 the conversion produces the UTF-8 encoding, of
    the shortest length, that decodes to it; larger numbers produce nothing. *)
Theorem utf8_round_trip v :
  0 <= v ->
  (v < 2097152 -> utf8_decode (ConvertUTF32ToUTF8 v) = Some v /\ 1 <= zlen (ConvertUTF32ToUTF8 v) <= 4) /\
  (2097152 <= v -> ConvertUTF32ToUTF8 v = []).
Proof.
  intros Hv. unfold ConvertUTF32ToUTF8. split; intros Hb.
  2: { rewrite !(proj2 (Z.ltb_ge v _)) by lia. done. }
  destruct (Z.ltb_spec v 128).
  { cbn -[Z.lor]. rewrite Z.lor_0_r. rewrite b2z_z2b_small by lia. rewrite (proj2 (Z.ltb_lt v 128)) by lia. done. }
  pose proof (Z.mod_pos_bound v 64 ltac:(lia)) as M1. pose proof (Z.div_mod v 64 ltac:(lia)) as D1.
  pose proof (Z.mod_pos_bound (v / 64) 64 ltac:(lia)) as M2. pose proof (Z.div_mod (v / 64) 64 ltac:(lia)) as D2.
  pose proof (Z.mod_pos_bound (v / 64 / 64) 64 ltac:(lia)) as M3. pose proof (Z.div_mod (v / 64 / 64) 64 ltac:(lia)) as D3.
  assert (forall x, Z.shiftr x 6 = x / 64) as Sh by (intros; by rewrite Z.shiftr_div_pow2).
  destruct (Z.ltb_spec v 2048).
  { cbn -[Z.lor tail_byte Z.shiftr]. rewrite Sh.
    pose proof (lor_disjoint 5 (v / 64) 6 ltac:(lia) ltac:(change (2 ^ 5) with 32; lia)) as E.
    change (6 * 2 ^ 5) with 192 in E. rewrite E.
    rewrite cont_tail_byte, !b2z_z2b_small by lia.
    rewrite (proj2 (Z.leb_le _ _)), (proj2 (Z.ltb_lt _ _)) by lia. simpl. split; [f_equal; lia|done]. }
  destruct (Z.ltb_spec v 65536).
  { cbn -[Z.lor tail_byte Z.shiftr]. rewrite !Sh.
    pose proof (lor_disjoint 4 (v / 64 / 64) 14 ltac:(lia) ltac:(change (2 ^ 4) with 16; lia)) as E.
    change (14 * 2 ^ 4) with 224 in E. rewrite E.
    rewrite !cont_tail_byte, !b2z_z2b_small by lia.
    rewrite (proj2 (Z.leb_le _ _)), (proj2 (Z.ltb_lt _ _)) by lia. simpl. split; [f_equal; lia|done]. }
  rewrite (proj2 (Z.ltb_lt v 2097152)) by lia.
  cbn -[Z.lor tail_byte Z.shiftr]. rewrite !Sh.
  pose proof (lor_disjoint 3 (v / 64 / 64 / 64) 30 ltac:(lia) ltac:(change (2 ^ 3) with 8; lia)) as E.
  change (30 * 2 ^ 3) with 240 in E. rewrite E.
  rewrite !cont_tail_byte, !b2z_z2b_small by lia.
  rewrite (proj2 (Z.leb_le _ _)), (proj2 (Z.ltb_lt _ _)) by lia. simpl. split; [f_equal; lia|done].
Qed.

(** The euro sign. *)
Lemma utf8_round_trip_witness :
  utf8_decode (ConvertUTF32ToUTF8 8364) = Some 8364 /\ ConvertUTF32ToUTF8 8364 = [z2b 226; z2b 130; z2b 172].
Proof. split; [apply (utf8_round_trip 8364); lia|vm_compute; reflexivity]. Defined.

End XMLUtil.

Module StrPair.
Import XMLUtil.

Definition NEEDS_ENTITY_PROCESSING : Z := 1.
Definition NEEDS_NEWLINE_NORMALIZATION : Z := 2.
Definition NEEDS_WHITESPACE_COLLAPSING : Z := 4.
Definition TEXT_ELEMENT : Z := 3.
Definition TEXT_ELEMENT_LEAVE_ENTITIES : Z := 2.
Definition ATTRIBUTE_VALUE : Z := 3.
Definition ATTRIBUTE_VALUE_LEAVE_ENTITIES : Z := 2.
Definition COMMENT : Z := 2.
Definition NEEDS_FLUSH : Z := 256.
Definition NEEDS_DELETE : Z := 512.
Definition has (flags bit : Z) : bool := negb (Z.land flags bit =? 0).

(** The range, as the text it delimits; [None] when the pointers are null. *)
Record t := mk { flags : Z; text : option bytes }.
Definition empty : t := mk 0 None.
(** [Set], [SetStr] and [Reset]. *)
Definition Set_ (range : bytes) (flags : Z) : t := mk (Z.lor flags NEEDS_FLUSH) (Some range).
Definition SetStr (str : bytes) : t := mk NEEDS_DELETE (Some str).
Definition Reset (_ : t) : t := empty.
Definition Empty (s : t) : bool := match text s with None | Some [] => true | _ => false end.
(** [TransferTo]: the source and the destination afterwards. *)
Definition TransferTo (s : t) : t * t := (empty, s).

(** The table of entities. *)
Definition entities : list (bytes * byte) :=
  [(bs "quot", z2b 34); (bs "amp", z2b 38); (bs "apos", z2b 39); (bs "lt", z2b 60); (bs "gt", z2b 62)].
(** The entity whose name and semicolon start the text. *)
Fixpoint find_entity (table : list (bytes * byte)) (p : bytes) : option (nat * byte) :=
  match table with
  | [] => None
  | (pattern, value) :: table =>
      if starts_with pattern p && starts_with [semicolon] (drop (length pattern) p)
      then Some (length pattern, value) else find_entity table p
  end.

(** The rewriting loop of [GetStr]: [p] is what remains to be read, [q] the
    position of the next byte written in the same buffer, [skip] the number of
    bytes already consumed.  An ampersand that starts no entity moves [q] without
    writing, so that the byte already at [q] stays. *)
Fixpoint process (flags : Z) (buffer p : bytes) (skip q : nat) : bytes :=
  match p with
  | [] => []
  | b :: p' =>
      match skip with
      | S skip => process flags buffer p' skip q
      | O =>
          if has flags NEEDS_NEWLINE_NORMALIZATION && beqb b CR then
            LF :: process flags buffer p' (if starts_with [LF] p' then 1 else 0) (S q)
          else if has flags NEEDS_NEWLINE_NORMALIZATION && beqb b LF then
            LF :: process flags buffer p' (if starts_with [CR] p' then 1 else 0) (S q)
          else if has flags NEEDS_ENTITY_PROCESSING && beqb b ampersand then
            if starts_with [hash] p' then
              match GetCharacterRef p with
              | None => b :: process flags buffer p' 0 (S q)
              | Some (adv, buf) => buf ++ process flags buffer p' (adv - 1) (q + length buf)
              end
            else
              match find_entity entities p' with
              | Some (len, value) => value :: process flags buffer p' (len + 1) (S q)
              | None => default nul (buffer !! q) :: process flags buffer p' 0 (S q)
              end
          else b :: process flags buffer p' 0 (S q)
      end
  end.

(** A [char *] as its reader sees it. *)
Fixpoint until_nul (s : bytes) : bytes :=
  match s with b :: s => if beqb b nul then [] else b :: until_nul s | [] => [] end.

(** [StrPair::CollapseWhitespace]: leading and trailing white space is dropped,
    every other run becomes one space. *)
Fixpoint collapse_loop (in_space : bool) (p : bytes) : bytes :=
  match p with
  | [] => []
  | b :: p =>
      if IsWhiteSpace b then collapse_loop true p
      else if in_space then z2b 32 :: b :: collapse_loop false p
      else b :: collapse_loop false p
  end.
Definition CollapseWhitespace (s : bytes) : bytes := collapse_loop false (SkipWhiteSpace s 0).1.

(** [StrPair::GetStr]: the text its caller sees. *)
Definition GetStr (s : t) : outcome bytes :=
  match text s with
  | None => Undef
  | Some range =>
      if has (flags s) NEEDS_FLUSH then
        let flags := Z.lxor (flags s) NEEDS_FLUSH in
        let str := until_nul (if flags =? 0 then range else process flags range range 0 0) in
        Ret (if has flags NEEDS_WHITESPACE_COLLAPSING then CollapseWhitespace str else str)
      else Ret (until_nul range)
  end.

(** [StrPair::ParseText]: the range before the end tag and the position after
    it, or a null pointer; the line number counts the line feeds passed. *)
Fixpoint ParseText (p endTag : bytes) (line : Z) : option (bytes * bytes) * Z :=
  match p with
  | [] => (None, line)
  | b :: p' =>
      if starts_with endTag p then (Some ([], drop (length endTag) p), line)
      else
        let (r, line) := ParseText p' endTag (if beqb b nl then line + 1 else line) in
        (match r with Some (range, rest) => Some (b :: range, rest) | None => None end, line)
  end.

(** [StrPair::ParseName]: the name and the position after it. *)
Fixpoint name_chars (p : bytes) : bytes * bytes :=
  match p with
  | b :: p' => if IsNameChar b then let (n, r) := name_chars p' in (b :: n, r) else ([], p)
  | [] => ([], [])
  end.
Definition ParseName (p : bytes) : option (bytes * bytes) :=
  match p with
  | [] => None
  | b :: p' => if IsNameStartChar b then let (n, r) := name_chars p' in Some (b :: n, r) else None
  end.

(** ** Finding the end of a text *)

Fixpoint newlines (s : bytes) : Z :=
  match s with b :: s => (if beqb b nl then 1 else 0) + newlines s | [] => 0 end.

Lemma starts_with_app pat rest : starts_with pat (pat ++ rest) = true.
Proof. induction pat as [|a pat IH]; [done|]. simpl. by rewrite beqb_refl. Qed.
Lemma starts_with_drop pat p : starts_with pat p = true -> p = pat ++ drop (length pat) p.
Proof.
  revert p. induction pat as [|a pat IH]; intros p H; [done|]. destruct p as [|b p]; [done|].
  simpl in *. apply andb_prop in H as [Hb H]. destruct (beqb_spec a b) as [->|]; [|done].
  f_equal. by apply IH.
Qed.

Lemma ParseText_correct endTag p line :
  endTag <> [] ->
  let (r, line') := ParseText p endTag line in
  match r with
  | Some (range, rest) =>
      p = range ++ endTag ++ rest /\ line' = line + newlines range /\
      forall k, (k < length range)%nat -> starts_with endTag (drop k p) = false
  | None => line' = line + newlines p /\ forall k, starts_with endTag (drop k p) = false
  end.
Proof.
  intros Hne. revert line. induction p as [|b p IH]; intros line.
  - simpl. split; [lia|]. intros k. rewrite drop_nil. by destruct endTag.
  - cbn [ParseText]. destruct (starts_with endTag (b :: p)) eqn:E.
    + split; [by apply starts_with_drop|]. split; [simpl; lia|]. simpl. intros k Hk. lia.
    + specialize (IH (if beqb b nl then line + 1 else line)).
      destruct (ParseText p endTag _) as [[[range rest]|] line'].
      * destruct IH as (-> & -> & Hk). split; [done|]. cbn [newlines]. split; [destruct (beqb b nl); lia|].
        intros [|k] Hl; [done|]. simpl in Hl. apply (Hk k). lia.
      * destruct IH as (-> & Hk). cbn [newlines]. split; [destruct (beqb b nl); lia|].
        intros [|k]; [done|]. apply (Hk k).
Qed.

(** [ParseText] stops at the first occurrence of the end tag, returns exactly
    the text before it, and counts its line feeds; it fails exactly when the end
    tag does not occur. *)
Theorem ParseText_spec endTag p line :
  endTag <> [] ->
  let (r, line') := ParseText p endTag line in
  match r with
  | Some (range, rest) =>
      p = range ++ endTag ++ rest /\ line' = line + newlines range /\
      forall k, (k < length range)%nat -> starts_with endTag (drop k p) = false
  | None => line' = line + newlines p /\ forall k, starts_with endTag (drop k p) = false
  end.
Proof. apply ParseText_correct. Qed.

(** ** White space *)

(** The words of a text: its maximal runs without white space. *)
Fixpoint words (cur p : bytes) : list bytes :=
  match p with
  | [] => match cur with [] => [] | _ => [rev cur] end
  | b :: p =>
      if IsWhiteSpace b then match cur with [] => words [] p | _ => rev cur :: words [] p end
      else words (b :: cur) p
  end.
Fixpoint join (ws : list bytes) : bytes :=
  match ws with [] => [] | [w] => w | w :: ws => w ++ z2b 32 :: join ws end.

Definition spaced (ws : list bytes) : bytes := concat (map (cons (z2b 32)) ws).

Lemma join_cons w ws : join (w :: ws) = w ++ spaced ws.
Proof.
  revert w. induction ws as [|w' ws IH]; intros w; [by rewrite app_nil_r|].
  change (join (w :: w' :: ws)) with (w ++ z2b 32 :: join (w' :: ws)). by rewrite IH.
Qed.

Lemma collapse_words p :
  collapse_loop true p = spaced (words [] p) /\
  forall cur, cur <> [] -> exists w ws,
    words cur p = (rev cur ++ w) :: ws /\ collapse_loop false p = w ++ spaced ws.
Proof.
  induction p as [|b p [IHt IHf]].
  - split; [done|]. intros cur Hc. exists [], []. simpl. rewrite app_nil_r. by destruct cur.
  - simpl. destruct (IsWhiteSpace b) eqn:E; split.
    + done.
    + intros cur Hc. exists [], (words [] p). rewrite app_nil_r. split; [by destruct cur|done].
    + destruct (IHf [b]) as (w & ws & -> & ->); done.
    + intros cur Hc. destruct (IHf (b :: cur)) as (w & ws & E1 & E2); [done|].
      exists (b :: w), ws. rewrite E1, E2. simpl. by rewrite <-app_assoc.
Qed.

(** collapsing white space leaves the words of the text, in order, separated by
    single spaces. *)
Theorem CollapseWhitespace_spec s : CollapseWhitespace s = join (words [] s).
Proof.
  unfold CollapseWhitespace. generalize 0. induction s as [|b s IH]; intros line; [done|]. simpl.
  destruct (IsWhiteSpace b) eqn:E; [apply IH|]. simpl. rewrite E.
  destruct (collapse_words s) as [_ Hf]. destruct (Hf [b]) as (w & ws & -> & ->); [done|].
  by rewrite join_cons.
Qed.

(** ** Line ends and entities *)

Lemma process_skip flags buffer p q n :
  (n <= length p)%nat -> process flags buffer p n q = process flags buffer (drop n p) 0 q.
Proof.
  revert p. induction n as [|n IH]; intros p Hn; [by rewrite drop_0|].
  destruct p as [|b p]; [simpl in Hn; lia|]. simpl in *. apply IH. lia.
Qed.

(** after normalisation no carriage return is left, whatever the text. *)
Theorem newline_normalization buffer : CR ∉ process NEEDS_NEWLINE_NORMALIZATION buffer buffer 0 0.
Proof.
  assert (forall p skip q, CR ∉ process NEEDS_NEWLINE_NORMALIZATION buffer p skip q) as H; [|apply H].
  induction p as [|b p IH]; intros skip q; [apply not_elem_of_nil|].
  destruct skip as [|skip]; [|apply IH]. cbn [process].
  change (has NEEDS_NEWLINE_NORMALIZATION NEEDS_NEWLINE_NORMALIZATION) with true.
  change (has NEEDS_NEWLINE_NORMALIZATION NEEDS_ENTITY_PROCESSING) with false. cbn [andb].
  destruct (beqb_spec b CR) as [->|Hne]; [by apply not_elem_of_cons|].
  destruct (beqb_spec b LF) as [->|]; apply not_elem_of_cons; split; try done; congruence.
Qed.

(** Bytes that need no processing. *)
Definition plain (b : byte) : Prop := b <> CR /\ b <> LF /\ b <> ampersand.
Lemma process_plain flags buffer w p q :
  Forall plain w -> process flags buffer (w ++ p) 0 q = w ++ process flags buffer p 0 (q + length w).
Proof.
  intros Hw. revert q. induction Hw as [|b w (H1 & H2 & H3) Hw IH]; intros q; [by rewrite Nat.add_0_r|].
  cbn [app process length].
  destruct (beqb_spec b CR); [done|]. destruct (beqb_spec b LF); [done|]. destruct (beqb_spec b ampersand); [done|].
  rewrite !andb_false_r, IH. do 3 f_equal. lia.
Qed.

Lemma until_nul_length s : (length (until_nul s) <= length s)%nat.
Proof. induction s as [|b s IH]; [done|]. cbn. destruct (beqb b nul); cbn; lia. Qed.
Lemma until_nul_no_nul s : no_nul s -> until_nul s = s.
Proof.
  induction 1 as [|b s Hb Hs IH]; [done|]. simpl. destruct (beqb_spec b nul); [done|]. by rewrite IH.
Qed.
Lemma GetStr_SetStr s : no_nul s -> GetStr (SetStr s) = Ret s.
Proof. intros H. change (GetStr (SetStr s)) with (Ret (until_nul s)). by rewrite until_nul_no_nul. Qed.

(** an ampersand that starts no entity is kept when nothing before it has
    shrunk; after an entity it is lost, replaced by the byte of the buffer it
    would have been moved to: ["&lt;&w"] is read as ["<lw"]. *)
Theorem stray_ampersand w :
  Forall plain w -> w <> [] -> no_nul w -> starts_with [hash] w = false -> find_entity entities w = None ->
  GetStr (Set_ (bs "&" ++ w) TEXT_ELEMENT) = Ret (bs "&" ++ w) /\
  GetStr (Set_ (bs "&lt;&" ++ w) TEXT_ELEMENT) = Ret (bs "<l" ++ w).
Proof.
  intros Hw Hne Hn Hh Hf.
  assert (forall buffer q, process TEXT_ELEMENT buffer (bs "&" ++ w) 0 q = default nul (buffer !! q) :: w) as Hp.
  { intros buffer q. change (bs "&" ++ w) with (ampersand :: w). cbn [process].
    change (has TEXT_ELEMENT NEEDS_NEWLINE_NORMALIZATION) with true.
    change (has TEXT_ELEMENT NEEDS_ENTITY_PROCESSING) with true.
    change (beqb ampersand CR) with false. change (beqb ampersand LF) with false.
    rewrite beqb_refl. cbn [andb]. rewrite Hh, Hf. f_equal.
    rewrite <-(app_nil_r w) at 1. rewrite process_plain by done. simpl. apply app_nil_r. }
  split; unfold GetStr, Set_; cbn [text flags];
    change (has (Z.lor TEXT_ELEMENT NEEDS_FLUSH) NEEDS_FLUSH) with true; cbn match;
    change (Z.lxor (Z.lor TEXT_ELEMENT NEEDS_FLUSH) NEEDS_FLUSH) with TEXT_ELEMENT; cbn match;
    change (TEXT_ELEMENT =? 0) with false; change (has TEXT_ELEMENT NEEDS_WHITESPACE_COLLAPSING) with false; cbn match.
  - rewrite Hp. simpl (default _ _). f_equal. apply until_nul_no_nul. by constructor.
  - change (bs "&lt;&" ++ w) with (ampersand :: bs "lt;" ++ bs "&" ++ w) at 2. cbn [process].
    change (has TEXT_ELEMENT NEEDS_NEWLINE_NORMALIZATION) with true.
    change (has TEXT_ELEMENT NEEDS_ENTITY_PROCESSING) with true.
    change (beqb ampersand CR) with false. change (beqb ampersand LF) with false.
    rewrite beqb_refl. cbn [andb]. change (starts_with [hash] (bs "lt;" ++ bs "&" ++ w)) with false. cbn match.
    change (find_entity entities (bs "lt;" ++ bs "&" ++ w)) with (Some (2%nat, z2b 60)). cbn match.
    rewrite process_skip by (simpl; lia). change (drop (2 + 1) (bs "lt;" ++ bs "&" ++ w)) with (bs "&" ++ w).
    rewrite Hp. f_equal. apply until_nul_no_nul. by repeat constructor.
Qed.

(** ** Concrete runs *)
Lemma stray_ampersand_witness :
  GetStr (Set_ (bs "&foo;") TEXT_ELEMENT) = Ret (bs "&foo;") /\
  GetStr (Set_ (bs "&lt;&foo;") TEXT_ELEMENT) = Ret (bs "<lfoo;").
Proof.
  apply (stray_ampersand (bs "foo;")); try done; apply (bool_decide_unpack _); vm_compute; done.
Defined.

Lemma ParseText_spec_witness :
  bs "<" <> [] /\ ParseText (bs "one<two<") (bs "<") 1 = (Some (bs "one", bs "two<"), 1) /\
  starts_with (bs "<") (drop 2 (bs "one<two<")) = false.
Proof.
  split; [done|]. split; [reflexivity|].
  pose proof (ParseText_spec (bs "<") (bs "one<two<") 1 ltac:(done)) as (_ & _ & H). apply (H 2%nat). simpl. lia.
Defined.

(** "&#x41;" and "&#66;" and quotes. *)
Example GetStr_example :
  GetStr (Set_ (bs "&#x41;&#66;&quot;" ++ [CR; LF] ++ bs "x") TEXT_ELEMENT) = Ret (bs "AB" ++ [z2b 34; LF] ++ bs "x").
Proof. vm_compute. reflexivity. Qed.
End StrPair.
