(* ===== verification/XmlFloat.v ===== *)
(** * Floating-point numbers as text: ToStr, ToFloat and ToDouble of XMLUtil in
    tinyxml2.cpp

    A [float] or a [double] is a binary fraction with a bounded mantissa and exponent,
    as IEEE 754 defines it; [snprintf] with [%.Pg] writes the nearest decimal of P
    digits, [sscanf] with [%f] or [%lf] gives the nearest value of the type, both
    rounding ties to even.  The arithmetic is that of rational numbers. *)

From Stdlib Require Import QArith Qround Qpower Lqa.
From S2P Require Import Prelude CStd XmlStr.
#[local] Open Scope Z_scope.

Module Floats.
Import XMLUtil.

(** ** Values *)

(** A type: the bits of its mantissa, its smallest and its largest exponent. *)
Record format := mk_format { prec : Z; emin : Z; emax : Z }.
Definition float_format : format := mk_format 24 (-149) 104.
Definition double_format : format := mk_format 53 (-1074) 971.
(** [Finite neg m e] is [m * 2 ^ e], or its opposite. *)
Inductive fp := Finite (neg : bool) (m e : Z) | Infinity (neg : bool) | NaN (neg : bool).
#[export] Instance fp_eq_dec : EqDecision fp.
Proof. solve_decision. Defined.
(** The values of the type, each in one way: the mantissa is full unless the
    exponent is the smallest. *)
Definition is_value (f : format) (x : fp) : Prop :=
  match x with
  | Finite _ m e => 0 <= m < 2 ^ prec f /\ emin f <= e <= emax f /\ (2 ^ (prec f - 1) <= m \/ e = emin f)
  | _ => True
  end.

Definition p2 (e : Z) : Q := Qpower 2 e.
Definition p10 (k : Z) : Q := Qpower 10 k.
Definition Qlt_bool (x y : Q) : bool := negb (Qle_bool y x).

(** The nearest integer, of two the even one. *)
Definition nearest (q : Q) : Z :=
  let n := Qfloor q in
  match Qcompare (q - inject_Z n) (1 # 2) with
  | Lt => n
  | Gt => n + 1
  | Eq => if Z.even n then n else n + 1
  end.
(** The first number from [from] on with a property; [fuel] numbers are tried. *)
Fixpoint least (fuel : nat) (p : Z -> bool) (from : Z) : Z :=
  match fuel with
  | O => from
  | S fuel => if p from then from else least fuel p (from + 1)
  end.

(** ** Reading: the nearest value of the type *)

Definition exponent (f : format) (y : Q) : Z :=
  least (Z.to_nat (emax f - emin f + 2)) (fun e => Qlt_bool y (p2 (e + prec f))) (emin f).
Definition round_to (f : format) (neg : bool) (y : Q) : fp :=
  let e := exponent f y in
  let m := nearest (y / p2 e) in
  let (m, e) := if m =? 2 ^ prec f then (2 ^ (prec f - 1), e + 1) else (m, e) in
  if emax f <? e then Infinity neg else Finite neg m e.

Definition point : byte := z2b 46.
Definition tolower (b : byte) : byte := if (65 <=? b2z b) && (b2z b <=? 90) then z2b (b2z b + 32) else b.
Definition starts_nocase (pattern s : bytes) : bool := starts_with pattern (map tolower s).
Fixpoint take_while (p : byte -> bool) (s : bytes) : bytes :=
  match s with b :: s' => if p b then b :: take_while p s' else [] | [] => [] end.
Definition scan_sign (s : bytes) : bool * bytes :=
  match s with
  | b :: s' => if b2z b =? 45 then (true, s') else if b2z b =? 43 then (false, s') else (false, s)
  | [] => (false, s)
  end.
(** The digits before and after the point and the exponent behind [mark]; at least
    one digit, and one in the exponent if there is a mark. *)
Definition scan_number (digit : byte -> bool) (mark : byte) (s : bytes) : option (bytes * bytes * Z) :=
  let i := take_while digit s in
  let s := drop (length i) s in
  let (fr, s) :=
    match s with
    | b :: s' => if beqb b point then let fr := take_while digit s' in (fr, drop (length fr) s') else ([], s)
    | [] => ([], s)
    end in
  match i ++ fr with
  | [] => None
  | _ =>
      match s with
      | b :: s' =>
          if beqb (tolower b) mark then
            let (neg, s') := scan_sign s' in
            match take_digits s' with
            | [] => None
            | ds => Some (i, fr, if neg then - of_decimal ds else of_decimal ds)
            end
          else Some (i, fr, 0)
      | [] => Some (i, fr, 0)
      end
  end.
Definition decimal_value (x : bytes * bytes * Z) : Q :=
  let '(i, fr, e) := x in inject_Z (of_decimal (i ++ fr)) * p10 (e - zlen fr).
Definition hex_value (x : bytes * bytes * Z) : Q :=
  let '(i, fr, e) := x in
  inject_Z (undigits 16 (map (fun b => default 0 (hex_digit b)) (i ++ fr))) * p2 (e - 4 * zlen fr).
Definition is_hex (b : byte) : bool := match hex_digit b with Some _ => true | None => false end.

(** [sscanf( str, "%f", .. )] and [sscanf( str, "%lf", .. )]; [None] when nothing is
    read. *)
Definition scan_float (f : format) (str : bytes) : option fp :=
  let (neg, s) := scan_sign (drop_spaces str) in
  if starts_nocase (bs "nan") s then Some (NaN neg)
  else if starts_nocase (bs "inf") s then
    if starts_nocase (bs "infi") s && negb (starts_nocase (bs "infinity") s) then None else Some (Infinity neg)
  else if starts_nocase (bs "0x") s then
    x ← scan_number is_hex (z2b 112) (drop 2 s); Some (round_to f neg (hex_value x))
  else x ← scan_number isdigit (z2b 101) s; Some (round_to f neg (decimal_value x)).
Definition ToFloat (str : bytes) : option fp := scan_float float_format str.
Definition ToDouble (str : bytes) : option fp := scan_float double_format str.

(** ** Writing: the nearest decimal of [P] digits *)

(** The decimals of the two types lie between these powers. *)
Definition KMIN : Z := -400.
Definition KMAX : Z := 400.
(** [x] as an integer of [P] digits and a power of ten. *)
Definition decimal (P : Z) (x : Q) : Z * Z :=
  let k := least (Z.to_nat (KMAX - KMIN)) (fun k => Qlt_bool x (p10 (k + P))) KMIN in
  let D := nearest (x / p10 k) in
  if D =? 10 ^ P then (10 ^ (P - 1), k + 1) else (D, k).
Definition zero_char : byte := z2b 48.
Fixpoint strip_front (s : bytes) : bytes :=
  match s with b :: s' => if beqb b zero_char then strip_front s' else s | [] => [] end.
Definition strip (s : bytes) : bytes := rev (strip_front (rev s)).
Definition with_point (i fr : bytes) : bytes := match fr with [] => i | _ => i ++ [point] ++ fr end.
Definition exponent_text (X : Z) : bytes :=
  (if X <? 0 then bs "-" else bs "+") ++ (if Z.abs X <? 10 then bs "0" else []) ++ to_decimal (Z.abs X).
(** [%.Pg] of a number that is not zero: the style is chosen by the exponent of its
    first digit. *)
Definition format_g (P : Z) (x : Z * Z) : bytes :=
  let (D, k) := x in
  let ds := to_decimal D in
  let X := k + P - 1 in
  if (-4 <=? X) && (X <? P) then
    if 0 <=? X then with_point (take (Z.to_nat (X + 1)) ds) (strip (drop (Z.to_nat (X + 1)) ds))
    else with_point (bs "0") (strip (repeat zero_char (Z.to_nat (- X - 1)) ++ ds))
  else with_point (take 1 ds) (strip (drop 1 ds)) ++ bs "e" ++ exponent_text X.
Definition print_float (P : Z) (v : fp) : bytes :=
  match v with
  | Finite neg m e =>
      (if neg then bs "-" else []) ++
      (if m =? 0 then bs "0" else format_g P (decimal P (inject_Z m * p2 e)))
  | Infinity neg => (if neg then bs "-" else []) ++ bs "inf"
  | NaN neg => (if neg then bs "-" else []) ++ bs "nan"
  end.
(** [XMLUtil::ToStr]. *)
Definition ToStr_float (v : fp) : bytes := print_float 8 v.
Definition ToStr_double (v : fp) : bytes := print_float 17 v.

(** A tenth, the smallest and the largest number, ... *)
Example print_runs :
  map ToStr_double [Finite false 7205759403792794 (-56); Finite false 1 (-1074); Finite true (2 ^ 53 - 1) 971;
                    Finite false (2 ^ 52) (-52); Finite false 4722366482869645 20] =
  [bs "0.10000000000000001"; bs "4.9406564584124654e-324"; bs "-1.7976931348623157e+308";
   bs "1"; bs "4.9517601571415209e+21"].
Proof. vm_compute. reflexivity. Qed.
Example scan_runs :
  map ToDouble [bs "0.10000000000000001"; bs " -1.5e3x"; bs "4.9406564584124654e-324"; bs "1e400"; bs "0x1.8p1";
                bs "1e"; bs "-Infinity"; bs "."] =
  [Some (Finite false 7205759403792794 (-56)); Some (Finite true 6597069766656000 (-42)); Some (Finite false 1 (-1074));
   Some (Infinity false); Some (Finite false 6755399441055744 (-51)); None; Some (Infinity true); None].
Proof. vm_compute. reflexivity. Qed.

(** ** Powers and rounding *)

Lemma p2_pos e : (0 < p2 e)%Q.
Proof. apply Qpower_0_lt. reflexivity. Qed.
Lemma p10_pos k : (0 < p10 k)%Q.
Proof. apply Qpower_0_lt. reflexivity. Qed.
Lemma p2_plus a n : 0 <= n -> (p2 (a + n) == p2 a * inject_Z (2 ^ n))%Q.
Proof. intros Hn. unfold p2. rewrite Qpower_plus by discriminate. by rewrite Zpower_Qpower. Qed.
Lemma p10_plus a n : 0 <= n -> (p10 (a + n) == p10 a * inject_Z (10 ^ n))%Q.
Proof. intros Hn. unfold p10. rewrite Qpower_plus by discriminate. by rewrite Zpower_Qpower. Qed.
Lemma p2_mono a b : a <= b -> (p2 a <= p2 b)%Q.
Proof. intros Hab. by apply Qpower_le_compat_l. Qed.
Lemma p10_mono a b : a <= b -> (p10 a <= p10 b)%Q.
Proof. intros Hab. by apply Qpower_le_compat_l. Qed.
Lemma Qlt_bool_true x y : Qlt_bool x y = true <-> (x < y)%Q.
Proof.
  unfold Qlt_bool. rewrite negb_true_iff, <-not_true_iff_false, Qle_bool_iff. split; [apply Qnot_le_lt|]. intros Hxy Hyx. lra.
Qed.
Lemma Qlt_bool_false x y : Qlt_bool x y = false <-> (y <= x)%Q.
Proof. unfold Qlt_bool. by rewrite negb_false_iff, Qle_bool_iff. Qed.
Lemma Z_of_Q_lt a b : (inject_Z a < inject_Z b + 1)%Q -> a <= b.
Proof. intros Hab. assert (a < b + 1); [|lia]. rewrite Zlt_Qlt, inject_Z_plus. exact Hab. Qed.

Lemma nearest_cases q : let n := Qfloor q in (inject_Z n <= q < inject_Z n + 1)%Q /\
  (nearest q = n /\ (q <= inject_Z n + (1 # 2))%Q \/ nearest q = n + 1 /\ (inject_Z n + (1 # 2) <= q)%Q).
Proof.
  intros n. pose proof (Qfloor_le q) as H1. pose proof (Qlt_floor q) as H2. rewrite inject_Z_plus in H2. fold n in H1, H2.
  split; [split; [done|exact H2]|]. unfold nearest. fold n. destruct (Qcompare (q - inject_Z n) (1 # 2)) eqn:E.
  - apply Qeq_alt in E. destruct (Z.even n); [left|right]; (split; [done|lra]).
  - apply Qlt_alt in E. left. split; [done|lra].
  - apply Qgt_alt in E. right. split; [done|lra].
Qed.
Lemma nearest_bounds q : (q - (1 # 2) <= inject_Z (nearest q) <= q + (1 # 2))%Q.
Proof.
  destruct (nearest_cases q) as [[H1 H2] [[-> H3]|[-> H3]]]; rewrite ?inject_Z_plus; change (inject_Z 1) with 1%Q; split; lra.
Qed.
Lemma nearest_near q n : (inject_Z n - (1 # 2) < q)%Q -> (q < inject_Z n + (1 # 2))%Q -> nearest q = n.
Proof.
  intros H1 H2. pose proof (nearest_bounds q) as [B1 B2]. apply Z.le_antisymm; apply Z_of_Q_lt; lra.
Qed.
Lemma nearest_ge q n : (inject_Z n <= q)%Q -> n <= nearest q.
Proof. intros Hq. pose proof (nearest_bounds q) as [B1 B2]. apply Z_of_Q_lt. lra. Qed.
Lemma nearest_le q n : (q <= inject_Z n)%Q -> nearest q <= n.
Proof. intros Hq. pose proof (nearest_bounds q) as [B1 B2]. apply Z_of_Q_lt. lra. Qed.

Lemma least_is p e : forall fuel from, from <= e -> e - from < Z.of_nat fuel -> p e = true ->
  (forall j, from <= j < e -> p j = false) -> least fuel p from = e.
Proof.
  induction fuel as [|fuel IH]; intros from Hle Hf Hp Hn; [lia|]. cbn [least].
  destruct (decide (from = e)) as [->|Hne]; [by rewrite Hp|]. rewrite Hn by lia. apply IH; [lia|lia|done|]. intros j Hj. apply Hn. lia.
Qed.
Lemma least_found p e : forall fuel from, from <= e -> e - from < Z.of_nat fuel -> p e = true ->
  let k := least fuel p from in from <= k <= e /\ p k = true /\ forall j, from <= j < k -> p j = false.
Proof.
  induction fuel as [|fuel IH]; intros from Hle Hf Hp; [lia|]. cbn [least]. destruct (p from) eqn:Ef.
  - cbn zeta. split; [lia|]. split; [done|]. lia.
  - assert (from <> e) by congruence. destruct (IH (from + 1) ltac:(lia) ltac:(lia) Hp) as (H1 & H2 & H3). split; [lia|]. split; [done|].
    intros j Hj. destruct (decide (j = from)) as [->|]; [done|]. apply H3. lia.
Qed.

(** ** Reading back *)

(** A rational close enough to a value of the type is read as that value. *)
Lemma exponent_is f y e : emin f <= e <= emax f -> (y < p2 (e + prec f))%Q -> (e = emin f \/ (p2 (e - 1 + prec f) <= y)%Q) -> exponent f y = e.
Proof.
  intros He Hy Hl. apply least_is; [lia|lia|by apply Qlt_bool_true|]. intros j Hj. apply Qlt_bool_false.
  destruct Hl as [->|Hl]; [lia|]. eapply Qle_trans; [|exact Hl]. apply p2_mono. lia.
Qed.
Lemma Qdiv_near m y u d : (0 < u)%Q -> (inject_Z m * u - d * u < y)%Q -> (y < inject_Z m * u + d * u)%Q ->
  (inject_Z m - d < y / u)%Q /\ (y / u < inject_Z m + d)%Q.
Proof. intros Hu H1 H2. split; [apply Qlt_shift_div_l; [done|lra]|apply Qlt_shift_div_r; [done|lra]]. Qed.

Lemma round_to_value f neg m e y t :
  is_value f (Finite neg m e) -> 0 < m -> 1 < prec f ->
  (inject_Z m * p2 e - t * (1 # 2) <= y)%Q -> (y <= inject_Z m * p2 e + t * (1 # 2))%Q ->
  (t < p2 e)%Q -> (m = 2 ^ (prec f - 1) -> (2 * t < p2 e)%Q) -> round_to f neg y = Finite neg m e.
Proof.
  intros ([Hm0 Hm] & He & Hn) Hmp Hp Hy1 Hy2 Ht Ht2. pose proof (p2_pos e) as Hu. set (u := p2 e) in *.
  set (A := 2 ^ (prec f - 1)) in *. assert (2 ^ prec f = 2 * A) as EA.
  { unfold A. rewrite <-Z.pow_succ_r by lia. f_equal. lia. }
  assert (1 <= A) as HA by (unfold A; apply Z.lt_pred_le, Z.pow_pos_nonneg; lia). rewrite EA in *.
  pose proof (p2_plus e (prec f) ltac:(lia)) as E1. rewrite EA, inject_Z_mult in E1. fold u in E1.
  assert (p2 (e - 1 + prec f) == u * inject_Z A)%Q as E2.
  { replace (e - 1 + prec f) with (e + (prec f - 1)) by lia. by rewrite p2_plus by lia. }
  assert (u == p2 (e - 1) * 2)%Q as E3 by (unfold u; replace e with (e - 1 + 1) at 1 by lia; by rewrite p2_plus by lia).
  change (inject_Z 2) with 2%Q in E1.
  assert ((inject_Z m + 1) * u <= 2 * inject_Z A * u)%Q as Hmu.
  { apply Qmult_le_compat_r; [|lra]. change (2 * inject_Z A)%Q with (inject_Z 2 * inject_Z A)%Q. rewrite <-inject_Z_mult.
    change 1%Q with (inject_Z 1). rewrite <-inject_Z_plus, <-Zle_Qle. lia. }
  assert (1 * u <= inject_Z A * u)%Q as HAu by (apply Qmult_le_compat_r; [change 1%Q with (inject_Z 1); rewrite <-Zle_Qle; lia|lra]).
  unfold round_to. rewrite EA.
  destruct (Qlt_le_dec y (p2 (e - 1 + prec f))) as [Hlow|Hlow].
  - destruct (decide (e = emin f)) as [Hmin|Hmin].
    + rewrite (exponent_is f y e) by (done || lra || by left). fold u.
      destruct (Qdiv_near m y u (1 # 2) Hu) as [N1 N2]; [lra|lra|]. rewrite (nearest_near _ m) by done.
      rewrite (proj2 (Z.eqb_neq m (2 * A))) by lia. by rewrite (proj2 (Z.ltb_ge (emax f) e)) by lia.
    + assert (m = A) as ->.
      { destruct Hn as [Hn|]; [|done]. apply Z.le_antisymm; [|done]. apply Z_of_Q_lt.
        apply (Qmult_lt_r _ _ u Hu). rewrite E2 in Hlow. lra. }
      specialize (Ht2 eq_refl).
      assert (inject_Z A * u == 2 * (p2 (e - 1) * inject_Z A))%Q as E5 by (rewrite E3; ring).
      assert (p2 (e - 1 - 1 + prec f) == p2 (e - 1) * inject_Z A)%Q as E4.
      { replace (e - 1 - 1 + prec f) with (e - 1 + (prec f - 1)) by lia. by rewrite p2_plus by lia. }
      rewrite (exponent_is f y (e - 1)); [|lia|done|right; rewrite E4; lra].
      destruct (Qdiv_near (2 * A) y (p2 (e - 1)) (1 # 2) (p2_pos _)) as [N1 N2];
        [rewrite inject_Z_mult; change (inject_Z 2) with 2%Q; lra|rewrite inject_Z_mult; change (inject_Z 2) with 2%Q; lra|].
      rewrite (nearest_near _ (2 * A)) by done. rewrite Z.eqb_refl. replace (e - 1 + 1) with e by lia.
      by rewrite (proj2 (Z.ltb_ge (emax f) e)) by lia.
  - rewrite (exponent_is f y e) by (done || lra || by right). fold u.
    destruct (Qdiv_near m y u (1 # 2) Hu) as [N1 N2]; [lra|lra|]. rewrite (nearest_near _ m) by done.
    rewrite (proj2 (Z.eqb_neq m (2 * A))) by lia. by rewrite (proj2 (Z.ltb_ge (emax f) e)) by lia.
Qed.

(** ** Writing *)

(** The integer of [P] digits and the power of ten are within half a unit of the
    number; the unit [t] is small compared to it. *)
Definition close_decimal (P : Z) (x : Q) (d : Z * Z) : Prop :=
  10 ^ (P - 1) <= fst d < 10 ^ P /\ KMIN <= snd d <= KMAX /\
  exists t, (t * inject_Z (10 ^ (P - 1)) <= x)%Q /\
    (x - t * (1 # 2) <= inject_Z (fst d) * p10 (snd d))%Q /\ (inject_Z (fst d) * p10 (snd d) <= x + t * (1 # 2))%Q.
Lemma decimal_close P x :
  1 < P -> (p10 (KMIN + P - 1) <= x)%Q -> (x < p10 (KMAX - 1 + P))%Q -> close_decimal P x (decimal P x).
Proof.
  intros HP Hlo Hhi. unfold decimal. set (p := fun k => Qlt_bool x (p10 (k + P))).
  destruct (least_found p (KMAX - 1) (Z.to_nat (KMAX - KMIN)) KMIN) as (Hk & Hpk & Hbelow);
    [unfold KMIN, KMAX; lia|unfold KMIN, KMAX; lia|by apply Qlt_bool_true|].
  set (k := least _ p KMIN) in *. apply Qlt_bool_true in Hpk.
  assert (p10 (k + P - 1) <= x)%Q as Hlow.
  { destruct (decide (k = KMIN)) as [->|]; [done|]. specialize (Hbelow (k - 1) ltac:(lia)). apply Qlt_bool_false in Hbelow.
    by replace (k + P - 1) with (k - 1 + P) by lia. }
  pose proof (p10_pos k) as Ht. set (t := p10 k) in *. rewrite p10_plus in Hpk by lia.
  replace (k + P - 1) with (k + (P - 1)) in Hlow by lia. rewrite p10_plus in Hlow by lia. fold t in Hpk, Hlow.
  set (D := nearest (x / t)). pose proof (nearest_bounds (x / t)) as [B1 B2]. fold D in B1, B2.
  assert (x / t * t == x)%Q as Ex by (field; lra).
  assert ((x / t - (1 # 2)) * t <= inject_Z D * t)%Q as B1' by (apply Qmult_le_compat_r; lra).
  assert (inject_Z D * t <= (x / t + (1 # 2)) * t)%Q as B2' by (apply Qmult_le_compat_r; lra).
  assert (10 ^ (P - 1) <= D) as HD1 by (apply nearest_ge, Qle_shift_div_l; [done|lra]).
  assert (D <= 10 ^ P) as HD2 by (apply nearest_le, Qle_shift_div_r; [done|lra]).
  assert (10 ^ P = 10 * 10 ^ (P - 1)) as E10 by (rewrite <-Z.pow_succ_r by lia; f_equal; lia).
  assert (0 < 10 ^ (P - 1)) as Hpos by (apply Z.pow_pos_nonneg; lia).
  destruct (Z.eqb_spec D (10 ^ P)) as [ED|ED]; unfold close_decimal; cbn [fst snd].
  - split; [lia|]. split; [lia|]. exists t. split; [lra|].
    assert (inject_Z (10 ^ (P - 1)) * p10 (k + 1) == inject_Z D * t)%Q as ->; [|split; lra].
    rewrite ED, E10, inject_Z_mult, p10_plus by lia. change (10 ^ 1) with 10. fold t. ring.
  - split; [lia|]. split; [lia|]. exists t. fold t. split; [lra|]. split; lra.
Qed.

(** A type whose values are told apart by [P] digits. *)
Record fits (f : format) (P : Z) : Prop := {
  ft_P : 1 < P; ft_prec : 1 < prec f; ft_digits : 2 ^ prec f < 10 ^ (P - 1);
  ft_min : (p10 (KMIN + P - 1) <= p2 (emin f))%Q; ft_max : (p2 (emax f + prec f) <= p10 (KMAX - 1 + P))%Q }.
Lemma value_range f P m e : fits f P -> is_value f (Finite false m e) -> 0 < m ->
  (p10 (KMIN + P - 1) <= inject_Z m * p2 e)%Q /\ (inject_Z m * p2 e < p10 (KMAX - 1 + P))%Q.
Proof.
  intros [HP Hp _ Hmin Hmax] ([_ Hm] & He & _) Hpos. pose proof (p2_pos e) as Hu. split.
  - eapply Qle_trans; [exact Hmin|]. eapply Qle_trans; [apply (p2_mono _ e); lia|].
    assert (1 * p2 e <= inject_Z m * p2 e)%Q; [|lra]. apply Qmult_le_compat_r; [|lra]. change 1%Q with (inject_Z 1). rewrite <-Zle_Qle. lia.
  - eapply Qlt_le_trans; [|exact Hmax]. eapply Qlt_le_trans; [|apply (p2_mono (e + prec f)); lia]. rewrite p2_plus by lia.
    rewrite (Qmult_comm (p2 e)). apply Qmult_lt_compat_r; [done|]. by rewrite <-Zlt_Qlt.
Qed.
(** Enough digits: the nearest decimal is nearer to the value than to any other. *)
Lemma decimal_read_back f P neg m e : fits f P -> is_value f (Finite neg m e) -> 0 < m ->
  let d := decimal P (inject_Z m * p2 e) in close_decimal P (inject_Z m * p2 e) d /\
  round_to f neg (inject_Z (fst d) * p10 (snd d)) = Finite neg m e.
Proof.
  intros F V Hpos d. destruct (value_range f P m e F V Hpos) as [R1 R2]. pose proof (decimal_close P _ (ft_P _ _ F) R1 R2) as C.
  split; [exact C|]. fold d in C. destruct C as (_ & _ & t & Ht & H1 & H2). pose proof (p2_pos e) as Hu.
  destruct F as [HP Hp Hdig _ _]. pose proof V as ([_ Hm] & _).
  set (T := 10 ^ (P - 1)) in *. set (u := p2 e) in *.
  assert (0 < inject_Z T)%Q as HT by (change 0%Q with (inject_Z 0); rewrite <-Zlt_Qlt; pose proof (Z.pow_nonneg 2 (prec f)); lia).
  apply (round_to_value f neg m e _ t); [done|done|done|exact H1|exact H2| |]; fold u.
  - apply (Qmult_lt_r _ _ (inject_Z T) HT). eapply Qle_lt_trans; [exact Ht|]. rewrite (Qmult_comm u).
    apply Qmult_lt_compat_r; [done|]. rewrite <-Zlt_Qlt. lia.
  - intros Em. apply (Qmult_lt_r _ _ (inject_Z T) HT).
    assert (inject_Z (2 * m) * u < inject_Z T * u)%Q as Hlt.
    { apply Qmult_lt_compat_r; [done|]. rewrite <-Zlt_Qlt. assert (2 * m = 2 ^ prec f) as ->; [|done].
      rewrite Em, <-Z.pow_succ_r by lia. f_equal. lia. }
    rewrite inject_Z_mult in Hlt. change (inject_Z 2) with 2%Q in Hlt. lra.
Qed.

(** ** The text of a number *)

Lemma of_decimal_app l1 l2 : of_decimal (l1 ++ l2) = of_decimal l1 * 10 ^ zlen l2 + of_decimal l2.
Proof. unfold of_decimal, zlen. by rewrite map_app, undigits_app, length_map. Qed.
Lemma of_decimal_zeros n : of_decimal (repeat zero_char n) = 0.
Proof. unfold of_decimal. rewrite map_repeat. apply undigits_zeros. Qed.
Lemma to_decimal_exact D P : 1 <= P -> 10 ^ (P - 1) <= D < 10 ^ P -> zlen (to_decimal D) = P.
Proof.
  intros HP HD. assert (0 <= D) as H0 by (pose proof (Z.pow_nonneg 10 (P - 1)); lia). unfold to_decimal.
  rewrite (proj2 (Z.ltb_ge D 0)) by done. unfold zlen. rewrite length_map, (digits_exact 10 D (Z.to_nat (P - 1))); [lia|lia|].
  rewrite Z2Nat.id by lia. by replace (P - 1 + 1) with P by lia.
Qed.

Lemma strip_front_zeros s : exists n, s = repeat zero_char n ++ strip_front s.
Proof.
  induction s as [|b s (n & IH)]; [by exists O|]. cbn [strip_front]. destruct (beqb_spec b zero_char) as [->|]; [|by exists O].
  exists (S n). cbn [repeat app]. by rewrite <-IH.
Qed.
Lemma strip_zeros s : exists n, s = strip s ++ repeat zero_char n.
Proof.
  unfold strip. destruct (strip_front_zeros (rev s)) as (n & E). exists n. rewrite <-(rev_involutive s) at 1. rewrite E at 1.
  rewrite rev_app_distr. f_equal. apply rev_repeat.
Qed.

(** Digits, with a point and an exponent. *)
Definition all_digits (s : bytes) : Prop := Forall (fun b => isdigit b = true) s.
Lemma take_while_digits s t : all_digits s -> (forall b t', t = b :: t' -> isdigit b = false) -> take_while isdigit (s ++ t) = s.
Proof.
  intros Hs Ht. induction Hs as [|b s Hb _ IH]; cbn.
  - destruct t as [|b t]; [done|]. cbn. by rewrite (Ht b t).
  - by rewrite Hb, IH.
Qed.
Lemma take_digits_all s : all_digits s -> take_digits s = s.
Proof. induction 1 as [|b s Hb _ IH]; [done|]. cbn. by rewrite Hb, IH. Qed.
Lemma exponent_scans X : let e := exponent_text X in
  exists neg ds, scan_sign e = (neg, ds) /\ take_digits ds = ds /\ ds <> [] /\ (if neg then - of_decimal ds else of_decimal ds) = X.
Proof.
  unfold exponent_text. set (ds := (if Z.abs X <? 10 then bs "0" else []) ++ to_decimal (Z.abs X)).
  assert (all_digits ds) as Hd.
  { apply Forall_app. split; [|apply to_decimal_digits; lia]. destruct (_ <? 10); [by repeat constructor|constructor]. }
  assert (of_decimal ds = Z.abs X) as E.
  { unfold ds. rewrite of_decimal_app, of_to_decimal by lia. destruct (Z.abs X <? 10); [|done].
    change (of_decimal (bs "0")) with 0. lia. }
  assert (ds <> []) as Hne.
  { unfold ds, to_decimal. rewrite (proj2 (Z.ltb_ge (Z.abs X) 0)) by lia. pose proof (digits_length 10 (Z.abs X)) as Hl.
    intros [_ Hz]%app_eq_nil. apply map_eq_nil in Hz. rewrite Hz in Hl. cbn in Hl. lia. }
  destruct (Z.ltb_spec X 0).
  - exists true, ds. do 3 (split; [done || by apply take_digits_all|]). lia.
  - exists false, ds. do 3 (split; [done || by apply take_digits_all|]). lia.
Qed.
Lemma scan_digits i fr tail ex :
  all_digits i -> all_digits fr -> i <> [] -> (tail = [] /\ ex = 0 \/ tail = bs "e" ++ exponent_text ex) ->
  scan_number isdigit (z2b 101) (with_point i fr ++ tail) = Some (i, fr, ex).
Proof.
  intros Hi Hfr Hne Ht.
  assert (forall b t', tail = b :: t' -> isdigit b = false /\ beqb b point = false) as Hstop.
  { intros b t' ->. destruct Ht as [[? _]|Ht]; [done|]. injection Ht as -> _. by vm_compute. }
  assert (match tail with b :: s' => if beqb (tolower b) (z2b 101) then let (neg, s') := scan_sign s' in
      match take_digits s' with [] => None | ds => Some (i, fr, if neg then - of_decimal ds else of_decimal ds) end
      else Some (i, fr, 0) | [] => Some (i, fr, 0) end = Some (i, fr, ex)) as Htail.
  { destruct Ht as [[-> ->]| ->]; [done|]. destruct (exponent_scans ex) as (neg & ds & Es & Ed & Hds & Hex).
    change (bs "e" ++ exponent_text ex) with (z2b 101 :: exponent_text ex). cbv beta iota.
    change (beqb (tolower (z2b 101)) (z2b 101)) with true. cbv beta iota. rewrite Es. cbv beta iota. rewrite Ed.
    destruct ds; [done|].
    cbv zeta. by rewrite Hex. }
  assert (i ++ fr <> []) as Hif by (by intros [? _]%app_eq_nil).
  unfold scan_number, with_point. cbv zeta in *. destruct fr as [|c fr].
  - rewrite take_while_digits by (done || by intros b t' E; destruct (Hstop b t' E)). rewrite drop_app_length.
    assert (match tail with b :: s' => if beqb b point then (take_while isdigit s', drop (length (take_while isdigit s')) s') else ([], tail)
      | [] => ([], tail) end = ([], tail)) as ->; [|by destruct (i ++ [])].
    destruct tail as [|b t']; [done|]. by rewrite (proj2 (Hstop b t' eq_refl)).
  - rewrite <-app_assoc. rewrite take_while_digits; [|done|by intros b t' [= <- _]]. rewrite drop_app_length. cbn [app].
    change (beqb point point) with true. cbv beta iota zeta.
    change (c :: fr ++ tail) with ((c :: fr) ++ tail). rewrite take_while_digits by (done || by intros b t' E; destruct (Hstop b t' E)).
    rewrite drop_app_length. by destruct (i ++ c :: fr).
Qed.
(** The value, whatever zeros have been left out. *)
Lemma stripped_value i s k ex D :
  of_decimal (i ++ s) = D -> ex - zlen s = k -> (decimal_value (i, strip s, ex) == inject_Z D * p10 k)%Q.
Proof.
  intros HD Hk. destruct (strip_zeros s) as (n & Es). cbn [decimal_value]. rewrite Es in HD, Hk. rewrite app_assoc, of_decimal_app, of_decimal_zeros in HD.
  assert (zlen (repeat zero_char n) = Z.of_nat n) as En by (unfold zlen; by rewrite repeat_length). rewrite zlen_app, En in Hk. rewrite En in HD.
  replace (ex - zlen (strip s)) with (k + Z.of_nat n) by lia. rewrite p10_plus, <-HD, Z.add_0_r, inject_Z_mult by lia. ring.
Qed.

(** The three styles of [%.Pg], as digits around a point and an exponent. *)
Record shape (P : Z) (D k : Z) (i fr tail : bytes) (ex : Z) : Prop := {
  sh_int : all_digits i /\ i <> [];
  sh_frac : all_digits fr;
  sh_tail : tail = [] /\ ex = 0 \/ tail = bs "e" ++ exponent_text ex;
  sh_value : of_decimal (i ++ fr) = D;
  sh_scale : ex - zlen fr = k;
  sh_length : zlen i + zlen fr <= P + 5 }.
Lemma format_shape P D k : 1 < P -> 10 ^ (P - 1) <= D < 10 ^ P ->
  exists i fr tail ex, format_g P (D, k) = with_point i (strip fr) ++ tail /\ shape P D k i fr tail ex /\ (ex = 0 \/ ex = k + P - 1).
Proof.
  intros HP HD. unfold format_g. pose proof (to_decimal_exact D P ltac:(lia) HD) as Hl.
  assert (0 <= D) as H0 by (pose proof (Z.pow_nonneg 10 (P - 1)); lia).
  pose proof (to_decimal_digits D H0) as Hd. pose proof (of_to_decimal D H0) as Hv. set (ds := to_decimal D) in *.
  assert (forall n, (0 < n <= length ds)%nat -> all_digits (take n ds) /\ take n ds <> [] /\ all_digits (drop n ds) /\
    zlen (take n ds) = Z.of_nat n /\ zlen (drop n ds) = P - Z.of_nat n) as Hcut.
  { intros n Hn. unfold zlen in *. rewrite length_take, length_drop. split; [by apply Forall_take|]. split; [|split; [by apply Forall_drop|lia]].
    destruct n; [lia|]. destruct ds; [cbn in Hn; lia|done]. }
  assert (Z.of_nat (length ds) = P) as Hlen by done.
  destruct ((-4 <=? k + P - 1) && (k + P - 1 <? P)) eqn:Estyle.
  - apply andb_prop in Estyle as [E1%Z.leb_le E2%Z.ltb_lt]. destruct (Z.leb_spec 0 (k + P - 1)) as [E|E].
    + set (n := Z.to_nat (k + P - 1 + 1)). destruct (Hcut n) as (C1 & C2 & C3 & C4 & C5); [unfold n; lia|].
      exists (take n ds), (drop n ds), [], 0. rewrite app_nil_r. split; [done|]. split; [|by left].
      split; [done|done|by left|by rewrite take_drop| |]; rewrite ?C4, C5; unfold n; lia.
    + set (n := Z.to_nat (- (k + P - 1) - 1)). exists (bs "0"), (repeat zero_char n ++ ds), [], 0. rewrite app_nil_r. split; [done|].
      assert (zlen (repeat zero_char n) = Z.of_nat n) as En by (unfold zlen; by rewrite repeat_length).
      split; [|by left]. split.
      * split; [by repeat constructor|done].
      * apply Forall_app. split; [|done]. clear. induction n; by constructor.
      * by left.
      * change (bs "0" ++ repeat zero_char n ++ ds) with (repeat zero_char (S n) ++ ds). by rewrite of_decimal_app, of_decimal_zeros, Hv.
      * rewrite zlen_app, En, Hl. unfold n. lia.
      * rewrite zlen_app, En, Hl. change (zlen (bs "0")) with 1. unfold n. lia.
  - destruct (Hcut 1%nat) as (C1 & C2 & C3 & C4 & C5); [lia|].
    exists (take 1 ds), (drop 1 ds), (bs "e" ++ exponent_text (k + P - 1)), (k + P - 1). split; [done|]. split; [|by right].
    split; [done|done|by right|by rewrite take_drop| |]; rewrite ?C4, C5; lia.
Qed.

(** The characters of a number. *)
Definition plain_char (b : byte) : Prop := isdigit b = true \/ b ∈ [point; z2b 101; z2b 43; z2b 45].
Lemma all_digits_strip s : all_digits s -> all_digits (strip s).
Proof. intros Hs. destruct (strip_zeros s) as (n & E). rewrite E in Hs. by apply Forall_app in Hs as [? _]. Qed.
Lemma zlen_strip s : zlen (strip s) <= zlen s.
Proof. destruct (strip_zeros s) as (n & E). rewrite E at 2. rewrite zlen_app. pose proof (zlen_nonneg (repeat zero_char n)). lia. Qed.
Lemma exponent_text_facts X : Forall plain_char (exponent_text X) /\ (- 1000 <= X <= 1000 -> zlen (exponent_text X) <= 70).
Proof.
  unfold exponent_text. split.
  - apply Forall_app. split; [destruct (X <? 0); repeat constructor; right; set_solver|]. apply Forall_app. split.
    + destruct (_ <? 10); repeat constructor.
    + eapply Forall_impl; [apply to_decimal_digits; lia|]. intros b Hb. by left.
  - intros HX. rewrite !zlen_app. assert (zlen (to_decimal (Z.abs X)) <= 65) as Hl.
    { unfold to_decimal, zlen. rewrite (proj2 (Z.ltb_ge _ 0)) by lia. rewrite length_map. pose proof (digits_length 10 (Z.abs X)) as [_ Hd].
      assert (Z.log2 (Z.abs X) <= 10); [|lia]. change 10 with (Z.log2 1024). apply Z.log2_le_mono. lia. }
    destruct (X <? 0), (Z.abs X <? 10); cbn [app]; change (zlen (bs "-")) with 1; change (zlen (bs "+")) with 1;
      change (zlen (bs "0")) with 1; change (zlen (@nil byte)) with 0; lia.
Qed.
Lemma plain_facts b : plain_char b -> b <> nul /\ tolower b <> z2b 105 /\ tolower b <> z2b 110 /\ tolower b <> z2b 120.
Proof.
  assert (forall b, 43 <= b2z b <= 57 \/ b2z b = 101 -> b <> nul /\ tolower b <> z2b 105 /\ tolower b <> z2b 110 /\ tolower b <> z2b 120) as Hb.
  { clear b. intros b Hb. assert (tolower b = b) as ->.
    { unfold tolower. destruct (Z.leb_spec 65 (b2z b)), (Z.leb_spec (b2z b) 90); cbn; try done; lia. }
    repeat split; intros ->; vm_compute in Hb; destruct Hb as [[? ?]|?]; congruence. }
  intros [Hd|Hin].
  - apply Hb. left. unfold isdigit in Hd. apply andb_prop in Hd as [?%Z.leb_le ?%Z.leb_le]. lia.
  - rewrite !elem_of_cons in Hin. destruct Hin as [-> | [-> | [-> | [-> | Hin]]]]; [apply Hb; vm_compute; auto; left; split; discriminate..|].
    by apply not_elem_of_nil in Hin.
Qed.
Lemma plain_word s c w : Forall plain_char s -> (c = z2b 105 \/ c = z2b 110) -> starts_nocase (c :: w) s = false.
Proof.
  intros Hs Hc. unfold starts_nocase. destruct s as [|b s]; [done|]. apply Forall_cons in Hs as [Hb _]. cbn.
  destruct (plain_facts b Hb) as (_ & H1 & H2 & _). destruct (beqb_spec c (tolower b)) as [->|]; [|done]. by destruct Hc.
Qed.
Lemma plain_hex s : Forall plain_char s -> starts_nocase (bs "0x") s = false.
Proof.
  intros Hs. unfold starts_nocase. change (bs "0x") with [z2b 48; z2b 120].
  destruct s as [|b [|c s]]; [done|cbn -[beqb]; by rewrite andb_false_r|].
  apply Forall_cons in Hs as [_ Hs]. apply Forall_cons in Hs as [Hc _]. destruct (plain_facts c Hc) as (_ & _ & _ & Hx).
  cbn -[beqb z2b]. destruct (beqb_spec (z2b 120) (tolower c)); [by destruct Hx|]. by rewrite andb_false_r.
Qed.

(** ** Written and read back *)

Lemma nearest_comp x y : (x == y)%Q -> nearest x = nearest y.
Proof. intros E. unfold nearest. rewrite (Qfloor_comp _ _ E). by rewrite E. Qed.
Lemma least_ext p q : (forall k, p k = q k) -> forall fuel from, least fuel p from = least fuel q from.
Proof. intros E. induction fuel as [|fuel IH]; intros from; cbn; [done|]. by rewrite E, IH. Qed.
Lemma round_to_comp f neg x y : (x == y)%Q -> round_to f neg x = round_to f neg y.
Proof.
  intros E. unfold round_to. assert (exponent f x = exponent f y) as ->.
  { apply least_ext. intros k. unfold Qlt_bool. by rewrite E. }
  by rewrite (nearest_comp (x / p2 (exponent f y)) (y / p2 (exponent f y))) by (by rewrite E).
Qed.

(** A text that starts with a digit, behind an optional minus. *)
Lemma scan_sign_digit neg b s : isdigit b = true ->
  scan_sign (drop_spaces ((if neg : bool then bs "-" else []) ++ b :: s)) = (neg, b :: s).
Proof.
  intros Hb. destruct neg; [done|]. cbn [app]. unfold isdigit in Hb. apply andb_prop in Hb as [H1%Z.leb_le H2%Z.leb_le].
  assert (isspace b = false) as Hs by (unfold isspace; rewrite orb_false_iff, andb_false_iff, Z.eqb_neq, !Z.leb_gt; lia).
  cbn [drop_spaces scan_sign]. rewrite Hs. cbn [scan_sign].
  by rewrite (proj2 (Z.eqb_neq (b2z b) 45)), (proj2 (Z.eqb_neq (b2z b) 43)) by lia.
Qed.
Lemma scan_plain f neg b s x : isdigit b = true -> Forall plain_char (b :: s) ->
  scan_number isdigit (z2b 101) (b :: s) = Some x ->
  scan_float f ((if neg : bool then bs "-" else []) ++ b :: s) = Some (round_to f neg (decimal_value x)).
Proof.
  intros Hb Hs Hx. unfold scan_float. rewrite scan_sign_digit by done.
  pose proof (plain_word (b :: s) (z2b 110) (bs "an") Hs ltac:(by right)) as Hnan. change (z2b 110 :: bs "an") with (bs "nan") in Hnan.
  pose proof (plain_word (b :: s) (z2b 105) (bs "nf") Hs ltac:(by left)) as Hinf. change (z2b 105 :: bs "nf") with (bs "inf") in Hinf.
  by rewrite Hnan, Hinf, plain_hex, Hx.
Qed.

(** The text of a number that is not zero. *)
Lemma format_text P D k : 1 < P -> P <= 20 -> KMIN <= k <= KMAX -> 10 ^ (P - 1) <= D < 10 ^ P ->
  exists b s x, format_g P (D, k) = b :: s /\ isdigit b = true /\ Forall plain_char (b :: s) /\ zlen (b :: s) <= 130 /\
    scan_number isdigit (z2b 101) (b :: s) = Some x /\ (decimal_value x == inject_Z D * p10 k)%Q.
Proof.
  intros HP HP2 Hk HD. destruct (format_shape P D k HP HD) as (i & fr & tail & ex & -> & [[Hi Hne] Hfr Ht Hv Hs Hl] & Hex).
  pose proof (all_digits_strip fr Hfr) as Hfr'.
  pose proof (scan_digits i (strip fr) tail ex Hi Hfr' Hne Ht) as Hscan.
  assert (Forall plain_char (with_point i (strip fr) ++ tail) /\ zlen (with_point i (strip fr) ++ tail) <= 130) as [Hpl Hlen].
  { assert (forall l, all_digits l -> Forall plain_char l) as Hdig by (intros l Hl'; eapply Forall_impl; [exact Hl'|]; intros b Hb; by left).
    destruct (exponent_text_facts ex) as [He1 He2]. unfold KMIN, KMAX in Hk.
    assert (Forall plain_char tail /\ zlen tail <= 71) as [Ht1 Ht2].
    { destruct Ht as [[-> _]| ->]; [split; [constructor|unfold zlen; cbn; lia]|]. split; [constructor; [right; set_solver|done]|].
      rewrite zlen_app. specialize (He2 ltac:(lia)). change (zlen (bs "e")) with 1. lia. }
    pose proof (zlen_strip fr) as Hz. unfold with_point. destruct (strip fr) as [|c r] eqn:E.
    - rewrite zlen_app. split; [apply Forall_app; auto|]. pose proof (zlen_nonneg fr). lia.
    - rewrite !zlen_app. change (zlen [point]) with 1. split; [|lia]. apply Forall_app. split; [|done].
      apply Forall_app. split; [auto|]. constructor; [right; set_solver|auto]. }
  destruct i as [|b i]; [done|]. assert (isdigit b = true) as Hb by (by apply Forall_cons in Hi as [? _]).
  assert (exists s, with_point (b :: i) (strip fr) ++ tail = b :: s) as (s & Es).
  { unfold with_point. destruct (strip fr); by eexists. }
  rewrite Es in *. exists b, s, (b :: i, strip fr, ex). do 5 (split; [done|]). by apply (stripped_value (b :: i) fr k ex D).
Qed.

Lemma print_read_back f P v : fits f P -> P <= 20 -> emin f <= emax f -> is_value f v ->
  scan_float f (print_float P v) = Some v /\ no_nul (print_float P v) /\ zlen (print_float P v) <= 199.
Proof.
  intros F HP He Hv. destruct v as [neg m e|neg|neg]; [|by destruct neg; split_and!; repeat constructor..].
  assert (forall b s, Forall plain_char (b :: s) -> zlen (b :: s) <= 130 -> no_nul ((if neg then bs "-" else []) ++ b :: s) /\
    zlen ((if neg then bs "-" else []) ++ b :: s) <= 199) as Hok.
  { intros b s Hs Hl. split.
    - apply Forall_app. split; [by destruct neg; repeat constructor|]. eapply Forall_impl; [exact Hs|]. intros c Hc. apply plain_facts, Hc.
    - rewrite zlen_app. destruct neg; [change (zlen (bs "-")) with 1|change (zlen (@nil byte)) with 0]; lia. }
  cbn [print_float]. destruct (Z.eqb_spec m 0) as [->|Hm].
  - change (bs "0") with [zero_char]. split; [|apply Hok; [repeat constructor|done]].
    rewrite (scan_plain f neg zero_char [] ([zero_char], [], 0)) by (first [done|by repeat constructor]).
    destruct Hv as (_ & Hem & [Hbad| ->]); [pose proof (Z.pow_pos_nonneg 2 (prec f - 1)); destruct F; lia|].
    f_equal. rewrite (round_to_comp f neg _ 0) by reflexivity.
    unfold round_to. rewrite (exponent_is f 0 (emin f)); [|lia|apply p2_pos|by left].
    rewrite (nearest_near _ 0).
    + rewrite (proj2 (Z.eqb_neq 0 (2 ^ prec f))) by (pose proof (Z.pow_pos_nonneg 2 (prec f)); destruct F; lia).
      by rewrite (proj2 (Z.ltb_ge (emax f) (emin f))).
    + unfold Qdiv. rewrite Qmult_0_l. reflexivity.
    + unfold Qdiv. rewrite Qmult_0_l. reflexivity.
  - destruct (decimal_read_back f P neg m e F Hv ltac:(destruct Hv; lia)) as [(HD & Hk & _) Hr].
    destruct (decimal P (inject_Z m * p2 e)) as [D k]. cbn [fst snd] in *.
    destruct (format_text P D k (ft_P _ _ F) HP Hk HD) as (b & s & x & -> & Hb & Hpl & Hlen & Hx & Hval).
    split; [|by apply Hok]. rewrite (scan_plain f neg b s x) by done. by rewrite (round_to_comp f neg _ _ Hval), Hr.
Qed.

(** Seventeen digits are enough for a [double]; for a [float] nine are. *)
Lemma double_fits : fits double_format 17.
Proof. split; [done|done|done|apply Qle_bool_iff; by vm_compute..]. Qed.
Lemma float_fits : fits float_format 9.
Proof. split; [done|done|done|apply Qle_bool_iff; by vm_compute..]. Qed.

End Floats.
