(* ===== verification/XmlParse.v ===== *)
(** * The XML parser: tinyxml2.cpp, XMLDocument, XMLNode, XMLElement, XMLAttribute

    The recursive-descent parser, over the text of the buffer up to its NUL.  A
    position is the rest of the text; a null pointer is [None].  The document's
    own fields (error, line, depth) are threaded as a record; the nodes are the
    tree they build.  [XMLNode::ParseDeep] calls itself once per level and loops
    over the nodes of a level: both are bounded by the length of the text, which
    [Parse_terminates] shows. *)

From S2P Require Import Prelude CStd XmlStr.

Module XMLDocument.
Import XMLUtil StrPair.

Inductive XMLError :=
| XML_SUCCESS
| XML_NO_ATTRIBUTE
| XML_WRONG_ATTRIBUTE_TYPE
| XML_ERROR_FILE_NOT_FOUND
| XML_ERROR_FILE_COULD_NOT_BE_OPENED
| XML_ERROR_FILE_READ_ERROR
| UNUSED_XML_ERROR_ELEMENT_MISMATCH
| XML_ERROR_PARSING_ELEMENT
| XML_ERROR_PARSING_ATTRIBUTE
| UNUSED_XML_ERROR_IDENTIFYING_TAG
| XML_ERROR_PARSING_TEXT
| XML_ERROR_PARSING_CDATA
| XML_ERROR_PARSING_COMMENT
| XML_ERROR_PARSING_DECLARATION
| XML_ERROR_PARSING_UNKNOWN
| XML_ERROR_EMPTY_DOCUMENT
| XML_ERROR_MISMATCHED_ELEMENT
| XML_ERROR_PARSING
| XML_CAN_NOT_CONVERT_TEXT
| XML_NO_TEXT_NODE
| XML_ELEMENT_DEPTH_EXCEEDED.

#[export] Instance XMLError_eq_dec : EqDecision XMLError.
Proof. solve_decision. Defined.

(** The number of an error and its name: [XMLDocument::_errorNames] and
    [ErrorIDToName]. *)
Definition XMLError_id (e : XMLError) : Z :=
  match e with
  | XML_SUCCESS => 0 | XML_NO_ATTRIBUTE => 1 | XML_WRONG_ATTRIBUTE_TYPE => 2
  | XML_ERROR_FILE_NOT_FOUND => 3 | XML_ERROR_FILE_COULD_NOT_BE_OPENED => 4
  | XML_ERROR_FILE_READ_ERROR => 5 | UNUSED_XML_ERROR_ELEMENT_MISMATCH => 6
  | XML_ERROR_PARSING_ELEMENT => 7 | XML_ERROR_PARSING_ATTRIBUTE => 8
  | UNUSED_XML_ERROR_IDENTIFYING_TAG => 9 | XML_ERROR_PARSING_TEXT => 10
  | XML_ERROR_PARSING_CDATA => 11 | XML_ERROR_PARSING_COMMENT => 12
  | XML_ERROR_PARSING_DECLARATION => 13 | XML_ERROR_PARSING_UNKNOWN => 14
  | XML_ERROR_EMPTY_DOCUMENT => 15 | XML_ERROR_MISMATCHED_ELEMENT => 16
  | XML_ERROR_PARSING => 17 | XML_CAN_NOT_CONVERT_TEXT => 18 | XML_NO_TEXT_NODE => 19
  | XML_ELEMENT_DEPTH_EXCEEDED => 20
  end.
Definition errorNames : list string :=
  [ "XML_SUCCESS"; "XML_NO_ATTRIBUTE"; "XML_WRONG_ATTRIBUTE_TYPE"; "XML_ERROR_FILE_NOT_FOUND";
    "XML_ERROR_FILE_COULD_NOT_BE_OPENED"; "XML_ERROR_FILE_READ_ERROR";
    "UNUSED_XML_ERROR_ELEMENT_MISMATCH"; "XML_ERROR_PARSING_ELEMENT"; "XML_ERROR_PARSING_ATTRIBUTE";
    "UNUSED_XML_ERROR_IDENTIFYING_TAG"; "XML_ERROR_PARSING_TEXT"; "XML_ERROR_PARSING_CDATA";
    "XML_ERROR_PARSING_COMMENT"; "XML_ERROR_PARSING_DECLARATION"; "XML_ERROR_PARSING_UNKNOWN";
    "XML_ERROR_EMPTY_DOCUMENT"; "XML_ERROR_MISMATCHED_ELEMENT"; "XML_ERROR_PARSING";
    "XML_CAN_NOT_CONVERT_TEXT"; "XML_NO_TEXT_NODE"; "XML_ELEMENT_DEPTH_EXCEEDED" ]%string.
Definition ErrorIDToName (e : XMLError) : bytes :=
  bs (default EmptyString (errorNames !! Z.to_nat (XMLError_id e))).

(** ** Nodes *)

Record attribute := mk_attribute { a_name : StrPair.t; a_value : StrPair.t; a_line : Z }.
Inductive ElementClosingType := OPEN | CLOSED | CLOSING.
Inductive node :=
| XMLElement (value : StrPair.t) (attributes : list attribute) (closingType : ElementClosingType)
    (children : list node) (parseLineNum : Z)
| XMLText (value : StrPair.t) (isCData : bool) (parseLineNum : Z)
| XMLComment (value : StrPair.t) (parseLineNum : Z)
| XMLDeclaration (value : StrPair.t) (parseLineNum : Z)
| XMLUnknown (value : StrPair.t) (parseLineNum : Z).

(** The text of a pair whose range is set; the nodes of a document have no
    other pair ([parsed_values]). *)
Definition c_str (s : StrPair.t) : bytes := match GetStr s with Ret b => b | _ => [] end.

Definition node_value (n : node) : StrPair.t :=
  match n with
  | XMLElement v _ _ _ _ => v | XMLText v _ _ => v | XMLComment v _ => v
  | XMLDeclaration v _ => v | XMLUnknown v _ => v
  end.
(** [XMLNode::Value] of a node that is not the document. *)
Definition Value (n : node) : bytes := c_str (node_value n).
Definition ToDeclaration (n : node) : bool := match n with XMLDeclaration _ _ => true | _ => false end.
Definition ToElement (n : node) : bool := match n with XMLElement _ _ _ _ _ => true | _ => false end.
Definition ToText (n : node) : bool := match n with XMLText _ _ _ => true | _ => false end.

(** ** The document's fields *)

Record doc := mk_doc {
  processEntities : bool; collapseWhitespace : bool; writeBOM : bool;
  errorID : XMLError; errorLineNum : Z; errorStr : bytes;
  parseCurLineNum : Z; parsingDepth : Z; children : list node }.

Definition new_doc (processEntities collapse : bool) : doc :=
  mk_doc processEntities collapse false XML_SUCCESS 0 [] 0 0 [].
Definition set_line (d : doc) (line : Z) : doc :=
  mk_doc (processEntities d) (collapseWhitespace d) (writeBOM d) (errorID d) (errorLineNum d) (errorStr d)
    line (parsingDepth d) (children d).
Definition set_depth (d : doc) (depth : Z) : doc :=
  mk_doc (processEntities d) (collapseWhitespace d) (writeBOM d) (errorID d) (errorLineNum d) (errorStr d)
    (parseCurLineNum d) depth (children d).
Definition set_bom (d : doc) (bom : bool) : doc :=
  mk_doc (processEntities d) (collapseWhitespace d) bom (errorID d) (errorLineNum d) (errorStr d)
    (parseCurLineNum d) (parsingDepth d) (children d).
Definition set_children (d : doc) (children : list node) : doc :=
  mk_doc (processEntities d) (collapseWhitespace d) (writeBOM d) (errorID d) (errorLineNum d) (errorStr d)
    (parseCurLineNum d) (parsingDepth d) children.
Definition Error (d : doc) : bool := bool_decide (errorID d <> XML_SUCCESS).

(** [XMLDocument::SetError]: the text is cut to the 999 characters its buffer
    holds. *)
Definition BUFFER_SIZE : Z := 1000.
Definition error_text (e : XMLError) (lineNum : Z) (msg : option bytes) : bytes :=
  ztake (BUFFER_SIZE - 1)
    (bs "Error=" ++ ErrorIDToName e ++ bs " ErrorID=" ++ to_decimal (XMLError_id e) ++ bs " (0x" ++
     to_hex (XMLError_id e) ++ bs ") Line number=" ++ to_decimal lineNum ++
     match msg with Some m => bs ": " ++ m | None => [] end).
Definition SetError (d : doc) (e : XMLError) (lineNum : Z) (msg : option bytes) : doc :=
  mk_doc (processEntities d) (collapseWhitespace d) (writeBOM d) e lineNum (error_text e lineNum msg)
    (parseCurLineNum d) (parsingDepth d) (children d).
Definition ClearError (d : doc) : doc := SetError d XML_SUCCESS 0 None.
(** [XMLDocument::Clear]: the nodes, the error and the depth. *)
Definition Clear (d : doc) : doc := set_depth (ClearError (set_children d [])) 0.

(** [PushDepth] and [PopDepth], called by the constructor and the destructor of
    the [DepthTracker] of [XMLNode::ParseDeep]. *)
Definition TINYXML2_MAX_ELEMENT_DEPTH : Z := 100.
Definition PushDepth (d : doc) : doc :=
  let d := set_depth d (parsingDepth d + 1) in
  if parsingDepth d =? TINYXML2_MAX_ELEMENT_DEPTH
  then SetError d XML_ELEMENT_DEPTH_EXCEEDED (parseCurLineNum d) (Some (bs "Element nesting is too deep."))
  else d.
Definition PopDepth (d : doc) : doc := set_depth d (parsingDepth d - 1).

(** ** [XMLDocument::Identify] *)

Inductive fresh := FDeclaration | FComment | FText (cdata : bool) | FUnknown | FElement.

(** The node to parse and its line, the position after its header. *)
Definition Identify (d : doc) (p : bytes) : option (fresh * Z) * bytes * doc :=
  let (p', line') := SkipWhiteSpace p (parseCurLineNum d) in
  let d' := set_line d line' in
  match p' with
  | [] => (None, p', d')
  | _ =>
      if starts_with (bs "<?") p' then (Some (FDeclaration, line'), drop 2 p', d')
      else if starts_with (bs "<!--") p' then (Some (FComment, line'), drop 4 p', d')
      else if starts_with (bs "<![CDATA[") p' then (Some (FText true, line'), drop 9 p', d')
      else if starts_with (bs "<!") p' then (Some (FUnknown, line'), drop 2 p', d')
      else if starts_with (bs "<") p' then (Some (FElement, line'), drop 1 p', d')
      else (Some (FText false, line'), p, set_line d (parseCurLineNum d))
  end.

(** ** Leaves *)

(** What a [ParseDeep] produces: the document, the new position, the end tag
    handed to the parent and the node. *)
Definition result : Type := doc * option bytes * StrPair.t * node.

Definition parse_value (d : doc) (p endTag : bytes) (flags : Z) : doc * option (StrPair.t * bytes) :=
  let (r, line) := ParseText p endTag (parseCurLineNum d) in
  (set_line d line, match r with Some (range, rest) => Some (Set_ range flags, rest) | None => None end).

Definition XMLText_ParseDeep (cdata : bool) (line0 : Z) (d : doc) (p : bytes) : result :=
  if cdata then
    match parse_value d p (bs "]]>") NEEDS_NEWLINE_NORMALIZATION with
    | (d, Some (v, rest)) => (d, Some rest, StrPair.empty, XMLText v true line0)
    | (d, None) => (SetError d XML_ERROR_PARSING_CDATA line0 None, None, StrPair.empty, XMLText StrPair.empty true line0)
    end
  else
    let flags := if processEntities d then TEXT_ELEMENT else TEXT_ELEMENT_LEAVE_ENTITIES in
    let flags := if collapseWhitespace d then Z.lor flags NEEDS_WHITESPACE_COLLAPSING else flags in
    match parse_value d p (bs "<") flags with
    | (d, Some (v, [])) => (d, None, StrPair.empty, XMLText v false line0)
    | (d, Some (v, rest)) => (d, Some (bs "<" ++ rest), StrPair.empty, XMLText v false line0)
    | (d, None) => (SetError d XML_ERROR_PARSING_TEXT line0 None, None, StrPair.empty, XMLText StrPair.empty false line0)
    end.

Definition leaf_ParseDeep (endTag : bytes) (flags : Z) (error : XMLError) (make : StrPair.t -> node)
    (line0 : Z) (d : doc) (p : bytes) : result :=
  match parse_value d p endTag flags with
  | (d, Some (v, rest)) => (d, Some rest, StrPair.empty, make v)
  | (d, None) => (SetError d error line0 None, None, StrPair.empty, make StrPair.empty)
  end.
Definition XMLComment_ParseDeep (line0 : Z) : doc -> bytes -> result :=
  leaf_ParseDeep (bs "-->") COMMENT XML_ERROR_PARSING_COMMENT (fun v => XMLComment v line0) line0.
Definition XMLDeclaration_ParseDeep (line0 : Z) : doc -> bytes -> result :=
  leaf_ParseDeep (bs "?>") NEEDS_NEWLINE_NORMALIZATION XML_ERROR_PARSING_DECLARATION
    (fun v => XMLDeclaration v line0) line0.
Definition XMLUnknown_ParseDeep (line0 : Z) : doc -> bytes -> result :=
  leaf_ParseDeep (bs ">") NEEDS_NEWLINE_NORMALIZATION XML_ERROR_PARSING_UNKNOWN
    (fun v => XMLUnknown v line0) line0.

(** ** Attributes *)

(** [XMLAttribute::ParseDeep]: the name, the value and the position. *)
Definition quote : byte := z2b 34.
Definition apostrophe : byte := z2b 39.
Definition XMLAttribute_ParseDeep (d : doc) (p : bytes) : doc * option (StrPair.t * StrPair.t * bytes) :=
  match ParseName p with
  | None => (d, None)
  | Some (name, []) => (d, None)
  | Some (name, p) =>
      let (p, line) := SkipWhiteSpace p (parseCurLineNum d) in
      let d := set_line d line in
      match p with
      | eq :: p =>
          if b2z eq =? 61 then
            let (p, line) := SkipWhiteSpace p (parseCurLineNum d) in
            let d := set_line d line in
            match p with
            | q :: p =>
                if beqb q quote || beqb q apostrophe then
                  let flags := if processEntities d then ATTRIBUTE_VALUE else ATTRIBUTE_VALUE_LEAVE_ENTITIES in
                  match parse_value d p [q] flags with
                  | (d, Some (v, rest)) => (d, Some (Set_ name 0, v, rest))
                  | (d, None) => (d, None)
                  end
                else (d, None)
            | [] => (d, None)
            end
          else (d, None)
      | [] => (d, None)
      end
  end.

(** [XMLElement::FindAttribute] and [XMLElement::Attribute]. *)
Fixpoint FindAttribute (attributes : list attribute) (name : bytes) : option attribute :=
  match attributes with
  | a :: rest => if bool_decide (c_str (a_name a) = name) then Some a else FindAttribute rest name
  | [] => None
  end.
Definition Attribute (attributes : list attribute) (name : bytes) (value : option bytes) : option bytes :=
  match FindAttribute attributes name with
  | None => None
  | Some a =>
      match value with
      | None => Some (c_str (a_value a))
      | Some v => if bool_decide (c_str (a_value a) = v) then Some (c_str (a_value a)) else None
      end
  end.

Definition element_name_message (name : StrPair.t) : option bytes := Some (bs "XMLElement name=" ++ c_str name).

(** [XMLElement::ParseAttributes]: the attributes read, the closing type, the
    position; every turn of its loop consumes a byte. *)
Fixpoint ParseAttributes (fuel : nat) (name : StrPair.t) (line0 : Z) (closing : ElementClosingType)
    (attributes : list attribute) (d : doc) (p : bytes)
  : option (doc * option bytes * ElementClosingType * list attribute) :=
  match fuel with
  | O => None
  | S fuel =>
      let (p, line) := SkipWhiteSpace p (parseCurLineNum d) in
      let d := set_line d line in
      match p with
      | [] => Some (SetError d XML_ERROR_PARSING_ELEMENT line0 (element_name_message name), None, closing, attributes)
      | b :: p' =>
          if IsNameStartChar b then
            let attrLineNum := parseCurLineNum d in
            let fail d :=
              Some (SetError d XML_ERROR_PARSING_ATTRIBUTE attrLineNum (element_name_message name),
                    None, closing, attributes) in
            match XMLAttribute_ParseDeep d p with
            | (d, None) => fail d
            | (d, Some (aname, avalue, rest)) =>
                match Attribute attributes (c_str aname) None with
                | Some _ => fail d
                | None =>
                    ParseAttributes fuel name line0 closing
                      (attributes ++ [mk_attribute aname avalue attrLineNum]) d rest
                end
            end
          else if b2z b =? 62 then Some (d, Some p', closing, attributes)
          else if (b2z b =? 47) && starts_with (bs ">") p' then Some (d, Some (drop 1 p'), CLOSED, attributes)
          else Some (SetError d XML_ERROR_PARSING_ELEMENT line0 None, None, closing, attributes)
      end
  end.

(** ** Elements *)

(** What [XMLNode::ParseDeep] produces on a parent: the document, the position
    (null unless an end tag was read), the end tag, the children. *)
Definition level : Type := doc * option bytes * StrPair.t * list node.

(** [XMLElement::ParseDeep], with the parser of its children. *)
Definition XMLElement_ParseDeep (parse_children : doc -> bytes -> option level) (line0 : Z) (d : doc) (p : bytes)
  : option result :=
  let (p, line) := SkipWhiteSpace p (parseCurLineNum d) in
  let d := set_line d line in
  let (closing, p) :=
    match p with
    | b :: p' => if b2z b =? 47 then (CLOSING, p') else (OPEN, p)
    | [] => (OPEN, p)
    end in
  match ParseName p with
  | None => Some (d, None, StrPair.empty, XMLElement StrPair.empty [] closing [] line0)
  | Some (name, p) =>
      let value := Set_ name 0 in
      match ParseAttributes (S (length p)) value line0 closing [] d p with
      | None => None
      | Some (d, pos, closing, attributes) =>
          match pos, closing with
          | Some ((_ :: _) as p), OPEN =>
              match parse_children d p with
              | None => None
              | Some (d, pos, endTag, children) =>
                  Some (d, pos, endTag, XMLElement value attributes closing children line0)
              end
          | _, _ => Some (d, pos, StrPair.empty, XMLElement value attributes closing [] line0)
          end
      end
  end.

(** ** [XMLNode::ParseDeep] *)

(** Whether the end tag read for an element disagrees with its start tag. *)
Definition mismatch (endTag value : StrPair.t) (closing : ElementClosingType) : bool :=
  if Empty endTag then match closing with OPEN => true | _ => false end
  else match closing with OPEN => negb (bool_decide (c_str endTag = c_str value)) | _ => true end.

Definition node_ParseDeep (parse_children : doc -> bytes -> option level) (kind : fresh) (line0 : Z)
    (d : doc) (p : bytes) : option result :=
  match kind with
  | FDeclaration => Some (XMLDeclaration_ParseDeep line0 d p)
  | FComment => Some (XMLComment_ParseDeep line0 d p)
  | FText cdata => Some (XMLText_ParseDeep cdata line0 d p)
  | FUnknown => Some (XMLUnknown_ParseDeep line0 d p)
  | FElement => XMLElement_ParseDeep parse_children line0 d p
  end.

(** The constructor and the destructor of the depth tracker around the loop. *)
Definition with_depth (loop : doc -> bytes -> option level) (d : doc) (p : bytes) : option level :=
  let d := PushDepth d in
  if Error d then Some (PopDepth d, None, StrPair.empty, [])
  else match loop d p with
       | None => None
       | Some (d, pos, endTag, children) => Some (PopDepth d, pos, endTag, children)
       end.

(** The loop over the nodes of a level; [isDoc] is whether the parent is the
    document, [acc] the children inserted so far. *)
Fixpoint ParseDeep_loop (fuel : nat) (isDoc : bool) (acc : list node) (d : doc) (p : bytes) : option level :=
  match fuel with
  | O => None
  | S fuel =>
      match p with
      | [] => Some (d, None, StrPair.empty, acc)
      | _ =>
          match Identify d p with
          | (None, p, d) => Some (d, None, StrPair.empty, acc)
          | (Some (kind, line0), p, d) =>
              match node_ParseDeep (with_depth (ParseDeep_loop fuel false [])) kind line0 d p with
              | None => None
              | Some (d, None, _, _) =>
                  Some (if Error d then d else SetError d XML_ERROR_PARSING line0 None, None, StrPair.empty, acc)
              | Some (d, Some p, endTag, n) =>
                  if ToDeclaration n && negb (isDoc && forallb ToDeclaration acc) then
                    Some (SetError d XML_ERROR_PARSING_DECLARATION line0 (Some (bs "XMLDeclaration value=" ++ Value n)),
                          None, StrPair.empty, acc)
                  else
                    match n with
                    | XMLElement value _ CLOSING _ _ => Some (d, Some p, value, acc)
                    | XMLElement value _ closing _ _ =>
                        if mismatch endTag value closing then
                          Some (SetError d XML_ERROR_MISMATCHED_ELEMENT line0 (element_name_message value),
                                None, StrPair.empty, acc)
                        else ParseDeep_loop fuel isDoc (acc ++ [n]) d p
                    | _ => ParseDeep_loop fuel isDoc (acc ++ [n]) d p
                    end
              end
          end
      end
  end.

(** [XMLDocument::Parse()] on the text of the buffer. *)
Definition Parse_buffer (d : doc) (buffer : bytes) : option doc :=
  let (p, line) := SkipWhiteSpace buffer 1 in
  let d := set_line d line in
  let (p, bom) := ReadBOM p in
  let d := set_bom d bom in
  match p with
  | [] => Some (SetError d XML_ERROR_EMPTY_DOCUMENT 0 None)
  | _ =>
      match with_depth (ParseDeep_loop (S (length p)) true []) d p with
      | None => None
      | Some (d, _, _, children) => Some (set_children d children)
      end
  end.

(** [XMLDocument::Parse( p, len )]: [len] is [None] for [(size_t)(-1)]; the nodes
    of a document that does not parse are deleted.  [p] is the memory the pointer
    leads to, up to its end or a NUL, what follows being NULs: the caller owns the
    [len] bytes that are copied, and of these the parser sees those before the first
    NUL. *)
Definition Parse (d : doc) (p : option bytes) (len : option Z) : option doc :=
  let d := Clear d in
  let empty := Some (SetError d XML_ERROR_EMPTY_DOCUMENT 0 None) in
  match p with
  | None => empty
  | Some text =>
      if bool_decide (len = Some 0) || bool_decide (until_nul text = []) then empty
      else
        let buffer := match len with None => until_nul text | Some n => until_nul (ztake n text) end in
        match Parse_buffer d buffer with
        | None => None
        | Some d => Some (if Error d then set_children d [] else d)
        end
  end.

(** [XMLDocument::LoadFile]: the file as the C library shows it: whether reading
    its first byte fails, the size [ftell] gives and its bytes. *)
Record xml_file := mk_file { getc_error : bool; file_length : Z; file_bytes : bytes }.
Definition LoadFile_fp (d : doc) (fp : xml_file) : option doc :=
  let d := Clear d in
  if getc_error fp then Some (SetError d XML_ERROR_FILE_READ_ERROR 0 None)
  else if file_length fp =? -1 then Some (SetError d XML_ERROR_FILE_READ_ERROR 0 None)
  else if file_length fp =? 0 then Some (SetError d XML_ERROR_EMPTY_DOCUMENT 0 None)
  else
    let read := ztake (file_length fp) (file_bytes fp) in
    if negb (zlen read =? file_length fp) then Some (SetError d XML_ERROR_FILE_READ_ERROR 0 None)
    else Parse_buffer d (until_nul read).
Definition LoadFile (fopen : bytes -> option xml_file) (d : doc) (filename : option bytes) : option doc :=
  match filename with
  | None => Some (SetError d XML_ERROR_FILE_COULD_NOT_BE_OPENED 0 (Some (bs "filename=<null>")))
  | Some filename =>
      let d := Clear d in
      match fopen filename with
      | None => Some (SetError d XML_ERROR_FILE_NOT_FOUND 0 (Some (bs "filename=" ++ filename)))
      | Some fp => LoadFile_fp d fp
      end
  end.

(** ** Navigation and queries *)

Definition ToElementWithName (n : node) (name : option bytes) : bool :=
  match n, name with
  | XMLElement _ _ _ _ _, None => true
  | XMLElement v _ _ _ _, Some name => bool_decide (c_str v = name)
  | _, _ => false
  end.
(** [FirstChildElement] and [NextSiblingElement], from the list of the nodes to
    search: the element and the siblings after it. *)
Fixpoint FirstChildElement (nodes : list node) (name : option bytes) : option (node * list node) :=
  match nodes with
  | n :: rest => if ToElementWithName n name then Some (n, rest) else FirstChildElement rest name
  | [] => None
  end.
Definition NextSiblingElement (after : list node) (name : option bytes) : option (node * list node) :=
  FirstChildElement after name.
Definition LastChildElement (nodes : list node) (name : option bytes) : option (node * list node) :=
  FirstChildElement (rev nodes) name.
Definition node_children (n : node) : list node :=
  match n with XMLElement _ _ _ c _ => c | _ => [] end.
Definition GetText (n : node) : option bytes :=
  match node_children n with
  | XMLText v _ _ :: _ => Some (c_str v)
  | _ => None
  end.

(** The [Query..Value] methods of an attribute and the [Query..Text] methods of
    an element, for a conversion of [XMLUtil]. *)
Definition QueryValue {A} (conv : bytes -> option A) (a : attribute) : XMLError * option A :=
  match conv (c_str (a_value a)) with
  | Some v => (XML_SUCCESS, Some v)
  | None => (XML_WRONG_ATTRIBUTE_TYPE, None)
  end.
Definition QueryAttribute {A} (conv : bytes -> option A) (attributes : list attribute) (name : bytes)
  : XMLError * option A :=
  match FindAttribute attributes name with
  | None => (XML_NO_ATTRIBUTE, None)
  | Some a => QueryValue conv a
  end.
Definition AttributeOr {A} (conv : bytes -> option A) (attributes : list attribute) (name : bytes)
    (defaultValue : A) : A := default defaultValue (QueryAttribute conv attributes name).2.
Definition QueryText {A} (conv : bytes -> option A) (n : node) : XMLError * option A :=
  match GetText n with
  | None => (XML_NO_TEXT_NODE, None)
  | Some t => match conv t with Some v => (XML_SUCCESS, Some v) | None => (XML_CAN_NOT_CONVERT_TEXT, None) end
  end.
Definition TextOr {A} (conv : bytes -> option A) (n : node) (defaultValue : A) : A :=
  default defaultValue (QueryText conv n).2.

(** Changes of an element: its attributes and its text. *)
Fixpoint SetAttribute (attributes : list attribute) (name value : bytes) : list attribute :=
  match attributes with
  | a :: rest =>
      if bool_decide (c_str (a_name a) = name) then mk_attribute (a_name a) (SetStr value) (a_line a) :: rest
      else a :: SetAttribute rest name value
  | [] => [mk_attribute (SetStr name) (SetStr value) 0]
  end.
Fixpoint DeleteAttribute (attributes : list attribute) (name : bytes) : list attribute :=
  match attributes with
  | a :: rest => if bool_decide (name = c_str (a_name a)) then rest else a :: DeleteAttribute rest name
  | [] => []
  end.
Definition SetText (n : node) (text : bytes) : node :=
  match n with
  | XMLElement v attributes closing (XMLText _ cdata line :: rest) l =>
      XMLElement v attributes closing (XMLText (SetStr text) cdata line :: rest) l
  | XMLElement v attributes closing rest l =>
      XMLElement v attributes closing (XMLText (SetStr text) false 0 :: rest) l
  | n => n
  end.

(** ** Lengths *)

Lemma SkipWhiteSpace_length p line : (length (SkipWhiteSpace p line).1 <= length p)%nat.
Proof.
  revert line. induction p as [|b p IH]; intros line; [done|]. simpl.
  destruct (IsWhiteSpace b); [|simpl; lia]. specialize (IH (if beqb b nl then line + 1 else line)). lia.
Qed.
Lemma SkipWhiteSpace_length_eq p line q line' :
  SkipWhiteSpace p line = (q, line') -> (length q <= length p)%nat.
Proof. intros E. pose proof (SkipWhiteSpace_length p line) as H. by rewrite E in H. Qed.
Lemma ParseText_length p endTag line range rest line' :
  endTag <> [] -> ParseText p endTag line = (Some (range, rest), line') -> (length rest < length p)%nat.
Proof.
  intros Hne E. pose proof (ParseText_correct endTag p line Hne) as H. rewrite E in H. destruct H as (-> & _).
  rewrite !length_app. destruct endTag; [done|simpl; lia].
Qed.
Lemma name_chars_app p n r : name_chars p = (n, r) -> p = n ++ r.
Proof.
  revert n r. induction p as [|b p IH]; intros n r; simpl; [by intros [= <- <-]|].
  destruct (IsNameChar b); [|by intros [= <- <-]]. destruct (name_chars p) as [n' r'] eqn:E.
  intros [= <- <-]. simpl. f_equal. by apply IH.
Qed.
Lemma ParseName_length p n r : ParseName p = Some (n, r) -> (length r < length p)%nat.
Proof.
  destruct p as [|b p]; [done|]. simpl. destruct (IsNameStartChar b); [|done].
  destruct (name_chars p) as [n' r'] eqn:E. intros [= <- <-]. apply name_chars_app in E as ->.
  rewrite length_app. lia.
Qed.

(** ** Well-formed trees *)

(** A name, as [ParseName] reads it. *)
Definition name_of (s : StrPair.t) (name : bytes) : Prop :=
  s = Set_ name 0 /\
  exists b r, name = b :: r /\ IsNameStartChar b = true /\ Forall (fun c => IsNameChar c = true) r.
Definition not_closing (n : node) : Prop :=
  match n with XMLElement _ _ CLOSING _ _ => False | _ => True end.
Definition ranged (s : StrPair.t) : Prop := exists range flags, s = Set_ range flags.

(** A tree of at most [h] levels whose names are names, whose attributes are
    distinct, without a declaration or an end tag inside an element, without
    children in a sealed element, and without markup in a text. *)
Fixpoint well_formed (h : nat) (n : node) : Prop :=
  match h with
  | O => False
  | S h =>
      match n with
      | XMLElement v attributes closing ch _ =>
          (exists name, name_of v name) /\
          Forall (fun a => (exists name, name_of (a_name a) name) /\ ranged (a_value a)) attributes /\
          NoDup (map (fun a => c_str (a_name a)) attributes) /\
          (closing = OPEN \/ ch = []) /\
          Forall (fun c => well_formed h c /\ not_closing c /\ ToDeclaration c = false) ch
      | XMLText v cdata _ => exists range flags, v = Set_ range flags /\ (cdata = false -> z2b 60 ∉ range)
      | XMLComment v _ | XMLDeclaration v _ | XMLUnknown v _ => ranged v
      end
  end.

Lemma ParseName_name p n r : ParseName p = Some (n, r) -> name_of (Set_ n 0) n.
Proof.
  intros E. split; [done|]. destruct p as [|b p]; [done|]. simpl in E.
  destruct (IsNameStartChar b) eqn:Hb; [|done]. destruct (name_chars p) as [n' r'] eqn:En.
  invc E. exists b, n'. split; [done|]. split; [done|].
  revert n' r En. induction p as [|c p IH]; intros n' r; simpl; [by intros [= <- <-]|].
  destruct (IsNameChar c) eqn:Hc; [|by intros [= <- <-]]. destruct (name_chars p) as [n'' r''] eqn:En'.
  intros [= <- <-]. constructor; [done|]. by eapply IH.
Qed.

(** ** What each part of the parser keeps *)

(** The document's depth and error do not change. *)
Definition same (d d' : doc) : Prop := parsingDepth d' = parsingDepth d /\ errorID d' = errorID d.
#[local] Instance same_refl : Reflexive same. Proof. done. Qed.
#[local] Instance same_trans : Transitive same.
Proof. intros a b c [] []. split; congruence. Qed.

Lemma parse_value_spec d p endTag flags d' r :
  endTag <> [] -> parse_value d p endTag flags = (d', r) ->
  same d d' /\
  match r with
  | Some (v, rest) =>
      (length rest < length p)%nat /\
      exists range, v = Set_ range flags /\ p = range ++ endTag ++ rest /\
        forall k, (k < length range)%nat -> starts_with endTag (drop k p) = false
  | None => True
  end.
Proof.
  intros Hne. unfold parse_value. pose proof (ParseText_correct endTag p (parseCurLineNum d) Hne) as Hp.
  destruct (ParseText p endTag (parseCurLineNum d)) as [[[range rest]|] line] eqn:E; intros [= <- <-];
    (split; [done|]); [|done].
  split; [by eapply ParseText_length|]. destruct Hp as (-> & _ & Hk). exists range. done.
Qed.

(** The result of a [ParseDeep] at depth [D]: it either keeps the error clear,
    consumes text and makes a well-formed node, or has no position. *)
Definition result_ok (h : nat) (D : Z) (p : bytes) (r : result) : Prop :=
  let '(d', pos, _, n) := r in
  parsingDepth d' = D /\
  match pos with
  | Some q => errorID d' = XML_SUCCESS /\ (length q < length p)%nat /\ well_formed (S h) n
  | None => True
  end.

Lemma leaf_ok h d p endTag flags error make line0 :
  endTag <> [] -> errorID d = XML_SUCCESS -> (forall v, ranged v -> well_formed (S h) (make v)) ->
  result_ok h (parsingDepth d) p (leaf_ParseDeep endTag flags error make line0 d p).
Proof.
  intros Hne He Hm. unfold leaf_ParseDeep. destruct (parse_value d p endTag flags) as [d' r] eqn:E.
  destruct (parse_value_spec _ _ _ _ _ _ Hne E) as [[Hd Hid] Hr].
  destruct r as [[v rest]|]; simpl; [|done].
  destruct Hr as (Hl & range & -> & _). split; [done|]. split; [congruence|]. split; [done|].
  apply Hm. by exists range, flags.
Qed.

Lemma starts_with_single b p : starts_with [b] p = true <-> exists q, p = b :: q.
Proof.
  destruct p as [|c p]; simpl; [split; [done|by intros (q & Hq)]|].
  rewrite andb_true_r. destruct (beqb_spec b c) as [->|]; split; eauto; [done|].
  intros (q & Hq). congruence.
Qed.
Lemma not_in_range b range rest :
  (forall k, (k < length range)%nat -> starts_with [b] (drop k (range ++ rest)) = false) -> b ∉ range.
Proof.
  intros Hk Hin. apply list_elem_of_lookup in Hin as (i & Hi).
  pose proof (lookup_lt_Some _ _ _ Hi) as Hl. specialize (Hk i Hl).
  assert (drop i (range ++ rest) = b :: drop (S i) (range ++ rest)) as E.
  { rewrite (drop_S _ b); [done|]. by apply lookup_app_l_Some. }
  rewrite E in Hk. simpl in Hk. by rewrite beqb_refl in Hk.
Qed.

Lemma text_ok h cdata line0 d p :
  errorID d = XML_SUCCESS -> (cdata = false -> starts_with (bs "<") p = false) ->
  result_ok h (parsingDepth d) p (XMLText_ParseDeep cdata line0 d p).
Proof.
  intros He Hp. unfold XMLText_ParseDeep. destruct cdata.
  - destruct (parse_value d p (bs "]]>") _) as [d' r] eqn:E.
    destruct (parse_value_spec d p (bs "]]>") _ _ _ ltac:(done) E) as [[Hd Hid] Hr].
    destruct r as [[v rest]|]; simpl; [|done].
    destruct Hr as (Hl & range & -> & _). split; [done|]. split; [congruence|]. split; [done|].
    eexists range, _. done.
  - destruct (parse_value d p (bs "<") _) as [d' r] eqn:E.
    destruct (parse_value_spec d p (bs "<") _ _ _ ltac:(done) E) as [[Hd Hid] Hr].
    destruct r as [[v [|b rest]]|]; simpl; [done| |done].
    destruct Hr as (Hl & range & -> & Hpe & Hk). split; [done|]. split; [congruence|]. split.
    + specialize (Hp eq_refl). rewrite Hpe in Hp |- *. destruct range as [|c range].
      * rewrite app_nil_l in Hp. by rewrite starts_with_app in Hp.
      * rewrite !length_app. simpl. lia.
    + eexists range, _. split; [done|]. intros _. rewrite Hpe in Hk. by eapply not_in_range.
Qed.

Lemma Identify_spec d p o q d' :
  Identify d p = (o, q, d') ->
  same d d' /\
  match o with
  | None => True
  | Some (FText false, _) => q = p /\ starts_with (bs "<") p = false
  | Some _ => (length q < length p)%nat
  end.
Proof.
  unfold Identify. destruct (SkipWhiteSpace p (parseCurLineNum d)) as [p' line'] eqn:E.
  pose proof (SkipWhiteSpace_length_eq _ _ _ _ E) as Hl.
  destruct p' as [|b p']; [by intros [= <- <- <-]|]. simpl in Hl.
  destruct (starts_with (bs "<?") (b :: p')); [intros [= <- <- <-]; split; [done|]; rewrite length_drop; simpl; lia|].
  destruct (starts_with (bs "<!--") (b :: p')); [intros [= <- <- <-]; split; [done|]; rewrite length_drop; simpl; lia|].
  destruct (starts_with (bs "<![CDATA[") (b :: p')); [intros [= <- <- <-]; split; [done|]; rewrite length_drop; simpl; lia|].
  destruct (starts_with (bs "<!") (b :: p')); [intros [= <- <- <-]; split; [done|]; rewrite length_drop; simpl; lia|].
  destruct (starts_with (bs "<") (b :: p')) eqn:Hs; [intros [= <- <- <-]; split; [done|]; rewrite length_drop; simpl; lia|].
  intros [= <- <- <-]. split; [done|]. split; [done|].
  destruct p as [|c p]; [done|]. simpl in E. destruct (IsWhiteSpace c) eqn:Hc.
  - apply not_true_is_false. intros Ht. apply (starts_with_single (z2b 60)) in Ht as (q & Hq).
    assert (c = z2b 60) as -> by congruence. vm_compute in Hc. done.
  - by invc E.
Qed.

(** Attributes: names are names, distinct, and the position advances. *)
Definition attribute_ok (a : attribute) : Prop :=
  (exists name, name_of (a_name a) name) /\ ranged (a_value a).
Definition attributes_ok (l : list attribute) : Prop :=
  Forall attribute_ok l /\ NoDup (map (fun a => c_str (a_name a)) l).

Lemma XMLAttribute_ParseDeep_spec d p d' r :
  XMLAttribute_ParseDeep d p = (d', r) ->
  same d d' /\
  match r with
  | Some (n, v, rest) => (length rest < length p)%nat /\ (exists name, name_of n name) /\ ranged v
  | None => True
  end.
Proof.
  unfold XMLAttribute_ParseDeep. destruct (ParseName p) as [[name p1]|] eqn:En; [|by intros [= <- <-]].
  pose proof (ParseName_length _ _ _ En) as L1. apply ParseName_name in En.
  destruct p1 as [|b1 p1]; [by intros [= <- <-]|].
  destruct (SkipWhiteSpace (b1 :: p1) (parseCurLineNum d)) as [p2 l2] eqn:E2.
  apply SkipWhiteSpace_length_eq in E2. cbn zeta.
  destruct p2 as [|b2 p2]; [by intros [= <- <-]|]. destruct (b2z b2 =? 61); [|by intros [= <- <-]].
  cbn [parseCurLineNum set_line]. destruct (SkipWhiteSpace p2 l2) as [p3 l3] eqn:E3.
  apply SkipWhiteSpace_length_eq in E3.
  destruct p3 as [|q p3]; [by intros [= <- <-]|].
  destruct (beqb q quote || beqb q apostrophe); [|by intros [= <- <-]].
  destruct (parse_value _ p3 [q] _) as [d4 r4] eqn:E4.
  apply parse_value_spec in E4 as [Hs Hr]; [|done].
  destruct r4 as [[v rest]|]; intros [= <- <-]; (split; [exact Hs|]); [|done].
  destruct Hr as (L4 & range & -> & _). simpl in *. split; [lia|]. split; [by exists name|]. by eexists _, _.
Qed.

Lemma Attribute_None l name :
  Attribute l name None = None -> name ∉ map (fun a => c_str (a_name a)) l.
Proof.
  unfold Attribute. induction l as [|a l IH]; simpl; [intros _; apply not_elem_of_nil|].
  case_bool_decide; [done|]. intros H1. apply not_elem_of_cons. split; [congruence|]. by apply IH.
Qed.

Lemma ParseAttributes_spec fuel name line0 closing l d p :
  (length p < fuel)%nat -> attributes_ok l ->
  exists d' pos closing' l',
    ParseAttributes fuel name line0 closing l d p = Some (d', pos, closing', l') /\
    parsingDepth d' = parsingDepth d /\ (closing' = closing \/ closing' = CLOSED) /\
    match pos with
    | Some q => errorID d' = errorID d /\ (length q < length p)%nat /\ attributes_ok l'
    | None => True
    end.
Proof.
  revert l d p. induction fuel as [|fuel IH]; intros l d p Hf Hok; [lia|].
  cbn [ParseAttributes]. destruct (SkipWhiteSpace p (parseCurLineNum d)) as [p1 l1] eqn:E1.
  apply SkipWhiteSpace_length_eq in E1.
  destruct p1 as [|b p1]; [eexists _, _, _, _; split; [done|]; simpl; auto|]. simpl in E1.
  destruct (IsNameStartChar b).
  - destruct (XMLAttribute_ParseDeep _ (b :: p1)) as [d2 r2] eqn:E2.
    apply XMLAttribute_ParseDeep_spec in E2 as [[Hd2 He2] H2].
    destruct r2 as [[[n v] rest]|]; [|eexists _, _, _, _; split; [done|]; simpl; auto].
    destruct H2 as (L2 & Hn & Hv).
    destruct (Attribute l (c_str n) None) eqn:Ea; [eexists _, _, _, _; split; [done|]; simpl; auto|].
    apply Attribute_None in Ea. simpl in L2.
    destruct (IH (l ++ [mk_attribute n v (parseCurLineNum (set_line d l1))]) d2 rest) as (d' & pos & c' & l' & -> & Hd & Hc & Hp);
      [lia| |].
    { destruct Hok as [Hf1 Hnd]. split.
      - apply Forall_app. split; [done|]. by repeat constructor.
      - rewrite map_app. apply NoDup_app. split; [done|]. split; [|simpl; apply NoDup_singleton].
        intros x Hx [->|[]%not_elem_of_nil]%elem_of_cons. done. }
    eexists _, _, _, _. split; [done|]. simpl in *. split; [congruence|]. split; [done|].
    destruct pos; [|done]. destruct Hp as (? & ? & ?). split; [congruence|]. split; [lia|done].
  - destruct (b2z b =? 62); [eexists _, _, _, _; split; [done|]; simpl; auto with lia|].
    destruct ((b2z b =? 47) && starts_with (bs ">") p1);
      [|eexists _, _, _, _; split; [done|]; simpl; auto].
    eexists _, _, _, _. split; [done|]. simpl. repeat split; try done; [auto| |apply Hok..].
    pose proof (length_drop p1 1) as Hl. simpl in Hl. lia.
Qed.

(** ** Elements and levels *)

Definition child_ok (isDoc : bool) (h : nat) (n : node) : Prop :=
  well_formed h n /\ not_closing n /\ (isDoc = false -> ToDeclaration n = false).
(** Declarations come before anything else. *)
Definition declarations_first (l : list node) : Prop :=
  exists ds rest, l = ds ++ rest /\ Forall (fun n => ToDeclaration n = true) ds /\
    Forall (fun n => ToDeclaration n = false) rest.

Definition level_ok (isDoc : bool) (h : nat) (D : Z) (p : bytes) (r : level) : Prop :=
  let '(d', pos, _, ch) := r in
  parsingDepth d' = D /\ Forall (child_ok isDoc h) ch /\ declarations_first ch /\
  match pos with
  | Some q => errorID d' = XML_SUCCESS /\ (length q <= length p)%nat
  | None => True
  end.

Lemma declarations_first_nil : declarations_first [].
Proof. exists [], []. done. Qed.
Lemma declarations_first_snoc l n :
  declarations_first l -> (ToDeclaration n = true -> forallb ToDeclaration l = true) ->
  declarations_first (l ++ [n]).
Proof.
  intros (ds & rest & -> & Hds & Hf) Hn. destruct (ToDeclaration n) eqn:En.
  - specialize (Hn eq_refl). rewrite forallb_app in Hn. apply andb_prop in Hn as [_ Hn].
    assert (rest = []) as ->.
    { destruct Hf as [|c rest Hc Hf]; [done|]. simpl in Hn. by rewrite Hc in Hn. }
    exists (ds ++ [n]), []. rewrite !app_nil_r. split; [done|]. split; [|done].
    apply Forall_app. by repeat constructor.
  - exists ds, (rest ++ [n]). rewrite <-app_assoc. split; [done|]. split; [done|].
    apply Forall_app. by repeat constructor.
Qed.

Lemma element_ok pc h D line0 d p :
  (forall d q, (length q < length p)%nat -> errorID d = XML_SUCCESS -> parsingDepth d = D ->
     exists r, pc d q = Some r /\ level_ok false h D q r) ->
  errorID d = XML_SUCCESS -> parsingDepth d = D ->
  exists r, XMLElement_ParseDeep pc line0 d p = Some r /\ result_ok h D p r.
Proof.
  intros Hpc He HD. unfold XMLElement_ParseDeep.
  destruct (SkipWhiteSpace p (parseCurLineNum d)) as [p1 l1] eqn:E1. apply SkipWhiteSpace_length_eq in E1.
  destruct (match p1 with b :: p' => if b2z b =? 47 then (CLOSING, p') else (OPEN, p1) | [] => (OPEN, p1) end)
    as [closing p2] eqn:E2.
  assert (length p2 <= length p1)%nat as L2.
  { destruct p1 as [|b p1]; [by invc E2|]. destruct (b2z b =? 47); invc E2; simpl; lia. }
  destruct (ParseName p2) as [[name p3]|] eqn:E3; [|eexists; split; [done|]; simpl; done].
  pose proof (ParseName_length _ _ _ E3) as L3. apply ParseName_name in E3.
  destruct (ParseAttributes_spec (S (length p3)) (Set_ name 0) line0 closing [] (set_line d l1) p3)
    as (d4 & pos & closing' & l' & -> & Hd4 & Hcl & Hpos); [lia|split; [done|apply NoDup_nil_2]|].
  assert (forall ch, errorID d4 = XML_SUCCESS -> attributes_ok l' -> (closing' = OPEN \/ ch = []) ->
    Forall (child_ok false h) ch -> well_formed (S h) (XMLElement (Set_ name 0) l' closing' ch line0)) as Hwf.
  { intros ch _ [Ha Hnd] Hc Hch. simpl. split; [by exists name|]. split; [done|]. split; [done|]. split; [done|].
    eapply Forall_impl; [exact Hch|]. intros c (H1 & H2 & H3). auto. }
  destruct pos as [[|b q]|]; simpl in Hd4.
  - eexists; split; [done|]. destruct Hpos as (Hid & Hl & Ha). simpl in Hid.
    split; [congruence|]. split; [congruence|]. split; [simpl in *; lia|]. apply Hwf; [congruence|done|auto|done].
  - destruct Hpos as (Hid & Hl & Ha). simpl in Hid.
    destruct closing' eqn:Ec; cbn match; [|eexists; split; [done|]..].
    + destruct (Hpc d4 (b :: q)) as ([[[d5 pos5] e5] ch5] & -> & Hlv); [simpl in *; lia|congruence..|].
      destruct Hlv as (Hd5 & Hch & _ & Hp5). eexists; split; [done|]. split; [done|].
      destruct pos5 as [q5|]; [|done]. destruct Hp5 as (He5 & L5). split; [done|].
      split; [simpl in *; lia|]. apply Hwf; auto. congruence.
    + split; [congruence|]. split; [congruence|]. split; [simpl in *; lia|]. apply Hwf; auto. congruence.
    + split; [congruence|]. split; [congruence|]. split; [simpl in *; lia|]. apply Hwf; auto. congruence.
  - eexists; split; [done|]. split; [congruence|done].
Qed.

Lemma node_ok pc h D kind line0 d p q d0 :
  Identify d0 q = (Some (kind, line0), p, d) ->
  (forall d q', (length q' < length q)%nat -> errorID d = XML_SUCCESS -> parsingDepth d = D ->
     exists r, pc d q' = Some r /\ level_ok false h D q' r) ->
  errorID d = XML_SUCCESS -> parsingDepth d = D ->
  exists r, node_ParseDeep pc kind line0 d p = Some r /\ result_ok h D q r.
Proof.
  intros Hi Hpc He HD. apply Identify_spec in Hi as [_ Hi].
  assert (forall r, (length p <= length q)%nat -> result_ok h D p r -> result_ok h D q r) as Hmono.
  { intros [[[d' [pos|]] e] n] Hl; [|done]. simpl. intros (? & ? & ? & ?). repeat split; try done. lia. }
  destruct kind as [| |[]| |]; cbn [node_ParseDeep].
  - eexists; split; [done|]. apply Hmono; [lia|]. rewrite <-HD. by apply leaf_ok.
  - eexists; split; [done|]. apply Hmono; [lia|]. rewrite <-HD. by apply leaf_ok.
  - eexists; split; [done|]. apply Hmono; [lia|]. rewrite <-HD. by apply text_ok.
  - destruct Hi as [-> Hs]. eexists; split; [done|]. rewrite <-HD. by apply text_ok.
  - eexists; split; [done|]. apply Hmono; [lia|]. rewrite <-HD. by apply leaf_ok.
  - destruct (element_ok pc h D line0 d p) as (r & -> & Hr); [|done..|].
    + intros d1 q1 L1. apply Hpc. lia.
    + eexists; split; [done|]. apply Hmono; [lia|done].
Qed.

Lemma with_depth_ok loop isDoc D d p :
  errorID d = XML_SUCCESS -> parsingDepth d = D -> 0 <= D < 100 ->
  (forall d, errorID d = XML_SUCCESS -> parsingDepth d = D + 1 -> D + 1 < 100 ->
     exists r, loop d p = Some r /\ level_ok isDoc (Z.to_nat (100 - (D + 1))) (D + 1) p r) ->
  exists r, with_depth loop d p = Some r /\ level_ok isDoc (Z.to_nat (100 - (D + 1))) D p r.
Proof.
  intros He HD Hb Hloop. unfold with_depth, PushDepth, Error. cbn [parsingDepth set_depth]. rewrite HD.
  destruct (Z.eqb_spec (D + 1) TINYXML2_MAX_ELEMENT_DEPTH) as [Hx|Hx].
  - rewrite bool_decide_eq_true_2 by done. eexists; split; [done|]. split; [simpl; lia|].
    split; [done|]. split; [apply declarations_first_nil|done].
  - rewrite bool_decide_eq_false_2 by (cbn; rewrite He; auto). unfold TINYXML2_MAX_ELEMENT_DEPTH in Hx.
    destruct (Hloop (set_depth d (D + 1)) He eq_refl ltac:(lia)) as ([[[d3 pos3] e3] ch3] & -> & HD3 & Hch & Hdf3 & Hp3).
    eexists; split; [done|]. simpl in *. split; [lia|]. done.
Qed.

(** The whole loop: with enough fuel it returns, whatever the text. *)
Lemma loop_ok fuel : forall isDoc acc d p,
  (length p < fuel)%nat -> errorID d = XML_SUCCESS -> 1 <= parsingDepth d < 100 ->
  Forall (child_ok isDoc (Z.to_nat (100 - parsingDepth d))) acc -> declarations_first acc ->
  exists r, ParseDeep_loop fuel isDoc acc d p = Some r /\
    level_ok isDoc (Z.to_nat (100 - parsingDepth d)) (parsingDepth d) p r.
Proof.
  induction fuel as [|fuel IH]; intros isDoc acc d p Hf He HD Hacc Hdf; [lia|].
  cbn [ParseDeep_loop]. destruct p as [|b p]; [eexists; by split|].
  set (q := b :: p) in *. destruct (Identify d q) as [[o p1] d1] eqn:Ei.
  pose proof (Identify_spec _ _ _ _ _ Ei) as [[HD1 He1] _].
  destruct o as [[kind line0]|]; [|eexists; split; [done|]; split; [congruence|done]].
  destruct (node_ok (with_depth (ParseDeep_loop fuel false [])) (Z.to_nat (100 - (parsingDepth d + 1)))
    (parsingDepth d) kind line0 d1 p1 q d) as ([[[d2 pos] endTag] n] & -> & HD2 & Hr); [done| |congruence|done|].
  { intros d' q' Hl He' HD'. apply with_depth_ok; [done|done|lia|]. intros d3 He3 HD3 Hlt. rewrite <-HD3.
    apply (IH false [] d3 q'); [lia|done|lia|done|apply declarations_first_nil]. }
  destruct pos as [p2|].
  2: { eexists; split; [done|]. split; [destruct (Error d2); simpl; done|]. done. }
  destruct Hr as (He2 & L2 & Hwf).
  replace (S (Z.to_nat (100 - (parsingDepth d + 1)))) with (Z.to_nat (100 - parsingDepth d)) in Hwf by lia.
  destruct (ToDeclaration n && negb (isDoc && forallb ToDeclaration acc)) eqn:Edecl;
    [eexists; split; [done|]; split; done|].
  assert (forall P : Prop, not_closing n -> P -> P /\ Forall (child_ok isDoc (Z.to_nat (100 - parsingDepth d))) (acc ++ [n])
    /\ declarations_first (acc ++ [n])) as Hnext.
  { intros P Hnc HP. split; [done|]. split.
    - apply Forall_app. split; [done|]. constructor; [|done]. split; [done|]. split; [done|].
      intros ->. by destruct (ToDeclaration n).
    - apply declarations_first_snoc; [done|]. intros En. rewrite En in Edecl. simpl in Edecl.
      apply negb_false_iff, andb_prop in Edecl as [_ ?]. done. }
  assert (not_closing n -> exists r, ParseDeep_loop fuel isDoc (acc ++ [n]) d2 p2 = Some r /\
    level_ok isDoc (Z.to_nat (100 - parsingDepth d)) (parsingDepth d) q r) as Hgo.
  { intros Hnc. destruct (Hnext True Hnc I) as (_ & Ha & Hd).
    rewrite <-HD2 in Ha |- *. destruct (IH isDoc (acc ++ [n]) d2 p2) as ([[[d3 pos3] e3] ch3] & -> & H3); [lia|done|lia|done..|].
    eexists; split; [done|]. destruct H3 as (? & ? & ? & H3). repeat split; try done.
    destruct pos3; [|done]. destruct H3. split; [done|lia]. }
  destruct n as [value attrs closing ch line| | | |]; try by apply Hgo.
  destruct closing.
  1,2: destruct (mismatch endTag value _); [eexists; split; [done|]; split; done|by apply Hgo].
  eexists; split; [done|]. split; [done|]. split; [done|]. split; [done|]. split; [done|lia].
Qed.

Lemma Parse_buffer_ok d buffer :
  errorID d = XML_SUCCESS -> parsingDepth d = 0 -> children d = [] ->
  exists d', Parse_buffer d buffer = Some d' /\ parsingDepth d' = 0 /\
    Forall (child_ok true 99) (children d') /\ declarations_first (children d').
Proof.
  intros He HD Hc. unfold Parse_buffer. destruct (SkipWhiteSpace buffer 1) as [p line].
  destruct (ReadBOM p) as [p1 bom]. destruct p1 as [|b p1].
  { eexists; split; [done|]. simpl. rewrite Hc. split; [done|]. split; [done|apply declarations_first_nil]. }
  destruct (with_depth_ok (ParseDeep_loop (S (length (b :: p1))) true []) true 0 (set_bom (set_line d line) bom) (b :: p1))
    as ([[[d2 pos] e] ch] & -> & HD2 & Hch & Hdf & _); [done|done|lia| |by eexists].
  intros d3 He3 HD3 _. rewrite <-HD3. apply loop_ok; [lia|done|lia|done|apply declarations_first_nil].
Qed.

(** ** The parser on every text *)

(** What is true of a document after a parse. *)
Definition document_ok (d : doc) : Prop :=
  parsingDepth d = 0 /\ Forall (child_ok true 99) (children d) /\ declarations_first (children d).

Lemma document_ok_nil d : parsingDepth d = 0 -> children d = [] -> document_ok d.
Proof. intros HD Hc. unfold document_ok. rewrite Hc. split; [done|]. split; [done|apply declarations_first_nil]. Qed.

(** C6: the parser returns on every text and leaves a well-formed document: at
    most 99 levels of elements, names that are names, no attribute twice in an
    element, sealed elements without children, declarations only at the top and
    before anything else, the nesting counter back to zero. *)
Theorem Parse_terminates d p len : exists d', Parse d p len = Some d' /\ document_ok d'.
Proof.
  unfold Parse. assert (document_ok (SetError (Clear d) XML_ERROR_EMPTY_DOCUMENT 0 None)) as Hempty
    by by apply document_ok_nil.
  destruct p as [text|]; [|by eexists].
  destruct (bool_decide (len = Some 0) || _); [by eexists|].
  destruct (Parse_buffer_ok (Clear d) (match len with None => until_nul text | Some n => until_nul (ztake n text) end))
    as (d' & -> & H1 & H2 & H3); [done..|].
  eexists; split; [done|]. destruct (Error d'); [by apply document_ok_nil|done].
Qed.

(** so does loading a file, whatever the file system answers: a missing file,
    a read error or an empty file gives its error, and any content is parsed. *)
Theorem LoadFile_total fopen d filename :
  document_ok d ->
  exists d', LoadFile fopen d filename = Some d' /\ document_ok d' /\
    match filename with
    | None => errorID d' = XML_ERROR_FILE_COULD_NOT_BE_OPENED
    | Some name =>
        match fopen name with
        | None => errorID d' = XML_ERROR_FILE_NOT_FOUND /\ children d' = []
        | Some fp =>
            (getc_error fp = true -> errorID d' = XML_ERROR_FILE_READ_ERROR) /\
            (getc_error fp = false -> file_length fp = 0 -> errorID d' = XML_ERROR_EMPTY_DOCUMENT) /\
            (getc_error fp = false -> 0 < file_length fp -> zlen (file_bytes fp) < file_length fp ->
               errorID d' = XML_ERROR_FILE_READ_ERROR)
        end
    end.
Proof.
  intros Hd. unfold LoadFile. destruct filename as [name|]; [|by eexists].
  destruct (fopen name) as [fp|]; [|eexists; split; [done|]; split; [by apply document_ok_nil|done]].
  unfold LoadFile_fp. destruct (getc_error fp); [eexists; split; [done|]; split; [by apply document_ok_nil|done]|].
  destruct (Z.eqb_spec (file_length fp) (-1));
    [eexists; split; [done|]; split; [by apply document_ok_nil|]; split; [done|split; [lia|done]]|].
  destruct (Z.eqb_spec (file_length fp) 0) as [H0|H0];
    [eexists; split; [done|]; split; [by apply document_ok_nil|]; split; [done|split; [done|lia]]|].
  destruct (Z.eqb_spec (zlen (ztake (file_length fp) (file_bytes fp))) (file_length fp)) as [H1|H1]; cbn [negb].
  - destruct (Parse_buffer_ok (Clear (Clear d)) (until_nul (ztake (file_length fp) (file_bytes fp))))
      as (d' & -> & H2 & H3 & H4); [done..|].
    eexists; split; [done|]. split; [done|]. split; [done|]. split; [done|].
    intros _ Hp Hl. rewrite zlen_take in H1 by lia. lia.
  - eexists; split; [done|]. split; [by apply document_ok_nil|]. done.
Qed.

(** the text of an error fits the buffer of 1000 characters it is written to,
    whatever the name it quotes. *)
Theorem SetError_bounded d e lineNum msg :
  zlen (errorStr (SetError d e lineNum msg)) < BUFFER_SIZE /\ errorID (SetError d e lineNum msg) = e /\
  children (SetError d e lineNum msg) = children d.
Proof.
  split; [|done]. simpl. unfold error_text. rewrite zlen_take by done. unfold BUFFER_SIZE. lia.
Qed.

(** ** Attributes *)

Lemma SetAttribute_names l n v :
  no_nul n ->
  map (fun a => c_str (a_name a)) (SetAttribute l n v) =
  map (fun a => c_str (a_name a)) l ++ (if bool_decide (n ∈ map (fun a => c_str (a_name a)) l) then [] else [n]).
Proof.
  intros Hn. induction l as [|a l IH]; cbn [SetAttribute map].
  - rewrite bool_decide_eq_false_2 by apply not_elem_of_nil. cbn [map app a_name].
    unfold c_str. by rewrite GetStr_SetStr.
  - destruct (bool_decide_reflect (c_str (a_name a) = n)) as [Ha|Ha]; cbn [map app a_name].
    + rewrite bool_decide_eq_true_2 by (rewrite Ha; apply elem_of_cons; auto). by rewrite app_nil_r.
    + rewrite IH. do 2 f_equal.
      destruct (bool_decide_reflect (n ∈ map (fun a => c_str (a_name a)) l)) as [Hi|Hi].
      * rewrite bool_decide_eq_true_2; [done|]. apply elem_of_cons. auto.
      * rewrite bool_decide_eq_false_2; [done|]. rewrite elem_of_cons. intros [|]; [congruence|done].
Qed.

(** setting an attribute gives it its value, keeps every other one and never
    duplicates a name; deleting it removes it. *)
Theorem SetAttribute_spec l n v :
  no_nul n -> no_nul v -> NoDup (map (fun a => c_str (a_name a)) l) ->
  Attribute (SetAttribute l n v) n None = Some v /\
  (forall m, m <> n -> Attribute (SetAttribute l n v) m None = Attribute l m None) /\
  NoDup (map (fun a => c_str (a_name a)) (SetAttribute l n v)) /\
  Attribute (DeleteAttribute (SetAttribute l n v) n) n None = None /\
  (n ∉ map (fun a => c_str (a_name a)) l -> DeleteAttribute (SetAttribute l n v) n = l).
Proof.
  intros Hn Hv Hnd. assert (forall s, no_nul s -> c_str (SetStr s) = s) as Hs.
  { intros s H. unfold c_str. by rewrite GetStr_SetStr. }
  split; [|split; [|split; [|split]]].
  - unfold Attribute. clear Hnd. induction l as [|a l IH]; cbn.
    + rewrite Hs by done. rewrite bool_decide_eq_true_2 by done. cbn. by rewrite Hs.
    + case_bool_decide as Ha; cbn; [rewrite bool_decide_eq_true_2 by done; cbn; by rewrite Hs|].
      by rewrite bool_decide_eq_false_2.
  - intros m Hm. unfold Attribute. clear Hnd. induction l as [|a l IH]; cbn.
    + rewrite Hs by done. by rewrite bool_decide_eq_false_2 by congruence.
    + case_bool_decide as Ha; cbn.
      * by rewrite !(bool_decide_eq_false_2 (c_str (a_name a) = m)) by congruence.
      * case_bool_decide; [done|apply IH].
  - rewrite SetAttribute_names by done. case_bool_decide as Hi; [by rewrite app_nil_r|].
    apply NoDup_app. split; [done|]. split; [|apply NoDup_singleton].
    intros x Hx [->|[]%not_elem_of_nil]%elem_of_cons. done.
  - unfold Attribute. induction l as [|a l IH]; cbn.
    + rewrite Hs by done. by rewrite bool_decide_eq_true_2.
    + cbn in Hnd. apply NoDup_cons in Hnd as [Hin Hnd].
      case_bool_decide as Ha; cbn.
      * rewrite bool_decide_eq_true_2 by done. rewrite Ha in Hin. clear -Hin. induction l as [|c l IH]; [done|]. cbn in *.
        rewrite elem_of_cons in Hin. rewrite bool_decide_eq_false_2 by (intros E; apply Hin; auto). apply IH. auto.
      * rewrite bool_decide_eq_false_2 by congruence. cbn. rewrite bool_decide_eq_false_2 by done. by apply IH.
  - intros Hin. clear Hnd. induction l as [|a l IH]; cbn.
    + rewrite Hs by done. by rewrite bool_decide_eq_true_2.
    + cbn in Hin. rewrite elem_of_cons in Hin. rewrite bool_decide_eq_false_2 by (intros E; apply Hin; auto). cbn.
      rewrite bool_decide_eq_false_2 by (intros E; apply Hin; auto). f_equal. apply IH. auto.
Qed.

(** ** Concrete runs *)

Definition test_doc : doc := new_doc true false.

Lemma LoadFile_total_witness :
  document_ok test_doc /\
  exists d', LoadFile (fun _ => None) test_doc (Some (bs "web.xml")) = Some d' /\ errorID d' = XML_ERROR_FILE_NOT_FOUND.
Proof.
  assert (document_ok test_doc) as Hd by by apply document_ok_nil. split; [done|].
  destruct (LoadFile_total (fun _ => None) test_doc (Some (bs "web.xml")) Hd) as (d' & E & _ & He & _). by exists d'.
Defined.

Lemma SetAttribute_spec_witness :
  Attribute (SetAttribute [mk_attribute (SetStr (bs "a")) (SetStr (bs "1")) 1] (bs "b") (bs "2")) (bs "b") None = Some (bs "2").
Proof.
  apply (SetAttribute_spec [mk_attribute (SetStr (bs "a")) (SetStr (bs "1")) 1] (bs "b") (bs "2"));
    apply (bool_decide_unpack _); vm_compute; exact I.
Defined.

(** Errors as the parser reports them: the error and its line. *)
Definition parse_error (text : bytes) : option (XMLError * Z) :=
  d ← Parse test_doc (Some text) None; Some (errorID d, errorLineNum d).
Definition nested (n : nat) : bytes :=
  concat (replicate n (bs "<a>")) ++ bs "<a/>" ++ concat (replicate n (bs "</a>")).

(** the kinds of mistakes the parser reports: elements that overlap, a
    missing end tag, an attribute twice, a late declaration, texts outside the
    root, 99 open elements around another one; and two it does not report:
    [</a/>] is read as an element, and an end tag outside every element ends the
    document, whatever follows it. *)
Theorem parser_errors :
  parse_error (bs "<a><b></a></b>") = Some (XML_ERROR_MISMATCHED_ELEMENT, 1) /\
  parse_error (bs "<a><b></b>") = Some (XML_ERROR_PARSING, 1) /\
  parse_error (bs "<a>") = Some (XML_ERROR_MISMATCHED_ELEMENT, 1) /\
  parse_error (bs "<a x='1' x='2'/>") = Some (XML_ERROR_PARSING_ATTRIBUTE, 1) /\
  parse_error (bs "<a/><?xml?>") = Some (XML_ERROR_PARSING_DECLARATION, 1) /\
  parse_error (bs "<a/>" ++ [nl] ++ bs "text") = Some (XML_ERROR_PARSING_TEXT, 2) /\
  parse_error (bs "  ") = Some (XML_ERROR_EMPTY_DOCUMENT, 0) /\
  parse_error (nested 98) = Some (XML_SUCCESS, 0) /\
  parse_error (nested 99) = Some (XML_ELEMENT_DEPTH_EXCEEDED, 1) /\
  parse_error (bs "<r></a/></r>") = Some (XML_SUCCESS, 0) /\
  parse_error (bs "<r/></a><unclosed") = Some (XML_SUCCESS, 0).
Proof. repeat split; vm_compute; reflexivity. Qed.

End XMLDocument.
