(* ===== verification/XmlPrint.v ===== *)
(** * The XML printer: tinyxml2.cpp, XMLPrinter, and the round trip

    The printer is a visitor with a little state: whether the last tag is still
    open, the stack of the names to close, the depth, the depth of the current
    text.  Its output, a file or a buffer, is the list of the bytes written. *)

From S2P Require Import Prelude CStd XmlStr XmlParse.

Module XMLPrinter.
Import XMLUtil StrPair XMLDocument.

Record printer := mk_printer {
  elementJustOpened : bool; stack : list bytes; firstElement : bool; depth : Z; textDepth : Z;
  processEntities : bool; compactMode : bool; out : bytes }.

Definition new (compact : bool) (depth : Z) : printer :=
  mk_printer false [] true depth (-1) true compact [].

Definition Write (data : bytes) (p : printer) : printer :=
  mk_printer (elementJustOpened p) (stack p) (firstElement p) (depth p) (textDepth p) (processEntities p)
    (compactMode p) (out p ++ data).
Definition Putc (ch : byte) (p : printer) : printer := Write [ch] p.
Definition PrintSpace (depth : Z) (p : printer) : printer :=
  Write (concat (replicate (Z.to_nat depth) (bs "    "))) p.

Definition set_justOpened (b : bool) (p : printer) : printer :=
  mk_printer b (stack p) (firstElement p) (depth p) (textDepth p) (processEntities p) (compactMode p) (out p).
Definition set_stack (s : list bytes) (p : printer) : printer :=
  mk_printer (elementJustOpened p) s (firstElement p) (depth p) (textDepth p) (processEntities p) (compactMode p) (out p).
Definition set_first (b : bool) (p : printer) : printer :=
  mk_printer (elementJustOpened p) (stack p) b (depth p) (textDepth p) (processEntities p) (compactMode p) (out p).
Definition set_depth (d : Z) (p : printer) : printer :=
  mk_printer (elementJustOpened p) (stack p) (firstElement p) d (textDepth p) (processEntities p) (compactMode p) (out p).
Definition set_textDepth (d : Z) (p : printer) : printer :=
  mk_printer (elementJustOpened p) (stack p) (firstElement p) (depth p) d (processEntities p) (compactMode p) (out p).
Definition set_entities (b : bool) (p : printer) : printer :=
  mk_printer (elementJustOpened p) (stack p) (firstElement p) (depth p) (textDepth p) b (compactMode p) (out p).

(** The flag arrays of the constructor: the bytes written as entities, in
    attributes and in texts; only characters between 1 and 63 are looked up. *)
Definition ENTITY_RANGE : Z := 64.
Definition entityFlag (restricted : bool) (b : byte) : bool :=
  (0 <? b2s b) && (b2s b <? ENTITY_RANGE) &&
  (if restricted then (b2z b =? 38) || (b2z b =? 60) || (b2z b =? 62)
   else existsb (fun e => beqb (snd e) b) entities).
(** What is written for such a byte: the first entity of the table with its
    value. *)
Fixpoint entity_text (table : list (bytes * byte)) (b : byte) : bytes :=
  match table with
  | (pattern, value) :: table =>
      if beqb value b then bs "&" ++ pattern ++ bs ";" else entity_text table b
  | [] => []
  end.

(** [XMLPrinter::PrintString]: [run] is what has been read since the last
    entity. *)
Fixpoint print_runs (restricted : bool) (run q : bytes) : bytes :=
  match q with
  | [] => run
  | b :: q =>
      if entityFlag restricted b then run ++ entity_text entities b ++ print_runs restricted [] q
      else print_runs restricted (run ++ [b]) q
  end.
Definition PrintString (str : bytes) (restricted : bool) (p : printer) : printer :=
  if processEntities p then Write (print_runs restricted [] str) p else Write str p.

Definition SealElementIfJustOpened (p : printer) : printer :=
  if elementJustOpened p then Putc (z2b 62) (set_justOpened false p) else p.

Definition PushDeclaration (value : bytes) (p : printer) : printer :=
  let p := SealElementIfJustOpened p in
  let p := if (textDepth p <? 0) && negb (firstElement p) && negb (compactMode p)
           then PrintSpace (depth p) (Putc nl p) else p in
  let p := set_first false p in
  Write (bs "?>") (Write value (Write (bs "<?") p)).
Definition PushComment (comment : bytes) (p : printer) : printer :=
  let p := SealElementIfJustOpened p in
  let p := if (textDepth p <? 0) && negb (firstElement p) && negb (compactMode p)
           then PrintSpace (depth p) (Putc nl p) else p in
  let p := set_first false p in
  Write (bs "-->") (Write comment (Write (bs "<!--") p)).
Definition PushUnknown (value : bytes) (p : printer) : printer :=
  let p := SealElementIfJustOpened p in
  let p := if (textDepth p <? 0) && negb (firstElement p) && negb (compactMode p)
           then PrintSpace (depth p) (Putc nl p) else p in
  let p := set_first false p in
  Putc (z2b 62) (Write value (Write (bs "<!") p)).
Definition PushHeader (writeBOM writeDec : bool) (p : printer) : printer :=
  let p := if writeBOM then Write bom_bytes p else p in
  if writeDec then PushDeclaration (bs "xml version=" ++ [quote] ++ bs "1.0" ++ [quote]) p else p.

Definition OpenElement (name : bytes) (compact : bool) (p : printer) : printer :=
  let p := SealElementIfJustOpened p in
  let p := set_stack (name :: stack p) p in
  let p := if (textDepth p <? 0) && negb (firstElement p) && negb compact then Putc nl p else p in
  let p := if negb compact then PrintSpace (depth p) p else p in
  let p := Write name (Write (bs "<") p) in
  set_depth (depth p + 1) (set_first false (set_justOpened true p)).
Definition PushAttribute (name value : bytes) (p : printer) : printer :=
  let p := Write (bs "=" ++ [quote]) (Write name (Putc (z2b 32) p)) in
  Putc quote (PrintString value false p).
(** [CloseElement]: popping an empty stack reads before its array. *)
Definition CloseElement (compact : bool) (p : printer) : outcome printer :=
  let p := set_depth (depth p - 1) p in
  match stack p with
  | [] => Undef
  | name :: rest =>
      let p := set_stack rest p in
      let p :=
        if elementJustOpened p then Write (bs "/>") p
        else
          let p := if (textDepth p <? 0) && negb compact then PrintSpace (depth p) (Putc nl p) else p in
          Write (bs ">") (Write name (Write (bs "</") p)) in
      let p := if textDepth p =? depth p then set_textDepth (-1) p else p in
      let p := if (depth p =? 0) && negb compact then Putc nl p else p in
      Ret (set_justOpened false p)
  end.
Definition PushText (text : bytes) (cdata : bool) (p : printer) : printer :=
  let p := set_textDepth (depth p - 1) p in
  let p := SealElementIfJustOpened p in
  if cdata then Write (bs "]]>") (Write text (Write (bs "<![CDATA[") p))
  else PrintString text true p.

(** The visitor: [VisitEnter], [VisitExit] and [Visit], driven by [Accept]. *)
Definition VisitEnter_document (d : doc) (p : printer) : printer :=
  let p := set_entities (XMLDocument.processEntities d) p in
  if writeBOM d then PushHeader true false p else p.
Definition VisitEnter_element (name : bytes) (attributes : list attribute) (p : printer) : printer :=
  fold_left (fun p a => PushAttribute (c_str (a_name a)) (c_str (a_value a)) p) attributes
    (OpenElement name (compactMode p) p).
Definition VisitExit_element (p : printer) : outcome printer := CloseElement (compactMode p) p.

Fixpoint Accept (n : node) (p : printer) : outcome printer :=
  match n with
  | XMLElement v attributes _ ch _ =>
      p ← (fix children l p := match l with [] => Ret p | c :: l => p ← Accept c p; children l p end)
            ch (VisitEnter_element (c_str v) attributes p);
      VisitExit_element p
  | XMLText v cdata _ => Ret (PushText (c_str v) cdata p)
  | XMLComment v _ => Ret (PushComment (c_str v) p)
  | XMLDeclaration v _ => Ret (PushDeclaration (c_str v) p)
  | XMLUnknown v _ => Ret (PushUnknown (c_str v) p)
  end.
Fixpoint Accept_children (l : list node) (p : printer) : outcome printer :=
  match l with [] => Ret p | c :: l => p ← Accept c p; Accept_children l p end.
(** [XMLDocument::Print]: [Accept] of the document on a printer. *)
Definition Print (d : doc) (p : printer) : outcome printer :=
  Accept_children (children d) (VisitEnter_document d p).

(** ** Documents as values *)

(** A document without the details of its representation. *)
Inductive xml :=
| Elem (name : bytes) (attributes : list (bytes * bytes)) (children : list xml)
| Text (text : bytes)
| CData (text : bytes)
| Comment (text : bytes)
| Declaration (text : bytes)
| Unknown (text : bytes).

Fixpoint denote (n : node) : xml :=
  match n with
  | XMLElement v attributes _ ch _ =>
      Elem (c_str v) (map (fun a => (c_str (a_name a), c_str (a_value a))) attributes) (map denote ch)
  | XMLText v cdata _ => if cdata then CData (c_str v) else Text (c_str v)
  | XMLComment v _ => Comment (c_str v)
  | XMLDeclaration v _ => Declaration (c_str v)
  | XMLUnknown v _ => Unknown (c_str v)
  end.

(** The compact serialization of a document. *)
Definition escape (restricted : bool) (s : bytes) : bytes :=
  concat (map (fun b => if entityFlag restricted b then entity_text entities b else [b]) s).
Definition render_attribute (a : bytes * bytes) : bytes :=
  bs " " ++ fst a ++ bs "=" ++ [quote] ++ escape false (snd a) ++ [quote].
Fixpoint render (x : xml) : bytes :=
  match x with
  | Elem name attributes ch =>
      bs "<" ++ name ++ concat (map render_attribute attributes) ++
      match ch with
      | [] => bs "/>"
      | _ => bs ">" ++ concat (map render ch) ++ bs "</" ++ name ++ bs ">"
      end
  | Text t => escape true t
  | CData t => bs "<![CDATA[" ++ t ++ bs "]]>"
  | Comment t => bs "<!--" ++ t ++ bs "-->"
  | Declaration t => bs "<?" ++ t ++ bs "?>"
  | Unknown t => bs "<!" ++ t ++ bs ">"
  end.

(** ** The compact printer writes the serialization *)

Lemma print_runs_escape restricted run q : print_runs restricted run q = run ++ escape restricted q.
Proof.
  revert run. induction q as [|b q IH]; intros run; [by rewrite app_nil_r|].
  cbn [print_runs]. unfold escape in *. cbn [map concat].
  destruct (entityFlag restricted b); rewrite IH; [done|by rewrite <-app_assoc].
Qed.

(** What compact printing preserves of the printer, and what it writes. *)
Definition writes (p p' : printer) (open : bool) (text : bytes) : Prop :=
  stack p' = stack p /\ depth p' = depth p /\ processEntities p' = processEntities p /\
  compactMode p' = compactMode p /\ elementJustOpened p' = open /\ out p' = out p ++ text.

Definition seal (p : printer) : bytes := if elementJustOpened p then [z2b 62] else [].
Lemma seal_out p : out (SealElementIfJustOpened p) = out p ++ seal p.
Proof. unfold SealElementIfJustOpened, seal. destruct (elementJustOpened p); [done|]. by rewrite app_nil_r. Qed.
Lemma seal_rest p :
  stack (SealElementIfJustOpened p) = stack p /\ depth (SealElementIfJustOpened p) = depth p /\
  processEntities (SealElementIfJustOpened p) = processEntities p /\
  compactMode (SealElementIfJustOpened p) = compactMode p /\ elementJustOpened (SealElementIfJustOpened p) = false.
Proof. unfold SealElementIfJustOpened. destruct (elementJustOpened p) eqn:E; done. Qed.

Lemma PushAttributes_writes attributes p :
  processEntities p = true ->
  writes p (fold_left (fun p a => PushAttribute (c_str (a_name a)) (c_str (a_value a)) p) attributes p)
    (elementJustOpened p)
    (concat (map render_attribute (map (fun a => (c_str (a_name a), c_str (a_value a))) attributes))).
Proof.
  revert p. induction attributes as [|a l IH]; intros p He.
  - unfold writes. simpl. by rewrite app_nil_r.
  - cbn [fold_left map concat]. set (p1 := PushAttribute _ _ p).
    assert (writes p p1 (elementJustOpened p) (render_attribute (c_str (a_name a), c_str (a_value a)))) as Hw.
    { unfold p1, PushAttribute, PrintString, writes. cbn [processEntities Write Putc]. rewrite He. simpl.
      rewrite print_runs_escape. unfold render_attribute. simpl. rewrite <-!app_assoc. done. }
    destruct Hw as (H1 & H2 & H3 & H4 & H5 & H6). destruct (IH p1) as (G1 & G2 & G3 & G4 & G5 & G6); [congruence|].
    unfold writes. rewrite G1, G2, G3, G4, G5, G6, H1, H2, H3, H4, H5, H6, <-app_assoc. done.
Qed.

(** Induction on nodes, with the children. *)
Fixpoint node_size (n : node) : nat :=
  match n with XMLElement _ _ _ ch _ => S (list_sum (map node_size ch)) | _ => 1 end.

Lemma Accept_children_eq l p :
  (fix children l p := match l with [] => Ret p | c :: l => p ← Accept c p; children l p end) l p =
  Accept_children l p.
Proof. revert p. induction l as [|c l IH]; intros p; [done|]. cbn. destruct (Accept c p); cbn; auto. Qed.

(** What printing a node does, and then a list of nodes. *)
Definition accepts (n : node) : Prop := forall p, compactMode p = true -> processEntities p = true ->
  exists p', Accept n p = Ret p' /\ writes p p' false (seal p ++ render (denote n)).
Lemma children_compact l q :
  Forall accepts l -> compactMode q = true -> processEntities q = true -> elementJustOpened q = false ->
  exists q', Accept_children l q = Ret q' /\ writes q q' false (concat (map render (map denote l))).
Proof.
  intros Hl. revert q. induction Hl as [|c l Hc _ IH]; intros q Hqc Hqe Hqj.
  - exists q. split; [done|]. unfold writes. simpl. by rewrite app_nil_r.
  - destruct (Hc q) as (q1 & E1 & W1 & W2 & W3 & W4 & W5 & W6); [done..|].
    destruct (IH q1) as (q2 & E2 & V1 & V2 & V3 & V4 & V5 & V6); [congruence..|].
    exists q2. cbn. rewrite E1. cbn. split; [done|]. unfold writes.
    unfold seal in W6. rewrite Hqj in W6. rewrite V6, W6, <-!app_assoc. repeat split; congruence.
Qed.
(** The children of an element whose start tag is open. *)
Lemma content_compact ch p2 :
  Forall accepts ch -> compactMode p2 = true -> processEntities p2 = true -> elementJustOpened p2 = true ->
  exists p3, Accept_children ch p2 = Ret p3 /\ stack p3 = stack p2 /\ depth p3 = depth p2 /\
    processEntities p3 = true /\ compactMode p3 = true /\
    elementJustOpened p3 = match ch with [] => true | _ => false end /\
    out p3 = out p2 ++ match ch with [] => [] | _ => bs ">" ++ concat (map render (map denote ch)) end.
Proof.
  intros Hch Hc He Hj. destruct Hch as [|c ch Hc' Hch]; [exists p2; rewrite app_nil_r; repeat split; congruence|].
  destruct (Hc' p2) as (q1 & E1 & W1 & W2 & W3 & W4 & W5 & W6); [done..|].
  destruct (children_compact ch q1 Hch) as (q2 & E2 & V1 & V2 & V3 & V4 & V5 & V6); [congruence..|].
  exists q2. cbn. rewrite E1. cbn. split; [done|].
  unfold seal in W6. rewrite Hj in W6. rewrite V6, W6, <-!app_assoc. repeat split; congruence.
Qed.

Lemma Accept_compact k n p :
  (node_size n <= k)%nat -> compactMode p = true -> processEntities p = true ->
  exists p', Accept n p = Ret p' /\ writes p p' false (seal p ++ render (denote n)).
Proof.
  revert n p. induction k as [|k IH]; intros n p Hk Hc He; [destruct n; simpl in Hk; lia|].
  destruct (seal_rest p) as (S1 & S2 & S3 & S4 & S5). pose proof (seal_out p) as S6.
  assert (forall a b c, (out p ++ seal p) ++ a ++ b ++ c = out p ++ seal p ++ a ++ b ++ c) as Ha
    by (intros; by rewrite <-app_assoc).
  destruct n as [v attributes closing ch line|v cdata line|v line|v line|v line].
  2: { eexists. split; [done|]. unfold PushText. cbn [denote].
       assert (SealElementIfJustOpened (set_textDepth (depth p - 1) p) =
               set_textDepth (depth p - 1) (SealElementIfJustOpened p)) as ->.
       { unfold SealElementIfJustOpened. simpl. destruct (elementJustOpened p); done. }
       destruct cdata; unfold writes; simpl.
       - rewrite S6, <-!app_assoc. done.
       - unfold PrintString. simpl. rewrite S3, He. simpl. rewrite S6, print_runs_escape, <-!app_assoc. simpl. repeat split; congruence. }
  2,3,4: eexists; split; [done|]; unfold PushComment, PushDeclaration, PushUnknown, writes;
    rewrite S4, Hc, andb_false_r; simpl; rewrite S6, <-?app_assoc; simpl; repeat split; congruence.
  cbn [Accept]. rewrite Accept_children_eq.
  set (p1 := OpenElement (c_str v) (compactMode p) p).
  assert (stack p1 = c_str v :: stack p /\ depth p1 = depth p + 1 /\ processEntities p1 = true /\ compactMode p1 = true
    /\ elementJustOpened p1 = true /\ out p1 = out p ++ seal p ++ bs "<" ++ c_str v) as (O1 & O2 & O3 & O4 & O5 & O6).
  { unfold p1, OpenElement. rewrite Hc, andb_false_r. simpl. rewrite S1, S2, S3, S4, S6, <-!app_assoc. done. }
  unfold VisitEnter_element. fold p1.
  destruct (PushAttributes_writes attributes p1 O3) as (A1 & A2 & A3 & A4 & A5 & A6).
  set (p2 := fold_left _ attributes p1) in *.
  assert (Forall accepts ch) as Hall.
  { simpl in Hk. clear -Hk IH. induction ch as [|c ch IHch]; [done|]. simpl in Hk. constructor; [|apply IHch; lia].
    intros q Hq1 Hq2. apply IH; [lia|done..]. }
  destruct (content_compact ch p2 Hall) as (p3 & -> & C1 & C2 & C3 & C4 & C5 & C6); [congruence..|]. cbn.
  unfold VisitExit_element, CloseElement. cbn [stack set_depth]. rewrite C1, A1, O1, C4.
  eexists. split; [done|].
  unfold writes. rewrite !andb_false_r. cbn [compactMode elementJustOpened set_stack set_depth]. rewrite C5.
  destruct ch as [|c ch]; cbn [stack depth processEntities compactMode elementJustOpened out Write set_stack set_depth
    set_textDepth set_justOpened denote render map]; (destruct (textDepth _ =? _); simpl;
    rewrite C6, A6, O6, ?C3, ?C4; rewrite <-?app_assoc, ?app_nil_r; simpl; rewrite <-?app_assoc; repeat split; (done || lia || congruence)).
Qed.

Lemma Print_compact d :
  XMLDocument.processEntities d = true ->
  exists p, Print d (new true 0) = Ret p /\
    out p = (if writeBOM d then bom_bytes else []) ++ concat (map render (map denote (children d))).
Proof.
  intros He. unfold Print, VisitEnter_document. rewrite He.
  assert (Forall accepts (children d)) as Hall
    by (apply Forall_forall; intros n _ p; by apply (Accept_compact _ n p (le_n _))).
  destruct (children_compact (children d)
    (if writeBOM d then PushHeader true false (set_entities true (new true 0)) else set_entities true (new true 0)) Hall)
    as (p & E & _ & _ & _ & _ & _ & Ho); [by destruct (writeBOM d)..|].
  exists p. split; [done|]. rewrite Ho. by destruct (writeBOM d).
Qed.

End XMLPrinter.
