(* ===== verification/XmlRound.v ===== *)
(** * Printing then parsing: the round trip of XML documents

    A document whose names are names and whose texts have no CR, NUL or
    delimiter is read back by the parser from what the compact printer writes. *)

From S2P Require Import Prelude CStd XmlStr XmlParse XmlPrint.

Module RoundTrip.
Import XMLUtil StrPair XMLPrinter XMLDocument.

(** ** Texts that survive *)

Definition clean (s : bytes) : Prop := Forall (fun b => b <> nul /\ b <> CR) s.
(** The end tag occurs for the first time after [s]. *)
Definition free (endTag s : bytes) : Prop :=
  forall k, (k < length s)%nat -> starts_with endTag (drop k (s ++ endTag)) = false.
Definition valid_name (name : bytes) : Prop :=
  exists b r, name = b :: r /\ IsNameStartChar b = true /\ Forall (fun c => IsNameChar c = true) r.

Lemma clean_no_nul s : clean s -> no_nul s.
Proof. intros H. eapply Forall_impl; [exact H|]. by intros b []. Qed.

(** Facts about single bytes, by computation over the 256 of them. *)
Lemma byte_cases (P : byte -> bool) : forallb (fun n => P (z2b (Z.of_nat n))) (seq 0 256) = true -> forall b, P b = true.
Proof.
  intros H b. rewrite forallb_forall in H. specialize (H (Z.to_nat (b2z b))).
  pose proof (b2z_range b). rewrite Z2Nat.id, z2b_b2z in H by lia. apply H. apply in_seq. lia.
Qed.
Lemma name_start_facts b :
  IsNameStartChar b = true ->
  IsWhiteSpace b = false /\ b2z b <> 47 /\ b2z b <> 33 /\ b2z b <> 63 /\ IsNameChar b = true.
Proof.
  intros H. assert (implb (IsNameStartChar b) (negb (IsWhiteSpace b) && negb (b2z b =? 47) && negb (b2z b =? 33)
    && negb (b2z b =? 63) && IsNameChar b) = true) as E.
  { revert b H. intros b _. revert b. apply byte_cases. vm_compute. reflexivity. }
  rewrite H in E. simpl in E. repeat apply andb_prop in E as [E ?].
  bool_to_prop. repeat split; try done; by destruct (IsWhiteSpace b).
Qed.
Lemma name_char_not_nul b : IsNameChar b = true -> b <> nul.
Proof. intros H ->. vm_compute in H. done. Qed.

(** The values the parser makes of them. *)
Lemma c_str_name name : valid_name name -> c_str (Set_ name 0) = name.
Proof.
  intros (b & r & -> & Hb & Hr). change (c_str (Set_ (b :: r) 0)) with (until_nul (b :: r)).
  apply until_nul_no_nul. constructor; [by intros ->; vm_compute in Hb|].
  eapply Forall_impl; [exact Hr|]. apply name_char_not_nul.
Qed.

Lemma process_clean buffer s q :
  clean s -> process NEEDS_NEWLINE_NORMALIZATION buffer s 0 q = s.
Proof.
  intros H. revert q. induction H as [|b s [Hn Hc] Hs IH]; intros q; [done|]. cbn [process].
  change (has NEEDS_NEWLINE_NORMALIZATION NEEDS_NEWLINE_NORMALIZATION) with true.
  change (has NEEDS_NEWLINE_NORMALIZATION NEEDS_ENTITY_PROCESSING) with false. cbn [andb].
  destruct (beqb_spec b CR); [done|].
  assert (starts_with [CR] s = false) as Hcr.
  { apply not_true_is_false. intros Ht. apply starts_with_single in Ht as (t & ->).
    inversion Hs as [|? ? []]; subst. done. }
  destruct (beqb_spec b LF) as [->|]; [|by rewrite IH]. by rewrite Hcr, IH.
Qed.
Lemma c_str_clean s : clean s -> c_str (Set_ s NEEDS_NEWLINE_NORMALIZATION) = s.
Proof.
  intros H. unfold c_str, GetStr, Set_. cbn [text flags].
  change (has (Z.lor NEEDS_NEWLINE_NORMALIZATION NEEDS_FLUSH) NEEDS_FLUSH) with true. cbn match.
  change (Z.lxor (Z.lor NEEDS_NEWLINE_NORMALIZATION NEEDS_FLUSH) NEEDS_FLUSH) with NEEDS_NEWLINE_NORMALIZATION.
  change (NEEDS_NEWLINE_NORMALIZATION =? 0) with false.
  change (has NEEDS_NEWLINE_NORMALIZATION NEEDS_WHITESPACE_COLLAPSING) with false. cbn match.
  rewrite process_clean by done. apply until_nul_no_nul, clean_no_nul, H.
Qed.

(** ** Entities *)

Lemma escape_cons restricted b s :
  escape restricted (b :: s) = (if entityFlag restricted b then entity_text entities b else [b]) ++ escape restricted s.
Proof. done. Qed.
Lemma escape_head restricted c s :
  b2z c <> 38 -> entityFlag restricted c = false -> starts_with [c] (escape restricted s) = starts_with [c] s.
Proof.
  intros Hc Hf. destruct s as [|b s]; [done|]. rewrite escape_cons. destruct (entityFlag restricted b) eqn:E.
  - assert (b <> c) as Hbc by (intros ->; congruence).
    assert (exists t, entity_text entities b = z2b 38 :: t) as (t & ->).
    { assert (implb (entityFlag restricted b) (starts_with [z2b 38] (entity_text entities b)) = true) as H.
      { clear. revert b. apply byte_cases. destruct restricted; vm_compute; reflexivity. }
      rewrite E in H. simpl in H. by apply (starts_with_single (z2b 38)) in H. }
    assert (c <> z2b 38) by (intros ->; apply Hc; vm_compute; reflexivity).
    cbn [app starts_with]. rewrite !andb_true_r.
    destruct (beqb_spec c (z2b 38)); [done|]. destruct (beqb_spec c b); [congruence|done].
  - done.
Qed.

(** One escaped byte is read back. *)
Lemma process_entity restricted b buffer rest q :
  entityFlag restricted b = true ->
  process TEXT_ELEMENT buffer (entity_text entities b ++ rest) 0 q = b :: process TEXT_ELEMENT buffer rest 0 (S q).
Proof.
  intros H. assert (entityFlag false b = true) as Hf.
  { assert (implb (entityFlag restricted b) (entityFlag false b) = true) as E.
    { clear. revert b. apply byte_cases. destruct restricted; vm_compute; reflexivity. }
    by rewrite H in E. }
  unfold entityFlag in Hf. apply andb_prop in Hf as [_ Hf]. cbn [existsb entities snd] in Hf.
  destruct (beqb_spec (z2b 34) b) as [<-|_]; [reflexivity|].
  destruct (beqb_spec (z2b 38) b) as [<-|_]; [reflexivity|].
  destruct (beqb_spec (z2b 39) b) as [<-|_]; [reflexivity|].
  destruct (beqb_spec (z2b 60) b) as [<-|_]; [reflexivity|].
  destruct (beqb_spec (z2b 62) b) as [<-|_]; [reflexivity|done].
Qed.

Lemma process_escape restricted buffer s q :
  clean s -> process TEXT_ELEMENT buffer (escape restricted s) 0 q = s.
Proof.
  intros H. revert q. induction H as [|b s [Hn Hc] Hs IH]; intros q; [done|]. rewrite escape_cons.
  destruct (entityFlag restricted b) eqn:E; [by rewrite (process_entity restricted), IH|].
  cbn [app process].
  change (has TEXT_ELEMENT NEEDS_NEWLINE_NORMALIZATION) with true.
  change (has TEXT_ELEMENT NEEDS_ENTITY_PROCESSING) with true. cbn [andb].
  destruct (beqb_spec b CR); [done|].
  assert (starts_with [CR] (escape restricted s) = false) as Hcr.
  { rewrite escape_head; [|done|destruct restricted; done].
    apply not_true_is_false. intros Ht. apply starts_with_single in Ht as (t & ->).
    inversion Hs as [|? ? []]; subst. done. }
  destruct (beqb_spec b LF) as [->|]; [by rewrite Hcr, IH|].
  destruct (beqb_spec b ampersand) as [->|]; [destruct restricted; vm_compute in E; done|]. by rewrite IH.
Qed.
Lemma c_str_escape restricted s : clean s -> c_str (Set_ (escape restricted s) TEXT_ELEMENT) = s.
Proof.
  intros H. unfold c_str, GetStr, Set_. cbn [text flags].
  change (has (Z.lor TEXT_ELEMENT NEEDS_FLUSH) NEEDS_FLUSH) with true. cbn match.
  change (Z.lxor (Z.lor TEXT_ELEMENT NEEDS_FLUSH) NEEDS_FLUSH) with TEXT_ELEMENT.
  change (TEXT_ELEMENT =? 0) with false.
  change (has TEXT_ELEMENT NEEDS_WHITESPACE_COLLAPSING) with false. cbn match.
  rewrite process_escape by done. apply until_nul_no_nul, clean_no_nul, H.
Qed.

(** ** Parsing what was written *)

Lemma starts_with_long pat p r : (length pat <= length p)%nat -> starts_with pat (p ++ r) = starts_with pat p.
Proof.
  revert p. induction pat as [|a pat IH]; intros [|b p] H; simpl in *; [done|done|lia|]. rewrite IH; [done|lia].
Qed.
Lemma ParseText_free s endTag rest line :
  endTag <> [] -> free endTag s ->
  exists line', ParseText (s ++ endTag ++ rest) endTag line = (Some (s, rest), line').
Proof.
  intros Hne. revert line. induction s as [|b s IH]; intros line Hf.
  - destruct endTag as [|e endTag]; [done|]. exists line. cbn [app ParseText].
    change (e :: endTag ++ rest) with ((e :: endTag) ++ rest). rewrite starts_with_app.
    by rewrite drop_app_length.
  - cbn [app ParseText].
    assert (starts_with endTag (b :: s ++ endTag ++ rest) = false) as ->.
    { specialize (Hf 0%nat ltac:(simpl; lia)). rewrite drop_0 in Hf. rewrite <-Hf.
      change (b :: s ++ endTag ++ rest) with ((b :: s) ++ endTag ++ rest). rewrite app_assoc.
      apply starts_with_long. rewrite length_app. lia. }
    destruct (IH (if beqb b nl then line + 1 else line)) as (line' & ->); [|by exists line'].
    intros k Hk. apply (Hf (S k)). simpl. lia.
Qed.
Lemma parse_value_free d s endTag rest flags :
  endTag <> [] -> free endTag s ->
  exists line, parse_value d (s ++ endTag ++ rest) endTag flags = (set_line d line, Some (Set_ s flags, rest)).
Proof.
  intros Hne Hf. unfold parse_value.
  destruct (ParseText_free s endTag rest (parseCurLineNum d) Hne Hf) as (line & ->). by exists line.
Qed.
Lemma free_single b s : b ∉ s -> free [b] s.
Proof.
  intros Hb k Hk. apply not_true_is_false. intros Ht. apply starts_with_single in Ht as (q & Hq).
  apply Hb. assert (drop k s !! 0%nat = Some b) as H.
  { rewrite drop_app_le in Hq by lia. destruct (drop k s) as [|c t] eqn:E; [|by invc Hq].
    apply (f_equal length) in E. rewrite length_drop in E. simpl in E. lia. }
  rewrite lookup_drop in H. by eapply list_elem_of_lookup_2.
Qed.
Lemma escape_without c restricted s :
  b2z c = 60 \/ (b2z c = 34 /\ restricted = false) -> c ∉ escape restricted s.
Proof.
  intros Hc Hin. unfold escape in Hin. apply list_elem_of_In, in_concat in Hin as (piece & Hp & Hin).
  apply in_map_iff in Hp as (b & <- & _).
  assert (existsb (beqb c) (if entityFlag restricted b then entity_text entities b else [b]) = false) as E.
  { assert (c = z2b 60 \/ (c = z2b 34 /\ restricted = false)) as H.
    { destruct Hc as [Hc|[Hc ->]]; [left|right; split; [|done]]; apply b2z_inj; rewrite Hc; reflexivity. }
    apply negb_true_iff. clear Hc Hin. revert b. apply byte_cases. destruct H as [->|[-> ->]]; [destruct restricted|];
      vm_compute; reflexivity. }
  assert (existsb (beqb c) (if entityFlag restricted b then entity_text entities b else [b]) = true) as E'; [|congruence].
  apply existsb_exists. exists c. split; [done|apply beqb_refl].
Qed.

(** ** Names and attributes *)

Lemma name_chars_stop r c rest :
  Forall (fun c => IsNameChar c = true) r -> IsNameChar c = false -> name_chars (r ++ c :: rest) = (r, c :: rest).
Proof.
  intros Hr Hc. induction Hr as [|b r Hb Hr IH]; cbn [app name_chars]; [by rewrite Hc|]. by rewrite Hb, IH.
Qed.
Lemma ParseName_stop name c rest :
  valid_name name -> IsNameChar c = false -> ParseName (name ++ c :: rest) = Some (name, c :: rest).
Proof.
  intros (b & r & -> & Hb & Hr) Hc. cbn [app ParseName]. rewrite Hb. by rewrite name_chars_stop.
Qed.
Lemma SkipWhiteSpace_stay b p line : IsWhiteSpace b = false -> SkipWhiteSpace (b :: p) line = (b :: p, line).
Proof. intros H. cbn. by rewrite H. Qed.

(** The attributes the parser makes denote the ones written. *)
Definition pair_of (a : attribute) : bytes * bytes := (c_str (a_name a), c_str (a_value a)).
Definition attribute_text_ok (a : bytes * bytes) : Prop := valid_name (fst a) /\ clean (snd a).

Lemma XMLAttribute_round_trip d a rest :
  XMLDocument.processEntities d = true -> attribute_text_ok a ->
  exists line, XMLAttribute_ParseDeep d (fst a ++ bs "=" ++ [quote] ++ escape false (snd a) ++ [quote] ++ rest) =
    (set_line d line, Some (Set_ (fst a) 0, Set_ (escape false (snd a)) TEXT_ELEMENT, rest)).
Proof.
  intros He [Hn Hv]. unfold XMLAttribute_ParseDeep.
  change (bs "=" ++ [quote] ++ escape false (snd a) ++ [quote] ++ rest)
    with (z2b 61 :: quote :: escape false (snd a) ++ [quote] ++ rest).
  rewrite ParseName_stop; [|done|reflexivity].
  rewrite SkipWhiteSpace_stay by reflexivity. cbn zeta. change (b2z (z2b 61) =? 61) with true. cbn match.
  rewrite SkipWhiteSpace_stay by reflexivity. rewrite beqb_refl. cbn [orb]. cbn match.
  cbn [XMLDocument.processEntities set_line]. rewrite He.
  destruct (parse_value_free (set_line (set_line d (parseCurLineNum d)) (parseCurLineNum (set_line d (parseCurLineNum d))))
    (escape false (snd a)) [quote] rest ATTRIBUTE_VALUE) as (line & ->); [done| |by exists line].
  apply free_single, escape_without. right. done.
Qed.

Lemma ParseAttributes_round_trip attributes : forall fuel name line0 closing l d tail,
  (length (concat (map render_attribute attributes) ++ tail) < fuel)%nat ->
  XMLDocument.processEntities d = true -> Forall attribute_text_ok attributes ->
  NoDup (map (fun a => c_str (a_name a)) l ++ map fst attributes) ->
  exists fuel' line made,
    (length tail < fuel')%nat /\ map pair_of made = attributes /\
    ParseAttributes fuel name line0 closing l d (concat (map render_attribute attributes) ++ tail) =
    ParseAttributes fuel' name line0 closing (l ++ made) (set_line d line) tail.
Proof.
  induction attributes as [|a attributes IH]; intros fuel name line0 closing l d tail Hf He Hok Hnd.
  - exists fuel, (parseCurLineNum d), []. rewrite app_nil_r. split; [done|]. split; [done|]. by destruct d.
  - inversion Hok as [|? ? Ha Hok']; subst. destruct fuel as [|fuel]; [lia|].
    cbn [map concat] in *. unfold render_attribute at 1. unfold render_attribute at 1 in Hf.
    rewrite <-!app_assoc in Hf |- *. cbn [ParseAttributes].
    set (text := fst a ++ bs "=" ++ [quote] ++ escape false (snd a) ++ [quote] ++
                 concat (map render_attribute attributes) ++ tail) in *.
    destruct Ha as [Hn Hv]. pose proof Hn as (b & r & Hb & Hstart & Hr).
    assert (SkipWhiteSpace (bs " " ++ text) (parseCurLineNum d) = (text, parseCurLineNum d)) as ->.
    { change (bs " " ++ text) with (z2b 32 :: text). cbn [SkipWhiteSpace].
      change (IsWhiteSpace (z2b 32)) with true. change (beqb (z2b 32) nl) with false. cbn match.
      unfold text. rewrite Hb. apply SkipWhiteSpace_stay. by apply name_start_facts. }
    destruct (XMLAttribute_round_trip (set_line d (parseCurLineNum d)) a (concat (map render_attribute attributes) ++ tail))
      as (line & Hp); [done|done|]. fold text in Hp.
    assert (exists text', text = b :: text') as (text' & Ht) by (eexists; unfold text; by rewrite Hb).
    rewrite Ht. rewrite Hstart. rewrite <-Ht, Hp, c_str_name by done. cbn match.
    destruct (Attribute l (fst a) None) as [v|] eqn:Ea.
    { exfalso. unfold Attribute in Ea. destruct (FindAttribute l (fst a)) as [a'|] eqn:Ef; [|done].
      assert (fst a ∈ map (fun a => c_str (a_name a)) l) as Hin.
      { clear -Ef. induction l as [|c l IH]; [done|]. cbn in *. case_bool_decide; [subst; apply elem_of_cons; auto|].
        apply elem_of_cons. auto. }
      apply NoDup_app in Hnd as (_ & Hnd & _). eapply Hnd; [exact Hin|]. apply elem_of_cons. auto. }
    destruct (IH fuel name line0 closing (l ++ [mk_attribute (Set_ (fst a) 0) (Set_ (escape false (snd a)) TEXT_ELEMENT)
      (parseCurLineNum (set_line d (parseCurLineNum d)))]) (set_line (set_line d (parseCurLineNum d)) line) tail)
      as (fuel' & line' & made & Hf' & Hm & Heq); [|done|done| |].
    + rewrite !length_app in Hf. rewrite length_app. simpl in Hf. unfold text in Hf. rewrite !length_app in Hf. lia.
    + rewrite map_app. cbn [map a_name]. rewrite c_str_name by done. by rewrite <-app_assoc.
    + exists fuel', line', (mk_attribute (Set_ (fst a) 0) (Set_ (escape false (snd a)) TEXT_ELEMENT)
        (parseCurLineNum (set_line d (parseCurLineNum d))) :: made).
      split; [done|]. split.
      * cbn [map]. rewrite Hm. unfold pair_of. cbn [a_name a_value]. rewrite c_str_name, c_str_escape by done.
        by destruct a.
      * rewrite Heq, <-app_assoc. done.
Qed.

(** ** Documents that survive *)

Definition is_text (x : xml) : bool := match x with Text _ => true | _ => false end.
Definition is_declaration (x : xml) : bool := match x with Declaration _ => true | _ => false end.
(** No text directly follows a text. *)
Fixpoint separated (l : list xml) : bool :=
  match l with
  | x :: l' => negb (is_text x && match l' with y :: _ => is_text y | [] => false end) && separated l'
  | [] => true
  end.

Fixpoint printable (h : nat) (x : xml) : Prop :=
  match h with
  | O => False
  | S h =>
      match x with
      | Elem name attributes ch =>
          valid_name name /\ Forall attribute_text_ok attributes /\ NoDup (map fst attributes) /\
          Forall (fun c => printable h c /\ is_declaration c = false) ch /\ separated ch = true
      | Text t => clean t /\ forallb IsWhiteSpace t = false
      | CData t => clean t /\ free (bs "]]>") t
      | Comment t => clean t /\ free (bs "-->") t
      | Declaration t => clean t /\ free (bs "?>") t
      | Unknown t =>
          clean t /\ free (bs ">") t /\ starts_with (bs "--") (t ++ bs ">") = false /\
          starts_with (bs "[CDATA[") (t ++ bs ">") = false
      end
  end.

(** ** The header of each kind of node *)

Lemma set_line_self d : set_line d (parseCurLineNum d) = d.
Proof. by destruct d. Qed.
Lemma Identify_element d b r :
  IsNameStartChar b = true ->
  Identify d (bs "<" ++ b :: r) = (Some (FElement, parseCurLineNum d), b :: r, d).
Proof.
  intros Hb. apply name_start_facts in Hb as (_ & H47 & H33 & H63 & _).
  unfold Identify. change (bs "<" ++ b :: r) with (z2b 60 :: b :: r). rewrite SkipWhiteSpace_stay by reflexivity.
  rewrite set_line_self.
  assert (forall c pat, b2z c <> b2z b -> starts_with (z2b 60 :: c :: pat) (z2b 60 :: b :: r) = false) as Hs.
  { intros c pat Hc. cbn [starts_with]. rewrite beqb_refl. destruct (beqb_spec c b) as [->|]; [done|]. done. }
  change (bs "<?") with (z2b 60 :: z2b 63 :: []). change (bs "<!--") with (z2b 60 :: z2b 33 :: bs "--").
  change (bs "<![CDATA[") with (z2b 60 :: z2b 33 :: bs "[CDATA["). change (bs "<!") with (z2b 60 :: z2b 33 :: []).
  rewrite !Hs by (rewrite b2z_z2b_small; lia). reflexivity.
Qed.
Lemma Identify_text d b p p' line :
  SkipWhiteSpace p (parseCurLineNum d) = (b :: p', line) -> b <> z2b 60 ->
  Identify d p = (Some (FText false, line), p, d).
Proof.
  intros E Hb. unfold Identify. rewrite E.
  assert (forall pat, starts_with (z2b 60 :: pat) (b :: p') = false) as Hs.
  { intros pat. cbn [starts_with]. destruct (beqb_spec (z2b 60) b); [congruence|done]. }
  change (bs "<?") with (z2b 60 :: bs "?"). change (bs "<!--") with (z2b 60 :: bs "!--").
  change (bs "<![CDATA[") with (z2b 60 :: bs "![CDATA["). change (bs "<!") with (z2b 60 :: bs "!").
  change (bs "<") with (z2b 60 :: []). rewrite !Hs. by rewrite set_line_self.
Qed.
Lemma Identify_unknown d t r :
  starts_with (bs "--") (t ++ bs ">" ++ r) = false -> starts_with (bs "[CDATA[") (t ++ bs ">" ++ r) = false ->
  Identify d (bs "<!" ++ t ++ bs ">" ++ r) = (Some (FUnknown, parseCurLineNum d), t ++ bs ">" ++ r, d).
Proof.
  intros H1 H2. unfold Identify. change (bs "<!" ++ t ++ bs ">" ++ r) with (z2b 60 :: z2b 33 :: t ++ bs ">" ++ r).
  rewrite SkipWhiteSpace_stay by reflexivity. rewrite set_line_self.
  change (starts_with (bs "<?") (z2b 60 :: z2b 33 :: t ++ bs ">" ++ r)) with false.
  change (starts_with (bs "<!--") (z2b 60 :: z2b 33 :: t ++ bs ">" ++ r)) with (starts_with (bs "--") (t ++ bs ">" ++ r)).
  change (starts_with (bs "<![CDATA[") (z2b 60 :: z2b 33 :: t ++ bs ">" ++ r))
    with (starts_with (bs "[CDATA[") (t ++ bs ">" ++ r)).
  rewrite H1, H2. reflexivity.
Qed.

(** A pattern without [>] does not start a text that ends before it with [>]. *)
Lemma starts_with_cut pat t r :
  z2b 62 ∉ pat -> starts_with pat (t ++ bs ">") = false -> starts_with pat (t ++ bs ">" ++ r) = false.
Proof.
  intros Hp. change (bs ">" ++ r) with (z2b 62 :: r). change (bs ">") with [z2b 62].
  revert t. induction pat as [|a pat IH]; intros t H; [done|].
  rewrite elem_of_cons in Hp. destruct t as [|b t]; simpl in *.
  - destruct (beqb_spec a (z2b 62)) as [->|]; [exfalso; apply Hp; auto|done].
  - destruct (beqb a b); simpl in *; [|done]. apply IH; auto.
Qed.

(** The text of an escaped, not blank text starts with a byte that is not [<]. *)
Lemma escape_not_blank t rest line :
  forallb IsWhiteSpace t = false ->
  exists b p' line', SkipWhiteSpace (escape true t ++ rest) line = (b :: p', line') /\ b <> z2b 60.
Proof.
  revert line. induction t as [|b t IH]; intros line H; [done|]. rewrite escape_cons.
  destruct (entityFlag true b) eqn:E.
  - assert (implb (entityFlag true b) (starts_with [z2b 38] (entity_text entities b)) = true) as Hs.
    { clear. revert b. apply byte_cases. vm_compute. reflexivity. }
    rewrite E in Hs. cbn [implb] in Hs. apply (starts_with_single (z2b 38)) in Hs as (q & ->).
    exists (z2b 38), ((q ++ escape true t) ++ rest), line. split; [|done].
    change (((z2b 38 :: q) ++ escape true t) ++ rest) with (z2b 38 :: (q ++ escape true t) ++ rest).
    by apply SkipWhiteSpace_stay.
  - cbn [app SkipWhiteSpace]. destruct (IsWhiteSpace b) eqn:Hw.
    + simpl in H. rewrite Hw in H. by apply IH.
    + exists b, (escape true t ++ rest), line. split; [done|]. intros ->. vm_compute in E. done.
Qed.

(** ** One node, one level *)

Definition ready (h : nat) (d : doc) : Prop :=
  errorID d = XML_SUCCESS /\ XMLDocument.processEntities d = true /\ collapseWhitespace d = false /\
  0 <= parsingDepth d /\ parsingDepth d + Z.of_nat h <= 100.
Definition markup (rest : bytes) : Prop := exists c r, rest = z2b 60 :: c :: r.

(** [x], written in front of [rest], is read by one turn of the loop. *)
Definition node_step (h : nat) : Prop := forall x fuel isDoc acc d rest,
  printable h x -> (length (render x ++ rest) < S fuel)%nat -> ready h d ->
  (is_text x = true -> markup rest) ->
  (is_declaration x = true -> isDoc && forallb ToDeclaration acc = true) ->
  exists n line,
    ParseDeep_loop (S fuel) isDoc acc d (render x ++ rest) =
    ParseDeep_loop fuel isDoc (acc ++ [n]) (set_line d line) rest /\ denote n = x.

Lemma ready_line h d line : ready h d -> ready h (set_line d line).
Proof. done. Qed.

Lemma render_markup h x : printable h x -> is_text x = false -> forall rest, markup (render x ++ rest).
Proof.
  intros Hp Ht rest. destruct h; [done|]. destruct x as [name attributes ch| | | | |]; try done; try by eexists _, _.
  destruct Hp as ((b & r & -> & _) & _). by eexists _, _.
Qed.
Lemma render_length h x : printable h x -> (0 < length (render x))%nat.
Proof.
  intros Hp. destruct (is_text x) eqn:Ht.
  - destruct h; [done|]. destruct x as [|t| | | |]; try done. destruct Hp as [_ Hb]. cbn [render].
    destruct t as [|b t]; [done|].
    rewrite escape_cons, length_app. destruct (entityFlag true b) eqn:E; [|simpl; lia].
    assert (implb (entityFlag true b) (negb (bool_decide (entity_text entities b = []))) = true) as Hs.
    { clear. revert b. apply byte_cases. vm_compute. reflexivity. }
    rewrite E in Hs. destruct (entity_text entities b); [done|simpl; lia].
  - destruct (render_markup h x Hp Ht []) as (c & r & E). rewrite app_nil_r in E. rewrite E. simpl. lia.
Qed.

(** The declarations of a list are allowed: [before] is whether only
    declarations come before it at the top of the document. *)
Fixpoint declarations_ok (before : bool) (l : list xml) : bool :=
  match l with
  | x :: l => if is_declaration x then before && declarations_ok before l else declarations_ok false l
  | [] => true
  end.
Lemma ToDeclaration_denote n : ToDeclaration n = is_declaration (denote n).
Proof. destruct n as [|? []| | |]; done. Qed.

Lemma list_step h : node_step h -> forall xs fuel isDoc acc d rest,
  Forall (printable h) xs -> separated xs = true ->
  (markup rest \/ forallb (fun x => negb (is_text x)) xs = true) ->
  declarations_ok (isDoc && forallb ToDeclaration acc) xs = true ->
  (length (concat (map render xs) ++ rest) < fuel)%nat -> ready h d ->
  exists fuel' ns line, (length rest < fuel')%nat /\ map denote ns = xs /\
    ParseDeep_loop fuel isDoc acc d (concat (map render xs) ++ rest) =
    ParseDeep_loop fuel' isDoc (acc ++ ns) (set_line d line) rest.
Proof.
  intros Hstep. induction xs as [|x xs IH]; intros fuel isDoc acc d rest Hp Hsep Hrest Hdecl Hf Hd.
  - exists fuel, [], (parseCurLineNum d). rewrite app_nil_r, set_line_self. done.
  - inversion Hp as [|? ? Hx Hxs]; subst. cbn [map concat] in *. rewrite <-app_assoc in Hf |- *.
    destruct fuel as [|fuel]; [lia|]. cbn [separated] in Hsep. apply andb_prop in Hsep as [Hs1 Hsep].
    destruct (Hstep x fuel isDoc acc d (concat (map render xs) ++ rest)) as (n & line & -> & Hn); [done|done|done| | |].
    + intros Ht. rewrite Ht in Hs1. destruct xs as [|y xs].
      * cbn [map concat app]. destruct Hrest as [Hm|Hall]; [done|]. simpl in Hall. by rewrite Ht in Hall.
      * inversion Hxs; subst. cbn [map concat]. rewrite <-app_assoc. eapply render_markup; [done|].
        by destruct (is_text y).
    + intros Hdx. simpl in Hdecl. rewrite Hdx in Hdecl. by apply andb_prop in Hdecl as [? _].
    + destruct (IH fuel isDoc (acc ++ [n]) (set_line d line) rest) as (fuel' & ns & line' & Hf' & Hns & ->); try done.
      * destruct Hrest as [Hm|Hall]; [by left|right]. simpl in Hall. by apply andb_prop in Hall as [_ ?].
      * rewrite forallb_app. cbn [forallb]. rewrite ToDeclaration_denote, Hn, andb_true_r, andb_assoc.
        simpl in Hdecl. destruct (is_declaration x).
        -- apply andb_prop in Hdecl as [-> ?]. done.
        -- by rewrite andb_false_r.
      * pose proof (render_length h x Hx). rewrite length_app in Hf. lia.
      * exists fuel', (n :: ns), line'. rewrite <-app_assoc. split; [done|]. split; [by rewrite <-Hns, <-Hn|done].
Qed.

(** The end tag of an element. *)
Lemma end_tag_step fuel isDoc acc d name rest :
  valid_name name ->
  ParseDeep_loop (S fuel) isDoc acc d (bs "</" ++ name ++ bs ">" ++ rest) =
  Some (d, Some rest, Set_ name 0, acc).
Proof.
  intros Hn. cbn [ParseDeep_loop app].
  change (bs "</" ++ name ++ bs ">" ++ rest) with (z2b 60 :: z2b 47 :: name ++ z2b 62 :: rest). cbn match.
  change (Identify d (z2b 60 :: z2b 47 :: name ++ z2b 62 :: rest))
    with (Some (FElement, parseCurLineNum d), z2b 47 :: name ++ z2b 62 :: rest, set_line d (parseCurLineNum d)).
  rewrite set_line_self. cbn [node_ParseDeep]. unfold XMLElement_ParseDeep.
  rewrite SkipWhiteSpace_stay by reflexivity. rewrite set_line_self.
  change (b2z (z2b 47) =? 47) with true. cbn match. rewrite ParseName_stop; [|done|reflexivity].
  cbn [ParseAttributes length]. rewrite SkipWhiteSpace_stay by reflexivity. rewrite set_line_self.
  change (IsNameStartChar (z2b 62)) with false. change (b2z (z2b 62) =? 62) with true. cbn match.
  destruct rest; reflexivity.
Qed.

(** A leaf: its header is recognized and its text ends at its delimiter. *)
Lemma leaf_step fuel isDoc acc d kind p rest text line0 (n : node) line :
  text <> [] ->
  Identify d text = (Some (kind, line0), p, d) ->
  node_ParseDeep (with_depth (ParseDeep_loop fuel false [])) kind line0 d p =
    Some (set_line d line, Some rest, StrPair.empty, n) ->
  ToElement n = false ->
  (ToDeclaration n = true -> isDoc && forallb ToDeclaration acc = true) ->
  ParseDeep_loop (S fuel) isDoc acc d text = ParseDeep_loop fuel isDoc (acc ++ [n]) (set_line d line) rest.
Proof.
  intros Hne Hi Hp He Hdecl. cbn [ParseDeep_loop]. destruct text as [|b text]; [done|].
  rewrite Hi, Hp.
  assert (ToDeclaration n && negb (isDoc && forallb ToDeclaration acc) = false) as ->.
  { destruct (ToDeclaration n); [|done]. by rewrite Hdecl. }
  destruct n; done.
Qed.

(** The start tag of an element, then what its tail makes of it. *)
Lemma start_tag fuel d line0 name attributes tail c tail' :
  valid_name name -> Forall attribute_text_ok attributes -> NoDup (map fst attributes) ->
  XMLDocument.processEntities d = true -> tail = c :: tail' -> IsNameChar c = false ->
  exists f line made, (length tail < f)%nat /\ map pair_of made = attributes /\
  XMLElement_ParseDeep (with_depth (ParseDeep_loop fuel false [])) line0 d
    (name ++ concat (map render_attribute attributes) ++ tail) =
  match ParseAttributes f (Set_ name 0) line0 OPEN made (set_line d line) tail with
  | None => None
  | Some (d, pos, closing, attributes) =>
      match pos, closing with
      | Some ((_ :: _) as p), OPEN =>
          match with_depth (ParseDeep_loop fuel false []) d p with
          | None => None
          | Some (d, pos, endTag, children) =>
              Some (d, pos, endTag, XMLElement (Set_ name 0) attributes closing children line0)
          end
      | _, _ => Some (d, pos, StrPair.empty, XMLElement (Set_ name 0) attributes closing [] line0)
      end
  end.
Proof.
  intros Hn Ha Hnd He Ht Hc. unfold XMLElement_ParseDeep.
  pose proof Hn as (b & r & Hb & Hstart & _). apply name_start_facts in Hstart as (Hw & H47 & _).
  assert (exists c2 r2, concat (map render_attribute attributes) ++ tail = c2 :: r2 /\ IsNameChar c2 = false)
    as (c2 & r2 & Er & Hc2).
  { destruct attributes; [subst; by eexists _, _|]. by eexists _, _. }
  destruct (ParseAttributes_round_trip attributes (S (length (concat (map render_attribute attributes) ++ tail)))
    (Set_ name 0) line0 OPEN [] d tail) as (f & line & made & Hf & Hm & Heq); [lia|done..|].
  exists f, line, made. split; [done|]. split; [done|].
  assert (SkipWhiteSpace (name ++ concat (map render_attribute attributes) ++ tail) (parseCurLineNum d) =
    (name ++ concat (map render_attribute attributes) ++ tail, parseCurLineNum d)) as ->.
  { rewrite Hb. by apply SkipWhiteSpace_stay. }
  rewrite set_line_self.
  assert (match name ++ concat (map render_attribute attributes) ++ tail with
    | b :: p' => if b2z b =? 47 then (CLOSING, p') else (OPEN, name ++ concat (map render_attribute attributes) ++ tail)
    | [] => (OPEN, name ++ concat (map render_attribute attributes) ++ tail) end =
    (OPEN, name ++ concat (map render_attribute attributes) ++ tail)) as ->.
  { rewrite Hb at 1. cbn [app]. by rewrite (proj2 (Z.eqb_neq (b2z b) 47) H47). }
  rewrite Er in Heq |- *. rewrite ParseName_stop by done. rewrite Heq. done.
Qed.

(** Entering an element and leaving it. *)
Lemma with_depth_ready h d p loop :
  ready (S (S h)) d ->
  with_depth loop d p =
  match loop (set_depth d (parsingDepth d + 1)) p with
  | None => None
  | Some (d, pos, endTag, children) => Some (PopDepth d, pos, endTag, children)
  end.
Proof.
  intros (He & _ & _ & H0 & HD). unfold with_depth, PushDepth, Error. cbn [parsingDepth set_depth].
  unfold TINYXML2_MAX_ELEMENT_DEPTH. rewrite (proj2 (Z.eqb_neq (parsingDepth d + 1) 100)) by lia.
  cbn [errorID set_depth]. rewrite bool_decide_eq_false_2 by (rewrite He; auto). done.
Qed.

(** The children of an element and its end tag. *)
Lemma content_step h name ch fuel d rest :
  node_step h -> valid_name name -> ch <> [] -> Forall (fun x => printable h x /\ is_declaration x = false) ch ->
  separated ch = true -> (length (concat (map render ch) ++ bs "</" ++ name ++ bs ">" ++ rest) < fuel)%nat -> ready (S h) d ->
  exists ns line, map denote ns = ch /\
    with_depth (ParseDeep_loop fuel false []) d (concat (map render ch) ++ bs "</" ++ name ++ bs ">" ++ rest) =
    Some (set_line d line, Some rest, Set_ name 0, ns).
Proof.
  intros Hstep Hn Hne Hch Hsep Hf Hd. pose proof Hd as (_ & _ & _ & H0 & HD).
  assert (exists h', h = S h') as (h' & ->).
  { destruct h; [|by eexists]. destruct Hch as [|? ? [Hp _]]; done. }
  assert (Forall (printable (S h')) ch) as Hpr by (eapply Forall_impl; [exact Hch|]; by intros ? []).
  destruct (list_step (S h') Hstep ch fuel false [] (set_depth d (parsingDepth d + 1))
    (bs "</" ++ name ++ bs ">" ++ rest)) as (fuel' & ns & line & Hf' & Hns & Hl); [done|done|left; by eexists _, _| |done| |].
  { clear -Hch. cbn [andb]. induction Hch as [|c l [_ Hc] Hl IH]; [done|]. cbn. by rewrite Hc. }
  { unfold ready. cbn [errorID processEntities collapseWhitespace parsingDepth set_depth].
    repeat split; (lia || apply Hd). }
  destruct fuel' as [|fuel']; [lia|]. rewrite end_tag_step in Hl by done. exists ns, line. split; [done|].
  rewrite (with_depth_ready h') by done. rewrite Hl. cbn match. cbn [app].
  replace (PopDepth (set_line (set_depth d (parsingDepth d + 1)) line)) with (set_line d line); [done|].
  unfold PopDepth, set_line, set_depth. destruct d. cbn. f_equal. lia.
Qed.

Lemma element_step h name attributes ch fuel isDoc acc d rest :
  node_step h -> printable (S h) (Elem name attributes ch) ->
  (length (render (Elem name attributes ch) ++ rest) < S fuel)%nat -> ready (S h) d ->
  exists n line,
    ParseDeep_loop (S fuel) isDoc acc d (render (Elem name attributes ch) ++ rest) =
    ParseDeep_loop fuel isDoc (acc ++ [n]) (set_line d line) rest /\ denote n = Elem name attributes ch.
Proof.
  intros Hstep (Hn & Ha & Hnd & Hch & Hsep) Hf Hd. pose proof Hd as (He & Hpe & _ & H0 & HD).
  pose proof Hn as (b & r & Hb & Hstart & _).
  set (tail := match ch with [] => bs "/>" ++ rest
               | _ => bs ">" ++ concat (map render ch) ++ bs "</" ++ name ++ bs ">" ++ rest end).
  assert (render (Elem name attributes ch) ++ rest = bs "<" ++ name ++ concat (map render_attribute attributes) ++ tail) as Er.
  { cbn [render]. unfold tail. destruct ch; rewrite <-!app_assoc; done. }
  rewrite Er in Hf |- *. cbn [ParseDeep_loop].
  assert (Identify d (bs "<" ++ name ++ concat (map render_attribute attributes) ++ tail) =
    (Some (FElement, parseCurLineNum d), name ++ concat (map render_attribute attributes) ++ tail, d)) as Hi.
  { rewrite Hb. by apply Identify_element. }
  rewrite Hi. change (bs "<" ++ name ++ concat (map render_attribute attributes) ++ tail)
    with (z2b 60 :: name ++ concat (map render_attribute attributes) ++ tail). cbn match. cbn [node_ParseDeep].
  assert (exists c t, tail = c :: t /\ IsNameChar c = false) as (c & t & Ht & Hc) by (destruct ch; by eexists _, _).
  destruct (start_tag fuel d (parseCurLineNum d) name attributes tail c t) as (f & line & made & Hfl & Hm & ->); [done..|].
  destruct f as [|f]; [lia|]. cbn [ParseAttributes].
  destruct ch as [|x ch].
  - unfold tail. change (bs "/>" ++ rest) with (z2b 47 :: z2b 62 :: rest).
    rewrite SkipWhiteSpace_stay by reflexivity. rewrite set_line_self.
    change (IsNameStartChar (z2b 47)) with false. change (b2z (z2b 47) =? 62) with false.
    change ((b2z (z2b 47) =? 47) && starts_with (bs ">") (z2b 62 :: rest)) with true. cbn match.
    change (drop 1 (z2b 62 :: rest)) with rest.
    exists (XMLElement (Set_ name 0) made CLOSED [] (parseCurLineNum d)), line. split.
    + destruct rest; reflexivity.
    + cbn [denote map]. rewrite c_str_name by done. unfold pair_of in Hm. by rewrite Hm.
  - set (body := concat (map render (x :: ch))) in *. unfold tail in *.
    change (bs ">" ++ body ++ bs "</" ++ name ++ bs ">" ++ rest) with (z2b 62 :: body ++ bs "</" ++ name ++ bs ">" ++ rest) in *.
    rewrite SkipWhiteSpace_stay by reflexivity. rewrite set_line_self.
    change (IsNameStartChar (z2b 62)) with false. change (b2z (z2b 62) =? 62) with true. cbn match.
    destruct (content_step h name (x :: ch) fuel (set_line d line) rest) as (ns & line' & Hns & Hl); [done..| |by apply ready_line|].
    { fold body. do 5 (rewrite ?length_app in Hf; simpl in Hf). do 5 (rewrite ?length_app; simpl).
      clear -Hf. clearbody body. lia. }
    fold body in Hl.
    assert (exists c2 t2, body ++ bs "</" ++ name ++ bs ">" ++ rest = c2 :: t2) as (c2 & t2 & Ebody).
    { destruct (body ++ _) eqn:E; [|by eexists _, _]. apply (f_equal length) in E. rewrite length_app in E. simpl in E. lia. }
    rewrite Ebody in Hl |- *. cbn match. rewrite Hl. cbn match.
    exists (XMLElement (Set_ name 0) made OPEN ns (parseCurLineNum d)), line'. split.
    + unfold mismatch. replace (Empty (Set_ name 0)) with false by (by rewrite Hb).
      by rewrite bool_decide_eq_true_2.
    + cbn [denote]. rewrite c_str_name by done. unfold pair_of in Hm. rewrite Hm, Hns. done.
Qed.

Lemma leaf_ready h d flags : ready h d -> flags = TEXT_ELEMENT ->
  (if collapseWhitespace d then Z.lor (if processEntities d then TEXT_ELEMENT else TEXT_ELEMENT_LEAVE_ENTITIES) NEEDS_WHITESPACE_COLLAPSING
   else if processEntities d then TEXT_ELEMENT else TEXT_ELEMENT_LEAVE_ENTITIES) = flags.
Proof. by intros (_ & -> & -> & _) ->. Qed.

(** A leaf that is a text between an opening and a closing mark. *)
Lemma enclosed_step x kind opening t endTag flags n fuel isDoc acc d rest :
  opening <> [] -> endTag <> [] -> free endTag t -> render x = opening ++ t ++ endTag ->
  Identify d (opening ++ t ++ endTag ++ rest) = (Some (kind, parseCurLineNum d), t ++ endTag ++ rest, d) ->
  (forall line, parse_value d (t ++ endTag ++ rest) endTag flags = (set_line d line, Some (Set_ t flags, rest)) ->
     node_ParseDeep (with_depth (ParseDeep_loop fuel false [])) kind (parseCurLineNum d) d (t ++ endTag ++ rest) =
     Some (set_line d line, Some rest, StrPair.empty, n)) ->
  ToElement n = false -> (ToDeclaration n = true -> isDoc && forallb ToDeclaration acc = true) -> denote n = x ->
  exists n line,
    ParseDeep_loop (S fuel) isDoc acc d (render x ++ rest) =
    ParseDeep_loop fuel isDoc (acc ++ [n]) (set_line d line) rest /\ denote n = x.
Proof.
  intros Ho He Hfr Hx Hi Hp Hel Hdecl Hn. destruct (parse_value_free d t endTag rest flags) as (line & Hpv); [done..|].
  exists n, line. split; [|done]. rewrite Hx, <-!app_assoc.
  eapply leaf_step; [by destruct opening|exact Hi|by apply Hp|done|done].
Qed.

Lemma text_step h t fuel isDoc acc d rest : printable (S h) (Text t) -> ready (S h) d -> markup rest ->
  exists n line,
    ParseDeep_loop (S fuel) isDoc acc d (render (Text t) ++ rest) =
    ParseDeep_loop fuel isDoc (acc ++ [n]) (set_line d line) rest /\ denote n = Text t.
Proof.
  intros [Hc Hb] Hd (c & r & ->).
  destruct (escape_not_blank t (z2b 60 :: c :: r) (parseCurLineNum d) Hb) as (b & p' & line & Es & Hne).
  destruct (parse_value_free d (escape true t) (bs "<") (c :: r) TEXT_ELEMENT) as (line' & Hpv); [done| |].
  { apply free_single, escape_without. by left. }
  exists (XMLText (Set_ (escape true t) TEXT_ELEMENT) false line), line'. split; [|cbn [denote]; by rewrite c_str_escape].
  eapply leaf_step; [|eapply Identify_text; [exact Es|done]| |done|done].
  - intros E. cbn [render] in E. rewrite E in Es. done.
  - cbn [node_ParseDeep]. unfold XMLText_ParseDeep. rewrite (leaf_ready (S h) d _ Hd eq_refl).
    change (z2b 60 :: c :: r) with (bs "<" ++ c :: r). cbn [render]. rewrite Hpv. done.
Qed.

Lemma same_line {A} d (r r' : A * bytes) : r = r' -> (r, set_line d (parseCurLineNum d)) = (r', d).
Proof. intros ->. by rewrite set_line_self. Qed.

Lemma every_step h : node_step h.
Proof.
  induction h as [|h IH]; intros x fuel isDoc acc d rest Hp Hf Hd Ht Hdecl; [done|].
  destruct x as [name attributes ch|t|t|t|t|t]; [by apply (element_step h)|apply (text_step h); auto|..];
    destruct Hp as (Hc & Hfr).
  - apply (enclosed_step (CData t) (FText true) (bs "<![CDATA[") t (bs "]]>") NEEDS_NEWLINE_NORMALIZATION
      (XMLText (Set_ t NEEDS_NEWLINE_NORMALIZATION) true (parseCurLineNum d))); try done; [by apply same_line| |cbn [denote]; by rewrite c_str_clean].
    intros line Hpv. cbn [node_ParseDeep]. unfold XMLText_ParseDeep. by rewrite Hpv.
  - apply (enclosed_step (Comment t) FComment (bs "<!--") t (bs "-->") COMMENT (XMLComment (Set_ t COMMENT) (parseCurLineNum d)));
      try done; [by apply same_line| |cbn [denote]; change COMMENT with NEEDS_NEWLINE_NORMALIZATION; by rewrite c_str_clean].
    intros line Hpv. cbn [node_ParseDeep]. unfold XMLComment_ParseDeep, leaf_ParseDeep. by rewrite Hpv.
  - apply (enclosed_step (Declaration t) FDeclaration (bs "<?") t (bs "?>") NEEDS_NEWLINE_NORMALIZATION
      (XMLDeclaration (Set_ t NEEDS_NEWLINE_NORMALIZATION) (parseCurLineNum d))); try done;
      [by apply same_line| |cbn [denote]; by rewrite c_str_clean].
    intros line Hpv. cbn [node_ParseDeep]. unfold XMLDeclaration_ParseDeep, leaf_ParseDeep. by rewrite Hpv.
  - destruct Hfr as (Hfr & H1 & H2).
    apply (enclosed_step (Unknown t) FUnknown (bs "<!") t (bs ">") NEEDS_NEWLINE_NORMALIZATION
      (XMLUnknown (Set_ t NEEDS_NEWLINE_NORMALIZATION) (parseCurLineNum d))); try done; [| |cbn [denote]; by rewrite c_str_clean].
    + apply Identify_unknown; apply starts_with_cut; try done; apply (bool_decide_unpack _); vm_compute; exact I.
    + intros line Hpv. cbn [node_ParseDeep]. unfold XMLUnknown_ParseDeep, leaf_ParseDeep. by rewrite Hpv.
Qed.

(** ** Whole documents *)

Definition top_level (xs : list xml) : Prop :=
  Forall (fun x => printable 99 x /\ is_text x = false) xs /\ declarations_ok true xs = true.

Lemma top_level_texts xs : Forall (fun x => printable 99 x /\ is_text x = false) xs ->
  Forall (printable 99) xs /\ separated xs = true /\ forallb (fun x => negb (is_text x)) xs = true.
Proof.
  induction 1 as [|x xs [Hp Ht] Hxs (IH1 & IH2 & IH3)]; [done|]. cbn. rewrite Ht, IH2, IH3. repeat split. by constructor.
Qed.

(** The parser on the serialization of the nodes followed by [rest]. *)
Lemma Parse_buffer_level (bom : bool) d xs rest :
  errorID d = XML_SUCCESS -> processEntities d = true -> collapseWhitespace d = false -> parsingDepth d = 0 ->
  top_level xs -> (markup rest \/ (rest = [] /\ xs <> [])) ->
  exists fuel ns line, (length rest < fuel)%nat /\ map denote ns = xs /\
    Parse_buffer d ((if bom then bom_bytes else []) ++ concat (map render xs) ++ rest) =
    match ParseDeep_loop fuel true ns (set_line (set_depth (set_bom d bom) 1) line) rest with
    | None => None
    | Some (d, _, _, children) => Some (set_children (PopDepth d) children)
    end.
Proof.
  intros He Hpe Hcw HD [Hxs Hdecl] Hrest. apply top_level_texts in Hxs as (Hp & Hsep & Ht).
  set (text := concat (map render xs) ++ rest).
  assert (exists c r, text = z2b 60 :: c :: r) as (c & r & Etext).
  { unfold text. destruct xs as [|x xs]; [by destruct Hrest as [|[]]|].
    inversion Hp; subst. cbn [map concat]. rewrite <-app_assoc. eapply render_markup; [done|].
    simpl in Ht. by destruct (is_text x). }
  destruct (list_step 99 (every_step 99) xs (S (length text)) true [] (set_depth (set_bom (set_line d 1) bom) (0 + 1)) rest)
    as (fuel & ns & line & Hf & Hns & Hl); [done|done|by right|done|unfold text; lia| |].
  { unfold ready. cbn [errorID processEntities collapseWhitespace parsingDepth set_depth set_line set_bom].
    repeat split; (done || lia). }
  exists fuel, ns, line. split; [done|]. split; [done|]. unfold Parse_buffer.
  assert (SkipWhiteSpace ((if bom then bom_bytes else []) ++ text) 1 = ((if bom then bom_bytes else []) ++ text, 1)) as ->.
  { rewrite Etext. destruct bom; reflexivity. }
  assert (ReadBOM ((if bom then bom_bytes else []) ++ text) = (text, bom)) as ->.
  { rewrite Etext. destruct bom; reflexivity. }
  fold text in Hl. rewrite Etext in Hl |- *. cbn match.
  unfold with_depth, PushDepth, Error. cbn [parsingDepth set_depth set_bom set_line]. rewrite HD.
  change (0 + 1 =? TINYXML2_MAX_ELEMENT_DEPTH) with false. cbn match. cbn [errorID set_depth set_bom set_line].
  rewrite bool_decide_eq_false_2 by (rewrite He; auto). rewrite Hl. cbn [app].
  change (set_line (set_depth (set_bom (set_line d 1) bom) (0 + 1)) line) with (set_line (set_depth (set_bom d bom) 1) line).
  by destruct (ParseDeep_loop fuel true ns _ rest) as [[[[? ?] ?] ?]|].
Qed.

Lemma no_nul_app a b : no_nul a -> no_nul b -> no_nul (a ++ b).
Proof. intros. apply Forall_app. done. Qed.
Lemma no_nul_escape restricted s : no_nul s -> no_nul (escape restricted s).
Proof.
  intros H. induction H as [|b s Hb Hs IH]; [apply Forall_nil; done|]. rewrite escape_cons. apply no_nul_app; [|done].
  destruct (entityFlag restricted b); [|by constructor].
  assert (forallb (fun c => negb (beqb c nul)) (entity_text entities b) = true) as H.
  { clear. revert b. apply byte_cases. vm_compute. reflexivity. }
  apply Forall_forall. intros c Hc ->. rewrite forallb_forall in H. specialize (H nul). rewrite beqb_refl in H.
  discriminate H. by apply list_elem_of_In.
Qed.
Lemma no_nul_name name : valid_name name -> no_nul name.
Proof.
  intros (b & r & -> & Hb & Hr). constructor; [by intros ->; vm_compute in Hb|].
  eapply Forall_impl; [exact Hr|]. apply name_char_not_nul.
Qed.
Lemma no_nul_bs_dec s : bool_decide (Forall (fun b => b <> nul) (bs s)) = true -> no_nul (bs s).
Proof. intros H. by apply bool_decide_eq_true in H. Qed.
Lemma no_nul_render h x : printable h x -> no_nul (render x).
Proof.
  revert x. induction h as [|h IH]; intros x Hp; [done|].
  destruct x as [name attributes ch|t|t|t|t|t]; cbn [render].
  - destruct Hp as (Hn & Ha & _ & Hch & _). apply no_nul_name in Hn.
    apply no_nul_app; [by apply no_nul_bs_dec|]. apply no_nul_app; [done|]. apply no_nul_app.
    + induction Ha as [|a l [Han Hav] Hl IHl]; [apply Forall_nil; done|]. cbn [map concat]. apply no_nul_app; [|done].
      unfold render_attribute. repeat apply no_nul_app; try by apply no_nul_bs_dec.
      * by apply no_nul_name.
      * by constructor.
      * by apply no_nul_escape, clean_no_nul.
      * by constructor.
    + destruct ch as [|c ch]; [by apply no_nul_bs_dec|].
      apply no_nul_app; [by apply no_nul_bs_dec|].
      apply no_nul_app; [|apply no_nul_app; [by apply no_nul_bs_dec|apply no_nul_app; [done|by apply no_nul_bs_dec]]].
      induction Hch as [|c' l [Hc _] Hl IHl]; [apply Forall_nil; done|]. cbn [map concat]. apply no_nul_app; [by apply IH|done].
  - apply no_nul_escape, clean_no_nul, Hp.
  - repeat apply no_nul_app; try by apply no_nul_bs_dec. apply clean_no_nul, Hp.
  - repeat apply no_nul_app; try by apply no_nul_bs_dec. apply clean_no_nul, Hp.
  - repeat apply no_nul_app; try by apply no_nul_bs_dec. apply clean_no_nul, Hp.
  - repeat apply no_nul_app; try by apply no_nul_bs_dec. apply clean_no_nul, Hp.
Qed.

(** C5: what the compact printer writes for a printable document is read back by the
    parser, without error, as the same document: names, attributes and their
    values, texts, comments, declarations and their nesting.  Conditions: the document
    has a node, was made with [processEntities], and is parsed with the default
    options (white space preserved); [top_level]: no text at the top, declarations
    only there and in front, at most 99 levels; [printable]: names the parser accepts,
    distinct attribute names, no NUL and no carriage return anywhere, no text of only
    white space, no two texts in a row, and no comment, CDATA section, declaration or
    unknown node with its own end mark inside (an unknown node does not begin like a
    comment or a CDATA section either). *)
Theorem print_parse d :
  processEntities d = true -> top_level (map denote (children d)) -> children d <> [] ->
  exists p d', Print d (new true 0) = Ret p /\
    Parse (new_doc true false) (Some (out p)) None = Some d' /\
    errorID d' = XML_SUCCESS /\ writeBOM d' = writeBOM d /\
    map denote (children d') = map denote (children d).
Proof.
  intros He Htop Hne. destruct (Print_compact d He) as (p & Ep & Ho). exists p.
  set (xs := map denote (children d)) in *.
  assert (no_nul (out p)) as Hnn.
  { rewrite Ho. apply no_nul_app; [destruct (writeBOM d); [|apply Forall_nil; done]; by repeat constructor|].
    destruct Htop as [Hxs _]. clear -Hxs. induction Hxs as [|x l [Hx _] Hl IH]; [apply Forall_nil; done|].
    cbn [map concat]. apply no_nul_app; [by eapply no_nul_render|done]. }
  assert (xs <> []) as Hxne by (unfold xs; by destruct (children d)).
  assert (out p <> []) as Hone.
  { rewrite Ho. intros E. apply (f_equal length) in E. rewrite length_app in E. destruct Htop as [Hxs _].
    destruct xs as [|x l]; [done|]. inversion Hxs as [|? ? [Hx _] _]; subst. apply render_length in Hx.
    cbn [map concat] in E. rewrite length_app in E. simpl in E. lia. }
  destruct (Parse_buffer_level (writeBOM d) (Clear (new_doc true false)) xs [])
    as (fuel & ns & line & Hf & Hns & Hp); [done..|by right|]. rewrite app_nil_r in Hp.
  destruct fuel as [|fuel]; [simpl in Hf; lia|].
  eexists. split; [done|]. unfold Parse.
  rewrite until_nul_no_nul by done.
  rewrite (bool_decide_eq_false_2 (None = Some 0)) by done. rewrite (bool_decide_eq_false_2 (out p = [])) by done.
  cbn [orb]. rewrite Ho, Hp. cbn [ParseDeep_loop]. cbn match. split; [done|]. done.
Qed.

(** The text of a document, with its byte order mark. *)
Definition serialization (bom : bool) (xs : list xml) : bytes := (if bom then bom_bytes else []) ++ concat (map render xs).
Lemma serialization_text bom xs : top_level xs -> xs <> [] -> no_nul (serialization bom xs) /\ 0 < zlen (serialization bom xs).
Proof.
  intros [Hxs _] Hne. unfold serialization. split.
  - apply no_nul_app; [destruct bom; [by repeat constructor|by apply Forall_nil]|].
    clear -Hxs. induction Hxs as [|x l [Hx _] Hl IH]; [by apply Forall_nil|].
    cbn [map concat]. apply no_nul_app; [by eapply no_nul_render|done].
  - destruct xs as [|x l]; [done|]. inversion Hxs as [|? ? [Hx _] _]; subst.
    apply render_length in Hx. unfold zlen. cbn [map concat]. rewrite !length_app. lia.
Qed.
(** A file that holds a serialization. *)
Lemma LoadFile_serialization_bom bom d xs :
  processEntities d = true -> collapseWhitespace d = false -> top_level xs -> xs <> [] ->
  exists d', LoadFile_fp d (mk_file false (zlen (serialization bom xs)) (serialization bom xs)) = Some d' /\
    errorID d' = XML_SUCCESS /\ map denote (children d') = xs /\ writeBOM d' = bom.
Proof.
  intros Hpe Hcw Htop Hne. destruct (serialization_text bom xs Htop Hne) as [Hnn Hlen].
  unfold LoadFile_fp. cbn [getc_error file_length file_bytes].
  rewrite (proj2 (Z.eqb_neq (zlen (serialization bom xs)) (-1))), (proj2 (Z.eqb_neq (zlen (serialization bom xs)) 0)) by lia.
  rewrite ztake_all by lia. rewrite Z.eqb_refl. cbn [negb]. rewrite until_nul_no_nul by done.
  destruct (Parse_buffer_level bom (Clear d) xs []) as (fuel & ns & line & Hf & Hns & Hp); [done..|by right|].
  rewrite app_nil_r in Hp. fold (serialization bom xs) in Hp. rewrite Hp.
  destruct fuel as [|fuel]; [simpl in Hf; lia|]. eexists. split; [done|]. done.
Qed.
Lemma LoadFile_serialization d xs :
  processEntities d = true -> collapseWhitespace d = false -> top_level xs -> xs <> [] ->
  exists d', LoadFile_fp d (mk_file false (zlen (concat (map render xs))) (concat (map render xs))) = Some d' /\
    errorID d' = XML_SUCCESS /\ map denote (children d') = xs.
Proof.
  intros Hpe Hcw Htop Hne. destruct (LoadFile_serialization_bom false d xs Hpe Hcw Htop Hne) as (d' & E & He & Hd & _). by exists d'.
Qed.

(** an end tag outside every element ends the document without an error: the
    nodes before it are kept and the text after it is ignored, whatever it is. *)
Theorem stray_end_tag xs name garbage :
  top_level xs -> valid_name name ->
  exists d', Parse_buffer (Clear (new_doc true false)) (concat (map render xs) ++ bs "</" ++ name ++ bs ">" ++ garbage) = Some d' /\
    errorID d' = XML_SUCCESS /\ map denote (children d') = xs.
Proof.
  intros Htop Hn.
  destruct (Parse_buffer_level false (Clear (new_doc true false)) xs (bs "</" ++ name ++ bs ">" ++ garbage))
    as (fuel & ns & line & Hf & Hns & Hp); [done..|left; by eexists _, _|].
  cbn [app] in Hp. rewrite Hp.
  destruct fuel as [|fuel]; [lia|]. rewrite end_tag_step by done. eexists. split; [done|]. done.
Qed.

(** ** Concrete runs *)

Definition example_nodes : list xml :=
  [Elem (bs "web-app") [(bs "v", bs "<1>")] [Text (bs "a&b"); Comment (bs "c")]].
Lemma printable_example : top_level example_nodes.
Proof.
  assert (forall s, bool_decide (Forall (fun b => b <> nul /\ b <> CR) (bs s)) = true -> clean (bs s)) as Hc.
  { intros s H. by apply bool_decide_eq_true in H. }
  assert (forall b r, bool_decide (Forall (fun c => IsNameChar c = true) r) = true -> IsNameStartChar b = true -> valid_name (b :: r)) as Hv.
  { intros b r H1 H2. exists b, r. split; [done|]. split; [done|]. by apply bool_decide_eq_true in H1. }
  split; [|reflexivity]. constructor; [|by constructor]. split; [|reflexivity].
  split; [by apply (Hv (z2b 119) (bs "eb-app"))|].
  split; [constructor; [|by constructor]; split; [by apply (Hv (z2b 118) [])|by apply Hc]|].
  split; [apply NoDup_singleton|]. split; [|reflexivity].
  constructor; [split; [|reflexivity]; split; [by apply Hc|reflexivity]|].
  constructor; [split; [|reflexivity]; split; [by apply Hc|]|by constructor].
  intros k Hk. simpl in Hk. assert (k = 0%nat) as -> by lia. reflexivity.
Qed.

Lemma stray_end_tag_witness :
  exists d', Parse_buffer (Clear (new_doc true false))
    (concat (map render example_nodes) ++ bs "</" ++ bs "x" ++ bs ">" ++ bs "<<<") = Some d' /\ errorID d' = XML_SUCCESS.
Proof.
  assert (valid_name (bs "x")) as Hn by (exists (z2b 120), []; split; [done|]; split; [done|apply Forall_nil; done]).
  destruct (stray_end_tag example_nodes (bs "x") (bs "<<<") printable_example Hn) as (d' & E & H & _).
  exists d'. split; [exact E|exact H].
Defined.

Definition example_doc : doc :=
  set_children (new_doc true false)
    [XMLElement (SetStr (bs "web-app")) [mk_attribute (SetStr (bs "v")) (SetStr (bs "<1>")) 0] OPEN
       [XMLText (SetStr (bs "a&b")) false 0; XMLComment (SetStr (bs "c")) 0] 0].
Lemma print_parse_witness :
  exists p d', Print example_doc (new true 0) = Ret p /\
    out p = bs "<web-app v=" ++ [quote] ++ bs "&lt;1&gt;" ++ [quote] ++ bs ">a&amp;b<!--c--></web-app>" /\
    Parse (new_doc true false) (Some (out p)) None = Some d' /\ errorID d' = XML_SUCCESS.
Proof.
  destruct (print_parse example_doc eq_refl printable_example ltac:(discriminate)) as (p & d' & Ep & Hp & He & _).
  exists p, d'. split; [exact Ep|]. split; [|split; [exact Hp|exact He]].
  clear -Ep. vm_compute in Ep. injection Ep as <-. reflexivity.
Defined.

End RoundTrip.
