(* ===== verification/XmlValue.v ===== *)
(** * Numbers and booleans as attributes and texts: the overloads of SetAttribute,
    SetText, PushAttribute, PushText and Query in tinyxml2.h and tinyxml2.cpp

    A value is printed into a buffer of 200 characters, which becomes the text of
    the attribute or of the node; it is read back with [sscanf].  The overloads are
    one definition over the kind of the value; floating-point numbers are those of
    [XmlFloat]. *)

From S2P Require Import Prelude CStd XmlStr XmlFloat XmlParse XmlPrint.
#[local] Open Scope Z_scope.
Import XMLDocument StrPair XMLUtil Floats.

Module Values.

(** ** The kinds of values *)

Inductive kind := KInt | KUnsigned | KInt64 | KBool | KFloat | KDouble.
#[export] Instance kind_eq_dec : EqDecision kind.
Proof. solve_decision. Defined.
Definition carrier (k : kind) : Type := match k with KBool => bool | KFloat | KDouble => fp | _ => Z end.

(** [XMLUtil::ToStr]: [names] are the texts of the booleans. *)
Definition BUF_SIZE : Z := 200.
Definition ToStr (names : bytes * bytes) (k : kind) : carrier k -> bytes :=
  match k with
  | KBool => fun v => ztake (BUF_SIZE - 1) (ToStr_bool names v)
  | KFloat => fun v => ztake (BUF_SIZE - 1) (ToStr_float v)
  | KDouble => fun v => ztake (BUF_SIZE - 1) (ToStr_double v)
  | _ => fun v => ztake (BUF_SIZE - 1) (ToStr_int v)
  end.
(** [ToInt], [ToUnsigned], [ToInt64], [ToBool], [ToFloat] and [ToDouble]. *)
Definition conv (k : kind) : bytes -> option (carrier k) :=
  match k with
  | KInt => ToInt | KUnsigned => ToUnsigned | KInt64 => ToInt64 | KBool => ToBool | KFloat => ToFloat | KDouble => ToDouble
  end.
(** The values of the C++ type. *)
Definition in_range (k : kind) : carrier k -> Prop :=
  match k with
  | KInt => fun v => - 2 ^ 31 <= v < 2 ^ 31
  | KUnsigned => fun v => 0 <= v < 2 ^ 32
  | KInt64 => fun v => - 2 ^ 63 <= v < 2 ^ 63
  | KBool => fun _ => True
  | KFloat => is_value float_format
  | KDouble => is_value double_format
  end.
Definition zero (k : kind) : carrier k :=
  match k with
  | KBool => false
  | KFloat => Finite false 0 (emin float_format)
  | KDouble => Finite false 0 (emin double_format)
  | _ => 0
  end.

(** ** The overloads *)

(** [XMLAttribute::SetAttribute] and the value queries of an attribute. *)
Definition attribute_SetStr (v : bytes) (a : attribute) : attribute := mk_attribute (a_name a) (SetStr v) (a_line a).
Definition attribute_SetAttribute (names : bytes * bytes) (k : kind) (v : carrier k) : attribute -> attribute :=
  attribute_SetStr (ToStr names k v).
Definition attribute_Value (k : kind) (a : attribute) : carrier k := default (zero k) (QueryValue (conv k) a).2.

(** [XMLElement::FindOrCreateAttribute], with what is done to the attribute. *)
Fixpoint FindOrCreateAttribute (use : attribute -> attribute) (attributes : list attribute) (name : bytes) : list attribute :=
  match attributes with
  | a :: rest =>
      if bool_decide (c_str (a_name a) = name) then use a :: rest else a :: FindOrCreateAttribute use rest name
  | [] => [use (mk_attribute (SetStr name) StrPair.empty 0)]
  end.
Definition SetAttribute_value (names : bytes * bytes) (k : kind) (v : carrier k) (attributes : list attribute) (name : bytes)
  : list attribute := FindOrCreateAttribute (attribute_SetAttribute names k v) attributes name.
(** [Query..Attribute], [..Attribute] with a default, [QueryStringAttribute]. *)
Definition QueryAttribute_value (k : kind) (attributes : list attribute) (name : bytes) : XMLError * option (carrier k) :=
  QueryAttribute (conv k) attributes name.
Definition Attribute_value (k : kind) (attributes : list attribute) (name : bytes) (defaultValue : carrier k) : carrier k :=
  AttributeOr (conv k) attributes name defaultValue.
Definition QueryStringAttribute (attributes : list attribute) (name : bytes) : XMLError * option bytes :=
  match FindAttribute attributes name with
  | None => (XML_NO_ATTRIBUTE, None)
  | Some a => (XML_SUCCESS, Some (c_str (a_value a)))
  end.
(** Texts, and the printer. *)
Definition SetText_value (names : bytes * bytes) (k : kind) (v : carrier k) (n : node) : node := SetText n (ToStr names k v).
Definition QueryText_value (k : kind) (n : node) : XMLError * option (carrier k) := QueryText (conv k) n.
Definition PushAttribute_value (names : bytes * bytes) (k : kind) (name : bytes) (v : carrier k)
  : XMLPrinter.printer -> XMLPrinter.printer := XMLPrinter.PushAttribute name (ToStr names k v).
Definition PushText_value (names : bytes * bytes) (k : kind) (v : carrier k) : XMLPrinter.printer -> XMLPrinter.printer :=
  XMLPrinter.PushText (ToStr names k v) false.

(** ** Decimal numbers *)

Definition default_names : bytes * bytes := SetBoolSerialization None None.

Lemma drop_spaces_digit b s : isdigit b = true -> drop_spaces (b :: s) = b :: s.
Proof.
  intros Hb. cbn. assert (isspace b = false) as ->; [|done]. unfold isdigit in Hb. unfold isspace.
  apply andb_prop in Hb as [?%Z.leb_le ?%Z.leb_le]. rewrite !orb_false_iff, andb_false_iff, Z.eqb_neq, !Z.leb_gt. lia.
Qed.
Lemma to_decimal_cons n : 0 <= n -> exists b s, to_decimal n = b :: s /\ isdigit b = true.
Proof.
  intros Hn. pose proof (to_decimal_digits n Hn) as Hd. pose proof (digits_length 10 n) as Hl. unfold to_decimal in *.
  rewrite (proj2 (Z.ltb_ge n 0)) in * by done. destruct (digits 10 n) as [|d l]; [cbn in Hl; lia|].
  exists (digit_char d), (map digit_char l). split; [done|by inversion Hd].
Qed.
Lemma scan_to_decimal v : scan_decimal (to_decimal v) = Some v.
Proof.
  unfold scan_decimal. destruct (Z.ltb_spec v 0) as [Hv|Hv].
  - unfold to_decimal at 1. rewrite (proj2 (Z.ltb_lt v 0)) by done.
    assert (to_decimal (- v) = map digit_char (digits 10 (- v))) as E.
    { unfold to_decimal. by rewrite (proj2 (Z.ltb_ge (- v) 0)) by lia. }
    rewrite <-E. change (bs "-" ++ to_decimal (- v)) with (z2b 45 :: to_decimal (- v)).
    change (drop_spaces (z2b 45 :: to_decimal (- v))) with (z2b 45 :: to_decimal (- v)). cbn match.
    change (b2z (z2b 45) =? 45) with true. cbn match.
    rewrite take_digits_all by (unfold all_digits; apply to_decimal_digits; lia).
    destruct (to_decimal_cons (- v)) as (b & s & Es & _); [lia|]. rewrite Es. rewrite <-Es. rewrite of_to_decimal by lia. f_equal. lia.
  - destruct (to_decimal_cons v Hv) as (b & s & Es & Hb). pose proof (to_decimal_digits v Hv) as Hd. rewrite Es, drop_spaces_digit by done.
    unfold isdigit in Hb. apply andb_prop in Hb as [?%Z.leb_le ?%Z.leb_le].
    rewrite (proj2 (Z.eqb_neq (b2z b) 45)), (proj2 (Z.eqb_neq (b2z b) 43)) by lia.
    rewrite <-Es, take_digits_all by done. rewrite Es. rewrite <-Es, of_to_decimal by done. f_equal. lia.
Qed.
(** The text of a number fits the buffer, has no NUL and no character that the
    printer rewrites. *)
Lemma to_decimal_length v : - 2 ^ 64 < v < 2 ^ 64 -> zlen (to_decimal v) <= 65.
Proof.
  intros Hv. assert (forall n, 0 <= n < 2 ^ 64 -> zlen (map digit_char (digits 10 n)) <= 64) as Hn.
  { intros n Hn. unfold zlen. rewrite length_map. pose proof (digits_length 10 n) as [_ Hl].
    assert (Z.log2 n < 64) as Hg; [|lia]. destruct (decide (n = 0)) as [->|]; [done|]. apply Z.log2_lt_pow2; lia. }
  unfold to_decimal. destruct (Z.ltb_spec v 0).
  - unfold zlen in *. rewrite length_app. specialize (Hn (- v) ltac:(lia)). change (length (bs "-")) with 1%nat. lia.
  - specialize (Hn v ltac:(lia)). lia.
Qed.
Lemma to_decimal_chars v : Forall (fun b => isdigit b = true \/ b = z2b 45) (to_decimal v).
Proof.
  destruct (Z.leb_spec 0 v) as [Hv|Hv]; [eapply Forall_impl; [by apply to_decimal_digits|]; auto|].
  pose proof (to_decimal_digits (- v) ltac:(lia)) as Hd. unfold to_decimal in *. rewrite (proj2 (Z.ltb_ge (- v) 0)) in Hd by lia.
  rewrite (proj2 (Z.ltb_lt v 0)) by done. constructor; [by right|]. eapply Forall_impl; [exact Hd|]. auto.
Qed.
Lemma to_decimal_no_nul v : no_nul (to_decimal v).
Proof. eapply Forall_impl; [apply to_decimal_chars|]. by intros b [Hb| ->] E; subst. Qed.

(** The kinds whose values come back. *)
Definition lossless (k : kind) : Prop := k <> KFloat.
Lemma ToStr_number n : - 2 ^ 64 < n < 2 ^ 64 -> ztake (BUF_SIZE - 1) (ToStr_int n) = to_decimal n.
Proof. intros Hn. apply ztake_all. pose proof (to_decimal_length n Hn). unfold ToStr_int, BUF_SIZE. lia. Qed.
Lemma ToStr_double_read_back v : is_value double_format v ->
  ztake (BUF_SIZE - 1) (ToStr_double v) = ToStr_double v /\ ToDouble (ToStr_double v) = Some v /\ no_nul (ToStr_double v).
Proof.
  intros Hv. destruct (print_read_back double_format 17 v double_fits ltac:(lia) ltac:(done) Hv) as (E & Hn & Hl).
  split; [|done]. apply ztake_all. exact Hl.
Qed.

(** What a conversion makes of the text of a value of its kind. *)
Lemma conv_ToStr k v : lossless k -> in_range k v -> conv k (ToStr default_names k v) = Some v.
Proof.
  intros Hk. destruct k; cbn [carrier in_range conv ToStr]; intros Hv; [| | | |done|].
  - rewrite ToStr_number by lia. unfold ToInt. rewrite scan_to_decimal. cbn. f_equal. unfold clamp64, s32. rewrite Z.min_r, Z.max_r by lia.
    rewrite Z.mod_small by lia. lia.
  - rewrite ToStr_number by lia. unfold ToUnsigned. rewrite scan_to_decimal. cbn. f_equal. rewrite (proj2 (Z.ltb_ge v 0)) by lia.
    unfold u32. rewrite Z.min_r by lia. apply Z.mod_small. lia.
  - rewrite ToStr_number by lia. unfold ToInt64. rewrite scan_to_decimal. cbn. f_equal. unfold clamp64. lia.
  - by destruct v.
  - by destruct (ToStr_double_read_back v Hv) as (-> & E & _).
Qed.
Lemma ToStr_no_nul k v : lossless k -> in_range k v -> no_nul (ToStr default_names k v).
Proof.
  intros Hk. destruct k; cbn [carrier in_range ToStr]; intros Hv; [| | | |done|].
  1,2,3: rewrite ToStr_number by lia; apply to_decimal_no_nul.
  - destruct v; by repeat constructor.
  - by destruct (ToStr_double_read_back v Hv) as (-> & _ & Hn).
Qed.

(** ** Round trips *)

Lemma c_str_SetStr s : no_nul s -> c_str (SetStr s) = s.
Proof. intros Hs. unfold c_str. by rewrite GetStr_SetStr. Qed.
Lemma FindAttribute_create use l n :
  no_nul n -> (forall a, a_name (use a) = a_name a) ->
  exists a, FindAttribute (FindOrCreateAttribute use l n) n = Some (use a) /\
    (forall m, m <> n -> FindAttribute (FindOrCreateAttribute use l n) m = FindAttribute l m).
Proof.
  intros Hn Hu. induction l as [|b l (a & Ha & Hm)]; cbn [FindOrCreateAttribute].
  - eexists. cbn. rewrite Hu. cbn. rewrite c_str_SetStr by done. rewrite bool_decide_true by done. split; [done|].
    intros m Hm. by rewrite bool_decide_false.
  - destruct (bool_decide_reflect (c_str (a_name b) = n)) as [E|E]; cbn; rewrite ?Hu.
    + exists b. rewrite bool_decide_true by done. split; [done|]. intros m Hne. by rewrite !bool_decide_false by congruence.
    + exists a. rewrite bool_decide_false by done. split; [done|]. intros m Hm'. case_bool_decide; [done|auto].
Qed.
Lemma QueryText_SetText {A} (f : bytes -> option A) v name attributes closing ch line :
  no_nul v -> QueryText f (SetText (XMLElement name attributes closing ch line) v) =
    match f v with Some x => (XML_SUCCESS, Some x) | None => (XML_CAN_NOT_CONVERT_TEXT, None) end.
Proof.
  intros Hv. unfold QueryText, GetText, SetText. destruct ch as [|[] ch]; cbn; by rewrite c_str_SetStr.
Qed.

(** C28: a boolean, an integer of any of the C++ types, from end to end of its range,
    or any [double], infinities included, set as an attribute or as the text of an
    element is read back exactly by the query of the same type, and the other
    attributes stay as they are.  Booleans have their default texts (for others see
    [serialized_bool_not_read]). *)
Theorem value_round_trip k (v : carrier k) l n name attributes closing ch line :
  lossless k -> in_range k v -> no_nul n ->
  QueryAttribute_value k (SetAttribute_value default_names k v l n) n = (XML_SUCCESS, Some v) /\
  (forall m, m <> n -> FindAttribute (SetAttribute_value default_names k v l n) m = FindAttribute l m) /\
  QueryText_value k (SetText_value default_names k v (XMLElement name attributes closing ch line)) = (XML_SUCCESS, Some v).
Proof.
  intros Hk Hv Hn. destruct (FindAttribute_create (attribute_SetAttribute default_names k v) l n Hn) as (a & Ha & Hm); [done|].
  split; [|split; [done|]].
  - unfold QueryAttribute_value, QueryAttribute, SetAttribute_value, QueryValue. rewrite Ha. cbn.
    by rewrite c_str_SetStr, conv_ToStr by (done || by apply ToStr_no_nul).
  - unfold QueryText_value, SetText_value. by rewrite QueryText_SetText, conv_ToStr by (done || by apply ToStr_no_nul).
Qed.

(** Nine digits are enough for a float. *)
Lemma nine_digits_suffice v : in_range KFloat v -> ToFloat (print_float 9 v) = Some v.
Proof. intros Hv. by destruct (print_read_back float_format 9 v float_fits ltac:(lia) ltac:(done) Hv) as (E & _). Qed.

(** C29: a [float] is written with eight significant digits, and different ones get
    the same text: 1000000.0625 and 1000000.125, two neighbours, are both written as
    1000000.1.  The attributes they give are the same, and the query answers both
    times, with success, 1000000.125. *)
Theorem float_loses_digits l n :
  no_nul n ->
  let v := Finite false 16000001 (-4) : carrier KFloat in
  let w := Finite false 16000002 (-4) : carrier KFloat in
  in_range KFloat v /\ in_range KFloat w /\ v <> w /\
  ToStr default_names KFloat v = bs "1000000.1" /\ ToStr default_names KFloat w = bs "1000000.1" /\
  SetAttribute_value default_names KFloat v l n = SetAttribute_value default_names KFloat w l n /\
  QueryAttribute_value KFloat (SetAttribute_value default_names KFloat v l n) n = (XML_SUCCESS, Some w) /\
  QueryAttribute_value KFloat (SetAttribute_value default_names KFloat w l n) n = (XML_SUCCESS, Some w).
Proof.
  intros Hn v w. assert (in_range KFloat v /\ in_range KFloat w) as [Hv Hw].
  { split; (split; [done|]; split; [done|]; by left). }
  assert (ToStr default_names KFloat v = bs "1000000.1") as Ev by (vm_compute; reflexivity).
  assert (ToStr default_names KFloat w = bs "1000000.1") as Ew by (vm_compute; reflexivity).
  assert (SetAttribute_value default_names KFloat v l n = SetAttribute_value default_names KFloat w l n) as Es.
  { unfold SetAttribute_value, attribute_SetAttribute. by rewrite Ev, Ew. }
  assert (QueryAttribute_value KFloat (SetAttribute_value default_names KFloat w l n) n = (XML_SUCCESS, Some w)) as Eq.
  { destruct (FindAttribute_create (attribute_SetAttribute default_names KFloat w) l n Hn) as (a & Ha & _); [done|].
    unfold QueryAttribute_value, QueryAttribute, SetAttribute_value, QueryValue. rewrite Ha.
    unfold attribute_SetAttribute. rewrite Ew. by vm_compute. }
  rewrite Es. split; [exact Hv|]. split; [exact Hw|]. split; [discriminate|]. split; [exact Ev|]. split; [exact Ew|].
  split; [reflexivity|]. split; exact Eq.
Qed.

(** [QueryIntAttribute] reports success for a number that does not fit an int: it
    gives the number reduced to 32 bits. *)
Theorem QueryInt_wraps v l n :
  - 2 ^ 63 <= v < 2 ^ 63 -> no_nul n ->
  QueryAttribute_value KInt (SetAttribute_value default_names KInt64 v l n) n = (XML_SUCCESS, Some (s32 v)).
Proof.
  intros Hv Hn. destruct (FindAttribute_create (attribute_SetAttribute default_names KInt64 v) l n Hn) as (a & Ha & _); [done|].
  unfold QueryAttribute_value, QueryAttribute, SetAttribute_value, QueryValue. rewrite Ha. cbn -[ztake].
  rewrite ToStr_number by lia.
  rewrite c_str_SetStr by apply to_decimal_no_nul. unfold ToInt. rewrite scan_to_decimal. cbn. unfold clamp64. by rewrite Z.min_r, Z.max_r by lia.
Qed.

(** a boolean written with texts of one's own ([SetBoolSerialization]) is not read
    back, unless they are the standard ones or numbers: the query fails with
    XML_WRONG_ATTRIBUTE_TYPE. *)
Theorem serialized_bool_not_read t f v l n :
  let text := if v : bool then t else f in
  zlen text < BUF_SIZE -> no_nul text -> no_nul n -> scan_decimal text = None -> text <> bs "true" -> text <> bs "false" ->
  QueryAttribute_value KBool (SetAttribute_value (SetBoolSerialization (Some t) (Some f)) KBool v l n) n =
    (XML_WRONG_ATTRIBUTE_TYPE, None).
Proof.
  intros text Hlen Hnn Hn Hs Ht Hf.
  destruct (FindAttribute_create (attribute_SetAttribute (SetBoolSerialization (Some t) (Some f)) KBool v) l n Hn) as (a & Ha & _); [done|].
  unfold QueryAttribute_value, QueryAttribute, SetAttribute_value, QueryValue. rewrite Ha. cbn -[ztake].
  change (ToStr_bool (SetBoolSerialization (Some t) (Some f)) v) with text. rewrite ztake_all by (unfold BUF_SIZE in *; lia). rewrite c_str_SetStr by done.
  unfold ToBool, ToInt. rewrite Hs. cbn. by rewrite !bool_decide_false.
Qed.

(** ** Concrete runs *)

Lemma value_round_trip_witness :
  QueryAttribute_value KInt (SetAttribute_value default_names KInt (- 2 ^ 31) [] (bs "n")) (bs "n") = (XML_SUCCESS, Some (- 2 ^ 31)).
Proof.
  assert (in_range KInt (- 2 ^ 31)) as H1 by (cbn; lia). assert (no_nul (bs "n")) as H2 by (by repeat constructor).
  assert (lossless KInt) as H3 by discriminate.
  exact (proj1 (value_round_trip KInt (- 2 ^ 31) [] (bs "n") StrPair.empty [] OPEN [] 0 H3 H1 H2)).
Defined.
(** A tenth. *)
Lemma double_round_trips :
  QueryAttribute_value KDouble (SetAttribute_value default_names KDouble (Finite false 7205759403792794 (-56)) [] (bs "n")) (bs "n") =
    (XML_SUCCESS, Some (Finite false 7205759403792794 (-56))).
Proof. vm_compute. reflexivity. Qed.
Lemma float_loses_digits_witness :
  QueryAttribute_value KFloat (SetAttribute_value default_names KFloat (Finite false 16000001 (-4)) [] (bs "x")) (bs "x") =
    (XML_SUCCESS, Some (Finite false 16000002 (-4) : carrier KFloat)).
Proof.
  assert (no_nul (bs "x")) as Hn by (by repeat constructor).
  exact (proj1 (proj2 (proj2 (proj2 (proj2 (proj2 (proj2 (float_loses_digits [] (bs "x") Hn)))))))).
Defined.
Lemma QueryInt_wraps_witness :
  QueryAttribute_value KInt (SetAttribute_value default_names KInt64 (2 ^ 32 + 5) [] (bs "n")) (bs "n") = (XML_SUCCESS, Some 5).
Proof.
  assert (no_nul (bs "n")) as H2 by (by repeat constructor).
  refine (QueryInt_wraps (2 ^ 32 + 5) [] (bs "n") _ H2). lia.
Defined.
Lemma serialized_bool_not_read_witness :
  QueryAttribute_value KBool (SetAttribute_value (SetBoolSerialization (Some (bs "yes")) (Some (bs "no"))) KBool true [] (bs "b")) (bs "b") =
    (XML_WRONG_ATTRIBUTE_TYPE, None).
Proof.
  refine (serialized_bool_not_read (bs "yes") (bs "no") true [] (bs "b") _ _ _ _ _ _);
    [reflexivity|by repeat constructor|by repeat constructor|reflexivity|discriminate|discriminate].
Defined.

End Values.
