(* ===== verification/XmlSave.v ===== *)
(** * Saving a document: XMLDocument::SaveFile in tinyxml2.cpp, and what LoadFile
    finds afterwards

    A disk has files by name; a file can be opened for writing or not, and the disk
    has room for so many bytes: the C library writes what fits and reports the rest
    as an error of [fwrite]. *)

From S2P Require Import Prelude CStd XmlStr XmlParse XmlPrint XmlRound.
#[local] Open Scope Z_scope.
Import XMLUtil XMLPrinter XMLDocument RoundTrip.

Module Files.

Record disk := mk_disk { files : bytes -> option bytes; openable : bytes -> bool; room : Z }.
Definition write_file (name data : bytes) (k : disk) : disk :=
  mk_disk (fun n => if decide (n = name) then Some (ztake (room k) data) else files k n) (openable k) (room k).
Definition fopen_read (k : disk) (name : bytes) : option xml_file :=
  data ← files k name; Some (mk_file false (zlen data) data).

(** [SaveFile] to an open file: the error of the document after the print, whose
    writes are not tested, and what was written. *)
Definition SaveFile_fp (d : doc) (compact : bool) : outcome (doc * bytes) :=
  let d := ClearError d in
  p ← Print d (new compact 0);
  Ret (d, out p).
(** [SaveFile] to a name; opening the file for writing empties it. *)
Definition SaveFile (d : doc) (filename : option bytes) (compact : bool) (k : disk) : outcome (doc * disk) :=
  match filename with
  | None => Ret (SetError d XML_ERROR_FILE_COULD_NOT_BE_OPENED 0 (Some (bs "filename=<null>")), k)
  | Some name =>
      if openable k name then
        x ← SaveFile_fp d compact;
        let '(d, data) := (x : doc * bytes) in
        Ret (d, write_file name data k)
      else Ret (SetError d XML_ERROR_FILE_COULD_NOT_BE_OPENED 0 (Some (bs "filename=" ++ name)), k)
  end.

(** What a compact save leaves, whatever the room. *)
Lemma SaveFile_compact d name k :
  processEntities d = true -> openable k name = true ->
  SaveFile d (Some name) true k =
    Ret (ClearError d, write_file name (serialization (writeBOM d) (map denote (children d))) k).
Proof.
  intros He Ho. unfold SaveFile, SaveFile_fp. rewrite Ho.
  destruct (Print_compact (ClearError d)) as (p & -> & Hp); [done|]. cbn. by rewrite Hp.
Qed.

(** C25: a printable document saved in compact form to a disk with enough room and
    loaded again is the document: the same nodes, names, attributes and texts, and the
    same byte order mark, with no error.  The document has a node, was made with
    [processEntities], and is [top_level], that is printable in the sense of
    [RoundTrip.print_parse]; it is loaded with the default options, and the file can
    be opened. *)
Theorem save_load d name k :
  processEntities d = true -> top_level (map denote (children d)) -> children d <> [] -> openable k name = true ->
  zlen (serialization (writeBOM d) (map denote (children d))) <= room k ->
  exists d1 k1 d2, SaveFile d (Some name) true k = Ret (d1, k1) /\ errorID d1 = XML_SUCCESS /\
    LoadFile (fopen_read k1) (new_doc true false) (Some name) = Some d2 /\ errorID d2 = XML_SUCCESS /\
    map denote (children d2) = map denote (children d) /\ writeBOM d2 = writeBOM d.
Proof.
  intros He Htop Hne Ho Hroom.
  assert (map denote (children d) <> []) as Hne' by (by destruct (children d)).
  destruct (LoadFile_serialization_bom (writeBOM d) (Clear (new_doc true false)) _ eq_refl eq_refl Htop Hne') as (d2 & E2 & Hd2).
  eexists _, _, d2. split; [by apply SaveFile_compact|]. split; [done|]. destruct Hd2 as (? & ? & ?). split; [|done].
  unfold LoadFile, fopen_read, write_file. cbn [files]. rewrite decide_True by done. cbn. by rewrite ztake_all.
Qed.

(** [SaveFile] never reports that the disk is full: the file is cut, and the
    result is still XML_SUCCESS. *)
Theorem save_ignores_write_errors d name k :
  processEntities d = true -> openable k name = true ->
  zlen (serialization (writeBOM d) (map denote (children d))) > room k -> 0 <= room k ->
  exists d1 k1 data, SaveFile d (Some name) true k = Ret (d1, k1) /\ errorID d1 = XML_SUCCESS /\
    files k1 name = Some data /\ zlen data = room k.
Proof.
  intros He Ho Hroom Hpos. eexists _, _, _. split; [by apply SaveFile_compact|]. split; [done|].
  unfold write_file. cbn [files]. rewrite decide_True by done. split; [done|]. rewrite zlen_take; lia.
Qed.

Definition disk_of (n : Z) : disk := mk_disk (fun _ => None) (fun _ => true) n.
Lemma save_load_witness :
  exists d1 k1 d2, SaveFile example_doc (Some (bs "web.xml")) true (disk_of 1000) = Ret (d1, k1) /\
    LoadFile (fopen_read k1) (new_doc true false) (Some (bs "web.xml")) = Some d2 /\ errorID d2 = XML_SUCCESS.
Proof.
  assert (zlen (serialization (writeBOM example_doc) (map denote (children example_doc))) <= room (disk_of 1000)) as H1
    by (vm_compute; discriminate).
  destruct (save_load example_doc (bs "web.xml") (disk_of 1000) eq_refl printable_example ltac:(discriminate) eq_refl H1)
    as (d1 & k1 & d2 & E1 & _ & E2 & E3 & _).
  exists d1, k1, d2. exact (conj E1 (conj E2 E3)).
Defined.
Lemma save_ignores_write_errors_witness :
  exists d1 k1 data, SaveFile example_doc (Some (bs "web.xml")) true (disk_of 5) = Ret (d1, k1) /\ errorID d1 = XML_SUCCESS /\
    files k1 (bs "web.xml") = Some data /\ zlen data = 5.
Proof.
  assert (zlen (serialization (writeBOM example_doc) (map denote (children example_doc))) > room (disk_of 5)) as H1
    by (vm_compute; reflexivity).
  assert (0 <= room (disk_of 5)) as H2 by (vm_compute; discriminate).
  exact (save_ignores_write_errors example_doc (bs "web.xml") (disk_of 5) eq_refl eq_refl H1 H2).
Defined.

End Files.
