(* ===== verification/TowaMgr.v ===== *)
(** * The servlet manager: server/towa_mgr.cpp

    The manager scans the class path for archives, reads the deployment
    descriptor of each with the XML parser, starts the process that runs the
    servlets and restarts it when it has died.  The operating system answers
    according to what was done before: its answers are functions of the history
    of the calls that change something. *)

From S2P Require Import Prelude CStd XmlStr XmlParse XmlPrint XmlRound TowaIpc.

Module TowaMgr.
Import XMLDocument.

Definition FAILURE_TOWA_INVALID_TYPE : Z := 96.
Definition FAILURE_TOWA_CANNOT_SPAWN : Z := 97.

Inductive TowaType := namedpipe | tcpip | sharedmem.
Definition TowaType_of (n : Z) : option TowaType :=
  if n =? 0 then Some namedpipe else if n =? 1 then Some tcpip else if n =? 2 then Some sharedmem else None.

Record TowaServlet := mk_servlet { name : bytes; path : bytes }.
(** [TowaServlet::TowaServlet]: a string made from a null pointer is undefined. *)
Definition new_servlet (n u : option bytes) : outcome TowaServlet :=
  n ← of_access n; u ← of_access u; Ret (mk_servlet n u).

(** ** The operating system *)

Inductive action :=
| Mkdir (dir : bytes)
| Popen (command : bytes)
| Fork (pid : Z)
| Execv (file : bytes)
| Waitpid (pid : Z).
#[export] Instance action_eq_dec : EqDecision action.
Proof. solve_decision. Defined.
Record dirent := mk_dirent { d_name : bytes; d_is_dir : bool; d_is_reg : bool }.

Class OS := {
  os_readdir : list action -> option (list dirent);
  os_fopen : list action -> bytes -> option xml_file;
  os_fork : list action -> Z;
  os_waitpid : list action -> Z -> Z;
  (** The order in which a hash set is walked through. *)
  os_set_order : list bytes -> list bytes }.

(** The state of the manager: the process number, not initialised before
    [start]; and the history. *)
Record world := mk_world { pid : option Z; history : list action }.
Definition M (A : Type) : Type := world -> world * outcome A.
#[export] Instance M_ret : MRet M := fun A a w => (w, Ret a).
#[export] Instance M_bind : MBind M := fun A B f m w =>
  match m w with
  | (w, Ret a) => f a w
  | (w, Throw c) => (w, Throw c)
  | (w, Undef) => (w, Undef)
  end.
Definition lift {A} (r : outcome A) : M A := fun w => (w, r).
Definition act (a : action) : M unit := fun w => (mk_world (pid w) (history w ++ [a]), Ret tt).
Definition ask {A} (f : list action -> A) : M A := fun w => (w, Ret (f (history w))).
Definition set_pid (p : Z) : M unit := fun w => (mk_world (Some p) (history w), Ret tt).

Section with_os.
Context `{OS}.

(** ** Deployment descriptors *)

Definition servlet_mapping (d : doc) : outcome TowaServlet :=
  webapp ← of_access (FirstChildElement (children d) (Some (bs "web-app")));
  elt ← of_access (FirstChildElement (node_children (fst webapp)) (Some (bs "servlet-mapping")));
  servletName ← of_access (FirstChildElement (node_children (fst elt)) (Some (bs "servlet-name")));
  urlPattern ← of_access (FirstChildElement (node_children (fst elt)) (Some (bs "url-pattern")));
  new_servlet (GetText (fst servletName)) (GetText (fst urlPattern)).

Definition pathWebXml (war : bytes) : bytes := bs "./classpath/" ++ war ++ bs "/WEB-INF/web.xml".
(** The result of [LoadFile] is not tested. *)
Definition readWebXML (war : bytes) : M TowaServlet :=
  fopen ← ask os_fopen;
  match LoadFile fopen (new_doc true false) (Some (pathWebXml war)) with
  | Some d => lift (servlet_mapping d)
  | None => lift Undef
  end.

(** The command is started and not waited for. *)
Definition uncompressWar (war_name : bytes) : M unit :=
  let war_file := bs "unzip " ++ war_name ++ bs ".war -d " ++ war_name in
  act (Mkdir war_name);; act (Popen war_file).

(** ** The class path *)

(** [tmp.compare(tmp.size() - 4, 4, ".war", 4) == 0]: the position wraps around
    when the name is shorter than four bytes. *)
Definition ends_with_war (tmp : bytes) : outcome bool :=
  if zlen tmp <? 4 then Throw (std_exn out_of_range)
  else Ret (bool_decide (zdrop (zlen tmp - 4) tmp = bs ".war")).
Definition set_insert (s : list bytes) (x : bytes) : list bytes := if decide (x ∈ s) then s else s ++ [x].

Fixpoint scan_entries (entries : list dirent) (wars dirs : list bytes) : outcome (list bytes * list bytes) :=
  match entries with
  | [] => Ret (wars, dirs)
  | dp :: entries =>
      let tmp := d_name dp in
      let dirs := if d_is_dir dp then set_insert dirs tmp else dirs in
      if d_is_reg dp then
        is_war ← ends_with_war tmp;
        scan_entries entries (if is_war : bool then set_insert wars (ztake (zlen tmp - 4) tmp) else wars) dirs
      else scan_entries entries wars dirs
  end.

Fixpoint deploy (wars dirs : list bytes) (servlets : list TowaServlet) : M (list TowaServlet) :=
  match wars with
  | [] => mret servlets
  | war :: wars =>
      (if decide (war ∈ dirs) then mret tt else uncompressWar (bs "./classpath/" ++ war));;
      servlet ← readWebXML war;
      deploy wars dirs (servlets ++ [servlet])
  end.

(** [readdir] of a directory that could not be opened is undefined. *)
Definition scanClasspath : M (list TowaServlet) :=
  dirp ← ask os_readdir;
  entries ← lift (of_access dirp);
  sets ← lift (scan_entries entries [] []);
  deploy (os_set_order (fst sets)) (snd sets) [].

(** ** The process of the servlets *)

Definition waitpid : M Z :=
  p ← (fun w => (w, of_access (pid w)));
  act (Waitpid p);;
  ask (fun h => os_waitpid h p).

(** [127] is the exit status of the child when [execv] fails. *)
Definition launchAppPool : M unit :=
  p ← ask os_fork;
  act (Fork p);; set_pid p;;
  if p =? 0 then act (Execv (bs "./towa"));; lift (Throw (process_exit 127))
  else
    res ← waitpid;
    if negb (res =? 0) then lift (Throw FAILURE_TOWA_CANNOT_SPAWN) else mret tt.

(** [TowaMgr::TowaMgr]: the transport is chosen and, for a pipe, created. *)
Definition new_TowaMgr (t : option TowaType) (ping pong : Z * Z) : outcome TowaType :=
  match t with
  | Some namedpipe => TowaIPC.new_TowaPipe ping pong;; Ret namedpipe
  | Some t => Ret t
  | None => Throw FAILURE_TOWA_INVALID_TYPE
  end.

Definition start : M unit := scanClasspath;; launchAppPool.
Definition check : M unit :=
  res ← waitpid;
  if negb (res =? 0) then start else mret tt.
(** [ipc->sendMsg], a virtual call: what was written, and the answer, which is a null
    pointer unless the transport is the pipe. *)
Definition ipc_sendMsg `{Heap} (ipc : TowaType) (opens : bool) (verb classname querystring : bytes)
    (pong : bytes -> option bytes) : outcome (bytes * option TowaIPC.Message) :=
  match ipc with
  | namedpipe => r ← TowaIPC.sendMsg opens verb classname querystring pong; Ret (fst r, Some (snd r))
  | tcpip => m ← TowaIPC.TowaTCP_sendMsg verb classname querystring; Ret ([], m)
  | sharedmem => m ← TowaIPC.TowaSharedMem_sendMsg verb classname querystring; Ret ([], m)
  end.
Definition sendMsg `{Heap} (ipc : TowaType) (opens : bool) (verb classname querystring : bytes)
    (pong : bytes -> option bytes) : M (bytes * option TowaIPC.Message) :=
  check;; lift (ipc_sendMsg ipc opens verb classname querystring pong).

(** ** What a descriptor says *)

Import XMLPrinter RoundTrip.

(** The same look-ups on documents as values. *)
Fixpoint element_named (name : bytes) (l : list xml) : option (list xml) :=
  match l with
  | Elem n _ ch :: rest => if bool_decide (n = name) then Some ch else element_named name rest
  | _ :: rest => element_named name rest
  | [] => None
  end.
Definition text_of (l : list xml) : option bytes :=
  match l with Text t :: _ => Some t | CData t :: _ => Some t | _ => None end.
Definition servlet_of (xs : list xml) : option TowaServlet :=
  webapp ← element_named (bs "web-app") xs;
  elt ← element_named (bs "servlet-mapping") webapp;
  servletName ← element_named (bs "servlet-name") elt;
  urlPattern ← element_named (bs "url-pattern") elt;
  n ← text_of servletName;
  u ← text_of urlPattern;
  Some (mk_servlet n u).

Lemma FirstChildElement_denote name l :
  element_named name (map denote l) =
  option_map (fun p => map denote (node_children (fst p))) (FirstChildElement l (Some name)).
Proof.
  induction l as [|n l IH]; [done|]. destruct n as [v a c ch line|v [] line|v line|v line|v line]; cbn; try done.
  by case_bool_decide.
Qed.
Lemma GetText_denote n : text_of (map denote (node_children n)) = GetText n.
Proof. unfold GetText. destruct (node_children n) as [|[| v [] line| | |] l]; done. Qed.

Lemma servlet_mapping_denote d :
  servlet_mapping d = of_access (servlet_of (map denote (children d))).
Proof.
  unfold servlet_mapping, servlet_of.
  generalize (bs "web-app"), (bs "servlet-mapping"), (bs "servlet-name"), (bs "url-pattern"). intros n1 n2 n3 n4.
  rewrite FirstChildElement_denote.
  destruct (FirstChildElement (children d) _) as [[webapp r1]|]; [|done]. cbn.
  rewrite FirstChildElement_denote. destruct (FirstChildElement (node_children webapp) _) as [[elt r2]|]; [|done]. cbn.
  rewrite !FirstChildElement_denote.
  destruct (FirstChildElement (node_children elt) (Some n3)) as [[sn r3]|]; [|done]. cbn.
  destruct (FirstChildElement (node_children elt) (Some n4)) as [[up r4]|]; cbn; [|done].
  rewrite !GetText_denote. by destruct (GetText sn), (GetText up).
Qed.

(** A file that holds the serialization of a document. *)
Definition holds (fp : option xml_file) (xs : list xml) : Prop :=
  fp = Some (mk_file false (zlen (concat (map render xs))) (concat (map render xs))) /\ top_level xs /\ xs <> [].

(** the descriptor that serializes a document is read as the first mapping of
    its first web-app; a document without one of the elements, or without a text
    in one of them, makes the manager use a null pointer. *)
Theorem readWebXML_spec war w xs :
  holds (os_fopen (history w) (pathWebXml war)) xs ->
  readWebXML war w = (w, of_access (servlet_of xs)).
Proof.
  intros (Hf & Htop & Hne). unfold readWebXML, mbind, M_bind, ask, LoadFile. cbv beta iota zeta. rewrite Hf.
  destruct (LoadFile_serialization (Clear (new_doc true false)) xs) as (d' & -> & _ & Hd); [done..|].
  unfold lift. rewrite servlet_mapping_denote. by rewrite Hd.
Qed.

(** A descriptor that is not there gives an empty document. *)
Lemma readWebXML_missing war w :
  os_fopen (history w) (pathWebXml war) = None -> readWebXML war w = (w, Undef).
Proof.
  intros Hf. unfold readWebXML, mbind, M_bind, ask, LoadFile. cbv beta iota zeta. by rewrite Hf.
Qed.

(** ** Scanning *)




(** one regular file of the class path whose name has fewer than four
    characters makes the scan, and so the start of the server, fail. *)
Theorem scanClasspath_short_name w entries dp :
  os_readdir (history w) = Some entries -> dp ∈ entries -> d_is_reg dp = true -> zlen (d_name dp) < 4 ->
  start w = (w, Throw (std_exn out_of_range)).
Proof.
  intros Hr Hin Hreg Hlen. unfold start, scanClasspath, mbind, M_bind, ask, lift. cbv beta iota zeta. rewrite Hr.
  cbn [of_access].
  assert (forall wars dirs, scan_entries entries wars dirs = Throw (std_exn out_of_range)) as ->; [|done].
  clear Hr. induction entries as [|e entries IH]; intros wars dirs; [by apply elem_of_nil in Hin|].
  cbn [scan_entries]. apply elem_of_cons in Hin as [<-|Hin].
  - rewrite Hreg. unfold ends_with_war. by rewrite (proj2 (Z.ltb_lt (zlen (d_name dp)) 4)).
  - destruct (d_is_reg e); [|by apply IH]. unfold ends_with_war.
    destruct (zlen (d_name e) <? 4); [done|]. cbn [mbind outcome_bind]. by apply IH.
Qed.

(** What deploying an archive does: it is unpacked unless its folder exists. *)
Definition unpack (dirs : list bytes) (war : bytes) : list action :=
  if decide (war ∈ dirs) then []
  else let dir := bs "./classpath/" ++ war in [Mkdir dir; Popen (bs "unzip " ++ dir ++ bs ".war -d " ++ dir)].

Lemma deploy_step war wars dirs acc w :
  deploy (war :: wars) dirs acc w =
  (servlet ← readWebXML war; deploy wars dirs (acc ++ [servlet])) (mk_world (pid w) (history w ++ unpack dirs war)).
Proof.
  cbn [deploy]. unfold unpack. unfold mbind at 1, M_bind at 1. destruct (decide (war ∈ dirs)).
  - rewrite app_nil_r. by destruct w.
  - unfold uncompressWar, act. unfold mbind at 1, M_bind at 1. unfold mbind at 1, M_bind at 1. cbn [history pid].
    rewrite <-app_assoc. done.
Qed.


Lemma deploy_missing war wars dirs acc w :
  os_fopen (history w ++ unpack dirs war) (pathWebXml war) = None ->
  deploy (war :: wars) dirs acc w = (mk_world (pid w) (history w ++ unpack dirs war), Undef).
Proof. intros Hf. rewrite deploy_step. unfold mbind, M_bind. by rewrite readWebXML_missing. Qed.


(** the archive is unpacked in the background: when the first archive has no
    folder and its descriptor has not appeared at once, the start of the server
    uses a null pointer. *)
Theorem unpacking_not_awaited w war wars dirs acc :
  war ∉ dirs ->
  os_fopen (history w ++ unpack dirs war) (pathWebXml war) = None ->
  (deploy (war :: wars) dirs acc w).2 = Undef.
Proof. intros _ Hf. by rewrite deploy_missing. Qed.

(** ** The process *)

(** a message is sent to the process when it is alive; when it has ended the
    class path is scanned again and a new process started first; before [start]
    the process number is not initialised. *)
Theorem sendMsg_restarts `{Heap} ipc opens verb classname querystring pong w :
  let send := ipc_sendMsg ipc opens verb classname querystring pong in
  match pid w with
  | None => sendMsg ipc opens verb classname querystring pong w = (w, Undef)
  | Some p =>
      let w1 := mk_world (Some p) (history w ++ [Waitpid p]) in
      (os_waitpid (history w1) p = 0 -> sendMsg ipc opens verb classname querystring pong w = (w1, send)) /\
      (forall w2 s q,
         os_waitpid (history w1) p <> 0 -> scanClasspath w1 = (w2, Ret s) -> os_fork (history w2) = q -> q <> 0 ->
         let w3 := mk_world (Some q) (history w2 ++ [Fork q] ++ [Waitpid q]) in
         sendMsg ipc opens verb classname querystring pong w =
           (w3, if os_waitpid (history w3) q =? 0 then send else Throw FAILURE_TOWA_CANNOT_SPAWN))
  end.
Proof.
  cbn zeta. destruct (pid w) as [p|] eqn:Ep.
  2: { unfold sendMsg, check, waitpid, mbind, M_bind. rewrite Ep. destruct w. cbn in *. by subst. }
  split.
  - intros Hw. unfold sendMsg, check, waitpid, act, ask, lift, mbind, M_bind. rewrite Ep. cbn [of_access pid history] in *.
    by rewrite Hw.
  - intros w2 s q Hw Hs Hq Hq0.
    unfold sendMsg, check, waitpid, act, ask, lift, mbind, M_bind. rewrite Ep. cbn [of_access pid history] in *.
    rewrite (proj2 (Z.eqb_neq (os_waitpid (history w ++ [Waitpid p]) p) 0)) by done. cbn [negb].
    unfold start, mbind, M_bind. rewrite Hs.
    unfold launchAppPool, waitpid, act, ask, lift, set_pid, mbind, M_bind. cbn [of_access pid history].
    rewrite Hq, (proj2 (Z.eqb_neq q 0)) by done. cbn [of_access pid history]. rewrite <-app_assoc.
    by destruct (os_waitpid (history w2 ++ [Fork q] ++ [Waitpid q]) q =? 0).
Qed.

End with_os.

(** ** Concrete runs *)
Import XMLUtil XMLPrinter RoundTrip.

Definition descriptor : list xml :=
  [Elem (bs "web-app") []
     [Elem (bs "servlet-mapping") []
        [Elem (bs "servlet-name") [] [Text (bs "Hello")]; Elem (bs "url-pattern") [] [Text (bs "/hello")]]]].
(** A class path with one archive; [unpacked] is whether its folder is there. *)
Definition example_os (unpacked : bool) : OS := {|
  os_readdir _ := Some (mk_dirent (bs "foo.war") false true :: if unpacked then [mk_dirent (bs "foo") true false] else []);
  os_fopen _ name :=
    if unpacked then Some (mk_file false (zlen (concat (map render descriptor))) (concat (map render descriptor))) else None;
  os_fork _ := 7;
  os_waitpid h p := if p =? 7 then 0 else p;
  os_set_order s := s |}.
Definition idle : world := mk_world None [].
Definition running : world := mk_world (Some 7) [].

Lemma descriptor_top_level : top_level descriptor.
Proof.
  assert (forall b r, bool_decide (Forall (fun c => IsNameChar c = true) (bs r)) = true -> IsNameStartChar b = true ->
    valid_name (b :: bs r)) as Hv.
  { intros b r H1 H2. exists b, (bs r). split; [done|]. split; [done|]. by apply bool_decide_eq_true in H1. }
  assert (forall h name ch, valid_name name -> Forall (fun c => printable h c /\ is_declaration c = false) ch ->
    separated ch = true -> printable (S h) (Elem name [] ch)) as He.
  { intros h name ch Hn Hc Hs. split; [done|]. split; [by constructor|]. split; [apply NoDup_nil_2|]. done. }
  assert (forall h s, bool_decide (Forall (fun b => b <> nul /\ b <> CR) (bs s)) = true -> forallb IsWhiteSpace (bs s) = false ->
    printable (S h) (Text (bs s))) as Ht.
  { intros h s H1 H2. split; [|done]. by apply bool_decide_eq_true in H1. }
  split; [|reflexivity]. apply Forall_singleton. split; [|reflexivity].
  apply He; [by apply (Hv (z2b 119) "eb-app"%string)| |reflexivity]. apply Forall_singleton. split; [|reflexivity].
  apply He; [by apply (Hv (z2b 115) "ervlet-mapping"%string)| |reflexivity].
  apply Forall_cons. split; [split; [|reflexivity]|apply Forall_singleton; split; [|reflexivity]].
  - apply He; [by apply (Hv (z2b 115) "ervlet-name"%string)| |reflexivity]. apply Forall_singleton. split; [by apply Ht|reflexivity].
  - apply He; [by apply (Hv (z2b 117) "rl-pattern"%string)| |reflexivity]. apply Forall_singleton. split; [by apply Ht|reflexivity].
Qed.
Lemma descriptor_holds h name : holds (@os_fopen (example_os true) h name) descriptor.
Proof. split; [reflexivity|]. split; [apply descriptor_top_level|done]. Qed.

Lemma readWebXML_spec_witness :
  @readWebXML (example_os true) (bs "foo") idle = (idle, Ret (mk_servlet (bs "Hello") (bs "/hello"))).
Proof. exact (@readWebXML_spec (example_os true) (bs "foo") idle descriptor (descriptor_holds _ _)). Defined.

(** A class path with one short file name. *)
Definition short_os : OS := {|
  os_readdir _ := Some [mk_dirent (bs "a") false true]; os_fopen _ _ := None; os_fork _ := 7;
  os_waitpid _ _ := 0; os_set_order s := s |}.
Lemma scanClasspath_short_name_witness :
  @start short_os idle = (idle, Throw (std_exn out_of_range)).
Proof.
  apply (@scanClasspath_short_name short_os idle [mk_dirent (bs "a") false true] (mk_dirent (bs "a") false true));
    [reflexivity|apply elem_of_cons; left; reflexivity|reflexivity|reflexivity].
Defined.



Lemma unpacking_not_awaited_witness :
  (@deploy (example_os false) [bs "foo"] [] [] idle).2 = Undef.
Proof. apply (@unpacking_not_awaited (example_os false) idle (bs "foo") [] [] []); [apply not_elem_of_nil|reflexivity]. Defined.

(** The process is alive, then not. *)
Lemma sendMsg_restarts_witness :
  @sendMsg (example_os true) zero_heap namedpipe true (bs "GET") (bs "C") [] (fun _ => Some (put_u32 3 ++ bs "xhi")) running =
    (mk_world (Some 7) [Waitpid 7],
     @ipc_sendMsg zero_heap namedpipe true (bs "GET") (bs "C") [] (fun _ => Some (put_u32 3 ++ bs "xhi"))).
Proof.
  apply (@sendMsg_restarts (example_os true) zero_heap namedpipe true (bs "GET") (bs "C") [] (fun _ => Some (put_u32 3 ++ bs "xhi")) running).
  reflexivity.
Defined.
End TowaMgr.
