(* ===== verification/Program.v ===== *)
(** * The server program as a whole: main in server/sawad.cpp, with the constructors
    of SawaServer (server/sawa_srv.cpp) and HTTPServer (server/http_srv.cpp)

    [main] reads the options, constructs the server, which starts the thread of the
    administration interface, and serves; as a daemon it forks in between.  What the
    operating system answers is a parameter. *)

From S2P Require Import Prelude CStd Util ThreadPool Display Server SawaSrv SawaAdmin TowaMgr.
#[local] Open Scope Z_scope.

Module Program.

(** The threads of the process, besides the workers, which [Server::start] creates
    later. *)
Inductive thread := MainThread | AdminThread.

(** The answers of the operating system: to [socket], [bind], [pthread_create],
    [fopen] (the file, or whether it can be created), the [fwrite] that fills a new
    file, [fork] and [setsid], the creation of the two pipes of the servlets and that of
    the mutexes of the screen and of the pool; [existing_log] is the file the daemon logs to, and
    [tv_usec] the time the debug screen prints. *)
Record env := mk_env {
  socket_result : Z; bind_result : Z; admin_create_result : Z;
  filesystem : option bytes; can_create : bool; errno : Z;
  write_result : io_fault; fork_result : Z; setsid_result : Z; ping : Z * Z; pong : Z * Z;
  screen_mutex : Z; idle_mutex : Z; all_mutex : Z; existing_log : bytes; tv_usec : Z }.

Record server := mk_server { base : Server.t; threads : list thread }.

(** What a constructor leaves, and the debug information of its exception. *)
Definition constructed : Type := outcome server * Util.debug_info.

(** [Server::Server], its last line included. *)
Definition new_Server (e : env) (port : Z) (d : Util.debug_info) : constructed :=
  match Server.new (socket_result e) (bind_result e) port d with
  | (Ret s, d) => (Ret (mk_server s (MainThread :: if admin_create_result e =? 0 then [AdminThread] else [])), d)
  | (Throw c, d) => (Throw c, d)
  | (Undef, d) => (Undef, d)
  end.
(** [SawaServer::SawaServer], which uses the screen: its message, should the file have
    to be created, comes before the [init] of the screen. *)
Definition new_SawaServer (e : env) (screen : Screen.Display) (w : Screen.world) (d : Util.debug_info)
  : constructed * Screen.world :=
  match new_Server e 5000 d with
  | (Ret s, d) =>
      let (r, w) := SawaServer.new screen w (write_result e) (filesystem e) (can_create e) in
      (match r with
       | Ret _ => (Ret s, d)
       | Throw c => (Throw c, Util.setDebugStr (bs "./filesystem") (Util.setDebugInt (errno e) d))
       | Undef => (Undef, d)
       end, w)
  | r => (r, w)
  end.
(** [HTTPServer::HTTPServer]. *)
Definition new_HTTPServer `{TowaMgr.OS} (e : env) (towa_flag : bool) (d : Util.debug_info) : constructed :=
  match new_Server e 8080 d with
  | (Ret s, d) =>
      if towa_flag then
        match TowaMgr.new_TowaMgr (Some TowaMgr.namedpipe) (ping e) (pong e) with
        | Ret _ =>
            match snd (TowaMgr.start (TowaMgr.mk_world None [])) with
            | Ret _ => (Ret s, d)
            | Throw c => (Throw c, d)
            | Undef => (Undef, d)
            end
        | Throw c => (Throw c, d)
        | Undef => (Undef, d)
        end
      else (Ret s, d)
  | r => r
  end.

(** [fork] copies only the thread that calls it. *)
Definition forked (s : server) : server := mk_server (base s) [MainThread].

(** How [main] ends: with an exit status and what it has printed, by an exception
    nothing catches, by undefined behaviour; or the server whose [start] is called,
    with the screen and the pool it uses and what has been shown so far. *)
Inductive result :=
| Exited (code : Z) (printed : bytes)
| Terminated (e : std_exception)
| Crashed
| Serving (s : server) (screen : Screen.Display) (w : Screen.world) (pool : ThreadPool.Pool.ThreadPool).

(** An exception that reaches the handler of [main], which catches integers. *)
Definition handler (d : Util.debug_info) (w : Screen.world) (x : exn) : result :=
  match x with
  | int_exn failure_code => Exited 0 (Screen.out w ++ Util.displayError d failure_code)
  | std_exn x => Terminated x
  | process_exit code => Exited code (Screen.out w)
  end.

Definition main `{TowaMgr.OS} (e : env) (argv0 : bytes) (args : list bytes) : result :=
  match Daemon.parse args Daemon.no_options with
  | None => Exited 0 (bs "Usage: " ++ argv0 ++ bs " [-daemon] [-http]" ++ [nl; nl])
  | Some o =>
      let d := Util.Build_debug_info 0 [] in
      let w := Screen.blank in
      match Screen.make_display (tv_usec e) (Daemon.debug_flag o) (screen_mutex e) (existing_log e) (Daemon.display_code o) (Daemon.http o) with
      | Ret screen =>
          match (if Daemon.http o then (new_HTTPServer e (Daemon.towa_flag o) d, w) else new_SawaServer e screen w d) with
          | (Ret s, d, w) =>
              match ThreadPool.Pool.make_ThreadPool (idle_mutex e) (all_mutex e) with
              | Ret pool =>
                  if Daemon.daemon o then
                    match Daemon.start_as_daemon (fork_result e) (setsid_result e) with
                    | Daemon.Exit code => Exited code (Screen.out w)
                    | Daemon.Serve => Serving (forked s) screen w pool
                    end
                  else Serving s screen w pool
              | Throw x => handler d w x
              | Undef => Crashed
              end
          | (Throw x, d, w) => handler d w x
          | (Undef, _, _) => Crashed
          end
      | Throw x => handler d w x
      | Undef => Crashed
      end
  end.

(** [ctrl_c_handler], installed before anything is constructed: [server] is the null
    pointer until its constructor has ended. *)
Definition ctrl_c_handler (screen : Screen.Display) (server : option server) (p : ThreadPool.Pool.ThreadPool) (w : Screen.world)
  : outcome (list Z * Screen.world) :=
  match server with
  | None => Undef
  | Some _ => Server.stop screen p w
  end.

(** ** What the program does *)

Definition sockets_ok (e : env) : Prop := socket_result e <> -1 /\ 0 <= bind_result e.

Lemma new_Server_ok e port d : sockets_ok e -> new_Server e port d =
  (Ret (mk_server (Server.mk (socket_result e) port) (MainThread :: if admin_create_result e =? 0 then [AdminThread] else [])), d).
Proof.
  intros [Hs Hb]. unfold new_Server, Server.new. by rewrite (proj2 (Z.eqb_neq _ _)), (proj2 (Z.ltb_ge _ _)).
Qed.

Definition mutexes_ok (e : env) : Prop := screen_mutex e = 0 /\ idle_mutex e = 0 /\ all_mutex e = 0.
Lemma make_display_ok usec debug log code http :
  Screen.make_display usec debug 0 log code http = Ret (Screen.select_display usec debug log code http).
Proof. unfold Screen.make_display. by rewrite andb_false_r. Qed.

(** What the constructor of the file server does to the screen. *)
Lemma SawaServer_new_shows e screen w w' :
  (filesystem e = None -> Screen.debug screen SawaServer.creating w = Ret w' /\ can_create e = true) ->
  exists t, SawaServer.new screen w (write_result e) (filesystem e) (can_create e) =
    (Ret t, if filesystem e then w else w').
Proof.
  intros Hf. unfold SawaServer.new, SawaServer.getFilesystemFile. destruct (filesystem e); [by eexists|].
  destruct Hf as [-> ->]; [done|]. by eexists.
Qed.

(** C36: without [-help] and [-towa], and when the system grants everything, [main]
    serves on port 8080 with [-http] and on port 5000 without, with an empty pool and
    the screen the options ask for, the daemon's before the debug screen before the
    quiet one.  The file of the disk is needed without [-http] only: it exists, or it can be
    created and the options are not [-daemon] and [-debug] together (see
    [main_crashes_without_log]); that it is created is shown by the debug screen.  The
    administration interface has its thread only in the foreground: the thread is
    started by the constructor, and the [fork] of [-daemon], which comes after, leaves
    it behind in the process that exits.  What this thread does beside [main] is in
    SawaAdmin; here it opens its port without a message to the screen. *)
Theorem main_serves `{TowaMgr.OS} e argv0 args :
  sockets_ok e -> mutexes_ok e -> admin_create_result e = 0 ->
  fork_result e = 0 -> 0 <= setsid_result e -> bs "-help" ∉ args -> bs "-towa" ∉ args ->
  (bs "-http" ∉ args -> filesystem e = None -> can_create e = true /\ ~ (bs "-daemon" ∈ args /\ bs "-debug" ∈ args)) ->
  let given o := bool_decide (bs o ∈ args) in
  main e argv0 args = Serving
    (mk_server (Server.mk (socket_result e) (if given "-http" then 8080 else 5000))
       (if given "-daemon" then [MainThread] else [MainThread; AdminThread]))
    (if given "-daemon" then Screen.DisplayDaemon (given "-debug") (existing_log e)
     else if given "-debug" then Screen.DisplayDebug (tv_usec e)
     else if given "-quiet" then Screen.DisplayQuiet else Screen.DisplayDefault (given "-http"))
    (if given "-debug" && negb (given "-http") && bool_decide (filesystem e = None)
     then Screen.cout (Screen.stamp (tv_usec e) ++ SawaServer.creating) Screen.blank else Screen.blank)
    Pool.new_ThreadPool.
Proof.
  intros Hs (Hm1 & Hm2 & Hm3) Ha Hfork Hsid Hh Ht Hf given. unfold main. rewrite Daemon.parse_spec by done.
  rewrite (bool_decide_false _ Ht), Hm1, Hm2, Hm3, make_display_ok.
  unfold new_HTTPServer, new_SawaServer. rewrite !new_Server_ok, Ha by done.
  unfold Daemon.start_as_daemon. rewrite Hfork, (proj2 (Z.ltb_ge _ _) Hsid).
  destruct (bool_decide_reflect (bs "-http" ∈ args)) as [Hp|Hp].
  { unfold given. rewrite (bool_decide_true _ Hp), andb_false_r.
    by destruct (bool_decide (bs "-daemon" ∈ args)), (bool_decide (bs "-debug" ∈ args)), (bool_decide (bs "-quiet" ∈ args)). }
  destruct (SawaServer_new_shows e (Screen.select_display (tv_usec e) (given "-debug") (existing_log e)
    (Daemon.display_code (Daemon.mkOptions (given "-daemon") false (given "-quiet") (given "-debug") false)) false) Screen.blank
    (if given "-debug" then Screen.cout (Screen.stamp (tv_usec e) ++ SawaServer.creating) Screen.blank else Screen.blank)) as [t Et].
  { intros Hn. destruct (Hf Hp Hn) as [Hc Hdd]. split; [|done]. unfold given.
    destruct (bool_decide_reflect (bs "-daemon" ∈ args)), (bool_decide_reflect (bs "-debug" ∈ args)),
      (bool_decide (bs "-quiet" ∈ args)); try done; by destruct Hdd. }
  unfold given in *. rewrite (bool_decide_false _ Hp).
  cbn [Daemon.http Daemon.daemon Daemon.debug_flag Daemon.quiet Daemon.towa_flag orb Daemon.no_options] in *. rewrite Et.
  clear.
  destruct (filesystem e), (bool_decide (bs "-daemon" ∈ args)), (bool_decide (bs "-debug" ∈ args)), (bool_decide (bs "-quiet" ∈ args));
    reflexivity.
Qed.

(** the message that the file is created is written to the log of the daemon before
    its [init] has opened it: with [-daemon] and [-debug], the first start without a
    file uses a null stream. *)
Theorem main_crashes_without_log `{TowaMgr.OS} e argv0 args :
  sockets_ok e -> bs "-help" ∉ args -> bs "-http" ∉ args -> bs "-daemon" ∈ args -> bs "-debug" ∈ args ->
  filesystem e = None -> main e argv0 args = Crashed.
Proof.
  intros Hs Hh Hp Hd Hg Hf. unfold main. rewrite Daemon.parse_spec by done.
  rewrite (bool_decide_false _ Hp), (bool_decide_true _ Hd), (bool_decide_true _ Hg).
  unfold new_SawaServer. rewrite !new_Server_ok by done.
  unfold SawaServer.new, SawaServer.getFilesystemFile. rewrite Hf. reflexivity.
Qed.

(** an exception of the standard library is not an integer: a short file name on
    the class path terminates the web server with its servlets. *)
Theorem main_terminated `{TowaMgr.OS} e argv0 args entries dp :
  sockets_ok e -> screen_mutex e = 0 -> bs "-help" ∉ args -> bs "-http" ∈ args -> bs "-towa" ∈ args ->
  TowaMgr.new_TowaMgr (Some TowaMgr.namedpipe) (ping e) (pong e) = Ret TowaMgr.namedpipe ->
  TowaMgr.os_readdir [] = Some entries -> dp ∈ entries -> TowaMgr.d_is_reg dp = true -> zlen (TowaMgr.d_name dp) < 4 ->
  main e argv0 args = Terminated out_of_range.
Proof.
  intros Hs Hm Hh Hp Ht Hn Hr Hin Hreg Hlen. unfold main. rewrite Daemon.parse_spec by done.
  rewrite (bool_decide_true _ Hp), (bool_decide_true _ Ht), Hm, make_display_ok.
  unfold new_HTTPServer. rewrite !new_Server_ok, Hn by done.
  rewrite (TowaMgr.scanClasspath_short_name (TowaMgr.mk_world None []) entries dp Hr Hin Hreg Hlen).
  cbn [Daemon.http Daemon.towa_flag orb Daemon.no_options snd handler]. done.
Qed.

(** every failure of the construction is reported with its own message, the port
    or the file it is about included, and the program ends with exit status 0, as if
    it had succeeded. *)
Theorem main_failures `{TowaMgr.OS} e argv0 args :
  bs "-help" ∉ args ->
  let port := if bool_decide (bs "-http" ∈ args) then 8080 else 5000 in
  let fails message := main e argv0 args = Exited 0 (message ++ [nl]) in
  (screen_mutex e = 0 ->
    (socket_result e = -1 -> fails (bs "Error: cannot create socket on port " ++ to_decimal port)) /\
    (socket_result e <> -1 -> bind_result e < 0 -> fails (bs "Error: cannot bind socket on port " ++ to_decimal port)) /\
    (sockets_ok e -> bs "-http" ∉ args -> bs "-debug" ∉ args -> filesystem e = None -> can_create e = false ->
      fails (bs "Error: cannot open file './filesystem' (error=" ++ to_decimal (errno e) ++ bs ")")) /\
    (sockets_ok e -> bs "-http" ∉ args -> is_Some (filesystem e) -> idle_mutex e <> 0 \/ all_mutex e <> 0 ->
      fails (bs "Error: cannot initialize mutex"))) /\
  (screen_mutex e <> 0 -> bs "-daemon" ∉ args -> bs "-debug" ∉ args -> bs "-quiet" ∉ args ->
    fails (bs "Error: cannot initialize mutex")).
Proof.
  intros Hh port fails. unfold fails, main. rewrite Daemon.parse_spec by done.
  unfold new_HTTPServer, new_SawaServer. split.
  - intros Hm. rewrite Hm, make_display_ok. cbn [Daemon.http Daemon.daemon Daemon.towa_flag orb Daemon.no_options].
    split; [|split; [|split]].
    + intros Hs. unfold new_Server, Server.new. rewrite Hs, <-app_assoc. unfold port. by destruct (bool_decide (bs "-http" ∈ args)).
    + intros Hs Hb. unfold new_Server, Server.new. rewrite (proj2 (Z.eqb_neq _ _) Hs), (proj2 (Z.ltb_lt _ _) Hb), <-app_assoc.
      unfold port. by destruct (bool_decide (bs "-http" ∈ args)).
    + intros Hs Hhttp Hdebug Hf Hc. rewrite (bool_decide_false _ Hhttp), (bool_decide_false _ Hdebug), new_Server_ok by done.
      unfold SawaServer.new, SawaServer.getFilesystemFile. rewrite Hf, Hc.
      destruct (bool_decide (bs "-daemon" ∈ args)), (bool_decide (bs "-quiet" ∈ args));
        cbn; unfold Util.displayError; cbn; by rewrite <-!app_assoc.
    + intros Hs Hhttp [f Hf] Hx. rewrite (bool_decide_false _ Hhttp), new_Server_ok by done.
      unfold SawaServer.new, SawaServer.getFilesystemFile. rewrite Hf. cbn [mbind outcome_bind]. unfold Pool.make_ThreadPool.
      destruct (Z.eqb_spec (idle_mutex e) 0), (Z.eqb_spec (all_mutex e) 0); try done. by destruct Hx.
  - intros Hm Hd Hg Hq. unfold Daemon.display_code, Screen.make_display. cbn [Daemon.daemon Daemon.debug_flag Daemon.quiet orb Daemon.no_options].
    rewrite (bool_decide_false _ Hd), (bool_decide_false _ Hg), (bool_decide_false _ Hq), (proj2 (Z.eqb_neq _ _) Hm). done.
Qed.

Definition fine : env := mk_env 3 0 0 None true 0 no_fault 0 1 (0, 0) (0, 0) 0 0 0 [] 0.
Definition taken : env := mk_env 3 (-1) 0 None true 0 no_fault 0 1 (0, 0) (0, 0) 0 0 0 [] 0.

Ltac not_listed := rewrite ?not_elem_of_cons; repeat split; try discriminate; apply not_elem_of_nil.
Lemma fine_sockets : sockets_ok fine. Proof. by split. Qed.

(** The first start, without a file. *)
Lemma main_serves_witness :
  main (H := TowaMgr.example_os true) fine (bs "sawad") [bs "-debug"; bs "-quiet"] =
    Serving (mk_server (Server.mk 3 5000) [MainThread; AdminThread]) (Screen.DisplayDebug 0)
      (Screen.cout (bs "[0] " ++ SawaServer.creating) Screen.blank) Pool.new_ThreadPool.
Proof.
  refine (main_serves (H := TowaMgr.example_os true) fine (bs "sawad") [bs "-debug"; bs "-quiet"] fine_sockets
    (conj eq_refl (conj eq_refl eq_refl)) eq_refl eq_refl _ _ _ _); [discriminate|not_listed|not_listed|].
  intros _ _. split; [reflexivity|]. intros [Hd _]. revert Hd.
  change (bs "-daemon" ∉ [bs "-debug"; bs "-quiet"]). not_listed.
Defined.
Lemma main_crashes_without_log_witness :
  main (H := TowaMgr.example_os true) fine (bs "sawad") [bs "-daemon"; bs "-debug"] = Crashed.
Proof.
  apply (main_crashes_without_log (H := TowaMgr.example_os true) fine (bs "sawad") [bs "-daemon"; bs "-debug"]);
    [apply fine_sockets|not_listed|not_listed| | |reflexivity]; rewrite !elem_of_cons; auto.
Defined.
Lemma main_terminated_witness :
  main (H := TowaMgr.short_os) fine (bs "sawad") [bs "-http"; bs "-towa"] = Terminated out_of_range.
Proof.
  apply (main_terminated (H := TowaMgr.short_os) fine (bs "sawad") [bs "-http"; bs "-towa"] [TowaMgr.mk_dirent (bs "a") false true]
    (TowaMgr.mk_dirent (bs "a") false true));
    [apply fine_sockets|reflexivity|not_listed| | |reflexivity|reflexivity| |reflexivity|reflexivity]; rewrite !elem_of_cons; auto.
Defined.
Lemma main_failures_witness :
  main (H := TowaMgr.example_os true) taken (bs "sawad") [] = Exited 0 (bs "Error: cannot bind socket on port 5000" ++ [nl]).
Proof.
  refine (proj1 (proj2 (proj1 (main_failures (H := TowaMgr.example_os true) taken (bs "sawad") [] _) _)) _ _);
    [apply not_elem_of_nil|reflexivity|discriminate|reflexivity].
Defined.

End Program.
