(* ===== verification/Servlets.v ===== *)
(** * A page made by a servlet, from the browser to the virtual machine and back

    The HTTP server, the servlet manager, the two pipes and the servlet process put
    together: [HTTPServer::processRequest] of server/http_srv.cpp calls
    [TowaMgr::sendMsg] of server/towa_mgr.cpp, which writes on the first pipe; the
    process of server/towa.cpp reads it, runs the servlet and answers on the second
    pipe.  The components are those of the other files, unchanged. *)

From stdpp Require Import fin_sets.
From S2P Require Import Prelude CStd Util ThreadPool TowaIpc HttpSrv TowaApp TowaMain TowaMgr.
#[local] Open Scope Z_scope.
Import Pool TowaIPC TowaAppPool.

Module Servlets.

(** What the container makes of the query of a request: it stops at a bar. *)
Fixpoint before_bar (q : bytes) : bytes :=
  match q with
  | b :: q => if beqb b bar then [] else b :: before_bar q
  | [] => []
  end.

Lemma split_go_head q : forall cur,
  match split_go cur q with t :: _ => t | [] => [] end = rev cur ++ before_bar q.
Proof.
  induction q as [|b q IH]; intros cur; cbn [split_go before_bar].
  - rewrite app_nil_r. by destruct cur.
  - destruct (beqb b bar); [by rewrite app_nil_r|]. rewrite IH. cbn [rev]. by rewrite <-app_assoc.
Qed.
Lemma tokens_query verb classname q :
  bar ∉ verb -> bar ∉ classname ->
  exists rest, tokens (request_text verb classname q) = verb :: classname :: rest /\
    match rest with t :: _ => t | [] => [] end = before_bar q.
Proof.
  intros Hv Hc. unfold tokens, request_text. change (bs "|") with [bar]. cbn [app].
  rewrite !split_go_word by done. eexists. split; [done|]. apply split_go_head.
Qed.
Lemma path_without_bar path : Forall (fun b => HTTPRequest.path_char b = true) path -> bar ∉ path.
Proof. intros Hp Hin. rewrite Forall_forall in Hp. specialize (Hp _ Hin). vm_compute in Hp. discriminate. Qed.

Section system.
Context `{OS : TowaMgr.OS} `{Heap}.
Variable jref : Type.
Notation jobject := (option jref).
Variable NewStringUTF : bytes -> outcome jobject.
Variable FindClass : bytes -> outcome jobject.
Variable GetMethodID : jobject -> bytes -> bytes -> outcome jobject.
Variable NewObject : jobject -> jobject -> list jobject -> outcome jobject.
Variable CallVoidMethod : jobject -> jobject -> list jobject -> outcome (option throwable).
Variable GetOutput : jobject -> outcome (option bytes).
(** The references the servlet process looked up when it started. *)
Variable refs : TowaMain.pool jref.

(** What the second pipe holds after the servlet process has read the first one. *)
Definition container (ping : bytes) : option bytes :=
  match TowaMain.listen jref NewStringUTF FindClass GetMethodID NewObject CallVoidMethod GetOutput refs [Some ping] [] with
  | ([pong], None) => Some pong
  | _ => None
  end.
(** The call of the servlet manager by the HTTP server. *)
Definition sendMsg (w : TowaMgr.world) (verb classname query : bytes) : outcome Message :=
  r ← (TowaMgr.sendMsg TowaMgr.namedpipe true verb classname query container w).2; of_access (snd r).

(** What the servlet process answers to a request for a class. *)
Definition answers (c m : jobject) (classname query : bytes) (answer : bytes) : Prop :=
  exists rq, getTowaRequest jref NewStringUTF NewObject c m (bs "GET") query = Ret rq /\
    let run := run_servlet jref FindClass GetMethodID NewObject CallVoidMethod GetOutput
                 (TowaMain.ResponseClass jref refs) (TowaMain.ResponseClassConstructor jref refs) classname rq in
    run = Done (Some (of_string answer)) \/ run = Caught (Some (of_string answer)).
(** The response the browser gets for it, and the counter. *)
Definition page (h : byte) (text : bytes) (keep : bool) : bool * bytes * nat :=
  if (b2z h =? TOWA_HTTP_200) || (b2z h =? TOWA_HTTP_404)
  then (keep, HTTPServer.response_200 (WebFiles.mkWebFile text (zlen text)), HTTPServer.HTTP_200_COL)
  else (false, HTTPServer.generate500Response text, HTTPServer.HTTP_500_COL).

Lemma callback_answers c m classname q answer :
  TowaMain.RequestClass jref refs = Some c -> TowaMain.RequestClassConstructor jref refs = Some m ->
  bar ∉ classname -> answers c m classname (before_bar q) answer ->
  TowaMain.callback jref NewStringUTF FindClass GetMethodID NewObject CallVoidMethod GetOutput refs
    (of_string (request_text (bs "GET") classname q)) = Ret (Some (of_string answer)).
Proof.
  intros Hc Hm Hbar (rq & Hrq & Hrun). unfold TowaMain.callback. rewrite Hc, Hm.
  unfold processRequest, getString, of_string. cbn [size content].
  set (t := request_text (bs "GET") classname q).
  rewrite (proj2 (Z.leb_le 0 (zlen t))), (proj2 (Z.leb_le (zlen t) (zlen t))) by (apply zlen_nonneg || lia).
  cbn [andb mbind outcome_bind]. rewrite ztake_all by lia.
  assert (bar ∉ bs "GET") as Hg by (apply (bool_decide_unpack _); vm_compute; exact I).
  destruct (tokens_query (bs "GET") classname q Hg Hbar) as (rest & E & Eq). unfold t. rewrite E, Eq, Hrq.
  cbn [mbind outcome_bind]. by destruct Hrun as [-> | ->].
Qed.

Lemma container_answers callback request answer :
  callback = TowaMain.callback jref NewStringUTF FindClass GetMethodID NewObject CallVoidMethod GetOutput refs ->
  listenToMsg (Some request) callback = Ret answer -> container request = Some answer.
Proof. intros -> E. unfold container. cbn [TowaMain.listen]. by rewrite E. Qed.

(** The answer of the servlet, as the server sees it: the manager only asked whether
    the process is alive. *)
Lemma sendMsg_answers w p c m classname q h text :
  TowaMgr.pid w = Some p -> TowaMgr.os_waitpid (TowaMgr.history w ++ [TowaMgr.Waitpid p]) p = 0 ->
  TowaMain.RequestClass jref refs = Some c -> TowaMain.RequestClassConstructor jref refs = Some m ->
  bar ∉ classname -> zlen (request_text (bs "GET") classname q) < 2 ^ 31 -> zlen text + 1 < 2 ^ 31 ->
  answers c m classname (before_bar q) (h :: text) ->
  (TowaMgr.sendMsg TowaMgr.namedpipe true (bs "GET") classname q container w).1 =
    TowaMgr.mk_world (Some p) (TowaMgr.history w ++ [TowaMgr.Waitpid p]) /\
  sendMsg w (bs "GET") classname q = Ret (mkMessage text (zlen text) (Some h)).
Proof.
  intros Hp Hw Hc Hm Hbar Hl Ht Ha. pose proof (callback_answers c m classname q _ Hc Hm Hbar Ha) as Hcb.
  pose proof (pipe_round_trip _ _ _ _ _ _ Hl Ht Hcb) as E.
  pose proof (TowaMgr.sendMsg_restarts TowaMgr.namedpipe true (bs "GET") classname q container w) as R. cbn zeta in R. rewrite Hp in R.
  destruct R as [R _]. unfold sendMsg. rewrite (R Hw). split; [done|]. cbn [snd].
  unfold TowaMgr.ipc_sendMsg. unfold TowaIPC.sendMsg in E |- *. rewrite sendTo_of_string in E |- *. cbn [mbind outcome_bind] in E |- *.
  destruct (listenToMsg _ _) as [b| |] eqn:Eb in E; try discriminate.
  rewrite (container_answers _ _ b eq_refl Eb). cbn [of_access mbind outcome_bind] in E |- *.
  destruct (read_Message b true); cbn [mbind outcome_bind] in E |- *; try discriminate. by injection E as ->.
Qed.

(** C13: a request for a servlet goes from the browser through the manager and the two
    pipes to the process of the servlets, and its answer comes back: the browser
    gets exactly the text the servlet made, with its length, and the counter of the
    matching status is incremented; the class is the path without its first
    character, the query ends at its first bar. *)
Theorem servlet_page w p c m fs cache ti spaces classname q v eol headers rest m1 m2 h text :
  TowaMgr.pid w = Some p -> TowaMgr.os_waitpid (TowaMgr.history w ++ [TowaMgr.Waitpid p]) p = 0 ->
  TowaMain.RequestClass jref refs = Some c -> TowaMain.RequestClassConstructor jref refs = Some m ->
  length (info ti) = 3%nat ->
  HTTPRequest.wf_line spaces (bs "/" ++ classname) q v eol ->
  Forall (fun b => b <> nl) (HTTPRequest.line spaces (bs "/" ++ classname) q v eol) ->
  no_nul (HTTPRequest.line spaces (bs "/" ++ classname) q v eol ++ nl :: headers) ->
  HTTPRequest.line spaces (bs "/" ++ classname) q v eol ++ nl :: headers ++ nul :: rest = m1 ++ nul :: m2 -> 1015 <= zlen m1 ->
  zlen (request_text (bs "GET") classname (default [] q)) < 2 ^ 31 -> zlen text + 1 < 2 ^ 31 ->
  answers c m classname (before_bar (default [] q)) (h :: text) ->
  exists ti',
    let '(keep, response, col) := page h text
      (Util.caseless_occurs (m1 ++ nul :: m2) (bs "Connection: Keep-Alive") 1016) in
    HTTPServer.processRequest (Some (sendMsg w)) fs cache ti (m1 ++ nul :: m2) = Ret (keep, response, cache, ti') /\
    incr_info col ti = Ret ti'.
Proof.
  intros Hp Hw Hc Hm Hi Hl Hnl Hn Hmem Hlen Hq Ht Ha.
  assert (bar ∉ classname) as Hbar.
  { destruct Hl as (_ & _ & _ & Hch & _). intros Hin. apply (path_without_bar _ Hch), elem_of_app. by right. }
  destruct (sendMsg_answers w p c m classname (default [] q) h text) as [_ Es]; [done..|].
  pose proof (HTTPRequest.new_spec _ _ _ _ _ _ _ _ _ Hl Hnl Hn Hmem Hlen) as E. rewrite Hmem in E.
  unfold HTTPServer.processRequest, page. rewrite E.
  cbn [mbind outcome_bind HTTPRequest.valid negb HTTPRequest.path HTTPRequest.method HTTPRequest.query_string HTTPRequest.keep_alive].
  change (drop 1 (bs "/" ++ classname)) with classname. rewrite Es.
  cbn [mbind outcome_bind TowaIPC.getHeader TowaIPC.header of_access].
  destruct ((b2z h =? TOWA_HTTP_200) || (b2z h =? TOWA_HTTP_404)).
  - destruct (HTTPServer.incr_info_total HTTPServer.HTTP_200_COL ti Hi) as [ti' Ei]; [unfold HTTPServer.HTTP_200_COL; lia|].
    exists ti'. cbn [mbind outcome_bind]. by rewrite Ei.
  - destruct (HTTPServer.incr_info_total HTTPServer.HTTP_500_COL ti Hi) as [ti' Ei]; [unfold HTTPServer.HTTP_500_COL; lia|].
    exists ti'. unfold getString. cbn [size content].
    rewrite (proj2 (Z.leb_le 0 (zlen text))), (proj2 (Z.leb_le (zlen text) (zlen text))) by (apply zlen_nonneg || lia).
    cbn [andb mbind outcome_bind]. rewrite ztake_all by lia. by rewrite Ei.
Qed.

End system.

(** ** A concrete request *)

Section witnesses.
#[local] Existing Instance zero_heap.
(** A virtual machine whose servlets all answer [hi]. *)
Notation with_vm f := (f nat (fun s => Ret (Some (length s))) (fun _ => Ret (Some 1%nat)) (fun _ _ _ => Ret (Some 2%nat))
  (fun _ _ _ => Ret (Some 3%nat)) (fun _ _ _ => Ret None) (fun _ => Ret (Some (cstr (bs "hi"))))).
Definition references : TowaMain.pool nat :=
  TowaMain.mk_pool nat (Some (Some 1%nat)) (Some (Some 2%nat)) (Some 1%nat) (Some 2%nat) (Some 2%nat) (Some 1%nat)
    (Some 2%nat) (Some 2%nat) (Some 2%nat) (Some 1%nat) (Some 2%nat).
Definition no_files : WebFiles.filesystem := fun _ => None.

Lemma servlet_page_witness :
  exists ti',
    HTTPServer.processRequest
      (Some (with_vm (sendMsg (OS := TowaMgr.example_os true)) references TowaMgr.running)) no_files ∅ HTTPServer.thread0
      (HTTPServer.memory (bs "GET /Hello?a=1 HTTP/1.1" ++ [cr; nl])) =
    Ret (false, HTTPServer.response_200 (WebFiles.mkWebFile (bs "hi") 2), ∅, ti') /\
    incr_info HTTPServer.HTTP_200_COL HTTPServer.thread0 = Ret ti'.
Proof.
  refine (with_vm (servlet_page (OS := TowaMgr.example_os true)) references TowaMgr.running 7 (Some 1%nat) (Some 2%nat) no_files ∅
    HTTPServer.thread0 (bs " ") (bs "Hello") (Some (bs "a=1")) (bs "/1.1") [cr] [] (zrepeat 998 nul)
    (store (zrepeat 1016 nul) 0 (bs "GET /Hello?a=1 HTTP/1.1" ++ [cr; nl])) (zrepeat 7 nul) (z2b TOWA_HTTP_200) (bs "hi")
    _ _ _ _ _ _ _ _ _ _ _ _ _).
  1-5: reflexivity.
  - by apply HTTPServer.wf_line_crlf.
  - apply (bool_decide_unpack _). vm_compute. done.
  - apply (bool_decide_unpack _). vm_compute. done.
  - vm_compute. reflexivity.
  - vm_compute. discriminate.
  - reflexivity.
  - reflexivity.
  - exists (Some 3%nat). split; [reflexivity|]. left. reflexivity.
Defined.
End witnesses.
End Servlets.
