(* ===== verification/Driver.v ===== *)
(** * The kernel module: tcp.c and sawa.c

    The client side of the protocol inside the Linux kernel: [Tcp] is the socket
    layer, [SawaModule] the messages.  The socket functions of the kernel answer
    with numbers, which are arguments of the definitions; an answer that never
    comes is [None]. *)

From S2P Require Import Prelude CStd Proto.

Module Tcp.

Definition EAGAIN : Z := 11.
Definition EINPROGRESS : Z := 115.
Definition ERESTARTSYS : Z := 512.
Definition MSG_DONTWAIT : Z := 64.
Definition MSG_WAITALL : Z := 256.

(** [create_address]: the four bytes of [ip], most significant first, in a [u32]. *)
Fixpoint create_address_go (i : nat) (ip : bytes) (addr : Z) : outcome Z :=
  match ip with
  | [] => Undef
  | b :: ip =>
      let addr := u32 (addr + b2z b) in
      match i with
      | O => Ret addr
      | S i => create_address_go i ip (u32 (addr * 256))
      end
  end.
Definition create_address (ip : bytes) : outcome Z := create_address_go 3 ip 0.

(** [inet_addr], from the four numbers that [sscanf] has read. *)
Definition inet_addr (a b c d : Z) : Z := le_decode [z2b a; z2b b; z2b c; z2b d].

(** [tcp_client_connect]: the answers of [sock_create] and of [connect]. *)
Definition tcp_client_connect (created connected : Z) : Z :=
  if created <? 0 then -1
  else if negb (connected =? 0) && negb (connected =? - EINPROGRESS) then -1
  else 0.

(** [tcp_client_send]: the answers of [kernel_sendmsg], one per call; the result
    and the bytes handed to the socket. *)
Definition retry_send (flags len : Z) : bool :=
  (len =? - ERESTARTSYS) || ((Z.land flags MSG_DONTWAIT =? 0) && (len =? - EAGAIN)).
Fixpoint send_loop (answers : list Z) (flags : Z) (rest : bytes) (written left : Z) (sent : bytes)
  : option (Z * bytes) :=
  match answers with
  | [] => None
  | len :: answers =>
      if retry_send flags len then send_loop answers flags rest written left sent
      else if 0 <? len then
        let sent := sent ++ ztake len rest in
        let rest := zdrop len rest in
        let written := written + len in
        let left := left - len in
        if left =? 0 then Some (written, sent) else send_loop answers flags rest written left sent
      else Some (if written =? 0 then len else written, sent)
  end.
Definition tcp_client_send (answers : list Z) (buf : bytes) (length flags : Z) : option (Z * bytes) :=
  send_loop answers flags (ztake length buf) 0 length [].

(** [tcp_client_receive]: [kernel_recvmsg] answers with an error number or with
    the bytes that have arrived. *)
Inductive recv_answer := RecvError (e : Z) | RecvData (data : bytes).
Fixpoint tcp_client_receive (answers : list recv_answer) (max_size : Z) : option (Z * bytes) :=
  match answers with
  | [] => None
  | RecvError e :: answers =>
      if (e =? - EAGAIN) || (e =? - ERESTARTSYS) then tcp_client_receive answers max_size
      else Some (e, [])
  | RecvData data :: _ => Some (zlen (ztake max_size data), ztake max_size data)
  end.

(** ** The socket layer delivers the message *)

(** What the socket accepts, call by call: interruptions and pieces. *)
Fixpoint accepts (answers : list Z) (flags left : Z) : Prop :=
  match answers with
  | [] => False
  | len :: answers =>
      if retry_send flags len then accepts answers flags left
      else 0 < len <= left /\ (len = left \/ accepts answers flags (left - len))
  end.

Lemma send_loop_all answers flags rest written sent :
  accepts answers flags (zlen rest) ->
  send_loop answers flags rest written (zlen rest) sent = Some (written + zlen rest, sent ++ rest).
Proof.
  revert rest written sent. induction answers as [|len answers IH]; intros rest written sent Ha; [done|].
  cbn [send_loop accepts] in *. destruct (retry_send flags len); [by apply IH|].
  destruct Ha as ([H0 Hle] & Hnext). rewrite (proj2 (Z.ltb_lt 0 len)) by done.
  assert (zlen (zdrop len rest) = zlen rest - len) as Hl by (rewrite zlen_drop; lia).
  destruct (Z.eqb_spec (zlen rest - len) 0) as [E|E].
  - rewrite ztake_all by lia. do 2 f_equal. lia.
  - destruct Hnext as [->|Hnext]; [lia|]. rewrite <-Hl in Hnext |- *. rewrite IH by done.
    rewrite <-app_assoc, ztake_drop. do 2 f_equal. lia.
Qed.

End Tcp.

Module SawaModule.
Import Tcp.

(** What the kernel answers during one connection, and the memory it gives; what
    arrives depends on what has been sent. *)
Record kernel := mk_kernel {
  k_created : Z; k_connected : Z; k_sends : list Z; k_recvs : bytes -> list recv_answer; k_alloc : bool }.

Section with_heap.
Context `{Heap}.

(** [dump_mem]: the lines given to [printk], built in a buffer of 64 bytes; [col]
    is advanced by the width the formats are meant to have. *)
Definition hex_byte (b : byte) : bytes := bs " " ++ hex_width 2 (b2z b).
Fixpoint dump_line (i : nat) (addr : bytes) (size j col : Z) (buffer : bytes) : outcome (bytes * Z * bool) :=
  match i with
  | O => buffer ← poke buffer col [nl; nul]; Ret (buffer, j, false)
  | S i =>
      if size <=? j then buffer ← poke buffer col [nl; nul]; Ret (buffer, j, true)
      else
        b ← peek addr j;
        buffer ← poke buffer col (hex_byte b ++ [nul]);
        dump_line i addr size (j + 1) (col + 3) buffer
  end.
Fixpoint dump_lines (fuel : nat) (addr : bytes) (size j : Z) (buffer : bytes) (lines : list bytes)
  : outcome (list bytes) :=
  match fuel with
  | O => Undef
  | S fuel =>
      if size <=? j then Ret lines
      else
        buffer ← poke buffer 0 (hex_width 4 j ++ bs "  " ++ [nul]);
        r ← dump_line 16 addr size j 6 buffer;
        let '(buffer, j, last) := r in
        line ← c_text buffer;
        if last : bool then Ret (lines ++ [line]) else dump_lines fuel addr size j buffer (lines ++ [line])
  end.
Definition dump_mem (addr : bytes) (size : Z) : outcome (list bytes) :=
  dump_lines (S (Z.to_nat (size / 16 + 1))) addr size 0 (uninit 64) [].

(** [sawa_send_info]: the result, the bytes sent and the value given to the
    global [nb_sectors] ([None] when it is not assigned).  What has arrived is
    read as the number of sectors, even when it is shorter than four bytes. *)
Definition sawa_send_info (k : kernel) : option (Z * bytes * option Z) :=
  if tcp_client_connect (k_created k) (k_connected k) <? 0 then Some (-1, [], None)
  else
    match tcp_client_send (k_sends k) (put_u32 1 ++ [z2b SAWA_INFO]) 5 MSG_WAITALL with
    | None => None
    | Some (_, sent) =>
        let buffer_in := ztake 4 ([z2b 66] ++ zdrop 1 (uninit 4)) in
        match tcp_client_receive (k_recvs k sent) 4 with
        | None => None
        | Some (_, data) => Some (0, sent, Some (get_u32 (data ++ zdrop (zlen data) buffer_in)))
        end
    end.

(** [sawa_write_data]: the result and the bytes sent.  The result of the send is
    ignored, and the answer of the server is not read. *)
Definition sawa_write_data (k : kernel) (sector nb_sectors : Z) (buffer : bytes) : option (outcome (Z * bytes)) :=
  let offset := u32 (sector * 512) in
  let payload_size := u32 (nb_sectors * 512) in
  if tcp_client_connect (k_created k) (k_connected k) <? 0 then Some (Ret (-1, []))
  else if negb (k_alloc k) then Some Undef
  else if zlen buffer <? payload_size then Some Undef
  else
    let buffer_out := put_u32 (u32 (payload_size + 1 + 4)) ++ [z2b SAWA_WRITE] ++ put_u32 offset ++ ztake payload_size buffer in
    match tcp_client_send (k_sends k) buffer_out (u32 (9 + payload_size)) MSG_WAITALL with
    | None => None
    | Some (_, sent) => Some (Ret (0, sent))
    end.

(** [sawa_read_data]: the result, the bytes sent and the buffer afterwards.  Any
    number of bytes above one is a success. *)
Definition sawa_handle_error (errno : Z) : bytes :=
  if errno =? SAWA_MSG_ERR then bs "SaWa: failure to read (Error)"
  else if errno =? SAWA_MSG_NOAUTH then bs "SaWa: failure to read (Unauthorized)"
  else bs "SaWa: failure to read (unknown response code " ++ to_hex errno ++ bs ")".
Definition sawa_read_data (k : kernel) (sector nb_sectors : Z) (buffer_in : bytes)
  : option (outcome (Z * bytes * bytes)) :=
  let offset := u32 (sector * 512) in
  let payload_size := u32 (nb_sectors * 512) in
  if tcp_client_connect (k_created k) (k_connected k) <? 0 then Some (Ret (-1, [], buffer_in))
  else
    let buffer_out := put_u32 9 ++ [z2b SAWA_READ] ++ put_u32 offset ++ put_u32 payload_size in
    match tcp_client_send (k_sends k) buffer_out 13 MSG_WAITALL with
    | None => None
    | Some (_, sent) =>
        match tcp_client_receive (k_recvs k sent) payload_size with
        | None => None
        | Some (n, data) =>
            Some (buffer_in ← poke buffer_in 0 data;
                  if 1 <? n then Ret (0, sent, buffer_in)
                  else (errno ← peek buffer_in 0; Ret (-1, sent, buffer_in)))
        end
    end.

(** ** The messages *)

(** A connection the kernel opens and on which it sends [n] bytes. *)
Definition sends_all (k : kernel) (n : Z) : Prop :=
  tcp_client_connect (k_created k) (k_connected k) = 0 /\ k_alloc k = true /\
  accepts (k_sends k) MSG_WAITALL n.
(** A range of sectors that 32-bit offsets can name. *)
Definition sector_range (sector nb : Z) : Prop := 0 <= sector /\ 0 < nb /\ (sector + nb) * 512 < 2 ^ 32.

Lemma tcp_client_send_all answers buf n :
  accepts answers MSG_WAITALL n -> zlen buf = n -> tcp_client_send answers buf n MSG_WAITALL = Some (n, buf).
Proof.
  intros Ha <-. unfold tcp_client_send. rewrite ztake_all by lia. by rewrite send_loop_all.
Qed.

Lemma zlen_frame_write off data : zlen (Proto.frame (Proto.Write off data)) = 9 + zlen data.
Proof. unfold Proto.frame. cbn [Proto.body]. rewrite zlen_app, zlen_cons, zlen_app, !zlen_put_u32. lia. Qed.

Lemma write_sends_frame k sector nb data :
  sector_range sector nb -> zlen data = nb * 512 -> nb * 512 + 9 < 2 ^ 32 -> sends_all k (9 + nb * 512) ->
  sawa_write_data k sector nb data = Some (Ret (0, Proto.frame (Proto.Write (sector * 512) data))).
Proof.
  intros (Hs & Hn & Hle) Hd Hmax (Hc & Ha & Hsend). unfold sawa_write_data. rewrite Hc, Ha.
  cbn [Z.ltb Z.compare negb].
  rewrite !(u32_small (sector * 512)), !(u32_small (nb * 512)), !(u32_small (9 + nb * 512)), !(u32_small (nb * 512 + 1 + 4))
    by (unfold is_u32; lia).
  rewrite (proj2 (Z.ltb_ge (zlen data) (nb * 512))) by lia. rewrite ztake_all by lia.
  assert (put_u32 (nb * 512 + 1 + 4) ++ [z2b SAWA_WRITE] ++ put_u32 (sector * 512) ++ data =
    Proto.frame (Proto.Write (sector * 512) data)) as ->.
  { unfold Proto.frame. cbn [Proto.body app]. do 2 f_equal. rewrite zlen_cons, zlen_app, zlen_put_u32. lia. }
  rewrite (tcp_client_send_all _ _ _ Hsend); [done|]. rewrite zlen_frame_write. lia.
Qed.

Lemma read_sends_frame k sector nb buffer :
  sector_range sector nb -> sends_all k 13 ->
  sawa_read_data k sector nb buffer =
  match tcp_client_receive (k_recvs k (Proto.frame (Proto.Read (sector * 512) (nb * 512)))) (nb * 512) with
  | None => None
  | Some (n, data) =>
      Some (buffer ← poke buffer 0 data;
            if 1 <? n then Ret (0, Proto.frame (Proto.Read (sector * 512) (nb * 512)), buffer)
            else (errno ← peek buffer 0; Ret (-1, Proto.frame (Proto.Read (sector * 512) (nb * 512)), buffer)))
  end.
Proof.
  intros (Hs & Hn & Hle) (Hc & Ha & Hsend). unfold sawa_read_data. rewrite Hc. cbn [Z.ltb Z.compare].
  rewrite !(u32_small (sector * 512)), !(u32_small (nb * 512)) by (unfold is_u32; lia).
  assert (put_u32 9 ++ [z2b SAWA_READ] ++ put_u32 (sector * 512) ++ put_u32 (nb * 512) =
    Proto.frame (Proto.Read (sector * 512) (nb * 512))) as -> by done.
  rewrite (tcp_client_send_all _ _ _ Hsend) by done. done.
Qed.

(** ** The driver against a block device *)

(** The server side of one connection that carries one message. *)
Definition dev_connection `{BlockDevice D} (d : D) (sent : bytes) : outcome (bytes * D) :=
  dev_handle (ztake (get_u32 sent) (zdrop 4 sent)) d.

Lemma dev_connection_frame `{BlockDeviceLaws D} (d : D) r :
  dev_wf d -> Proto.wf_request r ->
  exists d', dev_connection d (Proto.frame r) = Ret ((Proto.exec r (dev_contents d)).1, d') /\
    dev_wf d' /\ dev_contents d' = (Proto.exec r (dev_contents d)).2.
Proof.
  intros Hd Hr. unfold dev_connection, Proto.frame. rewrite get_put_u32.
  pose proof (Proto.zlen_body_pos r). pose proof (Proto.zlen_body_le r Hr).
  rewrite u32_small by (unfold is_u32; lia).
  pose proof (zdrop_app (put_u32 (zlen (Proto.body r))) (Proto.body r)) as Hz. rewrite zlen_put_u32 in Hz.
  rewrite Hz, ztake_all by lia. by apply dev_exec.
Qed.

Lemma poke_all buffer data : zlen data = zlen buffer -> poke buffer 0 data = Ret data.
Proof.
  intros E. pose proof (poke_mid [] buffer [] data E) as P. cbn [app] in P. rewrite !app_nil_r in P. exact P.
Qed.

(** The kernel [k] when the answer of the server arrives in one piece. *)
Definition answered (k : kernel) (reply : bytes) : kernel :=
  mk_kernel (k_created k) (k_connected k) (k_sends k) (fun _ => [RecvData reply]) (k_alloc k).

Lemma write_sectors_correct `{BlockDeviceLaws D} (d : D) k sector nb data :
  dev_wf d -> sector_range sector nb -> zlen data = nb * 512 -> nb * 512 + 5 <= 32768 ->
  (sector + nb) * 512 <= zlen (dev_contents d) -> sends_all k (9 + nb * 512) ->
  exists sent reply d', sawa_write_data k sector nb data = Some (Ret (0, sent)) /\
    dev_connection d sent = Ret (reply, d') /\ dev_wf d' /\
    dev_contents d' = store (dev_contents d) (sector * 512) data.
Proof.
  intros Hd Hr Hl Hm Hin Hk. pose proof Hr as (Hs & Hn & Hle).
  destruct (dev_connection_frame d (Proto.Write (sector * 512) data) Hd) as (d' & E & W & Hc).
  { split; [lia|]. split; lia. }
  eexists _, _, d'. split; [apply write_sends_frame; try done; lia|]. split; [exact E|]. split; [exact W|].
  rewrite Hc. cbn [Proto.exec]. rewrite (proj2 (Z.leb_le _ _)) by lia. done.
Qed.

Lemma read_sectors_correct `{BlockDeviceLaws D} (d : D) k sector nb buffer :
  dev_wf d -> sector_range sector nb -> zlen buffer = nb * 512 ->
  (sector + nb) * 512 <= zlen (dev_contents d) -> sends_all k 13 ->
  exists sent reply d', dev_connection d sent = Ret (reply, d') /\ dev_wf d' /\ dev_contents d' = dev_contents d /\
    sawa_read_data (answered k reply) sector nb buffer =
      Some (Ret (0, sent, load (dev_contents d) (sector * 512) (nb * 512))).
Proof.
  intros Hd Hr Hl Hin Hk. pose proof Hr as (Hs & Hn & Hle).
  destruct (dev_connection_frame d (Proto.Read (sector * 512) (nb * 512)) Hd) as (d' & E & W & Hc).
  { split; [lia|]. split; lia. }
  cbn [Proto.exec] in E, Hc. rewrite (proj2 (Z.leb_le _ _)) in E, Hc by lia. cbn [fst snd] in E, Hc.
  eexists _, _, d'. split; [exact E|]. split; [exact W|]. split; [exact Hc|].
  assert (zlen (load (dev_contents d) (sector * 512) (nb * 512)) = nb * 512) as Hz by (apply zlen_load; lia).
  rewrite read_sends_frame by done. cbn [answered k_recvs tcp_client_receive]. rewrite ztake_all by lia.
  rewrite poke_all by lia. cbn [mbind outcome_bind]. rewrite Hz, (proj2 (Z.ltb_lt 1 (nb * 512))) by lia. done.
Qed.

(** sectors written through the driver and then read through it are the ones
    written, whatever device answers the protocol, when the server handles the
    WRITE before the READ. *)
Theorem write_then_read `{BlockDeviceLaws D} (d : D) k1 k2 sector nb data buffer :
  dev_wf d -> sector_range sector nb -> zlen data = nb * 512 -> zlen buffer = nb * 512 -> nb * 512 + 5 <= 32768 ->
  (sector + nb) * 512 <= zlen (dev_contents d) -> sends_all k1 (9 + nb * 512) -> sends_all k2 13 ->
  exists sent1 reply1 d1 sent2 reply2 d2,
    sawa_write_data k1 sector nb data = Some (Ret (0, sent1)) /\
    dev_connection d sent1 = Ret (reply1, d1) /\
    dev_connection d1 sent2 = Ret (reply2, d2) /\
    sawa_read_data (answered k2 reply2) sector nb buffer = Some (Ret (0, sent2, data)).
Proof.
  intros Hd Hr Hl Hb Hm Hin Hk1 Hk2. pose proof Hr as (Hs & Hn & Hle).
  destruct (write_sectors_correct d k1 sector nb data) as (sent1 & reply1 & d1 & E1 & C1 & W1 & D1); [done..|].
  destruct (read_sectors_correct d1 k2 sector nb buffer) as (sent2 & reply2 & d2 & C2 & W2 & D2 & E2); [done..| |done|].
  { rewrite D1, zlen_store; lia. }
  rewrite D1, <-Hl, load_store_same in E2 by lia.
  exists sent1, reply1, d1, sent2, reply2, d2. done.
Qed.

(** C31: the driver does not wait for the answer to a WRITE: it has reported success
    when the message is sent, and when the server handles the READ that follows on
    another connection first, the READ succeeds with the old contents. *)
Theorem unacknowledged_write `{BlockDeviceLaws D} (d : D) k1 k2 sector nb data buffer :
  dev_wf d -> sector_range sector nb -> zlen data = nb * 512 -> zlen buffer = nb * 512 -> nb * 512 + 5 <= 32768 ->
  (sector + nb) * 512 <= zlen (dev_contents d) -> sends_all k1 (9 + nb * 512) -> sends_all k2 13 ->
  exists sent1 sent2 reply2 d1 reply1 d2,
    sawa_write_data k1 sector nb data = Some (Ret (0, sent1)) /\
    dev_connection d sent2 = Ret (reply2, d1) /\
    sawa_read_data (answered k2 reply2) sector nb buffer =
      Some (Ret (0, sent2, load (dev_contents d) (sector * 512) (nb * 512))) /\
    dev_connection d1 sent1 = Ret (reply1, d2) /\ dev_contents d2 = store (dev_contents d) (sector * 512) data.
Proof.
  intros Hd Hr Hl Hb Hm Hin Hk1 Hk2.
  destruct (read_sectors_correct d k2 sector nb buffer) as (sent2 & reply2 & d1 & C2 & W2 & D2 & E2); [done..|].
  destruct (write_sectors_correct d1 k1 sector nb data) as (sent1 & reply1 & d2 & E1 & C1 & W1 & D1);
    [done..|by rewrite D2|done|].
  rewrite D2 in D1. exists sent1, sent2, reply2, d1, reply1, d2. done.
Qed.

(** once connected, [sawa_write_data] reports success whatever happens: an
    error or a short count of the socket, a refusal of the server. *)
Theorem write_never_fails k sector nb data r :
  tcp_client_connect (k_created k) (k_connected k) = 0 -> sawa_write_data k sector nb data = Some (Ret r) -> fst r = 0.
Proof.
  intros Hc. unfold sawa_write_data. rewrite Hc. cbn [Z.ltb Z.compare].
  destruct (k_alloc k); [|done]. cbn [negb]. destruct (zlen data <? _); [done|].
  destruct (tcp_client_send _ _ _ _) as [[n sent]|]; [|done]. by intros [= <-].
Qed.

(** an answer that arrives in several segments is cut at the first one: from
    two bytes on the read is reported as complete, and the rest of the caller's
    buffer is what it held before. *)
Theorem short_read_accepted k sector nb buffer first rest :
  sector_range sector nb -> zlen buffer = nb * 512 -> zlen (first ++ rest) = nb * 512 -> 1 < zlen first ->
  sends_all k 13 -> (forall sent, k_recvs k sent = [RecvData first; RecvData rest]) ->
  sawa_read_data k sector nb buffer =
    Some (Ret (0, Proto.frame (Proto.Read (sector * 512) (nb * 512)), first ++ zdrop (zlen first) buffer)).
Proof.
  intros Hr Hb Hl H1 Hk Hrecv. rewrite read_sends_frame by done. rewrite Hrecv. cbn [tcp_client_receive].
  rewrite zlen_app in Hl. pose proof (zlen_nonneg rest). rewrite ztake_all by lia.
  pose proof (poke_prefix [] buffer first ltac:(lia)) as P. cbn [app] in P. change (zlen []) with 0 in P. rewrite P.
  cbn [mbind outcome_bind]. by rewrite (proj2 (Z.ltb_lt 1 (zlen first))).
Qed.

(** the number of sectors is taken from whatever has arrived: with nothing,
    and for any error, it is made of the constant [0x42] and of three bytes of
    the stack that were never written. *)
Theorem send_info_garbage k e :
  sends_all k 5 -> (forall sent, k_recvs k sent = [RecvError e]) -> e <> - EAGAIN -> e <> - ERESTARTSYS ->
  sawa_send_info k = Some (0, Proto.frame Proto.Info, Some (le_decode (z2b 66 :: zdrop 1 (uninit 4)))).
Proof.
  intros (Hc & _ & Hs) Hr H1 H2. unfold sawa_send_info. rewrite Hc. cbn [Z.ltb Z.compare].
  rewrite (tcp_client_send_all _ _ _ Hs) by done. rewrite Hr. cbn [tcp_client_receive].
  rewrite !(proj2 (Z.eqb_neq _ _)) by done. cbn [orb]. do 3 f_equal.
Qed.

End with_heap.
End SawaModule.
