(* ===== verification/BlockDev.v ===== *)
(** * The block driver: main.c

    The kernel hands requests to [blockdev_request] as they come; a work item
    transfers them one chunk at a time.  The two run concurrently: the request
    function holds the queue lock, the work handler takes it only between two
    transfers.  Each event below is a piece of code that runs without being
    interleaved with the other side; a program counter says where the work
    handler stands. *)

From S2P Require Import Prelude CStd Util ThreadPool Proto SawaSrv Driver.

Module BlockDriver.

Definition EIO : Z := 5.

(** ** Requests *)

(** A request of the kernel: its kind, its first sector and the chunks still to
    be transferred, each in a buffer of its own. *)
Record request := mk_request {
  rq_id : nat; rq_fs : bool; rq_write : bool; rq_pos : Z; rq_chunks : list bytes }.
Definition cur_buffer (r : request) : bytes := default [] (head (rq_chunks r)).
Definition cur_sectors (r : request) : Z := zlen (cur_buffer r) / 512.
(** [__blk_end_request_cur]: whether chunks are left, and the request. *)
Definition end_request_cur (r : request) : bool * request :=
  let rest := tail (rq_chunks r) in
  (match rest with [] => false | _ => true end,
   mk_request (rq_id r) (rq_fs r) (rq_write r) (rq_pos r + cur_sectors r) rest).

(** A transfer the handler makes: where, the chunk, the direction. *)
Definition op : Type := Z * bytes * bool.
Definition cur_op (r : request) : op := (rq_pos r, cur_buffer r, rq_write r).
Fixpoint chunk_ops (pos : Z) (write : bool) (chunks : list bytes) : list op :=
  match chunks with [] => [] | c :: cs => (pos, c, write) :: chunk_ops (pos + zlen c / 512) write cs end.
Definition ops_of (r : request) : list op := chunk_ops (rq_pos r) (rq_write r) (rq_chunks r).

(** ** The state of the driver *)

Inductive counter := Idle | Transfer | Ended (ret : Z) | Test.

Section driver.
Context {W : Type}.
(** [blockdev_transfer]: the sector, the chunk and the direction. *)
Variable transfer : op -> W -> outcome (Z * W).

Record state := mk_state {
  the_queue : bool; queue : list request; current_req : option request; scheduled : bool;
  handler : counter; completed : list (nat * Z); trace : list op; world : W }.
Definition init (w : W) : state := mk_state false [] None false Idle [] [] w.

Definition set_current (c : option request) (q : list request) (done : list (nat * Z)) (s : state) : state :=
  mk_state (the_queue s) q c (scheduled s) (handler s) done (trace s) (world s).

(** [set_next_request]: requests that are not file system requests are ended with
    [-EIO] on the way. *)
Fixpoint fetch (q : list request) (done : list (nat * Z)) : option request * list request * list (nat * Z) :=
  match q with
  | [] => (None, [], done)
  | r :: q => if rq_fs r then (Some r, q, done) else fetch q (done ++ [(rq_id r, - EIO)])
  end.
Definition set_next_request (s : state) : state :=
  if negb (the_queue s) then set_current None (queue s) (completed s) s
  else let '(c, q, done) := fetch (queue s) (completed s) in set_current c q done s.

(** [blockdev_request], with the new request in the queue. *)
Definition blockdev_request (s : state) : state :=
  let s := mk_state true (queue s) (current_req s) (scheduled s) (handler s) (completed s) (trace s) (world s) in
  match current_req s with
  | Some _ => s
  | None =>
      let s := set_next_request s in
      match current_req s with
      | None => s
      | Some _ => mk_state (the_queue s) (queue s) (current_req s) true (handler s) (completed s) (trace s) (world s)
      end
  end.
Definition enqueue (r : request) (s : state) : state :=
  mk_state (the_queue s) (queue s ++ [r]) (current_req s) (scheduled s) (handler s) (completed s) (trace s) (world s).
Definition set_handler (pc : counter) (s : state) : state :=
  mk_state (the_queue s) (queue s) (current_req s) (scheduled s) pc (completed s) (trace s) (world s).

(** ** Events

    [Submit] is the kernel calling the driver, [Run] the work queue starting the
    item; the other three are the pieces of the loop of [work_handler]: the
    transfer, the section under the lock, the test of [current_req] after it. *)
Inductive event := Submit (r : request) | Run | DoTransfer | DoEnd | DoTest.

(** [None]: the event cannot happen.  [Undef]: a null pointer is used. *)
Definition step (e : event) (s : state) : option (outcome state) :=
  match e, handler s with
  | Submit r, _ => Some (Ret (blockdev_request (enqueue r s)))
  | Run, Idle =>
      if scheduled s then
        Some (Ret (mk_state (the_queue s) (queue s) (current_req s) false Transfer (completed s) (trace s) (world s)))
      else None
  | DoTransfer, Transfer =>
      match current_req s with
      | None => Some Undef
      | Some r =>
          Some (x ← transfer (cur_op r) (world s);
                Ret (mk_state (the_queue s) (queue s) (current_req s) (scheduled s) (Ended (fst x)) (completed s)
                       (trace s ++ [cur_op r]) (snd x)))
      end
  | DoEnd, Ended ret =>
      match current_req s with
      | None => Some Undef
      | Some r =>
          let (more, r') := end_request_cur r in
          let s := set_handler Test s in
          Some (Ret (if more : bool then set_current (Some r') (queue s) (completed s) s
                     else set_next_request (set_current (Some r') (queue s) (completed s ++ [(rq_id r, ret)]) s)))
      end
  | DoTest, Test =>
      Some (Ret (match current_req s with None => set_handler Idle s | Some _ => set_handler Transfer s end))
  | _, _ => None
  end.

Fixpoint run (es : list event) (s : state) : option (outcome state) :=
  match es with
  | [] => Some (Ret s)
  | e :: es =>
      match step e s with
      | Some (Ret s) => run es s
      | r => r
      end
  end.

(** The states reached after [l] has been submitted. *)
Inductive reachable (w : W) : list request -> state -> Prop :=
| reachable_init : reachable w [] (init w)
| reachable_step l s e s' :
    reachable w l s -> step e s = Some (Ret s') ->
    reachable w (match e with Submit r => l ++ [r] | _ => l end) s'.

(** ** What holds in every reachable state *)

(** Replaying transfers from the start, in order. *)
Fixpoint replay (l : list op) (w : W) : outcome W :=
  match l with [] => Ret w | o :: l => x ← transfer o w; replay l (snd x) end.

(** The transfers of file system requests, in the order of submission. *)
Definition all_ops (l : list request) : list op := concat (map ops_of (filter (fun r => rq_fs r = true) l)).

#[local] Arguments all_ops : simpl never.
#[local] Arguments set_next_request : simpl never.

(** The transfers still due for the current request: in [Ended] its first chunk
    has been transferred. *)
Definition due (s : state) : list op :=
  match current_req s with
  | None => []
  | Some r => match handler s with Ended _ => tail (ops_of r) | _ => ops_of r end
  end.

Record invariant (w : W) (l : list request) (s : state) : Prop := {
  inv_fs : forall r, current_req s = Some r -> rq_fs r = true /\ rq_chunks r <> [];
  inv_queue : Forall (fun r => rq_chunks r <> []) (queue s);
  inv_idle_queue : current_req s = None -> queue s = [];
  inv_open : the_queue s = false -> queue s = [] /\ current_req s = None;
  inv_work : forall r, current_req s = Some r -> handler s = Idle -> scheduled s = true;
  inv_ended : forall ret, handler s = Ended ret -> current_req s <> None;
  inv_ops : trace s ++ due s ++ all_ops (queue s) = all_ops l;
  inv_ids : map fst (completed s) ++ map rq_id (option_list (current_req s)) ++ map rq_id (queue s) = map rq_id l;
  inv_world : replay (trace s) w = Ret (world s) }.

Definition opt_ops (c : option request) : list op := match c with Some r => ops_of r | None => [] end.

Lemma all_ops_cons r q : all_ops (r :: q) = (if rq_fs r then ops_of r else []) ++ all_ops q.
Proof.
  unfold all_ops. rewrite filter_cons. destruct (rq_fs r) eqn:E; [by rewrite decide_True by done|].
  by rewrite decide_False by done.
Qed.
Lemma all_ops_app q1 q2 : all_ops (q1 ++ q2) = all_ops q1 ++ all_ops q2.
Proof. unfold all_ops. by rewrite filter_app, map_app, concat_app. Qed.

Lemma fetch_spec q : forall done c q' done',
  Forall (fun r => rq_chunks r <> []) q -> fetch q done = (c, q', done') ->
  (forall r, c = Some r -> rq_fs r = true /\ rq_chunks r <> []) /\
  Forall (fun r => rq_chunks r <> []) q' /\ (c = None -> q' = []) /\
  all_ops q = opt_ops c ++ all_ops q' /\
  map fst done' ++ map rq_id (option_list c) ++ map rq_id q' = map fst done ++ map rq_id q.
Proof.
  induction q as [|r q IH]; intros done c q' done' Hq; cbn [fetch].
  - intros [= <- <- <-]. cbn. rewrite app_nil_r. repeat split; try done; constructor.
  - apply Forall_cons in Hq as [Hr Hq]. rewrite all_ops_cons. destruct (rq_fs r) eqn:E.
    + intros [= <- <- <-]. split; [by intros ? [= <-]|]. done.
    + intros Hf. destruct (IH _ _ _ _ Hq Hf) as (H1 & H2 & H3 & H4 & H5). split; [done|]. split; [done|].
      split; [done|]. split; [done|]. rewrite H5, map_app, <-app_assoc. done.
Qed.

(** [set_next_request] from a state whose current request is finished. *)
Lemma set_next_request_spec w s :
  the_queue s = true -> Forall (fun r => rq_chunks r <> []) (queue s) -> replay (trace s) w = Ret (world s) ->
  let s' := set_next_request s in
  the_queue s' = true /\ scheduled s' = scheduled s /\ handler s' = handler s /\ trace s' = trace s /\ world s' = world s /\
  (forall r, current_req s' = Some r -> rq_fs r = true /\ rq_chunks r <> []) /\
  Forall (fun r => rq_chunks r <> []) (queue s') /\ (current_req s' = None -> queue s' = []) /\
  all_ops (queue s) = opt_ops (current_req s') ++ all_ops (queue s') /\
  map fst (completed s') ++ map rq_id (option_list (current_req s')) ++ map rq_id (queue s') =
    map fst (completed s) ++ map rq_id (queue s).
Proof.
  intros Ht Hq Hw. unfold set_next_request. rewrite Ht. cbn [negb].
  destruct (fetch (queue s) (completed s)) as [[c q'] done'] eqn:E.
  destruct (fetch_spec _ _ _ _ _ Hq E) as (H1 & H2 & H3 & H4 & H5). cbn. done.
Qed.

Lemma ops_of_cons r c cs : rq_chunks r = c :: cs -> ops_of r = cur_op r :: ops_of (snd (end_request_cur r)).
Proof. intros E. unfold ops_of, cur_op, end_request_cur, cur_sectors, cur_buffer. rewrite E. done. Qed.

Lemma replay_app l1 l2 w : replay (l1 ++ l2) w = (w1 ← replay l1 w; replay l2 w1).
Proof.
  revert w. induction l1 as [|o l1 IH]; intros w; [done|]. cbn. destruct (transfer o w); cbn; [apply IH|done|done].
Qed.

Lemma invariant_init w : invariant w [] (init w).
Proof. split; try done. Qed.

Lemma invariant_submit w l s r :
  invariant w l s -> rq_chunks r <> [] -> invariant w (l ++ [r]) (blockdev_request (enqueue r s)).
Proof.
  intros [Hfs Hq Hiq Hopen Hwork Hended Hops Hids Hw] Hr. unfold blockdev_request.
  cbn [the_queue queue current_req scheduled handler completed trace world enqueue].
  destruct (current_req s) as [c|] eqn:Ec.
  - split; cbn; try done; rewrite ?Ec; try done.
    + apply Forall_app. by repeat constructor.
    + unfold due in *. cbn. rewrite Ec in *. rewrite !all_ops_app, <-Hops, <-!app_assoc. done.
    + cbn in Hids. rewrite !map_app, <-Hids, <-!app_assoc. done.
  - set (s0 := mk_state true (queue s ++ [r]) None (scheduled s) (handler s) (completed s) (trace s) (world s)).
    destruct (set_next_request_spec w s0) as (T & S & P & Tr & Wd & H1 & H2 & H3 & H4 & H5); [done| |done|].
    { cbn. apply Forall_app. by repeat constructor. }
    cbn in S, P, Tr, Wd, H4, H5. unfold due in Hops. rewrite Ec in Hops. rewrite (Hiq eq_refl) in Hops, Hids, H4, H5.
    cbn [app] in Hops. rewrite app_nil_r in Hops.
    assert (forall ret, handler s <> Ended ret) as Hne by (intros ret E; by apply (Hended ret E)).
    destruct (current_req (set_next_request s0)) as [c|] eqn:Ec'.
    + split; cbn; try done; rewrite ?T, ?S, ?P, ?Tr, ?Wd, ?Ec'; try done.
      * unfold due. cbn. rewrite all_ops_app, <-Hops. cbn in H4.
        destruct (handler s) eqn:Eh; try (by rewrite H4). by destruct (Hne ret).
      * cbn in H5. cbn. rewrite H5, !map_app, <-Hids. cbn. by rewrite app_nil_r.
    + split; try done; rewrite ?T, ?S, ?P, ?Tr, ?Wd, ?Ec'; try done.
      * unfold due. rewrite ?Ec', all_ops_app, <-Hops. cbn in H4. by rewrite H4.
      * rewrite H5, !map_app, <-Hids. rewrite app_nil_r. done.
Qed.

Lemma invariant_step w l s e s' :
  invariant w l s -> (forall r, e = Submit r -> rq_chunks r <> []) -> step e s = Some (Ret s') ->
  invariant w (match e with Submit r => l ++ [r] | _ => l end) s'.
Proof.
  intros Hinv Hsub. destruct e as [r| | | |]; cbn [step].
  - intros [= <-]. apply invariant_submit; auto.
  - destruct Hinv as [Hfs Hq Hiq Hopen Hwork Hended Hops Hids Hw].
    destruct (handler s) eqn:Eh; try done. destruct (scheduled s) eqn:Es; [|done]. intros [= <-].
    split; cbn; try done. unfold due in *. cbn. rewrite Eh in Hops. done.
  - destruct Hinv as [Hfs Hq Hiq Hopen Hwork Hended Hops Hids Hw].
    destruct (handler s) eqn:Eh; try done. destruct (current_req s) as [r|] eqn:Ec; [|done].
    destruct (transfer (cur_op r) (world s)) as [x| |] eqn:Et; cbn; [|done|done]. intros [= <-].
    split; cbn; rewrite ?Ec; try done.
    + unfold due in *. cbn. rewrite Ec, Eh in Hops. rewrite ?Ec. destruct (Hfs r eq_refl) as [_ Hc].
      destruct (rq_chunks r) as [|c cs] eqn:E; [done|]. rewrite (ops_of_cons r c cs E) in Hops |- *.
      rewrite <-Hops, <-!app_assoc. done.
    + rewrite replay_app, Hw. cbn. rewrite Et. done.
  - destruct Hinv as [Hfs Hq Hiq Hopen Hwork Hended Hops Hids Hw].
    destruct (handler s) as [| |ret|] eqn:Eh; try done. destruct (current_req s) as [r|] eqn:Ec; [|done].
    destruct (Hfs r eq_refl) as [Hrf Hrc]. destruct (rq_chunks r) as [|c cs] eqn:E; [done|].
    pose proof (ops_of_cons r c cs E) as Eo. unfold due in Hops. rewrite Ec, Eh, Eo in Hops. cbn [tail] in Hops.
    destruct (end_request_cur r) as [more r'] eqn:Er. cbn [snd] in *.
    assert (the_queue s = true) as Ht.
    { destruct (the_queue s) eqn:Ht; [done|]. destruct (Hopen eq_refl) as [_ Hn]. congruence. }
    assert (rq_id r' = rq_id r /\ rq_fs r' = rq_fs r /\ rq_chunks r' = cs /\ more = match cs with [] => false | _ => true end) as (R1 & R2 & R3 & R4).
    { unfold end_request_cur in Er. rewrite E in Er. injection Er as <- <-. done. }
    destruct more; intros [= <-].
    + split; cbn; try done; rewrite ?Ht; try done.
      * intros ? [= <-]. rewrite R2, R3. split; [done|]. by destruct cs.
      * cbn. rewrite R1. done.
    + destruct cs as [|? ?]; [|done].
      set (s0 := set_current (Some r') (queue s) (completed s ++ [(rq_id r, ret)]) (set_handler Test s)).
      destruct (set_next_request_spec w s0) as (T & S & P & Tr & Wd & H1 & H2 & H3 & H4 & H5); [done..|].
      cbn in S, P, Tr, Wd, H4, H5.
      split; try done; rewrite ?T, ?S, ?P, ?Tr, ?Wd; try done.
      * unfold due. rewrite P, <-Hops. assert (ops_of r' = []) as -> by (unfold ops_of; by rewrite R3).
        cbn [app]. rewrite H4. unfold opt_ops. by destruct (current_req (set_next_request s0)).
      * rewrite H5, <-Hids, map_app, <-!app_assoc. done.
  - destruct Hinv as [Hfs Hq Hiq Hopen Hwork Hended Hops Hids Hw].
    destruct (handler s) eqn:Eh; try done. destruct (current_req s) as [r|] eqn:Ec; intros [= <-];
      (split; cbn; rewrite ?Ec; try done); unfold due in *; cbn; rewrite Ec in *; try done; rewrite Eh in Hops; done.
Qed.

Lemma reachable_invariant w l s :
  Forall (fun r => rq_chunks r <> []) l -> reachable w l s -> invariant w l s.
Proof.
  intros Hl Hr. induction Hr as [|l s e s' Hr IH Hs]; [apply invariant_init|].
  assert (Forall (fun r => rq_chunks r <> []) l) as Hl' by (destruct e; try done; by apply Forall_app in Hl as [? _]).
  apply (invariant_step w l s e s'); [by apply IH| |done].
  intros r ->. apply Forall_app in Hl as [_ Hl]. by inversion Hl.
Qed.

(** C3: the asynchronous driver serves the requests as if they had come one after
    the other: at any moment the transfers made are the first ones of the
    submitted file system requests, in the order of submission, each once, the
    disk is the result of these transfers, and the requests reported finished are
    the first submitted ones; when nothing is left every request is served. *)
Theorem requests_served w l s :
  Forall (fun r => rq_chunks r <> []) l -> reachable w l s ->
  (exists rest, trace s ++ rest = all_ops l) /\ (exists ids, map fst (completed s) ++ ids = map rq_id l) /\
  replay (trace s) w = Ret (world s) /\
  (current_req s = None -> trace s = all_ops l /\ map fst (completed s) = map rq_id l).
Proof.
  intros Hl Hr. destruct (reachable_invariant w l s Hl Hr) as [_ _ Hiq _ _ _ Hops Hids Hw].
  split; [by eexists|]. split; [by eexists|]. split; [done|]. intros E.
  unfold due in Hops. rewrite E, (Hiq E) in Hops, Hids. cbn in Hids. unfold all_ops at 1 in Hops. cbn in Hops.
  by rewrite !app_nil_r in *.
Qed.

(** ** Runs in which the test of [current_req] is not overtaken *)

(** No request comes between the end of the last one and the test of
    [current_req] that [work_handler] makes without the lock. *)
Definition undisturbed (e : event) (s : state) : Prop :=
  match e with Submit _ => handler s = Test -> current_req s <> None | _ => True end.
Definition quiet (s : state) : Prop :=
  match handler s with
  | Idle => scheduled s = true -> current_req s <> None
  | Transfer | Ended _ => current_req s <> None /\ scheduled s = false
  | Test => scheduled s = false
  end.
Inductive quiet_reachable (w : W) : list request -> state -> Prop :=
| quiet_init : quiet_reachable w [] (init w)
| quiet_step l s e s' :
    quiet_reachable w l s -> undisturbed e s -> step e s = Some (Ret s') ->
    quiet_reachable w (match e with Submit r => l ++ [r] | _ => l end) s'.

Lemma quiet_is_reachable w l s : quiet_reachable w l s -> reachable w l s.
Proof. induction 1; by econstructor. Qed.

Lemma set_next_request_keeps s :
  scheduled (set_next_request s) = scheduled s /\ handler (set_next_request s) = handler s.
Proof.
  unfold set_next_request. destruct (negb (the_queue s)); [done|]. by destruct (fetch _ _) as [[? ?] ?].
Qed.

Lemma quiet_preserved s e s' : quiet s -> undisturbed e s -> step e s = Some (Ret s') -> quiet s'.
Proof.
  unfold quiet. intros Hq Hu. destruct e as [r| | | |]; cbn [step undisturbed] in *.
  - intros [= <-]. unfold blockdev_request.
    cbn [the_queue queue current_req scheduled handler completed trace world enqueue].
    destruct (current_req s) as [c|] eqn:Ec; [done|].
    set (s0 := mk_state _ _ _ _ _ _ _ _). destruct (set_next_request_keeps s0) as [Hs Hh]. cbn in Hs, Hh.
    destruct (current_req (set_next_request s0)) eqn:Ec'; cbn; rewrite ?Hs, ?Hh.
    + destruct (handler s) eqn:Eh; cbn; [done|by destruct Hq..|by destruct (Hu eq_refl)].
    + destruct (handler s) eqn:Eh; cbn; [|by destruct Hq..|by destruct (Hu eq_refl)].
      intros Hsch. by destruct (Hq Hsch).
  - destruct (handler s); try done. destruct (scheduled s); [|done]. intros [= <-]. split; [by apply Hq|done].
  - destruct (handler s); try done. destruct (current_req s) eqn:Ec; [|done].
    destruct (transfer _ _); [|done..]. intros [= <-]. cbn. done.
  - destruct (handler s); try done. destruct (current_req s) as [r|] eqn:Ec; [|done].
    destruct (end_request_cur r) as [[] r']; intros [= <-]; [by destruct Hq|].
    destruct (set_next_request_keeps (set_current (Some r') (queue s) (completed s ++ [(rq_id r, ret)]) (set_handler Test s))) as [Hs Hh].
    rewrite Hh, Hs. by destruct Hq.
  - destruct (handler s); try done. destruct (current_req s) as [r|] eqn:Ec; intros [= <-]; cbn; [by rewrite Ec|].
    intros E. congruence.
Qed.

Lemma quiet_reachable_quiet w l s : quiet_reachable w l s -> quiet s.
Proof. induction 1; [done|]. by eapply quiet_preserved. Qed.

(** C16: the null request is used only through the race: as long as no request comes
    in that window, no event of the driver is undefined, whatever the requests
    and whatever the transfers answer. *)
Theorem undisturbed_never_crashes w l s e :
  (forall o w, transfer o w <> Undef) -> quiet_reachable w l s -> step e s <> Some Undef.
Proof.
  intros Ht Hr. pose proof (quiet_reachable_quiet w l s Hr) as Hq. unfold quiet in Hq.
  destruct e; cbn [step]; destruct (handler s); try done.
  - by destruct (scheduled s).
  - destruct (current_req s) as [r|]; [|by destruct Hq]. specialize (Ht (cur_op r) (world s)).
    by destruct (transfer _ _).
  - destruct (current_req s) as [r|]; [|by destruct Hq]. by destruct (end_request_cur r) as [[] ?].
Qed.

(** ** The work handler drains the queue *)

(** What the work queue and [work_handler] do next when left alone. *)
Definition handler_event (s : state) : option event :=
  match handler s with
  | Idle => if scheduled s then Some Run else None
  | Transfer => Some DoTransfer
  | Ended _ => Some DoEnd
  | Test => Some DoTest
  end.
Fixpoint drain (fuel : nat) (s : state) : option (outcome state) :=
  match fuel with
  | O => None
  | S fuel =>
      match handler_event s with
      | None => Some (Ret s)
      | Some e => match step e s with Some (Ret s) => drain fuel s | r => r end
      end
  end.

(** The chunks left, and the events left. *)
Fixpoint chunks_of (l : list request) : nat :=
  match l with [] => O | r :: l => (length (rq_chunks r) + chunks_of l)%nat end.
Definition chunks_left (s : state) : nat := chunks_of (option_list (current_req s)) + chunks_of (queue s).
Definition events_left (s : state) : nat :=
  match handler s with
  | Idle => if scheduled s then 3 * chunks_left s + 1 else 0
  | Transfer => 3 * chunks_left s
  | Ended _ => 3 * chunks_left s - 1
  | Test => 3 * chunks_left s + 1
  end.

Lemma fetch_chunks q : forall done c q' done',
  fetch q done = (c, q', done') -> (chunks_of (option_list c) + chunks_of q' <= chunks_of q)%nat.
Proof.
  induction q as [|r q IH]; intros done c q' done'; cbn [fetch].
  - by intros [= <- <- <-].
  - destruct (rq_fs r); [intros [= <- <- <-]; cbn; lia|].
    intros E. specialize (IH _ _ _ _ E). cbn. lia.
Qed.
Lemma set_next_request_chunks s :
  (chunks_of (option_list (current_req (set_next_request s))) + chunks_of (queue (set_next_request s)) <= chunks_of (queue s))%nat.
Proof.
  unfold set_next_request. destruct (negb (the_queue s)); [cbn; lia|].
  destruct (fetch _ _) as [[c q'] done'] eqn:E. cbn. by eapply fetch_chunks.
Qed.

(** One event of the handler, when the transfers in sequence succeed. *)
Lemma handler_progress w l s w' e :
  invariant w l s -> quiet s -> replay (all_ops l) w = Ret w' -> handler_event s = Some e ->
  exists s1, step e s = Some (Ret s1) /\ (events_left s1 < events_left s)%nat.
Proof.
  intros [Hfs Hq Hiq Hopen Hwork Hended Hops Hids Hw] Hqt Hall. unfold handler_event, quiet, events_left in *.
  destruct (handler s) as [| |ret|] eqn:Eh.
  - destruct (scheduled s) eqn:Es; [|done]. intros [= <-]. cbn [step]. rewrite Eh, Es.
    eexists. split; [done|]. cbn. unfold chunks_left. cbn. lia.
  - intros [= <-]. cbn [step]. rewrite Eh. destruct (current_req s) as [r|] eqn:Ec; [|by destruct Hqt].
    destruct (Hfs r eq_refl) as [_ Hc]. destruct (rq_chunks r) as [|c cs] eqn:E; [done|].
    unfold due in Hops. rewrite Ec, Eh, (ops_of_cons r c cs E) in Hops.
    rewrite <-Hops, replay_app, Hw in Hall. cbn in Hall.
    destruct (transfer (cur_op r) (world s)) as [x| |] eqn:Et; [|done..].
    eexists. split; [done|]. cbn. unfold chunks_left. cbn. rewrite Ec. cbn. rewrite E. cbn. lia.
  - intros [= <-]. cbn [step]. rewrite Eh. destruct (current_req s) as [r|] eqn:Ec; [|by destruct Hqt].
    destruct (Hfs r eq_refl) as [_ Hc]. destruct (rq_chunks r) as [|c cs] eqn:E; [done|].
    destruct (end_request_cur r) as [more r'] eqn:Er. eexists. split; [done|].
    assert (rq_chunks r' = cs) as R by (unfold end_request_cur in Er; rewrite E in Er; by injection Er as _ <-).
    assert (chunks_left s = (S (length cs) + chunks_of (queue s))%nat) as Hleft.
    { unfold chunks_left. rewrite Ec. cbn. rewrite E. cbn [length]. lia. }
    destruct more.
    + rewrite Hleft. cbn. unfold chunks_left. cbn. rewrite R. lia.
    + set (s0 := set_current _ _ _ _). pose proof (set_next_request_chunks s0) as Hle.
      destruct (set_next_request_keeps s0) as [_ Hh]. rewrite Hh, Hleft. cbn in Hle |- *. unfold chunks_left. lia.
  - intros [= <-]. cbn [step]. rewrite Eh. eexists. split; [done|].
    destruct (current_req s) eqn:Ec; cbn; rewrite ?Hqt; unfold chunks_left; cbn; lia.
Qed.

Lemma drain_finishes w l w' fuel : forall s,
  Forall (fun r => rq_chunks r <> []) l -> invariant w l s -> quiet s -> replay (all_ops l) w = Ret w' ->
  (events_left s < fuel)%nat ->
  exists s', drain fuel s = Some (Ret s') /\ invariant w l s' /\ handler s' = Idle /\ current_req s' = None.
Proof.
  induction fuel as [|fuel IH]; intros s Hl Hinv Hq Hall Hlt; [lia|]. cbn [drain].
  destruct (handler_event s) as [e|] eqn:Ee.
  - destruct (handler_progress w l s w' e) as (s1 & Es & Hm); [done..|]. rewrite Es.
    assert (forall r, e <> Submit r) as Hns.
    { unfold handler_event in Ee. destruct (handler s); [destruct (scheduled s)|..]; by simplify_eq. }
    apply IH; [done| | |done|lia].
    + pose proof (invariant_step w l s e s1 Hinv) as P. destruct e; try (apply P; [intros ? ?; done|done]). by destruct (Hns r).
    + apply (quiet_preserved s e); [done| |done]. destruct e; try done. by destruct (Hns r).
  - exists s. split; [done|]. split; [done|]. unfold handler_event in Ee. destruct (handler s) eqn:Eh; try done.
    split; [done|]. destruct (current_req s) as [r|] eqn:Ec; [|done].
    rewrite (inv_work w l s Hinv r Ec Eh) in Ee. done.
Qed.

Lemma drain_serves w l s w' :
  Forall (fun r => rq_chunks r <> []) l -> quiet_reachable w l s -> replay (all_ops l) w = Ret w' ->
  exists s', drain (3 * chunks_left s + 2) s = Some (Ret s') /\ handler s' = Idle /\ current_req s' = None /\
    queue s' = [] /\ trace s' = all_ops l /\ map fst (completed s') = map rq_id l /\ world s' = w'.
Proof.
  intros Hl Hr Hall. pose proof (reachable_invariant w l s Hl (quiet_is_reachable w l s Hr)) as Hinv.
  destruct (drain_finishes w l w' (3 * chunks_left s + 2) s Hl Hinv (quiet_reachable_quiet w l s Hr) Hall)
    as (s' & E & [_ _ Hiq _ _ _ Hops Hids Hw] & Hh & Hc).
  { unfold events_left. destruct (handler s); [destruct (scheduled s)|..]; lia. }
  exists s'. split; [done|]. split; [done|]. split; [done|]. split; [by apply Hiq|].
  unfold due in Hops. rewrite Hc, (Hiq Hc) in Hops, Hids. cbn in Hids. unfold all_ops at 1 in Hops. cbn in Hops.
  rewrite !app_nil_r in *. split; [done|]. split; [done|]. rewrite Hops, Hall in Hw. by injection Hw.
Qed.

(** C8: whatever has been submitted and wherever the handler stands, if the driver has
    come there without the race ([quiet_reachable]; after it the handler crashes, see
    [race_crash]) and the transfers made one after the other succeed, the work handler,
    left alone, ends within three events per chunk left and one more, with every
    request served and the disk of that sequential execution. *)
Theorem work_handler_drains w l s w' :
  Forall (fun r => rq_chunks r <> []) l -> quiet_reachable w l s -> replay (all_ops l) w = Ret w' ->
  exists s', drain (3 * chunks_left s + 2) s = Some (Ret s') /\ handler s' = Idle /\ current_req s' = None /\
    queue s' = [] /\ trace s' = all_ops l /\ map fst (completed s') = map rq_id l /\ world s' = w'.
Proof. apply drain_serves. Qed.

(** C30: [work_handler] tests [current_req] outside the lock.  When the second
    request comes between the end of the first and this test, the handler goes on
    with it, and the work item that [blockdev_request] has scheduled for it runs
    on a null request. *)
Theorem race_crash w r1 r2 x1 x2 :
  rq_fs r1 = true -> rq_fs r2 = true -> length (rq_chunks r1) = 1%nat -> length (rq_chunks r2) = 1%nat ->
  transfer (cur_op r1) w = Ret x1 -> transfer (cur_op r2) (snd x1) = Ret x2 ->
  run [Submit r1; Run; DoTransfer; DoEnd; Submit r2; DoTest; DoTransfer; DoEnd; DoTest; Run; DoTransfer] (init w) = Some Undef.
Proof.
  destruct r1 as [i1 f1 b1 p1 c1], r2 as [i2 f2 b2 p2 c2]. cbn [rq_fs rq_chunks].
  intros -> -> H1 H2 T1 T2. destruct c1 as [|c1 [|]]; try done. destruct c2 as [|c2 [|]]; try done.
  unfold cur_op, cur_buffer in *. cbn in T1, T2. cbn. unfold set_next_request, cur_op, cur_buffer. cbn. rewrite T1.
  repeat (cbn; unfold set_next_request, cur_op, cur_buffer). rewrite T2. done.
Qed.

End driver.
End BlockDriver.
