(* ===== verification/KernelStack.v ===== *)
(** * The driver on top of the protocol: main.c, ramdisk.c

    [Stack] puts the request loop of [BlockDriver], the messages of [SawaModule]
    and a server that keeps the protocol together: requests read and write the
    disk of the server, which handles a WRITE some time after it has been sent.  [Setup] is the start and the end of the module, with the
    resources it holds; [Ramdisk] is the request function of ramdisk.c. *)

From S2P Require Import Prelude CStd Util ThreadPool Proto SawaSrv Driver BlockDev.

Module Stack.
Import Tcp SawaModule BlockDriver.

Section with_heap.
Context `{Heap}.

(** [blockdev_transfer]: the result, the bytes sent and the buffer afterwards. *)
Definition blockdev_transfer (k : kernel) (sector nsect : Z) (buffer : bytes) (write : bool)
  : option (outcome (Z * bytes * bytes)) :=
  if negb write then sawa_read_data k sector nsect buffer
  else
    match sawa_write_data k sector nsect buffer with
    | None => None
    | Some r => Some (x ← r; Ret (fst x, snd x, buffer))
    end.

(** A network that delivers [n] bytes at once to the device [d] and its answer
    back. *)
Definition perfect `{BlockDevice D} (d : D) (n : Z) : kernel :=
  mk_kernel 3 0 [n]
    (fun sent => match dev_connection d sent with Ret (reply, _) => [RecvData reply] | _ => [] end) true.

(** Between the driver and the device: the WRITE messages that have been sent and
    not been handled yet, and which of them the server handles before each of the
    transfers to come (the positions in the list, one after the other).  Every
    message has a connection and a thread of its own, so the order is any; a
    message is handled in one piece, the schedules on which it is not are the
    subject of [SharedFile].  [l_filled] are the buffers the READs have filled. *)
Record link (D : Type) := mk_link {
  l_dev : D; l_pending : list bytes; l_picks : list (list nat); l_filled : list bytes }.
#[global] Arguments mk_link {D}.
#[global] Arguments l_dev {D}.
#[global] Arguments l_pending {D}.
#[global] Arguments l_picks {D}.
#[global] Arguments l_filled {D}.

Fixpoint server_handles `{BlockDevice D} (picks : list nat) (d : D) (pending : list bytes) : outcome (D * list bytes) :=
  match picks with
  | [] => Ret (d, pending)
  | i :: picks =>
      match pending !! i with
      | None => server_handles picks d pending
      | Some msg => y ← dev_connection d msg; server_handles picks (snd y) (delete i pending)
      end
  end.

(** A transfer of [work_handler]: the server first handles what it is scheduled to;
    a WRITE leaves its message with the others and returns, a READ waits for its
    answer. *)
Definition device_transfer `{BlockDevice D} (o : op) (w : link D) : outcome (Z * link D) :=
  let '(pos, buffer, write) := o in
  h ← server_handles (default [] (head (l_picks w))) (l_dev w) (l_pending w);
  let '(d, pending) := h in
  match blockdev_transfer (perfect d (if write then 9 + zlen buffer else 13)) pos (zlen buffer / 512) buffer write with
  | None => Undef
  | Some r =>
      x ← r;
      let '(ret, sent, buffer) := x in
      if write then Ret (ret, mk_link d (pending ++ [sent]) (tail (l_picks w)) (l_filled w))
      else (y ← dev_connection d sent; Ret (ret, mk_link (snd y) pending (tail (l_picks w)) (l_filled w ++ [buffer])))
  end.

(** Whether two transfers have no sector in common; what is pending after some has
    been handled; and whether no transfer touches a sector of a WRITE that is
    pending at its turn. *)
Definition apart (o p : op) : bool :=
  let '(pos, buffer, _) := o in
  let '(pos', buffer', _) := p in
  (pos + zlen buffer / 512 <=? pos') || (pos' + zlen buffer' / 512 <=? pos).
Definition handled (picks : list nat) (pending : list op) : list op :=
  fold_left (fun l i => delete i l) picks pending.
Fixpoint settled (picks : list (list nat)) (pending : list op) (l : list op) : bool :=
  match l with
  | [] => true
  | o :: l =>
      let pending := handled (default [] (head picks)) pending in
      forallb (apart o) pending &&
      settled (tail picks) (if snd o then pending ++ [o] else pending) l
  end.

(** The same transfer on a disk. *)
Definition disk_op (w : bytes * list bytes) (o : op) : bytes * list bytes :=
  let '(pos, buffer, write) := o in
  if write : bool then (store (fst w) (pos * 512) buffer, snd w)
  else (fst w, snd w ++ [load (fst w) (pos * 512) (zlen buffer)]).
Definition disk_ops (l : list op) (w : bytes * list bytes) : bytes * list bytes := fold_left disk_op l w.

(** Whole sectors within a disk of [size] bytes, which one message can carry. *)
Definition op_ok (size : Z) (o : op) : Prop :=
  let '(pos, buffer, write) := o in
  zlen buffer mod 512 = 0 /\ sector_range pos (zlen buffer / 512) /\
  (pos + zlen buffer / 512) * 512 <= size /\ zlen buffer + 5 <= 32768.

Lemma accepts_all n : 0 < n -> accepts [n] MSG_WAITALL n.
Proof.
  intros Hn. cbn [accepts]. assert (retry_send MSG_WAITALL n = false) as ->.
  { unfold retry_send. destruct (Z.eqb_spec n (- ERESTARTSYS)) as [E|_]; [unfold ERESTARTSYS in E; lia|].
    destruct (Z.eqb_spec n (- EAGAIN)) as [E|_]; [unfold EAGAIN in E; lia|]. apply andb_false_r. }
  split; [lia|by left].
Qed.
Lemma perfect_sends `{BlockDevice D} (d : D) n : 0 < n -> sends_all (perfect d n) n.
Proof. intros. split; [done|]. split; [done|]. by apply accepts_all. Qed.

Lemma zlen_disk_op w o : op_ok (zlen (fst w)) o -> zlen (fst (disk_op w o)) = zlen (fst w).
Proof.
  destruct o as [[pos buffer] []]; [|done]. intros (Hm & (Hp & Hn & Hr) & Hs & Hl). cbn.
  apply zlen_store; [lia|]. pose proof (Z_div_mod_eq_full (zlen buffer) 512). lia.
Qed.

(** The message of a WRITE, and its effect on a disk. *)
Definition op_frame (o : op) : bytes := let '(pos, buffer, _) := o in Proto.frame (Proto.Write (pos * 512) buffer).
Definition store_op (disk : bytes) (o : op) : bytes := let '(pos, buffer, _) := o in store disk (pos * 512) buffer.

(** [d] is behind [disk] by the WRITEs [pending]: they are in range, no two of them
    have a sector in common, and with them [d] is [disk]. *)
Record behind `{BlockDevice D} (d : D) (pending : list op) (disk : bytes) : Prop := {
  behind_wf : dev_wf d;
  behind_ok : Forall (op_ok (zlen (dev_contents d))) pending;
  behind_apart : ForallOrdPairs (fun o p => apart o p = true) pending;
  behind_disk : fold_left store_op pending (dev_contents d) = disk }.

Lemma op_range size o :
  op_ok size o -> let '(pos, buffer, _) := o in
  0 <= pos * 512 /\ zlen buffer = zlen buffer / 512 * 512 /\ pos * 512 + zlen buffer <= size.
Proof.
  destruct o as [[pos buffer] write]. intros (Hm & (Hp & Hn & Hr) & Hs & Hl).
  pose proof (Z_div_mod_eq_full (zlen buffer) 512). lia.
Qed.
Lemma zlen_store_op disk o : op_ok (zlen disk) o -> zlen (store_op disk o) = zlen disk.
Proof. intros Ho. pose proof (op_range _ _ Ho). destruct o as [[pos buffer] ?]. cbn. apply zlen_store; lia. Qed.
Lemma apart_sym o p : apart o p = apart p o.
Proof. destruct o as [[? ?] ?], p as [[? ?] ?]. cbn. apply orb_comm. Qed.

Lemma apart_spec o p :
  apart o p = true -> let '(pos, buffer, _) := o in let '(pos', buffer', _) := p in
  pos + zlen buffer / 512 <= pos' \/ pos' + zlen buffer' / 512 <= pos.
Proof.
  destruct o as [[pos buffer] ?], p as [[pos' buffer'] ?]. cbn. intros [E|E]%orb_prop; apply Z.leb_le in E; lia.
Qed.

Lemma store_op_comm disk o p :
  op_ok (zlen disk) o -> op_ok (zlen disk) p -> apart o p = true ->
  store_op (store_op disk o) p = store_op (store_op disk p) o.
Proof.
  intros Ho Hp Ha. pose proof (op_range _ _ Ho) as Ro. pose proof (op_range _ _ Hp) as Rp.
  pose proof (apart_spec _ _ Ha) as Rs.
  destruct o as [[pos buffer] ?], p as [[pos' buffer'] ?]. cbn. apply store_comm; lia.
Qed.

(** A WRITE apart from those of [l] may be handled before them. *)
Lemma fold_store_comm l : forall disk o,
  op_ok (zlen disk) o -> Forall (op_ok (zlen disk)) l -> Forall (fun p => apart o p = true) l ->
  fold_left store_op l (store_op disk o) = store_op (fold_left store_op l disk) o.
Proof.
  induction l as [|p l IH]; intros disk o Ho Hl Ha; [done|]. apply Forall_cons in Hl as [Hp Hl].
  apply Forall_cons in Ha as [Hop Ha]. cbn [fold_left]. rewrite store_op_comm by done.
  apply IH; [|by rewrite zlen_store_op..|done]. by rewrite zlen_store_op.
Qed.
Lemma zlen_fold_store l : forall disk,
  Forall (op_ok (zlen disk)) l -> zlen (fold_left store_op l disk) = zlen disk.
Proof.
  induction l as [|p l IH]; intros disk Hl; [done|]. apply Forall_cons in Hl as [Hp Hl]. cbn [fold_left].
  rewrite IH; rewrite zlen_store_op by done; done.
Qed.
(** What a READ apart from the pending WRITEs sees. *)
Lemma load_fold_store l : forall disk pos buffer,
  op_ok (zlen disk) (pos, buffer, false) -> Forall (op_ok (zlen disk)) l ->
  Forall (fun p => apart (pos, buffer, false) p = true) l ->
  load (fold_left store_op l disk) (pos * 512) (zlen buffer) = load disk (pos * 512) (zlen buffer).
Proof.
  induction l as [|p l IH]; intros disk pos buffer Ho Hl Ha; [done|]. apply Forall_cons in Hl as [Hp Hl].
  apply Forall_cons in Ha as [Hop Ha]. cbn [fold_left]. rewrite IH by (by rewrite ?zlen_store_op).
  pose proof (op_range _ _ Ho) as Ro. pose proof (op_range _ _ Hp) as Rp. pose proof (apart_spec _ _ Hop) as Rs.
  destruct p as [[pos' buffer'] ?]. cbn in *. pose proof (zlen_nonneg buffer). apply load_store_disjoint; lia.
Qed.

(** Taking a message out of the list. *)
Lemma delete_past {A} (l : list A) i : (length l <= i)%nat -> delete i l = l.
Proof. revert i. induction l as [|x l IH]; intros [|i] Hi; cbn in *; [done..|lia|]. f_equal. apply IH. lia. Qed.
Lemma delete_map {A B} (f : A -> B) l : forall i, delete i (map f l) = map f (delete i l).
Proof. induction l as [|x l IH]; intros [|i]; cbn; [done..|]. f_equal. apply IH. Qed.
Lemma ordered_pairs_middle {A} (R : A -> A -> Prop) l1 x l2 :
  ForallOrdPairs R (l1 ++ x :: l2) -> Forall (fun y => R y x) l1 /\ ForallOrdPairs R (l1 ++ l2).
Proof.
  induction l1 as [|y l1 IH]; cbn; intros Hp; inversion Hp as [|? ? Hy Hl]; subst; [by split|].
  destruct (IH Hl) as [H1 H2]. rewrite Forall_app, Forall_cons in Hy. destruct Hy as (Hy1 & Hyx & Hy2).
  split; [by constructor|]. constructor; [|done]. by apply Forall_app.
Qed.
Lemma ordered_pairs_snoc {A} (R : A -> A -> Prop) l x :
  ForallOrdPairs R l -> Forall (fun y => R y x) l -> ForallOrdPairs R (l ++ [x]).
Proof.
  induction 1 as [|y l Hy Hl IH]; cbn; intros Hx; [by repeat constructor|].
  apply Forall_cons in Hx as [Hyx Hx]. constructor; [|by apply IH]. apply Forall_app. by repeat constructor.
Qed.

Lemma write_message `{BlockDeviceLaws D} (d : D) o :
  dev_wf d -> op_ok (zlen (dev_contents d)) o ->
  exists reply d', dev_connection d (op_frame o) = Ret (reply, d') /\ dev_wf d' /\
    dev_contents d' = store_op (dev_contents d) o.
Proof.
  intros Hd Ho. destruct o as [[pos buffer] w]. pose proof (op_range _ _ Ho) as (Hp0 & Hz & Hs).
  destruct Ho as (Hm & (Hp & Hn & Hr) & _ & Hl).
  destruct (dev_connection_frame d (Proto.Write (pos * 512) buffer) Hd) as (d' & C & W & Dc).
  { split; [lia|]. split; lia. }
  eexists _, d'. split; [exact C|]. split; [exact W|]. rewrite Dc. cbn [Proto.exec].
  by rewrite (proj2 (Z.leb_le _ _)) by lia.
Qed.

(** The server catches up, in whatever order it handles the messages. *)
Lemma server_handles_behind `{BlockDeviceLaws D} picks : forall (d : D) pending disk,
  behind d pending disk ->
  exists d', server_handles picks d (map op_frame pending) = Ret (d', map op_frame (handled picks pending)) /\
    behind d' (handled picks pending) disk.
Proof.
  induction picks as [|i picks IH]; intros d pending disk Hb; [by exists d|].
  unfold handled. cbn [server_handles fold_left]. fold (handled picks (delete i pending)).
  change (map op_frame pending) with (op_frame <$> pending). rewrite list_lookup_fmap.
  destruct (pending !! i) as [o|] eqn:E; cbn [fmap option_fmap option_map].
  2: { apply lookup_ge_None in E. rewrite delete_past by done. by apply IH. }
  apply list_elem_of_split_length in E as (l1 & l2 & -> & ->).
  destruct Hb as [Hd Hok Hap Hdisk]. apply Forall_app in Hok as [Hok1 Hok2]. apply Forall_cons in Hok2 as [Ho Hok2].
  apply ordered_pairs_middle in Hap as [Ha1 Hap].
  destruct (write_message d o Hd Ho) as (reply & d1 & C & W & Dc). rewrite C. cbn [mbind outcome_bind snd].
  assert (store_op (fold_left store_op l1 (dev_contents d)) o = fold_left store_op l1 (dev_contents d1)) as E1.
  { rewrite Dc, fold_store_comm; try done. eapply Forall_impl; [exact Ha1|]. intros p. by rewrite apart_sym. }
  change (op_frame <$> (l1 ++ o :: l2)) with (map op_frame (l1 ++ o :: l2)). rewrite delete_map, !delete_middle.
  apply IH. split; [done| |done|].
  - rewrite Dc, zlen_store_op by done. by apply Forall_app.
  - rewrite <-Hdisk, !fold_left_app. cbn [fold_left]. by rewrite E1.
Qed.


Lemma handled_ok (Q : op -> Prop) picks : forall pending, Forall Q pending -> Forall Q (handled picks pending).
Proof.
  unfold handled. induction picks as [|i picks IH]; intros pending Hp; [done|]. cbn. apply IH. by apply Forall_delete.
Qed.

(** One transfer: the driver and the server behind it do what the disk does. *)
Lemma device_transfer_correct `{BlockDeviceLaws D} (d : D) pending picks filled disk o :
  behind d pending disk -> op_ok (zlen disk) o ->
  forallb (apart o) (handled (default [] (head picks)) pending) = true ->
  exists d', device_transfer o (mk_link d (map op_frame pending) picks filled) =
      Ret (0, mk_link d' (map op_frame (handled (default [] (head picks)) pending ++ (if snd o then [o] else [])))
                (tail picks) (snd (disk_op (disk, filled) o))) /\
    behind d' (handled (default [] (head picks)) pending ++ (if snd o then [o] else [])) (fst (disk_op (disk, filled) o)).
Proof.
  intros Hb Ho Ha. unfold device_transfer. destruct o as [[pos buffer] write].
  destruct (server_handles_behind (default [] (head picks)) _ _ _ Hb) as (d1 & E & Hb1).
  cbn [l_picks l_dev l_pending l_filled]. rewrite E. cbn [mbind outcome_bind].
  set (pending' := handled _ _) in *. destruct Hb1 as [Hd Hok Hap Hdisk].
  assert (zlen disk = zlen (dev_contents d1)) as Hz by (by rewrite <-Hdisk, zlen_fold_store).
  rewrite Hz in Ho. pose proof (op_range _ _ Ho) as (Hp0 & Hbuf & Hs). pose proof Ho as (Hm & Hr & _ & Hl).
  assert (Forall (fun p => apart (pos, buffer, write) p = true) pending') as Hall.
  { apply Forall_forall. intros p Hp. rewrite forallb_forall in Ha. apply Ha. by apply list_elem_of_In. }
  set (nb := zlen buffer / 512) in *. pose proof Hr as (Hp & Hn & Hlt). unfold blockdev_transfer.
  destruct write; cbn [negb snd].
  - rewrite write_sends_frame; [|done|lia..|replace (9 + nb * 512) with (9 + zlen buffer) by lia; apply perfect_sends; lia].
    cbn [mbind outcome_bind fst snd]. exists d1. split; [by rewrite map_app|]. cbn. split; [done| | |].
    + apply Forall_app. split; [done|]. by apply Forall_singleton.
    + apply ordered_pairs_snoc; [done|]. eapply Forall_impl; [exact Hall|]. intros p. by rewrite apart_sym.
    + rewrite fold_left_app, Hdisk. done.
  - rewrite app_nil_r. pose proof (read_sends_frame (perfect d1 13) pos nb buffer Hr (perfect_sends d1 13 ltac:(lia))) as Er.
    destruct (dev_connection_frame d1 (Proto.Read (pos * 512) (nb * 512)) Hd) as (d' & C & W & Dc); [cbn; lia|].
    cbn [Proto.exec] in C, Dc. rewrite (proj2 (Z.leb_le _ _)) in C, Dc by lia. cbn [fst snd] in C, Dc.
    assert (zlen (load (dev_contents d1) (pos * 512) (nb * 512)) = nb * 512) as Hld by (apply zlen_load; lia).
    unfold perfect at 2 in Er. cbn [k_recvs] in Er. rewrite C in Er. cbn [tcp_client_receive] in Er.
    rewrite ztake_all in Er by lia. rewrite poke_all in Er by lia. cbn [mbind outcome_bind] in Er.
    rewrite Hld, (proj2 (Z.ltb_lt 1 (nb * 512))) in Er by lia. rewrite Er. cbn [mbind outcome_bind]. rewrite C.
    exists d'. cbn. rewrite <-Hdisk at 1.
    rewrite load_fold_store by done. replace (zlen buffer) with (nb * 512) by lia. split; [done|].
    split; [done|by rewrite Dc|done|by rewrite Dc].
Qed.

Lemma replay_device `{BlockDeviceLaws D} l : forall (d : D) pending picks filled disk,
  behind d pending disk -> Forall (op_ok (zlen disk)) l -> settled picks pending l = true ->
  exists d' pending' picks',
    replay device_transfer l (mk_link d (map op_frame pending) picks filled) =
      Ret (mk_link d' (map op_frame pending') picks' (snd (disk_ops l (disk, filled)))) /\
    behind d' pending' (fst (disk_ops l (disk, filled))).
Proof.
  induction l as [|o l IH]; intros d pending picks filled disk Hb Hl Hs; [by exists d, pending, picks|].
  apply Forall_cons in Hl as [Ho Hl]. cbn [settled] in Hs. apply andb_prop in Hs as [Ha Hs].
  destruct (device_transfer_correct d pending picks filled disk o Hb Ho Ha) as (d1 & E & Hb1).
  destruct (IH d1 _ (tail picks) (snd (disk_op (disk, filled) o)) _ Hb1) as (d2 & p2 & k2 & E2 & Hb2).
  { change disk with (fst (disk, filled)) in Ho, Hl. by rewrite zlen_disk_op. }
  { destruct (snd o); [done|by rewrite app_nil_r]. }
  exists d2, p2, k2. cbn [replay]. rewrite E. cbn [mbind outcome_bind snd]. rewrite E2. unfold disk_ops in *. cbn [fold_left].
  destruct (disk_op (disk, filled) o). done.
Qed.

Lemma handled_all {A} (l : list A) : fold_left (fun l i => delete i l) (replicate (length l) O) l = [].
Proof. induction l as [|x l IH]; [done|]. exact IH. Qed.

(** C2: the driver, the protocol and a server are a disk.  Conditions: the requests
    are in range and each transfer fits one message, the network delivers, the
    driver has come to its state [s] without the race, and the server handles the
    messages, each in one piece and in any order, such that no transfer touches a
    sector of a WRITE sent before it and still unhandled.  Then, once the work
    handler has drained the queue, every request is finished and each READ has got
    the sectors as they were at its place in the order of submission.  The disk of
    the server becomes what the requests, executed in that order, make of it, as
    soon as it has handled the WRITEs that are left, in whatever order it does. *)
Theorem driver_is_a_disk `{BlockDeviceLaws D} (d : D) picks l s :
  dev_wf d -> Forall (fun r => rq_chunks r <> []) l -> Forall (op_ok (zlen (dev_contents d))) (all_ops l) ->
  settled picks [] (all_ops l) = true ->
  quiet_reachable device_transfer (mk_link d [] picks []) l s ->
  exists s' d' msgs picks', drain device_transfer (3 * chunks_left s + 2) s = Some (Ret s') /\
    current_req s' = None /\ queue s' = [] /\ map fst (completed s') = map rq_id l /\
    world s' = mk_link d' msgs picks' (snd (disk_ops (all_ops l) (dev_contents d, []))) /\
    (exists order d'', server_handles order d' msgs = Ret (d'', [])) /\
    (forall order, exists d'' rest, server_handles order d' msgs = Ret (d'', rest) /\
       (rest = [] -> dev_contents d'' = fst (disk_ops (all_ops l) (dev_contents d, [])))).
Proof.
  intros Hd Hl Ho Hs Hr.
  assert (behind d [] (dev_contents d)) as Hb by (split; [done|constructor..|done]).
  destruct (replay_device (all_ops l) d [] picks [] _ Hb Ho Hs) as (d' & pending' & picks' & E & Hb').
  destruct (drain_serves device_transfer _ _ _ _ Hl Hr E) as (s' & Hdr & _ & Hc & Hq & _ & Hi & Hw).
  exists s', d', (map op_frame pending'), picks'. split; [done|]. split; [done|]. split; [done|]. split; [done|].
  split; [done|]. split.
  - destruct (server_handles_behind (replicate (length pending') O) _ _ _ Hb') as (d2 & E2 & _).
    exists (replicate (length pending') O), d2. rewrite E2. unfold handled. by rewrite handled_all.
  - intros order. destruct (server_handles_behind order _ _ _ Hb') as (d2 & E2 & Hb2).
    eexists d2, _. split; [exact E2|]. intros Hrest. destruct Hb2 as [_ _ _ Hdisk].
    apply map_eq_nil in Hrest. rewrite Hrest in Hdisk. done.
Qed.


(** C32: a WRITE whose message is longer than the 32768 bytes of the server's
    buffer is lost: the server drops the connection without an answer and without
    a change, and the driver reports success. *)
Theorem large_write_lost k sector nb data (s : SawaServer.t) ti fuel ios l out :
  sector_range sector nb -> zlen data = nb * 512 -> 32768 < nb * 512 + 5 -> nb * 512 + 9 < 2 ^ 32 ->
  sends_all k (9 + nb * 512) ->
  exists sent rest, blockdev_transfer k sector nb data true = Some (Ret (0, sent, data)) /\
    SawaServer.readData (S fuel) ios s ti (mkSock (RxData sent :: l) out) = Some (Ret (s, ti, mkSock rest out)).
Proof.
  intros Hr Hd Hbig Hmax Hk. pose proof Hr as (Hp & Hn & Hlt).
  eexists (Proto.frame (Proto.Write (sector * 512) data)), _. split; [unfold blockdev_transfer; cbn [negb]; by rewrite write_sends_frame|].
  cbn [SawaServer.readData]. unfold Proto.frame.
  assert (zlen (Proto.body (Proto.Write (sector * 512) data)) = nb * 512 + 5) as ->.
  { cbn [Proto.body]. rewrite zlen_cons, zlen_app, zlen_put_u32. lia. }
  rewrite (sock_read_front 4 (put_u32 (nb * 512 + 5))) by done. rewrite zlen_put_u32. cbn match.
  rewrite (proj2 (Z.ltb_ge 4 4)) by lia. replace (get_u32 (put_u32 (nb * 512 + 5))) with (nb * 512 + 5).
  2: { pose proof (get_put_u32 (nb * 512 + 5) []) as G. rewrite app_nil_r in G.
       rewrite G. symmetry. apply u32_small. unfold is_u32. lia. }
  rewrite (proj2 (Z.ltb_lt 32768 _)) by lia. done.
Qed.

End with_heap.
End Stack.

(** ** main.c: loading and unloading the module *)

Module Setup.

Definition ENOMEM : Z := 12.

(** The lock of the device: not set up, set up by [spin_lock_init], or
    overwritten with zeros. *)
Inductive lock_state := LockUnset | LockInit | LockZeroed.
Record gendisk := mk_gendisk {
  gd_major : Z; gd_first_minor : Z; gd_name : bytes; gd_capacity : Z; gd_added : bool }.
(** [sawa_dev]. *)
Record net_dev := mk_net_dev {
  dev_nb_sectors : Z; dev_lock : lock_state; dev_queue : bool; dev_gd : option gendisk }.
Definition zero_dev : net_dev := mk_net_dev 0 LockZeroed false None.

(** The variables of the module, and what the kernel has given out to it. *)
Record module_state := mk_module {
  nb_sectors : Z; major_number : Z; sawa_dev : net_dev;
  held_queues : Z; held_majors : list Z; held_disks : Z }.
Definition set_dev (d : net_dev) (m : module_state) : module_state :=
  mk_module (nb_sectors m) (major_number m) d (held_queues m) (held_majors m) (held_disks m).

(** The answers of the kernel: the result of [sawa_send_info] and the sectors it
    has assigned, the success of [blk_init_queue], the number that
    [register_blkdev] returns (an error is negative), the success of
    [alloc_disk] for a number of minors. *)
Record answers := mk_answers {
  a_info : Z * option Z; a_queue : bool; a_register : Z; a_alloc_disk : Z -> bool }.

Definition register_blkdev (r : Z) (m : module_state) : module_state :=
  mk_module (nb_sectors m) (u32 r) (sawa_dev m) (held_queues m)
    (if 0 <? r then r :: held_majors m else held_majors m) (held_disks m).
Definition unregister_blkdev (major : Z) (l : list Z) : list Z := List.filter (fun x => negb (x =? major)) l.

(** [sawa_driver_init].  [major_number] is unsigned. *)
Definition sawa_driver_init (a : answers) (m : module_state) : Z * module_state :=
  let m := set_dev (mk_net_dev (dev_nb_sectors (sawa_dev m)) LockInit (dev_queue (sawa_dev m)) (dev_gd (sawa_dev m))) m in
  let m := mk_module (default (nb_sectors m) (snd (a_info a))) (major_number m) (sawa_dev m)
             (held_queues m) (held_majors m) (held_disks m) in
  if fst (a_info a) <? 0 then (-1, m)
  else
    let m := set_dev zero_dev m in
    let m := set_dev (mk_net_dev (s32 (nb_sectors m)) LockZeroed (a_queue a) None) m in
    if negb (a_queue a) then (- ENOMEM, m)
    else
      let m := mk_module (nb_sectors m) (major_number m) (sawa_dev m) (held_queues m + 1) (held_majors m) (held_disks m) in
      let m := register_blkdev (a_register a) m in
      if major_number m <? 0 then (- ENOMEM, m)
      else if negb (a_alloc_disk a (s32 (nb_sectors m))) then
        (- ENOMEM, mk_module (nb_sectors m) (major_number m) (sawa_dev m) (held_queues m)
                     (unregister_blkdev (major_number m) (held_majors m)) (held_disks m))
      else
        let gd := mk_gendisk (s32 (major_number m)) 0 (bs "sawa0") (nb_sectors m) true in
        (0, mk_module (nb_sectors m) (major_number m)
              (mk_net_dev (dev_nb_sectors (sawa_dev m)) LockZeroed (dev_queue (sawa_dev m)) (Some gd))
              (held_queues m) (held_majors m) (held_disks m + 1)).

(** [sawa_driver_exit]. *)
Definition sawa_driver_exit (m : module_state) : module_state :=
  mk_module (nb_sectors m) (major_number m) (sawa_dev m)
    (if dev_queue (sawa_dev m) then held_queues m - 1 else held_queues m)
    (unregister_blkdev (major_number m) (held_majors m))
    (match dev_gd (sawa_dev m) with Some _ => held_disks m - 1 | None => held_disks m end).

(** [blockdev_getgeo]: cylinders, heads, sectors and start.  The fields are a
    [short], a [char], a [char] and a [long] of the kernel. *)
Record hd_geometry := mk_geometry { cylinders : Z; heads : Z; sectors : Z; start : Z }.
Definition blockdev_getgeo (m : module_state) : Z * hd_geometry :=
  (0, mk_geometry 64 1 (nb_sectors m mod 256) 0).

Lemma unregister_new r l : ~ In r l -> unregister_blkdev r (r :: l) = l.
Proof.
  intros Hin. unfold unregister_blkdev. cbn. rewrite Z.eqb_refl. cbn.
  induction l as [|x l IH]; [done|]. cbn. destruct (Z.eqb_spec x r) as [->|]; [by destruct Hin; left|].
  cbn. f_equal. apply IH. intros ?. apply Hin. by right.
Qed.

(** unloading the module gives back what loading it has taken, when the kernel
    has given it a major number of its own. *)
Theorem exit_after_init a m m' :
  0 < a_register a < 2 ^ 32 -> ~ In (a_register a) (held_majors m) -> sawa_driver_init a m = (0, m') ->
  let m'' := sawa_driver_exit m' in
  held_queues m'' = held_queues m /\ held_majors m'' = held_majors m /\ held_disks m'' = held_disks m.
Proof.
  intros Hr Hin. unfold sawa_driver_init. destruct (fst (a_info a) <? 0); [done|].
  destruct (a_queue a) eqn:Eq; cbn [negb]; [|done].
  assert (major_number (register_blkdev (a_register a) (mk_module (nb_sectors m) 0 (sawa_dev m) 0 [] 0)) = a_register a) as Hm
    by (cbn; apply u32_small; unfold is_u32; lia). cbn in Hm.
  cbn. rewrite Hm, (proj2 (Z.ltb_lt 0 (a_register a))), (proj2 (Z.ltb_ge (a_register a) 0)) by lia.
  destruct (a_alloc_disk a _); cbn; [|done]. intros [= <-]. cbn.
  split; [lia|]. split; [|lia]. by apply unregister_new.
Qed.

(** what a failed load leaves behind: with [-1] or without a queue nothing; but
    once the queue exists it stays, and the module is not there to clean it up. *)
Theorem failed_init_leaks_queue a m r m' :
  0 < a_register a < 2 ^ 32 -> ~ In (a_register a) (held_majors m) -> sawa_driver_init a m = (r, m') -> r <> 0 ->
  held_majors m' = held_majors m /\ held_disks m' = held_disks m /\
  held_queues m' = held_queues m + (if (0 <=? fst (a_info a)) && a_queue a then 1 else 0).
Proof.
  intros Hr Hin. unfold sawa_driver_init. destruct (Z.ltb_spec (fst (a_info a)) 0) as [H0|H0].
  { intros [= <- <-] _. cbn. rewrite (proj2 (Z.leb_gt _ _)) by done. cbn. split; [done|]. split; [done|]. lia. }
  rewrite (proj2 (Z.leb_le _ _)) by done. cbn [andb].
  destruct (a_queue a) eqn:Eq; cbn [negb].
  2: { intros [= <- <-] _. cbn. split; [done|]. split; [done|]. lia. }
  cbn. rewrite (u32_small (a_register a)) by (unfold is_u32; lia).
  rewrite (proj2 (Z.ltb_lt 0 (a_register a))), (proj2 (Z.ltb_ge (a_register a) 0)) by lia.
  destruct (a_alloc_disk a _); cbn; [by intros [= <- <-]|]. intros [= <- <-] _. cbn.
  split; [by apply unregister_new|]. done.
Qed.

(** a refusal of [register_blkdev] goes unnoticed, since an unsigned number is
    never negative: the load succeeds with the error number as the major number of
    the disk. *)
Theorem register_failure_unnoticed a m :
  - 2 ^ 31 <= a_register a < 0 -> 0 <= fst (a_info a) -> a_queue a = true -> (forall n, a_alloc_disk a n = true) ->
  exists m', sawa_driver_init a m = (0, m') /\ held_majors m' = held_majors m /\
    major_number m' = a_register a + 2 ^ 32 /\ option_map gd_major (dev_gd (sawa_dev m')) = Some (a_register a).
Proof.
  intros Hr Hi Hq Ha. unfold sawa_driver_init. rewrite (proj2 (Z.ltb_ge _ _)) by done. rewrite Hq. cbn [negb].
  assert (u32 (a_register a) = a_register a + 2 ^ 32) as Hu.
  { unfold u32. symmetry. apply (Z.mod_unique_pos _ _ (-1)); lia. }
  cbn. rewrite Hu, (proj2 (Z.ltb_ge _ 0)), Ha by lia. rewrite (proj2 (Z.ltb_ge 0 (a_register a))) by lia. cbn.
  eexists. split; [done|]. cbn. split; [done|]. split; [done|]. f_equal. unfold s32.
  rewrite <-(Z.mod_unique_pos (a_register a + 2 ^ 32 + 2 ^ 31) (2 ^ 32) 1 (a_register a + 2 ^ 31)); lia.
Qed.

End Setup.

(** ** ramdisk.c: the request function without a server *)

Module Ramdisk.
Import BlockDriver.

Definition u64 (z : Z) : Z := z mod 2 ^ 64.

(** The memory of the disk: a null pointer, which nothing in the file changes. *)
Definition data : option bytes := None.

(** [ramdisk_transfer] on the memory [data] points to; the result is this memory
    and the buffer afterwards.  Sectors beyond the end are refused silently. *)
Definition ramdisk_transfer (nb_sectors : Z) (data : option bytes) (sector nsect : Z) (buffer : bytes) (write : bool)
  : outcome (option bytes * bytes) :=
  let offset := u64 (sector * 512) in
  let nbytes := u64 (nsect * 512) in
  if u32 (nb_sectors * 512) <? u64 (offset + nbytes) then Ret (data, buffer)
  else
    match data with
    | None => Undef
    | Some data =>
        if zlen buffer <? nbytes then Undef
        else if zlen data <? offset + nbytes then Undef
        else if write then (data ← poke data offset (ztake nbytes buffer); Ret (Some data, buffer))
        else (buffer ← poke buffer 0 (load data offset nbytes); Ret (Some data, buffer))
    end.

(** [ramdisk_request] on the queue [q], [req] being the request fetched last; the
    result is the finished requests, the memory and the buffers the READs have
    filled.  A request that is not a file system request is ended and then used
    again. *)
Definition ramdisk : Type := list (nat * Z) * option bytes * list bytes.
Fixpoint ramdisk_loop (fuel : nat) (nb_sectors : Z) (req : option request) (q : list request) (st : ramdisk)
  : option (outcome ramdisk) :=
  match fuel with
  | O => None
  | S fuel =>
      match req with
      | None => Some (Ret st)
      | Some req =>
          if negb (rq_fs req) then Some Undef
          else
            let '(done, data, filled) := st in
            match ramdisk_transfer nb_sectors data (rq_pos req) (cur_sectors req) (cur_buffer req) (rq_write req) with
            | Undef => Some Undef
            | Throw c => Some (Throw c)
            | Ret (data, buffer) =>
                let filled := if rq_write req then filled else filled ++ [buffer] in
                let (more, req') := end_request_cur req in
                if more : bool then ramdisk_loop fuel nb_sectors (Some req') q (done, data, filled)
                else ramdisk_loop fuel nb_sectors (head q) (tail q) (done ++ [(rq_id req, 0)], data, filled)
            end
      end
  end.
Definition ramdisk_request (fuel : nat) (nb_sectors : Z) (q : list request) (st : ramdisk) : option (outcome ramdisk) :=
  ramdisk_loop fuel nb_sectors (head q) (tail q) st.

(** Whether a chunk lies beyond the end, as [ramdisk_transfer] computes it, and
    whether the ramdisk refuses everything a request wants. *)
Definition beyond (nb_sectors : Z) (o : op) : bool :=
  let '(pos, buffer, _) := o in
  u32 (nb_sectors * 512) <? u64 (u64 (pos * 512) + u64 (zlen buffer / 512 * 512)).
Definition refused (nb_sectors : Z) (r : request) : bool := rq_fs r && forallb (beyond nb_sectors) (ops_of r).
(** The buffers of the READs, as they are. *)
Definition untouched (l : list request) : list bytes :=
  concat (map (fun r => if rq_write r then [] else rq_chunks r) l).

Lemma ramdisk_loop_dead nb fuel : forall req q done filled,
  (req = None -> q = []) ->
  let l := option_list req ++ q in
  Forall (fun r => rq_chunks r <> []) l -> (chunks_of l < fuel)%nat ->
  ramdisk_loop fuel nb req q (done, data, filled) =
    Some (if forallb (refused nb) l then Ret (done ++ map (fun r => (rq_id r, 0)) l, data, filled ++ untouched l) else Undef).
Proof.
  induction fuel as [|fuel IH]; intros req q done filled Hnone l Hc Hf; [lia|].
  cbn [ramdisk_loop]. destruct req as [r|]; unfold l in *; [|rewrite (Hnone eq_refl); cbn; by rewrite !app_nil_r].
  clear l. change (option_list (Some r) ++ q) with (r :: q) in *. apply Forall_cons in Hc as [Hr Hc].
  cbn [forallb]. unfold refused at 1. destruct (rq_fs r) eqn:Efs; cbn [negb andb]; [|done].
  cbn [chunks_of] in Hf. destruct (rq_chunks r) as [|c cs] eqn:E; [done|].
  rewrite (ops_of_cons r c cs E). cbn [forallb]. unfold ramdisk_transfer. unfold beyond at 1.
  unfold cur_op, cur_sectors. destruct (u32 (nb * 512) <? _); cbn [andb]; [|done].
  unfold untouched. cbn [map concat]. rewrite E. unfold end_request_cur, cur_buffer. rewrite E.
  cbn [tail head default snd length] in *. destruct cs as [|c2 cs].
  - rewrite IH; [|by destruct q|by destruct q|destruct q; cbn in Hf |- *; lia].
    assert (option_list (head q) ++ tail q = q) as -> by (by destruct q).
    replace (forallb (beyond nb) (ops_of _)) with true by done. cbn [andb]. destruct (forallb _ q); [|done].
    cbn [map]. destruct (rq_write r); by rewrite <-?app_assoc.
  - rewrite IH; [|done|by constructor|cbn in Hf |- *; lia].
    set (r' := mk_request _ _ _ _ _). change (option_list (Some r') ++ q) with (r' :: q). cbn [forallb].
    assert (refused nb r' = forallb (beyond nb) (ops_of r')) as -> by (unfold refused, r'; cbn [rq_fs]; by rewrite ?Efs).
    destruct (_ && _); [|done]. unfold untouched. cbn [map concat]. unfold r'. cbn [rq_write rq_chunks rq_id].
    destruct (rq_write r); by rewrite <-?app_assoc.
Qed.

(** the ramdisk never transfers a sector: [data] is null from the start and
    nothing allocates it.  It ends exactly when it has been asked for nothing but
    chunks beyond its end, which it reports as done and leaves as they were; the
    first chunk within its limits, and the first request that is not a file system
    request, is undefined behaviour. *)
Theorem ramdisk_never_transfers nb l :
  Forall (fun r => rq_chunks r <> []) l ->
  ramdisk_request (S (chunks_of l)) nb l ([], data, []) =
    Some (if forallb (refused nb) l then Ret (map (fun r => (rq_id r, 0)) l, data, untouched l) else Undef).
Proof.
  intros Hc. unfold ramdisk_request. assert (option_list (head l) ++ tail l = l) as El by (by destruct l).
  rewrite ramdisk_loop_dead; rewrite ?El; [done|by destruct l|done|lia].
Qed.

(** the ramdisk reports every file system request as a success, also the ones
    beyond its end, of which it transfers nothing: the buffer of the READ is
    returned as it was. *)
Theorem ramdisk_beyond_end nb i pos c data filled done :
  0 < zlen c -> zlen c mod 512 = 0 -> 0 <= pos -> nb * 512 < pos * 512 + zlen c < 2 ^ 64 -> 0 <= nb * 512 < 2 ^ 32 ->
  ramdisk_request 2 nb [mk_request i true false pos [c]] (done, data, filled) =
    Some (Ret (done ++ [(i, 0)], data, filled ++ [c])).
Proof.
  intros H0 Hm Hp Hlt Hnb. pose proof (Z_div_mod_eq_full (zlen c) 512) as Hd. rewrite Hm in Hd.
  unfold ramdisk_request. cbn [head tail ramdisk_loop rq_fs negb rq_pos rq_write rq_id].
  set (r := mk_request _ _ _ _ _). change (cur_buffer r) with c. change (cur_sectors r) with (zlen c / 512).
  assert (forall x, 0 <= x < 2 ^ 64 -> u64 x = x) as Hu by (intros; by apply Z.mod_small).
  unfold ramdisk_transfer. rewrite !Hu; [|rewrite ?Hu; lia..]. rewrite (u32_small (nb * 512)) by (unfold is_u32; lia).
  rewrite (proj2 (Z.ltb_lt _ _)) by lia. unfold r, end_request_cur. done.
Qed.

End Ramdisk.

(** ** Concrete runs *)
Section witnesses.
Import Tcp SawaModule BlockDriver.
#[local] Existing Instance zero_heap.
#[local] Existing Instance SawaServer.device.
#[local] Existing Instance SawaServer.device_laws.

Definition sector_a : bytes := zrepeat 512 (z2b 97).
Definition sector_0 : bytes := zrepeat 512 nul.
(** A connection on which a message of 521 bytes takes three calls, one of them
    interrupted, and one that is still being set up. *)
Definition kernel_write : kernel := mk_kernel 3 0 [100; -512; 421] (fun _ => []) true.
Definition kernel_read : kernel := mk_kernel 3 (-115) [13] (fun _ => []) true.

Lemma kernel_write_sends : sends_all kernel_write 521.
Proof. split; [done|]. split; [done|]. cbn. split; [lia|]. right. split; [lia|]. by left. Qed.
Lemma kernel_read_sends : sends_all kernel_read 13.
Proof. split; [done|]. split; [done|]. cbn. split; [lia|]. by left. Qed.

Lemma write_then_read_witness :
  exists sent1 reply1 d1 sent2 reply2 d2,
    sawa_write_data kernel_write 1 1 sector_a = Some (Ret (0, sent1)) /\
    dev_connection small sent1 = Ret (reply1, d1) /\ dev_connection d1 sent2 = Ret (reply2, d2) /\
    sawa_read_data (answered kernel_read reply2) 1 1 sector_0 = Some (Ret (0, sent2, sector_a)).
Proof.
  apply (write_then_read small kernel_write kernel_read 1 1 sector_a sector_0);
    [apply wf_small|done|done|done|lia|vm_compute; discriminate|apply kernel_write_sends|apply kernel_read_sends].
Defined.

Lemma unacknowledged_write_witness :
  exists sent2 reply2 d1,
    dev_connection small sent2 = Ret (reply2, d1) /\
    sawa_read_data (answered kernel_read reply2) 1 1 sector_a = Some (Ret (0, sent2, sector_0)).
Proof.
  destruct (unacknowledged_write small kernel_write kernel_read 1 1 sector_a sector_a)
    as (_ & sent2 & reply2 & d1 & _ & _ & _ & E & R & _);
    [apply wf_small|done|done|done|lia|vm_compute; discriminate|apply kernel_write_sends|apply kernel_read_sends|].
  exists sent2, reply2, d1. split; [exact E|]. rewrite R. vm_compute. reflexivity.
Defined.

Lemma write_never_fails_witness :
  fst (0, ztake 100 (Proto.frame (Proto.Write 512 sector_a))) = 0.
Proof.
  apply (write_never_fails (mk_kernel 3 0 [100; -32] (fun _ => []) true) 1 1 sector_a); [done|]. vm_compute. reflexivity.
Defined.

Lemma short_read_accepted_witness :
  sawa_read_data (mk_kernel 3 0 [13] (fun _ => [RecvData (bs "ab"); RecvData (zdrop 2 sector_0)]) true) 0 1 sector_a =
    Some (Ret (0, Proto.frame (Proto.Read 0 512), bs "ab" ++ zdrop 2 sector_a)).
Proof.
  apply (short_read_accepted _ 0 1 sector_a (bs "ab") (zdrop 2 sector_0)); try done.
  split; [done|]. split; [done|]. cbn. split; [lia|]. by left.
Defined.

Lemma send_info_garbage_witness :
  sawa_send_info (mk_kernel 3 0 [5] (fun _ => [RecvError (-11); RecvError (-104)]) true) =
    Some (0, Proto.frame Proto.Info, Some 66) /\
  sawa_send_info (mk_kernel 3 0 [5] (fun _ => [RecvError (-104)]) true) = Some (0, Proto.frame Proto.Info, Some 66).
Proof.
  split; [vm_compute; reflexivity|].
  rewrite (send_info_garbage (mk_kernel 3 0 [5] (fun _ => [RecvError (-104)]) true) (-104)); [done| |done|done|done].
  split; [done|]. split; [done|]. cbn. split; [lia|]. by left.
Defined.

(** Two requests: a WRITE of a sector and a READ of it, the second one come while
    the first is under way. *)
Definition write_a : request := mk_request 1 true true 1 [sector_a].
Definition read_a : request := mk_request 2 true false 1 [sector_0].
Definition submitted : list request := [write_a; read_a].
Definition after (picks : list (list nat)) (es : list event) : state (W := Stack.link SawaServer.t) :=
  match run Stack.device_transfer es (init (Stack.mk_link small [] picks [])) with
  | Some (Ret s) => s
  | _ => init (Stack.mk_link small [] [] [])
  end.
Definition both : list event := [Submit write_a; Run; Submit read_a].

Lemma after_quiet picks :
  quiet_reachable Stack.device_transfer (Stack.mk_link small [] picks []) submitted (after picks both).
Proof.
  change submitted with ([write_a] ++ [read_a]).
  apply (quiet_step _ _ [write_a] (after picks [Submit write_a; Run]) (Submit read_a)); [|done|reflexivity].
  apply (quiet_step _ _ [write_a] (after picks [Submit write_a]) Run); [|done|reflexivity].
  apply (quiet_step _ _ [] (init (Stack.mk_link small [] picks [])) (Submit write_a)); [constructor|done|reflexivity].
Qed.
Lemma submitted_ok : Forall (Stack.op_ok 1024) (all_ops submitted).
Proof. repeat (constructor; [vm_compute; repeat split; discriminate|]). constructor. Qed.
Lemma requests_served_witness :
  exists ids, map fst (completed (after [] both)) ++ ids = [1; 2]%nat.
Proof.
  apply (requests_served Stack.device_transfer (Stack.mk_link small [] [] []) submitted (after [] both));
    [by repeat constructor|]. apply quiet_is_reachable, after_quiet.
Defined.

Lemma undisturbed_never_crashes_witness :
  step (fun o w => Ret (0, w)) DoTransfer
    (mk_state true [] (Some write_a) false Transfer [] [] tt) <> Some Undef.
Proof.
  apply (undisturbed_never_crashes (fun o w => Ret (0, w)) tt [write_a]); [done|].
  apply (quiet_step _ _ [write_a] (mk_state true [] (Some write_a) true Idle [] [] tt) Run); [|done|reflexivity].
  apply (quiet_step _ _ [] (init tt) (Submit write_a)); [constructor|done|reflexivity].
Defined.

Lemma work_handler_drains_witness :
  exists s', drain (fun o n => Ret (0, n + 1)) 5 (mk_state true [] (Some write_a) true Idle [] [] 0) = Some (Ret s') /\
    handler s' = Idle /\ world s' = 1.
Proof.
  destruct (work_handler_drains (fun o n => Ret (0, n + 1)) 0 [write_a] (mk_state true [] (Some write_a) true Idle [] [] 0) 1)
    as (s' & E & Hh & _ & _ & _ & _ & Hw); [by repeat constructor| |done|by exists s'].
  apply (quiet_step _ _ [] (init 0) (Submit write_a)); [constructor|done|reflexivity].
Defined.

Lemma race_crash_witness :
  run (fun o n => Ret (0, n + 1))
    [Submit write_a; Run; DoTransfer; DoEnd; Submit read_a; DoTest; DoTransfer; DoEnd; DoTest; Run; DoTransfer] (init 0) =
    Some Undef.
Proof. by apply (race_crash (fun o n => Ret (0, n + 1)) 0 write_a read_a (0, 1) (0, 2)). Defined.

(** The server handles the WRITE when the READ comes. *)
Lemma driver_is_a_disk_witness :
  exists s' d' msgs picks', drain Stack.device_transfer (3 * chunks_left (after [[]; [0%nat]] both) + 2) (after [[]; [0%nat]] both) =
      Some (Ret s') /\
    map fst (completed s') = [1; 2]%nat /\ world s' = Stack.mk_link d' msgs picks' [sector_a] /\
    exists order d'', Stack.server_handles order d' msgs = Ret (d'', []).
Proof.
  destruct (Stack.driver_is_a_disk small [[]; [0%nat]] submitted (after [[]; [0%nat]] both))
    as (s' & d' & msgs & picks' & E & _ & _ & Hi & Hw & Ho & _);
    [apply wf_small|by repeat constructor|apply submitted_ok|vm_compute; reflexivity|apply after_quiet|].
  exists s', d', msgs, picks'. split; [exact E|]. split; [exact Hi|]. split; [|exact Ho].
  rewrite Hw. vm_compute. reflexivity.
Defined.

(** The same requests when the server has not come to the WRITE yet: both are
    reported as successes, and the READ has got the old sector. *)
Lemma read_overtakes_write :
  Stack.settled [] [] (all_ops submitted) = false /\
  exists s', drain Stack.device_transfer (3 * chunks_left (after [] both) + 2) (after [] both) = Some (Ret s') /\
    completed s' = [(1%nat, 0); (2%nat, 0)] /\ Stack.l_filled (world s') = [sector_0].
Proof. split; [vm_compute; reflexivity|]. eexists. split; [vm_compute; reflexivity|]. split; vm_compute; reflexivity. Qed.

Lemma large_write_lost_witness :
  exists sent rest,
    Stack.blockdev_transfer (mk_kernel 3 0 [32777] (fun _ => []) true) 0 64 (zrepeat 32768 nul) true =
      Some (Ret (0, sent, zrepeat 32768 nul)) /\
    SawaServer.readData 1 (fun _ => no_fault) small thread0 (mkSock [RxData sent] []) =
      Some (Ret (small, thread0, mkSock rest [])).
Proof.
  apply (Stack.large_write_lost _ 0 64 (zrepeat 32768 nul) small thread0 0); [done|vm_compute; reflexivity|done|done|].
  split; [done|]. split; [done|]. apply Stack.accepts_all. done.
Defined.

Lemma ramdisk_never_transfers_witness :
  Ramdisk.ramdisk_request 2 1 [mk_request 7 true false 1 [sector_a]] ([], Ramdisk.data, []) =
    Some (Ret ([(7%nat, 0)], Ramdisk.data, [sector_a])) /\
  Ramdisk.ramdisk_request 2 2 [mk_request 7 true false 1 [sector_a]] ([], Ramdisk.data, []) = Some Undef.
Proof.
  set (l := [mk_request 7 true false 1 [sector_a]]).
  split; [apply (Ramdisk.ramdisk_never_transfers 1 l)|apply (Ramdisk.ramdisk_never_transfers 2 l)]; by repeat constructor.
Defined.

Lemma ramdisk_beyond_end_witness :
  Ramdisk.ramdisk_request 2 1 [mk_request 7 true false 1 [sector_a]] ([], None, []) = Some (Ret ([(7%nat, 0)], None, [sector_a])).
Proof. by apply (Ramdisk.ramdisk_beyond_end 1 7 1 sector_a None [] []). Defined.

Definition fresh_module : Setup.module_state := Setup.mk_module 0 0 (Setup.mk_net_dev 0 Setup.LockUnset false None) 0 [8] 0.
Definition good_answers : Setup.answers := Setup.mk_answers (0, Some 2048) true 252 (fun _ => true).
Lemma exit_after_init_witness :
  let m' := (Setup.sawa_driver_init good_answers fresh_module).2 in
  Setup.held_queues m' = 1 /\ Setup.held_majors m' = [252; 8] /\ Setup.held_majors (Setup.sawa_driver_exit m') = [8].
Proof.
  split; [done|]. split; [done|].
  apply (Setup.exit_after_init good_answers fresh_module); [done|by intros [|[]]|reflexivity].
Defined.

Lemma failed_init_leaks_queue_witness :
  Setup.held_queues (Setup.sawa_driver_init (Setup.mk_answers (0, Some 2048) true 252 (fun _ => false)) fresh_module).2 = 1.
Proof.
  apply (Setup.failed_init_leaks_queue (Setup.mk_answers (0, Some 2048) true 252 (fun _ => false)) fresh_module (-12));
    [done|by intros [|[]]|reflexivity|done].
Defined.

Lemma register_failure_unnoticed_witness :
  exists m', Setup.sawa_driver_init (Setup.mk_answers (0, Some 2048) true (-16) (fun _ => true)) fresh_module = (0, m') /\
    Setup.major_number m' = 4294967280.
Proof.
  destruct (Setup.register_failure_unnoticed (Setup.mk_answers (0, Some 2048) true (-16) (fun _ => true)) fresh_module)
    as (m' & E & _ & Hm & _); [done..|]. by exists m'.
Defined.

End witnesses.
