(* ===== verification/XmlMem.v ===== *)
(** * The memory of tinyxml2: tinyxml2.h

    [DynArray] is the growing array, [MemPool] the pool of fixed-size items with
    its free list.  [Pool] is what a document relies on: an item handed out is one
    that is not in use. *)

From stdpp Require Import fin_sets.
From S2P Require Import Prelude CStd.
#[local] Open Scope Z_scope.

Module DynArray.

Definition INT_MAX : Z := 2 ^ 31 - 1.

Section array.
Context {T : Type} (INITIAL_SIZE : nat) (junk : T).

(** [_mem] with [_allocated] elements, and [_size].  [junk] is what memory that
    has not been written holds. *)
Record t := mk { mem : list T; size : nat }.
Definition allocated (a : t) : nat := length (mem a).
Definition new : t := mk (repeat junk INITIAL_SIZE) 0.

Definition Clear (a : t) : t := mk (mem a) 0.
(** [cap * 2] elements are asked for: a count that is not an [int] is undefined. *)
Definition EnsureCapacity (cap : nat) (a : t) : outcome t :=
  if (allocated a <? cap)%nat then
    if INT_MAX <? Z.of_nat (cap * 2) then Undef
    else Ret (mk (take (size a) (mem a) ++ repeat junk (cap * 2 - size a)) (size a))
  else Ret a.
Definition Push (x : T) (a : t) : outcome t :=
  a ← EnsureCapacity (size a + 1) a;
  Ret (mk (<[size a := x]> (mem a)) (size a + 1)).
(** The index of the first of [count] new elements. *)
Definition PushArr (count : nat) (a : t) : outcome (nat * t) :=
  a ← EnsureCapacity (size a + count) a;
  Ret (size a, mk (mem a) (size a + count)).
Definition at_ (i : nat) (a : t) : outcome T := match mem a !! i with Some x => Ret x | None => Undef end.
Definition Pop (a : t) : outcome (T * t) :=
  match size a with
  | O => Undef
  | S n => x ← at_ n a; Ret (x, mk (mem a) n)
  end.
(** More than there is: the assertion is compiled out, and a negative size would
    index memory before the array; it counts as undefined at once. *)
Definition PopArr (count : nat) (a : t) : outcome t :=
  if (size a <? count)%nat then Undef else Ret (mk (mem a) (size a - count)).
Definition PeekTop (a : t) : outcome T := match size a with O => Undef | S n => at_ n a end.
Definition Empty (a : t) : bool := (size a =? 0)%nat.
Definition SwapRemove (i : nat) (a : t) : outcome t :=
  match size a with
  | O => Undef
  | S n => x ← at_ n a; (if (i <? allocated a)%nat then Ret (mk (<[i := x]> (mem a)) n) else Undef)
  end.

(** ** The array as a list *)

Definition contents (a : t) : list T := take (size a) (mem a).
Definition wf (a : t) : Prop := (size a <= allocated a)%nat /\ (INITIAL_SIZE <= allocated a)%nat.

Lemma length_contents a : wf a -> length (contents a) = size a.
Proof. intros [H _]. unfold contents. rewrite length_take. unfold allocated in H. lia. Qed.
Lemma contents_lookup a i : wf a -> (i < size a)%nat -> contents a !! i = mem a !! i.
Proof. intros _ Hi. unfold contents. by rewrite lookup_take_lt. Qed.
Lemma new_array_wf : wf new /\ contents new = [].
Proof. unfold wf, allocated, new. cbn. rewrite repeat_length. split; [lia|done]. Qed.

Lemma EnsureCapacity_spec cap a :
  wf a -> Z.of_nat cap * 2 <= INT_MAX ->
  exists a', EnsureCapacity cap a = Ret a' /\ wf a' /\ contents a' = contents a /\ size a' = size a /\
    (cap <= allocated a')%nat /\ (allocated a <= allocated a')%nat.
Proof.
  intros [H1 H2] Hc. unfold EnsureCapacity. destruct (Nat.ltb_spec (allocated a) cap) as [Hlt|]; [|by exists a].
  rewrite (proj2 (Z.ltb_ge _ _)) by lia. eexists. split; [done|]. unfold wf, contents, allocated in *. cbn [mem size].
  rewrite length_app, length_take, repeat_length. split; [lia|]. split; [|lia].
  rewrite take_app_le by (rewrite length_take; lia). by rewrite take_take, Nat.min_id.
Qed.

Lemma Push_correct x a :
  wf a -> Z.of_nat (size a + 1) * 2 <= INT_MAX ->
  exists a', Push x a = Ret a' /\ wf a' /\ contents a' = contents a ++ [x].
Proof.
  intros Hw Hc. destruct (EnsureCapacity_spec (size a + 1) a Hw Hc) as (a1 & E & [W1 W2] & C & S & Hcap & Hmono).
  unfold Push. rewrite E. cbn [mbind outcome_bind]. eexists. split; [done|]. unfold wf, contents, allocated in *. cbn [mem size].
  rewrite length_insert. split; [lia|]. rewrite <-C, S. rewrite Nat.add_1_r.
  assert (is_Some (mem a1 !! size a)) as [y Hy] by (apply lookup_lt_is_Some; lia).
  rewrite (take_S_r _ _ x) by (rewrite list_lookup_insert_eq by lia; done).
  by rewrite take_insert_ge.
Qed.

Lemma Pop_correct x l a :
  wf a -> contents a = l ++ [x] -> exists a', Pop a = Ret (x, a') /\ wf a' /\ contents a' = l.
Proof.
  intros [H1 H2] C. assert (size a = length l + 1)%nat as Hs.
  { rewrite <-(length_contents a), C, length_app by done. done. }
  unfold Pop. rewrite Hs, Nat.add_1_r. unfold at_.
  rewrite <-contents_lookup, C, list_lookup_middle by (done || lia). cbn [mbind outcome_bind].
  eexists. split; [done|]. unfold wf, contents, allocated in *. cbn [mem size]. split; [lia|].
  replace (take (length l) (mem a)) with (take (length l) (take (size a) (mem a))) by (rewrite take_take; f_equal; lia).
  rewrite C. by rewrite take_app_le, take_ge by lia.
Qed.

(** [SwapRemove] puts the last element in the place of the one removed. *)
Definition swap_remove (l1 l2 : list T) : list T :=
  match last l2 with Some y => l1 ++ y :: removelast l2 | None => l1 end.
Lemma swap_remove_perm l1 l2 : swap_remove l1 l2 ≡ₚ l1 ++ l2.
Proof.
  unfold swap_remove. destruct (last l2) as [y|] eqn:E.
  - apply last_Some in E as [l' ->]. rewrite removelast_last. by rewrite <-Permutation_cons_append.
  - apply last_None in E as ->. by rewrite app_nil_r.
Qed.
Lemma SwapRemove_correct x l1 l2 a :
  wf a -> contents a = l1 ++ x :: l2 ->
  exists a', SwapRemove (length l1) a = Ret a' /\ wf a' /\ contents a' = swap_remove l1 l2.
Proof.
  intros [H1 H2] C. assert (size a = length l1 + S (length l2))%nat as Hs.
  { rewrite <-(length_contents a), C, length_app by done. done. }
  unfold SwapRemove. rewrite Hs, Nat.add_succ_r. unfold at_.
  assert (contents a !! (length l1 + length l2)%nat = last (x :: l2)) as El.
  { rewrite C, lookup_app_r by lia. rewrite last_lookup. f_equal. cbn. lia. }
  rewrite <-contents_lookup by (done || lia). rewrite El.
  destruct (last (x :: l2)) as [y|] eqn:Ey; [|by apply last_None in Ey]. cbn [mbind outcome_bind].
  unfold allocated in *. rewrite (proj2 (Nat.ltb_lt _ _)) by lia. eexists. split; [done|].
  unfold wf, contents, allocated in *. cbn [mem size]. rewrite length_insert. split; [lia|].
  assert (take (length l1 + length l2) (<[length l1:=y]> (mem a)) =
    take (length l1 + length l2) (<[length l1:=y]> (take (size a) (mem a)))) as ->.
  { apply list_eq. intros i. destruct (decide (i < length l1 + length l2)%nat) as [Hi|Hi].
    - rewrite !lookup_take_lt by done. destruct (decide (i = length l1)) as [->|Hne].
      + rewrite !list_lookup_insert_eq; [done| |lia]. rewrite length_take. lia.
      + rewrite !list_lookup_insert_ne by done. by rewrite lookup_take_lt by lia.
    - rewrite !lookup_take_ge by lia. done. }
  rewrite C, insert_app_r_alt, Nat.sub_diag by done. cbn [insert list_insert].
  rewrite firstn_app, take_ge, Nat.add_comm, Nat.add_sub by lia. unfold swap_remove.
  destruct l2 as [|z l2] using rev_ind; [cbn; by rewrite app_nil_r|]. clear IHl2.
  rewrite last_snoc. change (x :: l2 ++ [z]) with ((x :: l2) ++ [z]) in Ey. rewrite last_snoc in Ey. injection Ey as ->.
  rewrite removelast_last, length_app, Nat.add_1_r. cbn [length take]. by rewrite take_app_length.
Qed.

End array.
Arguments t T : clear implicits.
End DynArray.

(** ** Pools *)

Module MemPool.

Section pool.
(** [ITEMS_PER_BLOCK]: how many items a block of 4 KB has. *)
Context (ITEMS_PER_BLOCK : nat).

(** Items are numbered through the blocks.  [next] holds the links in the memory
    of the items that are free; an item in use has the data of its object there. *)
Record t := mk {
  blocks : nat; next : gmap nat (option nat); root : option nat;
  currentAllocs : Z; nAllocs : Z; maxAllocs : Z; nUntracked : Z }.
Definition new : t := mk 0 ∅ None 0 0 0 0.
Definition Clear (p : t) : t := new.

(** The links of the [n] items from [base] on. *)
Fixpoint link_items (base n : nat) (m : gmap nat (option nat)) : gmap nat (option nat) :=
  match n with
  | O => m
  | S n => <[base := match n with O => None | S _ => Some (S base) end]> (link_items (S base) n m)
  end.
(** The free list, with a new block if it is empty. *)
Definition refill (p : t) : t :=
  match root p with
  | Some _ => p
  | None =>
      let base := (blocks p * ITEMS_PER_BLOCK)%nat in
      mk (S (blocks p)) (link_items base ITEMS_PER_BLOCK (next p)) (Some base)
        (currentAllocs p) (nAllocs p) (maxAllocs p) (nUntracked p)
  end.
Definition Alloc (p : t) : outcome (nat * t) :=
  let p := refill p in
  match root p with
  | None => Undef
  | Some result =>
      match next p !! result with
      | None => Undef
      | Some nx =>
          let current := currentAllocs p + 1 in
          Ret (result, mk (blocks p) (delete result (next p)) nx current (nAllocs p + 1)
                 (if maxAllocs p <? current then current else maxAllocs p) (nUntracked p + 1))
      end
  end.
Definition Free (m : option nat) (p : t) : t :=
  match m with
  | None => p
  | Some item =>
      mk (blocks p) (<[item := root p]> (next p)) (Some item) (currentAllocs p - 1) (nAllocs p) (maxAllocs p) (nUntracked p)
  end.
Definition SetTracked (p : t) : t :=
  mk (blocks p) (next p) (root p) (currentAllocs p) (nAllocs p) (maxAllocs p) (nUntracked p - 1).

(** ** Which items are in use *)

Definition items (p : t) : gset nat := list_to_set (seq 0 (blocks p * ITEMS_PER_BLOCK)).
Definition used (p : t) : gset nat := items p ∖ dom (next p).

(** [chain m r l]: from [r] the links go through [l] to the end. *)
Fixpoint chain (m : gmap nat (option nat)) (r : option nat) (l : list nat) : Prop :=
  match l with
  | [] => r = None
  | i :: l => r = Some i /\ exists nx, m !! i = Some nx /\ chain m nx l
  end.
Record wf (p : t) : Prop := {
  wf_chain : exists l, chain (next p) (root p) l /\ NoDup l /\ dom (next p) = list_to_set l;
  wf_items : dom (next p) ⊆ items p;
  wf_count : currentAllocs p = Z.of_nat (Datatypes.length (elements (used p)));
  wf_max : currentAllocs p <= maxAllocs p }.

Lemma chain_agree m m' l : forall r,
  (forall i, i ∈ l -> m' !! i = m !! i) -> chain m r l -> chain m' r l.
Proof.
  induction l as [|i l IH]; intros r Hm; cbn; [done|]. intros [-> (nx & E & C)]. split; [done|].
  exists nx. split; [rewrite Hm by set_solver; done|]. apply IH; [|done]. intros. apply Hm. set_solver.
Qed.

Lemma link_items_lookup n : forall base m i,
  link_items base n m !! i =
    if bool_decide (base <= i < base + n)%nat then Some (if bool_decide (S i = base + n)%nat then None else Some (S i))
    else m !! i.
Proof.
  induction n as [|n IH]; intros base m i; cbn [link_items].
  - rewrite bool_decide_false by lia. done.
  - destruct (decide (i = base)) as [->|Hne].
    + rewrite lookup_insert_eq, bool_decide_true by lia. destruct n; [rewrite bool_decide_true by lia; done|].
      rewrite bool_decide_false by lia. done.
    + rewrite lookup_insert_ne, IH by done. repeat case_bool_decide; try lia; done.
Qed.
Lemma link_items_chain n base m : chain (link_items base n m) (match n with O => None | S _ => Some base end) (seq base n).
Proof.
  revert base m. induction n as [|n IH]; intros base m; [done|]. cbn [seq chain]. split; [done|].
  eexists. split; [cbn [link_items]; by rewrite lookup_insert_eq|]. specialize (IH (S base) m).
  apply (chain_agree (link_items (S base) n m)); [|by destruct n].
  intros i Hi. apply elem_of_seq in Hi. cbn [link_items]. by rewrite lookup_insert_ne by lia.
Qed.

Lemma dom_link_items n base m : dom (link_items base n m) = list_to_set (seq base n) ∪ dom m.
Proof.
  apply set_eq. intros i. rewrite elem_of_union, elem_of_list_to_set, elem_of_seq, !elem_of_dom, link_items_lookup.
  case_bool_decide; [split; [by left|by intros _]|]. split; [by right|]. intros [?|?]; [lia|done].
Qed.

Lemma refill_spec p :
  (0 < ITEMS_PER_BLOCK)%nat -> wf p ->
  wf (refill p) /\ used (refill p) = used p /\ (exists i, root (refill p) = Some i) /\
  currentAllocs (refill p) = currentAllocs p /\ maxAllocs (refill p) = maxAllocs p /\ nUntracked (refill p) = nUntracked p.
Proof.
  intros Hn [(l & C & ND & D) Hi Hc Hm]. unfold refill. destruct (root p) as [i|] eqn:Er.
  { split; [split; [exists l; by rewrite Er|done..]|]. split; [done|]. split; [by exists i|]. done. }
  destruct l as [|i l]; [|by destruct C]. assert (dom (next p) = ∅) as D0 by (by rewrite D).
  set (base := (blocks p * ITEMS_PER_BLOCK)%nat).
  assert (used (mk (S (blocks p)) (link_items base ITEMS_PER_BLOCK (next p)) (Some base) (currentAllocs p) (nAllocs p)
    (maxAllocs p) (nUntracked p)) = used p) as Hu.
  { unfold used, items. cbn [blocks next]. apply set_eq. intros i. rewrite dom_link_items, D0.
    rewrite !elem_of_difference, elem_of_union, !elem_of_list_to_set, !elem_of_seq. unfold base. split.
    - intros [H1 H2]. split; [|set_solver]. destruct (decide (i < blocks p * ITEMS_PER_BLOCK)%nat); [lia|]. destruct H2. left. lia.
    - intros [H1 _]. split; [lia|]. intros [|]; [lia|set_solver]. }
  split; [|split; [done|by eauto]]. split; cbn [next root currentAllocs maxAllocs].
  - exists (seq base ITEMS_PER_BLOCK). split.
    + pose proof (link_items_chain ITEMS_PER_BLOCK base (next p)) as L. by destruct ITEMS_PER_BLOCK; [lia|].
    + split; [apply NoDup_seq|]. rewrite dom_link_items, D0. set_solver.
  - rewrite dom_link_items, D0. unfold items. cbn [blocks]. intros i. rewrite elem_of_union, !elem_of_list_to_set, !elem_of_seq.
    intros [|]; [unfold base in *; lia|set_solver].
  - by rewrite Hu.
  - done.
Qed.

Lemma length_elements_insert (i : nat) (X : gset nat) : i ∉ X ->
  Datatypes.length (elements ({[i]} ∪ X)) = S (Datatypes.length (elements X)).
Proof. intros H. change (size ({[i]} ∪ X) = S (size X)). rewrite size_union, size_singleton by set_solver. done. Qed.

Lemma Alloc_correct p :
  (0 < ITEMS_PER_BLOCK)%nat -> wf p ->
  exists i p', Alloc p = Ret (i, p') /\ i ∉ used p /\ used p' = {[i]} ∪ used p /\ wf p' /\ nUntracked p' = nUntracked p + 1.
Proof.
  intros Hn Hw. destruct (refill_spec p Hn Hw) as ([(l & C & ND & D) Hi Hc Hm] & Hu & (i & Er) & Ec & Em & En).
  unfold Alloc. rewrite Er in *. destruct l as [|j l]; [done|]. cbn [chain] in C.
  destruct C as [[= ->] (nx & Ex & C)]. rewrite Ex.
  assert (j ∈ items (refill p)) as Hj by (apply Hi; rewrite D; set_solver).
  assert (j ∉ used p) as Hnu by (rewrite <-Hu; unfold used; rewrite D; set_solver).
  eexists _, _. split; [done|]. split; [done|].
  match goal with |- context [used ?x = _] => set (p' := x) end.
  assert (used p' = {[j]} ∪ used p) as Hu'.
  { rewrite <-Hu. unfold used. change (items p') with (items (refill p)). cbn [next p']. rewrite dom_delete_L.
    apply set_eq. intros x. rewrite elem_of_union, !elem_of_difference, elem_of_singleton.
    destruct (decide (x = j)); set_solver. }
  apply NoDup_cons in ND as [Hjl ND].
  split; [done|]. split; [|by rewrite <-En]. split.
  - exists l. cbn [next root p']. split; [|split; [done|rewrite dom_delete_L, D; set_solver]].
    apply (chain_agree (next (refill p))); [|done]. intros x Hx. apply lookup_delete_ne. set_solver.
  - change (items p') with (items (refill p)). cbn [next p']. rewrite dom_delete_L. set_solver.
  - rewrite Hu', length_elements_insert by done. cbn [currentAllocs p']. rewrite Hc, Hu. lia.
  - cbn [currentAllocs maxAllocs p']. destruct (Z.ltb_spec (maxAllocs (refill p)) (currentAllocs (refill p) + 1)); lia.
Qed.

Lemma pool_Free_correct i p :
  wf p -> i ∈ used p -> used (Free (Some i) p) = used p ∖ {[i]} /\ wf (Free (Some i) p).
Proof.
  intros [(l & C & ND & D) Hi Hc Hm] Hu. cbn [Free].
  match goal with |- context [wf ?x] => set (p' := x) end.
  assert (i ∈ items p /\ i ∉ dom (next p)) as [Hit Hid] by (unfold used in Hu; set_solver).
  assert (used p' = used p ∖ {[i]}) as Hu'.
  { unfold used. change (items p') with (items p). cbn [next p']. rewrite dom_insert_L. set_solver. }
  split; [done|]. split.
  - exists (i :: l). cbn [next root p' chain]. split; [split; [done|]|].
    + eexists. split; [by rewrite lookup_insert_eq|]. apply (chain_agree (next p)); [|done].
      intros x Hx. apply lookup_insert_ne. intros ->. apply Hid. rewrite D. set_solver.
    + split; [constructor; [rewrite D in Hid; set_solver|done]|]. rewrite dom_insert_L, D. set_solver.
  - change (items p') with (items p). cbn [next p']. rewrite dom_insert_L. set_solver.
  - rewrite Hu'. cbn [currentAllocs p']. rewrite Hc.
    assert (used p = {[i]} ∪ used p ∖ {[i]}) as E by (rewrite <-union_difference_singleton_L; done).
    rewrite E at 1. rewrite length_elements_insert by set_solver. lia.
  - cbn [currentAllocs maxAllocs p']. lia.
Qed.

Lemma new_pool_wf : wf new /\ used new = ∅.
Proof.
  assert (used new = ∅) as Hu by set_solver. split; [|done]. split; [|set_solver|by rewrite Hu|done].
  exists []. split; [done|]. split; [constructor|]. apply dom_empty_L.
Qed.

End pool.
End MemPool.

(** ** What a document relies on *)

Class Pool (P : Type) := {
  pool_wf : P -> Prop;
  pool_used : P -> gset nat;
  pool_alloc : P -> outcome (nat * P);
  pool_free : nat -> P -> P;
  pool_tracked : P -> P;
  pool_clear : P -> P;
}.

Class PoolLaws (P : Type) `{Pool P} := {
  alloc_law : forall p, pool_wf p ->
    exists i p', pool_alloc p = Ret (i, p') /\ i ∉ pool_used p /\ pool_used p' = {[i]} ∪ pool_used p /\ pool_wf p';
  free_law : forall i p, pool_wf p -> i ∈ pool_used p -> pool_used (pool_free i p) = pool_used p ∖ {[i]} /\ pool_wf (pool_free i p);
  tracked_law : forall p, pool_wf p -> pool_wf (pool_tracked p) /\ pool_used (pool_tracked p) = pool_used p;
  clear_law : forall p, pool_wf (pool_clear p) /\ pool_used (pool_clear p) = ∅;
}.

(** A pool whose blocks have [S n] items. *)
Record mempool (n : nat) := mk_mempool { the_pool : MemPool.t }.
Arguments mk_mempool {n} the_pool.
Arguments the_pool {n} m.
#[export] Instance mempool_pool n : Pool (mempool n) := {
  pool_wf p := MemPool.wf (S n) (the_pool p);
  pool_used p := MemPool.used (S n) (the_pool p);
  pool_alloc p := x ← MemPool.Alloc (S n) (the_pool p); Ret (fst x, mk_mempool (snd x));
  pool_free i p := mk_mempool (MemPool.Free (Some i) (the_pool p));
  pool_tracked p := mk_mempool (MemPool.SetTracked (the_pool p));
  pool_clear p := mk_mempool (MemPool.Clear (the_pool p));
}.
#[export] Instance mempool_laws n : PoolLaws (mempool n).
Proof.
  split; cbn.
  - intros p Hw. destruct (MemPool.Alloc_correct (S n) (the_pool p)) as (i & p' & E & H1 & H2 & H3 & _); [lia|done|].
    exists i, (mk_mempool p'). rewrite E. done.
  - intros i p Hw Hu. by apply MemPool.pool_Free_correct.
  - intros p [H1 H2 H3 H4]. done.
  - intros p. apply MemPool.new_pool_wf.
Qed.

(** C33: the pool never hands out an item that is in use, and counts the items in
    use: [Alloc] succeeds, taking a block when the free list is empty, and adds one
    item; [Free] of an item in use takes it away (some item is in use here, the first
    [Alloc] of a pool is in [MemPool.Alloc_correct]); both keep the free list without
    repetitions, within the blocks, and made of exactly the items not in use. *)
Theorem pool_never_aliases n p i :
  MemPool.wf (S n) p -> i ∈ MemPool.used (S n) p ->
  exists j p', MemPool.Alloc (S n) p = Ret (j, p') /\ j ∉ MemPool.used (S n) p /\
    MemPool.used (S n) p' = {[j]} ∪ MemPool.used (S n) p /\ MemPool.wf (S n) p' /\
    MemPool.used (S n) (MemPool.Free (Some i) p) = MemPool.used (S n) p ∖ {[i]} /\ MemPool.wf (S n) (MemPool.Free (Some i) p) /\
    MemPool.currentAllocs p = Z.of_nat (base.size (MemPool.used (S n) p)).
Proof.
  intros Hw Hi. destruct (MemPool.Alloc_correct (S n) p) as (j & p' & E & H1 & H2 & H3 & _); [lia|done|].
  destruct (MemPool.pool_Free_correct (S n) i p Hw Hi) as [H4 H5]. exists j, p'.
  pose proof (MemPool.wf_count _ _ Hw). done.
Qed.

(** [DynArray] is a list: as long as the counts are integers, [Push] adds at the
    end, also when the elements move to a larger block, [Pop] takes the last
    element and [SwapRemove] takes one element out, in general changing the order. *)
Theorem dyn_array_is_list {T} (junk : T) n (a : DynArray.t T) l1 l2 x y :
  DynArray.wf n a -> DynArray.contents a = l1 ++ x :: l2 -> Z.of_nat (DynArray.size a + 1) * 2 <= DynArray.INT_MAX ->
  (exists a', DynArray.Push junk y a = Ret a' /\ DynArray.wf n a' /\ DynArray.contents a' = (l1 ++ x :: l2) ++ [y] /\
    exists a'', DynArray.Pop a' = Ret (y, a'') /\ DynArray.wf n a'' /\ DynArray.contents a'' = l1 ++ x :: l2) /\
  (exists a', DynArray.SwapRemove (length l1) a = Ret a' /\ DynArray.wf n a' /\ DynArray.contents a' ≡ₚ l1 ++ l2).
Proof.
  intros Hw Hc Hmax. split.
  - destruct (DynArray.Push_correct n junk y a Hw Hmax) as (a1 & E & W & C). exists a1. rewrite <-Hc.
    destruct (DynArray.Pop_correct n y (DynArray.contents a) a1 W C) as (a2 & E2 & W2 & C2). repeat (split; [done|]). by exists a2.
  - destruct (DynArray.SwapRemove_correct n x l1 l2 a Hw Hc) as (a1 & E & W & C). exists a1. rewrite C.
    split; [done|]. split; [done|]. apply DynArray.swap_remove_perm.
Qed.

Lemma pool_never_aliases_witness :
  exists j p', MemPool.Alloc 2 (MemPool.mk 1 {[1%nat := None]} (Some 1%nat) 1 1 1 1) = Ret (j, p') /\ j ≠ 0%nat.
Proof.
  destruct (pool_never_aliases 1 (MemPool.mk 1 {[1%nat := None]} (Some 1%nat) 1 1 1 1) 0) as (j & p' & E & Hj & _).
  - assert (dom (MemPool.next (MemPool.mk 1 {[1%nat := None]} (Some 1%nat) 1 1 1 1)) = {[1%nat]}) as D by (apply dom_singleton_L).
    split; [|rewrite D; apply singleton_subseteq_l; vm_compute; done|done|done]. exists [1%nat]. split; [split; [done|by exists None]|].
    split; [apply NoDup_singleton|]. rewrite D. set_solver.
  - vm_compute. done.
  - exists j, p'. split; [exact E|]. intros ->. apply Hj. by vm_compute.
Defined.

Lemma dyn_array_is_list_witness :
  exists a', DynArray.SwapRemove 0 (DynArray.mk [1; 2; 3; 0] 3) = Ret a' /\ DynArray.contents a' ≡ₚ [2; 3].
Proof.
  destruct (dyn_array_is_list 0 4 (DynArray.mk [1; 2; 3; 0] 3) [] [2; 3] 1 7) as [_ (a' & E & _ & C)];
    [split; cbn; lia|done|done|]. by exists a'.
Defined.
