(* ===== verification/XmlDom.v ===== *)
(** * The tree of a document: XMLNode and XMLDocument in tinyxml2.cpp

    The nodes live in the pools of their document and point to each other.  A node
    is here the entry of its address in a map, a null pointer is [None], and a
    pointer to a node that does not exist (any more) is undefined behaviour.  The
    map from a node to the list of its children is what the pointers stand for. *)

From stdpp Require Import fin_sets.
From S2P Require Import Prelude CStd XmlMem.
#[local] Open Scope Z_scope.

Module Dom.

(** ** Nodes *)

(** What a node is, with the text of its value. *)
Inductive payload :=
| PDocument
| PElement (name : bytes) (attributes : list (bytes * bytes))
| PText (value : bytes) (cdata : bool)
| PComment (value : bytes)
| PDeclaration (value : bytes)
| PUnknown (value : bytes).

(** An address: the pool and the item; the document is not in a pool. *)
Definition addr : Type := nat * nat.
Definition root : addr := (0, 0)%nat.
(** [_memPool]: elements, texts, and one pool for the other three kinds. *)
Definition pool_of (d : payload) : nat :=
  match d with PDocument => 0 | PElement _ _ => 1 | PText _ _ => 2 | PComment _ | PDeclaration _ | PUnknown _ => 3 end.

Record XMLNode := mk_node {
  parent : option addr; firstChild : option addr; lastChild : option addr;
  prev : option addr; next : option addr; data : payload }.
Definition new_node (d : payload) : XMLNode := mk_node None None None None None d.
Definition set_parent (p : option addr) (n : XMLNode) : XMLNode :=
  mk_node p (firstChild n) (lastChild n) (prev n) (next n) (data n).
Definition set_first (p : option addr) (n : XMLNode) : XMLNode :=
  mk_node (parent n) p (lastChild n) (prev n) (next n) (data n).
Definition set_last (p : option addr) (n : XMLNode) : XMLNode :=
  mk_node (parent n) (firstChild n) p (prev n) (next n) (data n).
Definition set_prev (p : option addr) (n : XMLNode) : XMLNode :=
  mk_node (parent n) (firstChild n) (lastChild n) p (next n) (data n).
Definition set_next (p : option addr) (n : XMLNode) : XMLNode :=
  mk_node (parent n) (firstChild n) (lastChild n) (prev n) p (data n).

Section document.
Context {P : Type} `{PoolLaws P}.

(** A document: its nodes, the nodes that have been created and not linked yet,
    and its pools. *)
Record XMLDocument := mk_document {
  nodes : gmap addr XMLNode; unlinked : DynArray.t addr; pools : nat -> P }.
Definition set_nodes (m : gmap addr XMLNode) (s : XMLDocument) : XMLDocument := mk_document m (unlinked s) (pools s).
Definition set_unlinked (u : DynArray.t addr) (s : XMLDocument) : XMLDocument := mk_document (nodes s) u (pools s).
Definition set_pool (t : nat) (p : P) (s : XMLDocument) : XMLDocument :=
  mk_document (nodes s) (unlinked s) (fun u => if (u =? t)%nat then p else pools s u).

Definition deref (a : addr) (s : XMLDocument) : outcome XMLNode :=
  match nodes s !! a with Some n => Ret n | None => Undef end.
Definition upd (a : addr) (f : XMLNode -> XMLNode) (s : XMLDocument) : outcome XMLDocument :=
  match nodes s !! a with Some n => Ret (set_nodes (<[a := f n]> (nodes s)) s) | None => Undef end.

(** ** The operations *)

(** [XMLDocument::CreateUnlinkedNode]. *)
Definition CreateUnlinkedNode (d : payload) (s : XMLDocument) : outcome (addr * XMLDocument) :=
  x ← pool_alloc (pools s (pool_of d));
  let '(i, p) := x in
  let a := (pool_of d, i) in
  let s := set_nodes (<[a := new_node d]> (nodes s)) (set_pool (pool_of d) p s) in
  u ← DynArray.Push root a (unlinked s);
  Ret (a, set_unlinked u s).

(** [XMLDocument::MarkInUse]. *)
Fixpoint index_of (a : addr) (l : list addr) : option nat :=
  match l with
  | [] => None
  | b :: l => if bool_decide (a = b) then Some O else S <$> index_of a l
  end.
Definition MarkInUse (a : addr) (s : XMLDocument) : outcome XMLDocument :=
  match index_of a (DynArray.contents (unlinked s)) with
  | None => Ret s
  | Some i => u ← DynArray.SwapRemove i (unlinked s); Ret (set_unlinked u s)
  end.

(** [node->_memPool->SetTracked()]: the document has no pool. *)
Definition SetTracked (a : addr) (s : XMLDocument) : outcome XMLDocument :=
  match fst a with O => Undef | t => Ret (set_pool t (pool_tracked (pools s t)) s) end.

(** [XMLNode::Unlink]. *)
Definition Unlink (this child : addr) (s : XMLDocument) : outcome XMLDocument :=
  t ← deref this s;
  s ← (if bool_decide (firstChild t = Some child)
       then c ← deref child s; upd this (set_first (next c)) s else Ret s);
  t ← deref this s;
  s ← (if bool_decide (lastChild t = Some child)
       then c ← deref child s; upd this (set_last (prev c)) s else Ret s);
  c ← deref child s;
  s ← match prev c with Some p => upd p (set_next (next c)) s | None => Ret s end;
  c ← deref child s;
  s ← match next c with Some n => upd n (set_prev (prev c)) s | None => Ret s end;
  upd child (fun c => set_parent None (set_prev None (set_next None c))) s.

(** [XMLNode::InsertChildPreamble]. *)
Definition InsertChildPreamble (insertThis : addr) (s : XMLDocument) : outcome XMLDocument :=
  n ← deref insertThis s;
  match parent n with
  | Some p => Unlink p insertThis s
  | None => s ← MarkInUse insertThis s; SetTracked insertThis s
  end.

(** [XMLNode::InsertEndChild], [InsertFirstChild] and [InsertAfterChild], for nodes
    of one document; [false] is the null pointer the last one may return. *)
Definition InsertEndChild (this addThis : addr) (s : XMLDocument) : outcome XMLDocument :=
  s ← InsertChildPreamble addThis s;
  t ← deref this s;
  s ← match lastChild t with
      | Some l =>
          s ← upd l (set_next (Some addThis)) s;
          s ← upd addThis (set_prev (Some l)) s;
          s ← upd this (set_last (Some addThis)) s;
          upd addThis (set_next None) s
      | None =>
          s ← upd this (fun t => set_first (Some addThis) (set_last (Some addThis) t)) s;
          s ← upd addThis (set_prev None) s;
          upd addThis (set_next None) s
      end;
  upd addThis (set_parent (Some this)) s.

Definition InsertFirstChild (this addThis : addr) (s : XMLDocument) : outcome XMLDocument :=
  s ← InsertChildPreamble addThis s;
  t ← deref this s;
  s ← match firstChild t with
      | Some f =>
          s ← upd f (set_prev (Some addThis)) s;
          s ← upd addThis (set_next (Some f)) s;
          s ← upd this (set_first (Some addThis)) s;
          upd addThis (set_prev None) s
      | None =>
          s ← upd this (fun t => set_first (Some addThis) (set_last (Some addThis) t)) s;
          s ← upd addThis (set_prev None) s;
          upd addThis (set_next None) s
      end;
  upd addThis (set_parent (Some this)) s.

Definition InsertAfterChild (this afterThis addThis : addr) (s : XMLDocument) : outcome (bool * XMLDocument) :=
  a ← deref afterThis s;
  if negb (bool_decide (parent a = Some this)) then Ret (false, s)
  else if bool_decide (afterThis = addThis) then Ret (true, s)
  else
    match next a with
    | None => s ← InsertEndChild this addThis s; Ret (true, s)
    | Some _ =>
        s ← InsertChildPreamble addThis s;
        s ← upd addThis (set_prev (Some afterThis)) s;
        a ← deref afterThis s;
        s ← upd addThis (set_next (next a)) s;
        a ← deref afterThis s;
        s ← match next a with Some n => upd n (set_prev (Some addThis)) s | None => Undef end;
        s ← upd afterThis (set_next (Some addThis)) s;
        s ← upd addThis (set_parent (Some this)) s;
        Ret (true, s)
    end.

(** [XMLNode::DeleteNode] (the static one) with the destructor, and
    [DeleteChildren], the loop of which ends when there is no first child.  [fuel]
    is the nesting, the loop is given the number of nodes. *)
Fixpoint delete_children (DeleteNode : addr -> XMLDocument -> outcome XMLDocument) (n : nat) (this : addr)
    (s : XMLDocument) : outcome XMLDocument :=
  t ← deref this s;
  match firstChild t with
  | None => upd this (fun t => set_first None (set_last None t)) s
  | Some c =>
      match n with
      | O => Undef
      | S n => s ← Unlink this c s; s ← DeleteNode c s; delete_children DeleteNode n this s
      end
  end.
Definition Free (a : addr) (s : XMLDocument) : outcome XMLDocument :=
  match fst a with
  | O => Undef
  | t => Ret (set_nodes (delete a (nodes s)) (set_pool t (pool_free (snd a) (pools s t)) s))
  end.
Fixpoint DeleteNode (fuel : nat) (a : addr) (s : XMLDocument) : outcome XMLDocument :=
  match fuel with
  | O => Undef
  | S fuel =>
      n ← deref a s;
      s ← match data n with PDocument => Ret s | _ => MarkInUse a s end;
      s ← delete_children (DeleteNode fuel) (size (nodes s)) a s;
      n ← deref a s;
      s ← match parent n with Some p => Unlink p a s | None => Ret s end;
      Free a s
  end.
Definition DeleteChildren (fuel : nat) (this : addr) (s : XMLDocument) : outcome XMLDocument :=
  delete_children (DeleteNode fuel) (size (nodes s)) this s.
Definition DeleteChild (fuel : nat) (this node : addr) (s : XMLDocument) : outcome XMLDocument :=
  s ← Unlink this node s; DeleteNode fuel node s.
(** [XMLDocument::DeleteNode]. *)
Definition document_DeleteNode (fuel : nat) (a : addr) (s : XMLDocument) : outcome XMLDocument :=
  n ← deref a s;
  match parent n with
  | Some p => DeleteChild fuel p a s
  | None => s ← SetTracked a s; DeleteNode fuel a s
  end.
(** [XMLDocument::Clear], as far as the nodes go: the attributes of an element are part
    of its payload here, and giving back their items is [Attr.destroy] in XmlAttr. *)
Fixpoint clear_unlinked (fuel n : nat) (s : XMLDocument) : outcome XMLDocument :=
  match DynArray.contents (unlinked s), n with
  | [], _ => Ret s
  | _ :: _, O => Undef
  | a :: _, S n => s ← document_DeleteNode fuel a s; clear_unlinked fuel n s
  end.
Definition Clear (fuel : nat) (s : XMLDocument) : outcome XMLDocument :=
  s ← DeleteChildren fuel root s;
  clear_unlinked fuel (size (nodes s)) s.

(** ** What the pointers stand for *)

Notation forest := (gmap addr (list addr)).

Record linked (s : XMLDocument) (kids : forest) : Prop := {
  l_node : forall a n, nodes s !! a = Some n ->
    exists l, kids !! a = Some l /\ firstChild n = head l /\ lastChild n = last l;
  l_kid : forall p l1 a l2, kids !! p = Some (l1 ++ a :: l2) ->
    exists n, nodes s !! a = Some n /\ parent n = Some p /\ prev n = last l1 /\ next n = head l2;
  l_parent : forall a n p, nodes s !! a = Some n -> parent n = Some p -> exists l, kids !! p = Some l /\ a ∈ l;
  l_alone : forall a n, nodes s !! a = Some n -> parent n = None -> prev n = None /\ next n = None;
  l_dom : forall p l, kids !! p = Some l -> is_Some (nodes s !! p) /\ NoDup l;
}.

(** The nodes under which a node is. *)
Definition up (s : XMLDocument) (a b : addr) : Prop := exists n, nodes s !! a = Some n /\ parent n = Some b.
Definition ranked (rank : addr -> nat) (N : nat) (s : XMLDocument) : Prop :=
  (forall a, (rank a <= N)%nat) /\ (forall a b, up s a b -> (rank a < rank b)%nat).

(** Who owns the memory: the nodes without a parent are the document, the nodes in
    [unlinked], each once, and those of [limbo], which are being deleted; the
    items in use are the nodes. *)
Record owned (limbo : gset addr) (s : XMLDocument) : Prop := {
  o_array : DynArray.wf 10 (unlinked s);
  o_nodup : NoDup (DynArray.contents (unlinked s));
  o_unlinked : forall a, a ∈ DynArray.contents (unlinked s) <->
    (exists n, nodes s !! a = Some n /\ parent n = None) /\ a <> root /\ a ∉ limbo;
  o_pools : forall t, t <> O -> pool_wf (pools s t) /\ (forall i, i ∈ pool_used (pools s t) <-> is_Some (nodes s !! (t, i)));
  o_tag : forall a n, nodes s !! a = Some n -> pool_of (data n) = fst a;
  o_root : exists n, nodes s !! root = Some n /\ parent n = None /\ data n = PDocument;
  o_only_root : forall a n, nodes s !! a = Some n -> fst a = O -> a = root }.

Record valid (s : XMLDocument) (kids : forest) : Prop := {
  v_linked : linked s kids; v_owned : owned ∅ s; v_ranked : exists rank N, ranked rank N s }.

(** Without a node, and with a node at a place, of the lists of children. *)
Definition remove_kid (a : addr) (kids : forest) : forest := filter (fun x => x <> a) <$> kids.
Definition at_end (this a : addr) (kids : forest) : forest := alter (fun l => l ++ [a]) this (remove_kid a kids).
Definition at_front (this a : addr) (kids : forest) : forest := alter (cons a) this (remove_kid a kids).
Fixpoint after (x a : addr) (l : list addr) : list addr :=
  match l with [] => [] | y :: l => if bool_decide (y = x) then y :: a :: l else y :: after x a l end.
Definition after_kid (this x a : addr) (kids : forest) : forest := alter (after x a) this (remove_kid a kids).

(** ** Removing a node from the list of its parent *)

Lemma upd_run a f s n : nodes s !! a = Some n -> upd a f s = Ret (set_nodes (<[a := f n]> (nodes s)) s).
Proof. intros E. unfold upd. by rewrite E. Qed.
Lemma deref_run a s n : nodes s !! a = Some n -> deref a s = Ret n.
Proof. intros E. unfold deref. by rewrite E. Qed.

(** [chg s s' g]: the nodes of [s'] are those of [s], changed by [g]. *)
Definition chg (s s' : XMLDocument) (g : addr -> XMLNode -> XMLNode) : Prop :=
  (forall x, nodes s' !! x = g x <$> nodes s !! x) /\ unlinked s' = unlinked s /\ pools s' = pools s.
Definition at_node (a : addr) (f : XMLNode -> XMLNode) (x : addr) (n : XMLNode) : XMLNode :=
  if decide (x = a) then f n else n.
Lemma upd_ok a f s : is_Some (nodes s !! a) -> exists s', upd a f s = Ret s' /\ chg s s' (at_node a f).
Proof.
  intros [n E]. rewrite (upd_run a f s n E). eexists. split; [done|]. split; [|done]. intros x. cbn. unfold at_node.
  destruct (decide (x = a)) as [->|Hne].
  - by rewrite lookup_insert_eq, E.
  - rewrite lookup_insert_ne by done. by destruct (nodes s !! x).
Qed.
Lemma at_node_here a f n : at_node a f a n = f n.
Proof. unfold at_node. by rewrite decide_True. Qed.
Lemma chg_refl s : chg s s (fun _ n => n).
Proof. split; [|done]. intros x. by destruct (nodes s !! x). Qed.
Lemma chg_trans s1 s2 s3 g h : chg s1 s2 g -> chg s2 s3 h -> chg s1 s3 (fun x n => h x (g x n)).
Proof.
  intros (A1 & B1 & C1) (A2 & B2 & C2). split; [|split; congruence]. intros x. rewrite A2, A1. by destruct (nodes s1 !! x).
Qed.
Lemma chg_ext s s' g h : chg s s' g -> (forall x n, nodes s !! x = Some n -> g x n = h x n) -> chg s s' h.
Proof.
  intros (A & B & C) E. split; [|done]. intros x. rewrite A. destruct (nodes s !! x) as [n|] eqn:Ex; [|done]. cbn. f_equal. by apply E.
Qed.
Lemma chg_some s s' g x n : chg s s' g -> nodes s !! x = Some n -> nodes s' !! x = Some (g x n).
Proof. intros (A & _) E. by rewrite A, E. Qed.
Lemma chg_is_some s s' g x : chg s s' g -> is_Some (nodes s !! x) -> is_Some (nodes s' !! x).
Proof. intros Hc [n E]. eexists. by apply (chg_some s s' g). Qed.
(** An update behind a pointer that may be null. *)
Lemma upd_option_ok (o : option addr) f s : (forall p, o = Some p -> is_Some (nodes s !! p)) ->
  exists s', match o with Some p => upd p f s | None => Ret s end = Ret s' /\
    chg s s' (fun x n => if decide (Some x = o) then f n else n).
Proof.
  intros Ho. destruct o as [p|].
  - destruct (upd_ok p f s) as (s' & E & C); [by apply Ho|]. exists s'. split; [done|]. apply (chg_ext _ _ _ _ C).
    intros x n _. unfold at_node. destruct (decide (x = p)) as [->|]; [by rewrite decide_True|]. rewrite decide_False; [done|congruence].
  - exists s. split; [done|]. apply (chg_ext _ _ _ _ (chg_refl s)). intros x n _. by rewrite decide_False.
Qed.

(** The node [x] after the child [c] with neighbours [l1], [l2] has left [this]. *)
Definition unlinked_node (this c : addr) (l1 l2 : list addr) (x : addr) (n : XMLNode) : XMLNode :=
  mk_node (if decide (x = c) then None else parent n)
    (if decide (x = this) then head (l1 ++ l2) else firstChild n)
    (if decide (x = this) then last (l1 ++ l2) else lastChild n)
    (if decide (x = c) then None else if decide (Some x = head l2) then last l1 else prev n)
    (if decide (x = c) then None else if decide (Some x = last l1) then head l2 else next n) (data n).

Lemma head_middle (l1 : list addr) c l2 : NoDup (l1 ++ c :: l2) -> head (l1 ++ c :: l2) = Some c -> l1 = [].
Proof.
  destruct l1 as [|x l1]; [done|]. cbn. intros ND [= ->]. apply NoDup_cons in ND as [Hx _]. destruct Hx. set_solver.
Qed.
Lemma last_middle (l1 : list addr) c l2 : NoDup (l1 ++ c :: l2) -> last (l1 ++ c :: l2) = Some c -> l2 = [].
Proof.
  intros ND. rewrite last_app_cons. destruct l2 as [|x l2 _] using rev_ind; [done|].
  rewrite app_comm_cons, last_snoc. intros [= ->]. apply NoDup_app in ND as (_ & _ & ND).
  apply NoDup_cons in ND as [Hx _]. destruct Hx. set_solver.
Qed.
Lemma head_without (l1 : list addr) c l2 : l1 <> [] -> head (l1 ++ l2) = head (l1 ++ c :: l2).
Proof. by destruct l1. Qed.
Lemma last_without (l1 : list addr) c l2 : l2 <> [] -> last (l1 ++ l2) = last (l1 ++ c :: l2).
Proof.
  intros Hne. destruct l2 as [|x l2 _] using rev_ind; [done|]. by rewrite app_comm_cons, !app_assoc, !last_snoc.
Qed.

Lemma kid_parent s kids p l a :
  linked s kids -> kids !! p = Some l -> a ∈ l -> exists n, nodes s !! a = Some n /\ parent n = Some p.
Proof.
  intros L Hk Ha. apply list_elem_of_split in Ha as (l1 & l2 & ->).
  destruct (l_kid s kids L _ _ _ _ Hk) as (n & Hn & Hp & _). by exists n.
Qed.
(** The two tests of the ends of the list. *)
Lemma unlink_first s this c l1 l2 nt nc :
  NoDup (l1 ++ c :: l2) -> nodes s !! this = Some nt -> nodes s !! c = Some nc ->
  firstChild nt = head (l1 ++ c :: l2) -> next nc = head l2 ->
  exists s', (if bool_decide (firstChild nt = Some c) then c' ← deref c s; upd this (set_first (next c')) s else Ret s) = Ret s' /\
    chg s s' (at_node this (set_first (head (l1 ++ l2)))).
Proof.
  intros ND Ht Hc Hf Hnx. case_bool_decide as Hfc.
  - rewrite Hf in Hfc. apply head_middle in Hfc as ->; [|done]. rewrite (deref_run _ _ _ Hc). cbn. rewrite Hnx.
    apply upd_ok. by eexists.
  - exists s. split; [done|]. apply (chg_ext s s (fun _ n => n)); [apply chg_refl|]. intros x n Hx. unfold at_node.
    destruct (decide (x = this)) as [->|]; [|done]. assert (n = nt) as -> by congruence.
    rewrite (head_without l1 c l2) by (intros ->; by apply Hfc). rewrite <-Hf. by destruct nt.
Qed.
Lemma unlink_last s this c l1 l2 nt nc :
  NoDup (l1 ++ c :: l2) -> nodes s !! this = Some nt -> nodes s !! c = Some nc ->
  lastChild nt = last (l1 ++ c :: l2) -> prev nc = last l1 ->
  exists s', (if bool_decide (lastChild nt = Some c) then c' ← deref c s; upd this (set_last (prev c')) s else Ret s) = Ret s' /\
    chg s s' (at_node this (set_last (last (l1 ++ l2)))).
Proof.
  intros ND Ht Hc Hl Hpr. case_bool_decide as Hlc.
  - rewrite Hl in Hlc. apply last_middle in Hlc as ->; [|done]. rewrite (deref_run _ _ _ Hc). cbn. rewrite Hpr, app_nil_r.
    apply upd_ok. by eexists.
  - exists s. split; [done|]. apply (chg_ext s s (fun _ n => n)); [apply chg_refl|]. intros x n Hx. unfold at_node.
    destruct (decide (x = this)) as [->|]; [|done]. assert (n = nt) as -> by congruence.
    rewrite (last_without l1 c l2) by (intros ->; apply Hlc; rewrite Hl; apply last_snoc). rewrite <-Hl. by destruct nt.
Qed.

Lemma Unlink_correct s kids this c l1 l2 :
  linked s kids -> kids !! this = Some (l1 ++ c :: l2) ->
  exists s', Unlink this c s = Ret s' /\ chg s s' (unlinked_node this c l1 l2).
Proof.
  intros L Hk. destruct (l_dom s kids L _ _ Hk) as [[nt Ht] ND].
  destruct (l_node s kids L _ _ Ht) as (l & E & Hf & Hl). rewrite Hk in E. injection E as <-.
  destruct (l_kid s kids L _ _ _ _ Hk) as (nc & Hc & Hp & Hpr & Hnx).
  unfold Unlink. rewrite (deref_run _ _ _ Ht). cbn [mbind outcome_bind].
  destruct (unlink_first s this c l1 l2 nt nc) as (s1 & E1 & C1); [done..|].
  rewrite E1. clear E1. cbn [mbind outcome_bind]. rewrite (deref_run _ _ _ (chg_some _ _ _ _ _ C1 Ht)), at_node_here. cbn [mbind outcome_bind lastChild set_first].
  assert (nodes s1 !! c = Some (at_node this (set_first (head (l1 ++ l2))) c nc)) as Hc1 by exact (chg_some _ _ _ _ _ C1 Hc).
  destruct (unlink_last s1 this c l1 l2 _ _ ND (chg_some _ _ _ _ _ C1 Ht) Hc1) as (s2 & E2 & C2);
    [by rewrite at_node_here|unfold at_node; by destruct (decide _)|]. rewrite at_node_here in E2. cbn [lastChild set_first] in E2.
  rewrite E2. clear E2. cbn [mbind outcome_bind]. pose proof (chg_trans _ _ _ _ _ C1 C2) as C12.
  set (g12 := fun x n => at_node this _ x (at_node this _ x n)) in C12.
  assert (prev (g12 c nc) = last l1 /\ next (g12 c nc) = head l2) as [Hpr2 Hnx2].
  { unfold g12, at_node. by destruct (decide (c = this)). }
  rewrite (deref_run _ _ _ (chg_some _ _ _ _ _ C12 Hc)). cbn [mbind outcome_bind]. rewrite Hpr2, Hnx2.
  assert (forall x, x ∈ l1 ++ c :: l2 -> is_Some (nodes s !! x)) as Hlive.
  { intros x Hx. destruct (kid_parent s kids this _ x L Hk Hx) as (n & Hn & _). by exists n. }
  destruct (upd_option_ok (last l1) (set_next (head l2)) s2) as (s3 & E3 & C3).
  { intros p Ep. apply (chg_is_some _ _ _ _ C12), Hlive. apply last_Some in Ep as [l' ->]. set_solver. }
  rewrite E3. clear E3. cbn [mbind outcome_bind]. pose proof (chg_trans _ _ _ _ _ C12 C3) as C13. cbn beta in C13.
  assert (Some c <> last l1) as Hcl1.
  { intros Ec. symmetry in Ec. apply last_Some in Ec as [l' ->]. apply NoDup_app in ND as (_ & Hd & _). apply (Hd c); set_solver. }
  rewrite (deref_run _ _ _ (chg_some _ _ _ _ _ C13 Hc)). cbn [mbind outcome_bind]. rewrite decide_False by done. rewrite Hpr2, Hnx2.
  destruct (upd_option_ok (head l2) (set_prev (last l1)) s3) as (s4 & E4 & C4).
  { intros p Ep. apply (chg_is_some _ _ _ _ C13), Hlive. destruct l2; simplify_eq/=; set_solver. }
  rewrite E4. clear E4. cbn [mbind outcome_bind]. pose proof (chg_trans _ _ _ _ _ C13 C4) as C14. cbn beta in C14.
  destruct (upd_ok c (fun c => set_parent None (set_prev None (set_next None c))) s4) as (s5 & E5 & C5); [apply (chg_is_some _ _ _ _ C14); by eexists|].
  exists s5. split; [exact E5|]. apply (chg_ext _ _ _ _ (chg_trans _ _ _ _ _ C14 C5)). intros x n Hx.
  unfold g12, at_node, unlinked_node. destruct n. repeat case_decide; done.
Qed.

(** ** The lists of children *)

Lemma kid_same_parent s kids p l q n a :
  linked s kids -> kids !! p = Some l -> a ∈ l -> nodes s !! a = Some n -> parent n = q -> q = Some p.
Proof. intros L Hk Ha Hn Hp. destruct (kid_parent s kids p l a L Hk Ha) as (n' & Hn' & Hp'). congruence. Qed.

Lemma filter_absent (c : addr) (l : list addr) : c ∉ l -> filter (fun x => x <> c) l = l.
Proof.
  induction l as [|x l IH]; intros Hc; [done|]. rewrite filter_cons_True by set_solver. f_equal. apply IH. set_solver.
Qed.
Lemma filter_middle (c : addr) (l1 l2 : list addr) : NoDup (l1 ++ c :: l2) -> filter (fun x => x <> c) (l1 ++ c :: l2) = l1 ++ l2.
Proof.
  intros ND. apply NoDup_app in ND as (_ & Hd & ND). apply NoDup_cons in ND as [Hc _].
  rewrite filter_app, filter_cons_False, !filter_absent; [done|done| |by intros ?].
  intros Hin. apply (Hd c); [done|set_solver].
Qed.

Lemma remove_kid_lookup s kids this c l1 l2 p l :
  linked s kids -> kids !! this = Some (l1 ++ c :: l2) ->
  remove_kid c kids !! p = Some l <-> (p = this /\ l = l1 ++ l2) \/ (p <> this /\ kids !! p = Some l).
Proof.
  intros L Hk. unfold remove_kid. rewrite lookup_fmap. destruct (decide (p = this)) as [->|Hne].
  - rewrite Hk. cbn. rewrite filter_middle by (by eapply l_dom). naive_solver.
  - destruct (kids !! p) as [l'|] eqn:Ep; cbn; [|naive_solver]. rewrite filter_absent; [naive_solver|].
    intros Hc. assert (c ∈ l1 ++ c :: l2) as Hc' by set_solver.
    destruct (kid_parent s kids _ _ _ L Ep Hc) as (n & Hn & Hp).
    pose proof (kid_same_parent s kids _ _ _ n c L Hk Hc' Hn Hp). congruence.
Qed.

Lemma remove_kid_absent s kids a n :
  linked s kids -> nodes s !! a = Some n -> parent n = None -> remove_kid a kids = kids.
Proof.
  intros L Hn Hp. unfold remove_kid. rewrite <-(map_fmap_id kids) at 2. apply map_fmap_ext.
  intros p l Hk. cbn. apply filter_absent. intros Ha. pose proof (kid_same_parent s kids _ _ _ _ _ L Hk Ha Hn Hp). done.
Qed.

Lemma chg_inv s s' g x n' : chg s s' g -> nodes s' !! x = Some n' -> exists n, nodes s !! x = Some n /\ n' = g x n.
Proof. intros (A & _) E. rewrite A in E. destruct (nodes s !! x) as [n|]; [|done]. injection E as <-. by exists n. Qed.

(** The two halves of a list in which an element has been found. *)
Lemma app_middle_cases {A} (l1 l2 m1 m2 : list A) a :
  l1 ++ l2 = m1 ++ a :: m2 ->
  (exists k, l1 = m1 ++ a :: k /\ m2 = k ++ l2) \/ (exists k, m1 = l1 ++ k /\ l2 = k ++ a :: m2).
Proof.
  intros E. apply app_eq_app in E as (k & [[-> E]|[-> ->]]); [|right; by exists k].
  destruct k as [|b k]; cbn in E; [right; exists []; by rewrite !app_nil_r|].
  injection E as -> ->. left. by exists k.
Qed.

(** The neighbours of an element of a list, when what lies beyond a gap in it changes. *)
Lemma next_across m1 (a : addr) k X Y : NoDup (m1 ++ a :: k) ->
  (if decide (Some a = last (m1 ++ a :: k)) then head Y else head (k ++ X)) = head (k ++ Y).
Proof.
  intros ND. rewrite last_app_cons. destruct k as [|b k]; [by rewrite decide_True|]. rewrite decide_False; [done|]. intros E.
  apply NoDup_app in ND as (_ & _ & [Ha _]%NoDup_cons). apply Ha. symmetry in E.
  change (last (a :: b :: k)) with (last (b :: k)) in E. apply last_Some in E as [l' ->]. set_solver.
Qed.
Lemma prev_across k (a : addr) m2 X Y : NoDup (k ++ a :: m2) ->
  (if decide (Some a = head (k ++ a :: m2)) then last Y else last (X ++ k)) = last (Y ++ k).
Proof.
  intros ND. destruct k as [|b k]; [by rewrite decide_True, app_nil_r|]. rewrite !last_app_cons, decide_False; [done|].
  cbn. intros [= ->]. apply NoDup_cons in ND as [Hb _]. set_solver.
Qed.
Lemma not_head (a : addr) l : a ∉ l -> Some a <> head l.
Proof. destruct l; [done|]. intros Ha [= ->]. set_solver. Qed.
Lemma not_last (a : addr) l : a ∉ l -> Some a <> last l.
Proof. intros Ha E. symmetry in E. apply last_Some in E as [l' ->]. set_solver. Qed.
Lemma NoDup_without (l1 : list addr) c l2 : NoDup (l1 ++ c :: l2) -> NoDup (l1 ++ l2) /\ c ∉ l1 /\ c ∉ l2.
Proof.
  intros (N1 & Hd & [Hc N2]%NoDup_cons)%NoDup_app. split; [|split; [|done]].
  - apply NoDup_app. split; [done|]. split; [|done]. intros x H1 H2. apply (Hd x H1). set_solver.
  - intros H1. apply (Hd c H1). set_solver.
Qed.

(** The other children of [this]. *)
Lemma unlink_sibling s s' kids this c l1 l2 m1 a m2 :
  linked s kids -> kids !! this = Some (l1 ++ c :: l2) -> chg s s' (unlinked_node this c l1 l2) -> l1 ++ l2 = m1 ++ a :: m2 ->
  exists n, nodes s' !! a = Some n /\ parent n = Some this /\ prev n = last m1 /\ next n = head m2.
Proof.
  intros L Hk C E. destruct (l_dom s kids L _ _ Hk) as [_ ND]. destruct (NoDup_without _ _ _ ND) as (ND' & Hc1 & Hc2).
  destruct (app_middle_cases _ _ _ _ _ E) as [(k & -> & ->)|(k & -> & ->)].
  - assert (kids !! this = Some (m1 ++ a :: (k ++ c :: l2))) as Hk2 by (by rewrite Hk, <-app_assoc).
    destruct (l_kid s kids L _ _ _ _ Hk2) as (n & Hn & Hp & Hpr & Hnx).
    eexists. split; [exact (chg_some _ _ _ _ _ C Hn)|]. unfold unlinked_node. cbn.
    apply NoDup_app in ND' as (N1 & Hd & _). rewrite !(decide_False (P := a = c)) by set_solver.
    rewrite (decide_False (P := Some a = head l2)) by (apply not_head; apply Hd; set_solver).
    split; [done|]. split; [done|]. rewrite Hnx. by apply next_across.
  - assert (kids !! this = Some ((l1 ++ c :: k) ++ a :: m2)) as Hk2 by (rewrite Hk, <-app_assoc; done).
    destruct (l_kid s kids L _ _ _ _ Hk2) as (n & Hn & Hp & Hpr & Hnx).
    eexists. split; [exact (chg_some _ _ _ _ _ C Hn)|]. unfold unlinked_node. cbn.
    apply NoDup_app in ND' as (_ & Hd & N2). rewrite !(decide_False (P := a = c)) by set_solver.
    rewrite (decide_False (P := Some a = last l1)) by (apply not_last; intros X; apply (Hd a X); set_solver).
    split; [done|]. split; [|done]. rewrite Hpr. change (l1 ++ c :: k) with (l1 ++ [c] ++ k). rewrite app_assoc. by apply prev_across.
Qed.

Lemma unlink_linked s s' kids this c l1 l2 :
  linked s kids -> kids !! this = Some (l1 ++ c :: l2) -> chg s s' (unlinked_node this c l1 l2) ->
  linked s' (remove_kid c kids).
Proof.
  intros L Hk C. pose proof (fun p l => remove_kid_lookup s kids this c l1 l2 p l L Hk) as Hr.
  destruct (l_dom s kids L _ _ Hk) as [Hthis ND].
  assert (forall x, x ∈ l1 ++ c :: l2 -> exists n, nodes s !! x = Some n /\ parent n = Some this) as Hin
    by (intros x; by apply kid_parent with kids).
  assert (forall x, Some x = head l2 -> x ∈ l1 ++ c :: l2) as Hhd by (intros x E; destruct l2; simplify_eq/=; set_solver).
  assert (forall x, Some x = last l1 -> x ∈ l1 ++ c :: l2) as Hla.
  { intros x E. symmetry in E. apply last_Some in E as [l' ->]. set_solver. }
  split.
  - intros a n' Hn'. destruct (chg_inv _ _ _ _ _ C Hn') as (n & Hn & ->).
    destruct (l_node s kids L _ _ Hn) as (l & Hl & Hf & Hla'). unfold unlinked_node. cbn.
    destruct (decide (a = this)) as [->|Hne].
    + exists (l1 ++ l2). split; [|done]. apply Hr. by left.
    + exists l. split; [|done]. apply Hr. by right.
  - intros p m1 a m2 Hk'. apply Hr in Hk' as [[-> E]|[Hne Hk']].
    + by apply (unlink_sibling s s' kids this c l1 l2).
    + destruct (l_kid s kids L _ _ _ _ Hk') as (n & Hn & Hp & Hpr & Hnx).
      assert (a ∉ l1 ++ c :: l2) as Ha by (intros X; destruct (Hin a X) as (n2 & Hn2 & Hp2); congruence).
      eexists. split; [exact (chg_some _ _ _ _ _ C Hn)|]. unfold unlinked_node. cbn.
      rewrite !(decide_False (P := a = c)) by set_solver.
      rewrite (decide_False (P := Some a = head l2)), (decide_False (P := Some a = last l1)); [done|..]; intros X; apply Ha; auto.
  - intros a n' p Hn' Hp'. destruct (chg_inv _ _ _ _ _ C Hn') as (n & Hn & ->). unfold unlinked_node in Hp'. cbn in Hp'.
    destruct (decide (a = c)) as [->|Hne]; [done|]. destruct (l_parent s kids L _ _ _ Hn Hp') as (l & Hl & Hal).
    destruct (decide (p = this)) as [->|Hnp].
    + exists (l1 ++ l2). split; [apply Hr; by left|]. rewrite Hk in Hl. injection Hl as <-. set_solver.
    + exists l. split; [|done]. apply Hr. by right.
  - intros a n' Hn' Hp'. destruct (chg_inv _ _ _ _ _ C Hn') as (n & Hn & ->). unfold unlinked_node in *. cbn in *.
    destruct (decide (a = c)) as [->|Hne]; [done|].
    assert (a ∉ l1 ++ c :: l2) as Ha by (intros X; destruct (Hin a X) as (n2 & Hn2 & Hp2); congruence).
    rewrite (decide_False (P := Some a = head l2)), (decide_False (P := Some a = last l1)); [by apply (l_alone s kids L a)|..];
      intros X; apply Ha; auto.
  - intros p l Hl. apply Hr in Hl as [[-> ->]|[Hne Hl]].
    + split; [by apply (chg_is_some _ _ _ _ C)|by apply NoDup_without in ND as [ND _]].
    + destruct (l_dom s kids L _ _ Hl) as [Hp NDp]. split; [by apply (chg_is_some _ _ _ _ C)|done].
Qed.

(** ** Putting a node into a list *)

(** The node [x] after [c], which had no parent, has come under [this] between [l1]
    and [l2]. *)
Definition inserted_node (this c : addr) (l1 l2 : list addr) (x : addr) (n : XMLNode) : XMLNode :=
  mk_node (if decide (x = c) then Some this else parent n)
    (if decide (x = this) then head (l1 ++ c :: l2) else firstChild n)
    (if decide (x = this) then last (l1 ++ c :: l2) else lastChild n)
    (if decide (x = c) then last l1 else if decide (Some x = head l2) then Some c else prev n)
    (if decide (x = c) then head l2 else if decide (Some x = last l1) then Some c else next n) (data n).

Lemma insert_sibling s s' kids this c l1 l2 m1 a m2 :
  linked s kids -> kids !! this = Some (l1 ++ l2) -> c ∉ l1 ++ l2 -> chg s s' (inserted_node this c l1 l2) ->
  a <> c -> l1 ++ c :: l2 = m1 ++ a :: m2 ->
  exists n, nodes s' !! a = Some n /\ parent n = Some this /\ prev n = last m1 /\ next n = head m2.
Proof.
  intros L Hk Hcn C Hac E. destruct (l_dom s kids L _ _ Hk) as [_ ND].
  destruct (app_middle_cases _ _ _ _ _ E) as [(k & -> & ->)|(k & -> & E2)].
  - assert (kids !! this = Some (m1 ++ a :: (k ++ l2))) as Hk2 by (by rewrite Hk, <-app_assoc).
    destruct (l_kid s kids L _ _ _ _ Hk2) as (n & Hn & Hp & Hpr & Hnx).
    eexists. split; [exact (chg_some _ _ _ _ _ C Hn)|]. unfold inserted_node. cbn.
    apply NoDup_app in ND as (N1 & Hd & _). rewrite !(decide_False (P := a = c)) by done.
    rewrite (decide_False (P := Some a = head l2)) by (apply not_head; apply Hd; set_solver).
    split; [done|]. split; [done|]. rewrite Hnx. by apply (next_across m1 a k l2 (c :: l2)).
  - destruct k as [|b k]; cbn in E2; injection E2 as Eb E2; [congruence|]. subst b l2.
    assert (kids !! this = Some ((l1 ++ k) ++ a :: m2)) as Hk2 by (by rewrite Hk, <-app_assoc).
    destruct (l_kid s kids L _ _ _ _ Hk2) as (n & Hn & Hp & Hpr & Hnx).
    eexists. split; [exact (chg_some _ _ _ _ _ C Hn)|]. unfold inserted_node. cbn.
    apply NoDup_app in ND as (_ & Hd & N2). rewrite !(decide_False (P := a = c)) by done.
    rewrite (decide_False (P := Some a = last l1)) by (apply not_last; intros X; apply (Hd a X); set_solver).
    split; [done|]. split; [|done]. rewrite Hpr. pose proof (prev_across k a m2 l1 (l1 ++ [c]) N2) as Ep.
    rewrite last_snoc, <-app_assoc in Ep. exact Ep.
Qed.

Lemma app_middle_unique {A} (l1 l2 m1 m2 : list A) c :
  c ∉ l1 ++ l2 -> l1 ++ c :: l2 = m1 ++ c :: m2 -> m1 = l1 /\ m2 = l2.
Proof.
  intros Hc E. destruct (app_middle_cases _ _ _ _ _ E) as [(k & -> & _)|(k & -> & E2)]; [set_solver|].
  destruct k as [|b k]; cbn in E2; [injection E2 as ->; by rewrite app_nil_r|]. injection E2 as -> ->. set_solver.
Qed.
Lemma NoDup_middle {A} (l1 l2 : list A) c : NoDup (l1 ++ l2) -> c ∉ l1 ++ l2 -> NoDup (l1 ++ c :: l2).
Proof. intros ND Hc. rewrite <-Permutation_middle. by constructor. Qed.

Lemma insert_linked s s' kids this c l1 l2 nc :
  linked s kids -> kids !! this = Some (l1 ++ l2) -> nodes s !! c = Some nc -> parent nc = None ->
  chg s s' (inserted_node this c l1 l2) -> linked s' (<[this := l1 ++ c :: l2]> kids).
Proof.
  intros L Hk Hc Hpc C. destruct (l_dom s kids L _ _ Hk) as [Hthis ND].
  assert (forall x, x ∈ l1 ++ l2 -> exists n, nodes s !! x = Some n /\ parent n = Some this) as Hin
    by (intros x; by apply kid_parent with kids).
  assert (forall p l, kids !! p = Some l -> c ∉ l) as Hcl.
  { intros p l Hl Hx. pose proof (kid_same_parent s kids _ _ _ _ _ L Hl Hx Hc Hpc). done. }
  assert (c ∉ l1 ++ l2) as Hcn by eauto.
  assert (forall x, Some x = head l2 -> x ∈ l1 ++ l2) as Hhd by (intros x E; destruct l2; simplify_eq/=; set_solver).
  assert (forall x, Some x = last l1 -> x ∈ l1 ++ l2) as Hla.
  { intros x E. symmetry in E. apply last_Some in E as [l' ->]. set_solver. }
  split.
  - intros a n' Hn'. destruct (chg_inv _ _ _ _ _ C Hn') as (n & Hn & ->).
    destruct (l_node s kids L _ _ Hn) as (l & Hl & Hf & Hla'). unfold inserted_node. cbn.
    destruct (decide (a = this)) as [->|Hne].
    + eexists. rewrite lookup_insert_eq. done.
    + exists l. by rewrite lookup_insert_ne.
  - intros p m1 a m2 Hk'. destruct (decide (p = this)) as [->|Hne].
    + rewrite lookup_insert_eq in Hk'. injection Hk' as E.
      destruct (decide (a = c)) as [->|Hac].
      * destruct (app_middle_unique _ _ _ _ _ Hcn E) as [-> ->].
        eexists. split; [exact (chg_some _ _ _ _ _ C Hc)|]. unfold inserted_node. cbn. by rewrite !(decide_True (P := c = c)).
      * by apply (insert_sibling s s' kids this c l1 l2).
    + rewrite lookup_insert_ne in Hk' by done. destruct (l_kid s kids L _ _ _ _ Hk') as (n & Hn & Hp & Hpr & Hnx).
      assert (a ∉ l1 ++ l2) as Ha by (intros X; destruct (Hin a X) as (n2 & Hn2 & Hp2); congruence).
      eexists. split; [exact (chg_some _ _ _ _ _ C Hn)|]. unfold inserted_node. cbn.
      rewrite !(decide_False (P := a = c)) by (intros ->; congruence).
      rewrite (decide_False (P := Some a = head l2)), (decide_False (P := Some a = last l1)); [done|..]; intros X; apply Ha; auto.
  - intros a n' p Hn' Hp'. destruct (chg_inv _ _ _ _ _ C Hn') as (n & Hn & ->). unfold inserted_node in Hp'. cbn in Hp'.
    destruct (decide (a = c)) as [->|Hne].
    + injection Hp' as <-. eexists. rewrite lookup_insert_eq. split; [done|]. set_solver.
    + destruct (l_parent s kids L _ _ _ Hn Hp') as (l & Hl & Hal). destruct (decide (p = this)) as [->|Hnp].
      * eexists. rewrite lookup_insert_eq. split; [done|]. rewrite Hk in Hl. injection Hl as <-. set_solver.
      * exists l. by rewrite lookup_insert_ne.
  - intros a n' Hn' Hp'. destruct (chg_inv _ _ _ _ _ C Hn') as (n & Hn & ->). unfold inserted_node in *. cbn in *.
    destruct (decide (a = c)) as [->|Hne]; [done|].
    assert (a ∉ l1 ++ l2) as Ha by (intros X; destruct (Hin a X) as (n2 & Hn2 & Hp2); congruence).
    rewrite (decide_False (P := Some a = head l2)), (decide_False (P := Some a = last l1)); [by apply (l_alone s kids L a)|..];
      intros X; apply Ha; auto.
  - intros p l Hl. destruct (decide (p = this)) as [->|Hnp].
    + rewrite lookup_insert_eq in Hl. injection Hl as <-. split; [by apply (chg_is_some _ _ _ _ C)|by apply NoDup_middle].
    + rewrite lookup_insert_ne in Hl by done. destruct (l_dom s kids L _ _ Hl) as [Hp NDp].
      split; [by apply (chg_is_some _ _ _ _ C)|done].
Qed.

(** ** Owners and ranks *)

Lemma owned_chg limbo limbo' s s' g :
  owned limbo s -> chg s s' g -> (forall x n, data (g x n) = data n) -> (forall n, parent (g root n) = parent n) ->
  (forall x n, nodes s !! x = Some n -> x <> root ->
     (parent (g x n) = None /\ x ∉ limbo') <-> (parent n = None /\ x ∉ limbo)) ->
  owned limbo' s'.
Proof.
  intros [O1 O2 O3 O4 O5 O6 O7] C Hd Hroot Hp. pose proof C as (A & Bu & Bp). split.
  - by rewrite Bu.
  - by rewrite Bu.
  - intros a. rewrite Bu, O3. split.
    + intros ((n & Hn & Hpn) & Hr & Hl). destruct (proj2 (Hp a n Hn Hr)) as [P1 P2]; [done|].
      split; [|done]. eexists. split; [exact (chg_some _ _ _ _ _ C Hn)|done].
    + intros ((n' & Hn' & Hpn) & Hr & Hl). destruct (chg_inv _ _ _ _ _ C Hn') as (n & Hn & ->).
      destruct (proj1 (Hp a n Hn Hr)) as [P1 P2]; [done|]. split; [by exists n|done].
  - intros t Ht. rewrite Bp. destruct (O4 t Ht) as [W U]. split; [done|]. intros i. rewrite U, A. by rewrite fmap_is_Some.
  - intros a n' Hn'. destruct (chg_inv _ _ _ _ _ C Hn') as (n & Hn & ->). rewrite Hd. by apply O5.
  - destruct O6 as (n & Hn & Hpn & Hdn). eexists. split; [exact (chg_some _ _ _ _ _ C Hn)|]. by rewrite Hroot, Hd.
  - intros a n' Hn'. destruct (chg_inv _ _ _ _ _ C Hn') as (n & Hn & ->). by apply (O7 a n).
Qed.

Lemma index_of_spec a l i : index_of a l = Some i <-> exists l1 l2, l = l1 ++ a :: l2 /\ a ∉ l1 /\ i = length l1.
Proof.
  revert i. induction l as [|b l IH]; intros i; cbn.
  - split; [done|]. intros (l1 & l2 & E & _). by destruct l1.
  - case_bool_decide as E.
    + subst b. split; [intros [= <-]; exists [], l; set_solver|]. intros (l1 & l2 & E & Hn & ->).
      destruct l1; [done|]. cbn in E. injection E as -> _. set_solver.
    + destruct (index_of a l) as [j|]; cbn; split.
      * intros [= <-]. destruct (proj1 (IH j) eq_refl) as (l1 & l2 & -> & Hn & ->). exists (b :: l1), l2. set_solver.
      * intros (l1 & l2 & El & Hn & ->). destruct l1 as [|c l1]; [injection El as ->; done|]. injection El as -> El.
        f_equal. cbn. f_equal. assert (Some j = Some (length l1)) as H2 by (apply IH; exists l1, l2; set_solver). by injection H2.
      * done.
      * intros (l1 & l2 & El & Hn & ->). destruct l1 as [|c l1]; [injection El as ->; done|]. injection El as -> El.
        assert (None = Some (length l1)) as H2 by (apply IH; exists l1, l2; set_solver). done.
Qed.

(** [MarkInUse]: the node goes from [unlinked] to [limbo]. *)
Lemma MarkInUse_correct limbo s a n :
  owned limbo s -> nodes s !! a = Some n -> parent n = None -> a <> root ->
  exists s', MarkInUse a s = Ret s' /\ owned ({[a]} ∪ limbo) s' /\ nodes s' = nodes s /\ pools s' = pools s.
Proof.
  intros [O1 O2 O3 O4 O5 O6 O7] Hn Hp Hr. unfold MarkInUse.
  destruct (index_of a (DynArray.contents (unlinked s))) as [i|] eqn:Ei.
  - apply index_of_spec in Ei as (l1 & l2 & E & Hl1 & ->).
    destruct (DynArray.SwapRemove_correct 10 a l1 l2 (unlinked s) O1 E) as (u & Eu & Wu & Cu). rewrite Eu. cbn.
    eexists. split; [done|]. split; [|done]. pose proof (DynArray.swap_remove_perm l1 l2) as Hperm. rewrite <-Cu in Hperm.
    rewrite E in O2. split; cbn [unlinked nodes pools set_unlinked]; try done.
    + rewrite Hperm. apply NoDup_app in O2 as (N1 & Hd & N2). apply NoDup_cons in N2 as [Hc N2].
      apply NoDup_app. split; [done|]. split; [|done]. intros x Hx1 Hx2. apply (Hd x Hx1). set_solver.
    + intros x. rewrite Hperm. rewrite E in O3. specialize (O3 x). apply NoDup_app in O2 as (N1 & Hd & N2).
      apply NoDup_cons in N2 as [Hc N2]. split.
      * intros Hx. assert (x ≠ a) by (intros ->; set_solver). destruct (proj1 O3) as (X1 & X2 & X3); [set_solver|]. set_solver.
      * intros (X1 & X2 & X3). assert (x ∈ l1 ++ a :: l2) as Hx by (apply O3; set_solver). set_solver.
  - exists s. split; [done|]. split; [|done]. split; try done. intros x. rewrite O3. split; [|set_solver].
    intros (X1 & X2 & X3). split; [done|]. split; [done|]. intros Hx. apply elem_of_union in Hx as [Hx|]; [|done].
    apply elem_of_singleton in Hx as ->. assert (a ∈ DynArray.contents (unlinked s)) as Hin by (by apply O3).
    apply list_elem_of_split_l in Hin as (l1 & l2 & E & Hl1).
    assert (index_of a (DynArray.contents (unlinked s)) = Some (length l1)) as E2 by (apply index_of_spec; by exists l1, l2).
    congruence.
Qed.

Lemma SetTracked_correct limbo s t i :
  owned limbo s -> t <> O ->
  exists s', SetTracked (t, i) s = Ret s' /\ owned limbo s' /\ nodes s' = nodes s /\ unlinked s' = unlinked s.
Proof.
  intros [O1 O2 O3 O4 O5 O6 O7] Ht. unfold SetTracked. cbn [fst]. destruct t as [|t]; [done|].
  eexists. split; [done|]. split; [|done]. split; try done. intros u Hu. cbn [pools nodes set_pool].
  destruct (Nat.eqb_spec u (S t)) as [->|Hne]; [|by apply O4]. destruct (O4 (S t) Hu) as [W U].
  destruct (tracked_law (pools s (S t)) W) as [W' ->]. done.
Qed.

(** The nodes and what they are have not changed. *)
Definition same_data (s s' : XMLDocument) : Prop := forall x, data <$> nodes s' !! x = data <$> nodes s !! x.
Lemma chg_same_data s s' g : chg s s' g -> (forall x n, data (g x n) = data n) -> same_data s s'.
Proof. intros (A & _) Hd x. rewrite A. destruct (nodes s !! x); [|done]. cbn. by rewrite Hd. Qed.
Lemma same_data_is_some s s' x : same_data s s' -> is_Some (nodes s !! x) -> is_Some (nodes s' !! x).
Proof. intros Hs [n E]. specialize (Hs x). rewrite E in Hs. destruct (nodes s' !! x); [by eexists|done]. Qed.

(** A node that has left its list, with the memory that is then nobody's. *)
Record detached (s s1 : XMLDocument) (kids : forest) (limbo : gset addr) (a : addr) : Prop := {
  d_linked : linked s1 (remove_kid a kids);
  d_owned : owned ({[a]} ∪ limbo) s1;
  d_node : exists n, nodes s1 !! a = Some n /\ parent n = None;
  d_data : same_data s s1;
  d_up : forall x y, up s1 x y -> up s x y;
  d_up_back : forall x y, up s x y -> x <> a -> up s1 x y }.

Lemma Unlink_detaches limbo s kids this a l1 l2 :
  linked s kids -> owned limbo s -> kids !! this = Some (l1 ++ a :: l2) -> a <> root ->
  exists s1, Unlink this a s = Ret s1 /\ detached s s1 kids limbo a.
Proof.
  intros L O Hk Hr. destruct (Unlink_correct s kids this a l1 l2 L Hk) as (s1 & E & C). exists s1. split; [done|].
  destruct (l_kid s kids L _ _ _ _ Hk) as (n & Hn & Hp & _). split.
  - by apply (unlink_linked s s1 kids this a l1 l2).
  - apply (owned_chg limbo _ s s1 _ O C); [done| |].
    + intros m. unfold unlinked_node. cbn. by rewrite decide_False.
    + intros x m Hm Hx. unfold unlinked_node. cbn. destruct (decide (x = a)) as [->|Hne].
      * assert (m = n) as -> by congruence. split; [intros [_ H3]; set_solver|]. intros [H3 _]. congruence.
      * set_solver.
  - eexists. split; [exact (chg_some _ _ _ _ _ C Hn)|]. unfold unlinked_node. cbn. by rewrite decide_True.
  - by apply (chg_same_data s s1 _ C).
  - intros x y (m' & Hm' & Hpm). destruct (chg_inv _ _ _ _ _ C Hm') as (m & Hm & ->). exists m. split; [done|].
    unfold unlinked_node in Hpm. cbn in Hpm. by destruct (decide (x = a)).
  - intros x y (m & Hm & Hpm) Hx. eexists. split; [exact (chg_some _ _ _ _ _ C Hm)|]. unfold unlinked_node. cbn. by rewrite decide_False.
Qed.

Lemma owned_tag limbo s a : owned limbo s -> is_Some (nodes s !! a) -> a <> root -> fst a <> O.
Proof. intros O [n Hn] Hr E. apply Hr. by apply (o_only_root _ _ O a n). Qed.

Lemma preamble_correct s kids a :
  linked s kids -> owned ∅ s -> is_Some (nodes s !! a) -> a <> root ->
  exists s1, InsertChildPreamble a s = Ret s1 /\ detached s s1 kids ∅ a.
Proof.
  intros L O Ha Hr. pose proof (owned_tag ∅ s a O Ha Hr) as Ht. destruct Ha as [n Hn].
  unfold InsertChildPreamble. rewrite (deref_run _ _ _ Hn). cbn [mbind outcome_bind].
  destruct (parent n) as [p|] eqn:Hp.
  - destruct (l_parent s kids L _ _ _ Hn Hp) as (l & Hl & Hin). apply list_elem_of_split in Hin as (l1 & l2 & ->).
    by apply (Unlink_detaches ∅ s kids p a l1 l2).
  - destruct (MarkInUse_correct ∅ s a n O Hn Hp Hr) as (s1 & E1 & O1 & N1 & P1). rewrite E1. cbn.
    destruct a as [t i]. cbn [fst] in Ht. destruct (SetTracked_correct _ s1 t i O1 Ht) as (s2 & E2 & O2 & N2 & U2).
    exists s2. split; [done|]. rewrite N1 in N2. split.
    + rewrite (remove_kid_absent s kids _ n L Hn Hp). destruct L as [L1 L2 L3 L4 L5]. split; rewrite ?N2; done.
    + done.
    + exists n. by rewrite N2.
    + intros x. by rewrite N2.
    + intros x y (m & Hm & Hpm). exists m. by rewrite N2 in Hm.
    + intros x y (m & Hm & Hpm) _. exists m. by rewrite N2.
Qed.

(** The nodes above [a], as a list. *)
Lemma ancestors rank N s : ranked rank N s -> forall a, exists l : list addr,
  a ∈ l /\ (forall x y, x ∈ l -> up s x y -> y ∈ l) /\ forall x, x ∈ l -> rtc (up s) a x.
Proof.
  intros [Hb Hup]. assert (forall k a, (N - rank a <= k)%nat -> exists l : list addr,
    a ∈ l /\ (forall x y, x ∈ l -> up s x y -> y ∈ l) /\ forall x, x ∈ l -> rtc (up s) a x) as Hgo.
  2: { intros a. by apply (Hgo (N - rank a)%nat). }
  induction k as [|k IH]; intros a Hk.
  - exists [a]. split; [set_solver|]. split; [|intros x ->%list_elem_of_singleton; done].
    intros x y ->%list_elem_of_singleton Hxy. pose proof (Hup _ _ Hxy). pose proof (Hb y). lia.
  - destruct (nodes s !! a) as [n|] eqn:Hn.
    2: { exists [a]. split; [set_solver|]. split; [|intros x ->%list_elem_of_singleton; done].
         intros x y ->%list_elem_of_singleton (m & Hm & _). congruence. }
    destruct (parent n) as [p|] eqn:Hp.
    2: { exists [a]. split; [set_solver|]. split; [|intros x ->%list_elem_of_singleton; done].
         intros x y ->%list_elem_of_singleton (m & Hm & Hpm). congruence. }
    assert (up s a p) as Hap by (by exists n). pose proof (Hup _ _ Hap). pose proof (Hb p).
    destruct (IH p) as (l & A1 & A2 & A3); [lia|]. exists (a :: l). split; [set_solver|]. split.
    + intros x y Hx Hxy. apply elem_of_cons in Hx as [->|Hx]; [|apply elem_of_cons; right; by apply (A2 x)].
      destruct Hxy as (m & Hm & Hpm). assert (y = p) as -> by congruence. set_solver.
    + intros x Hx. apply elem_of_cons in Hx as [->|Hx]; [done|]. eapply rtc_l; [done|]. by apply A3.
Qed.

Lemma insert_ranked rank N s s' this a :
  ranked rank N s -> ~ rtc (up s) this a ->
  (forall x y, up s' x y -> (x = a /\ y = this) \/ (x <> a /\ up s x y)) ->
  exists rank' N', ranked rank' N' s'.
Proof.
  intros R Hna Hup. destruct (ancestors rank N s R this) as (l & Hl1 & Hl2 & Hl3). destruct R as [Hb Hr].
  exists (fun x => if decide (x ∈ l) then (rank x + S (rank a))%nat else rank x), (N + S (rank a))%nat. split.
  - intros x. pose proof (Hb x). destruct (decide (x ∈ l)); lia.
  - intros x y Hxy. destruct (Hup x y Hxy) as [[-> ->]|[Hne Hxy']].
    + rewrite (decide_True (P := this ∈ l)) by done. rewrite decide_False; [lia|]. intros Ha. by apply Hna, Hl3.
    + pose proof (Hr _ _ Hxy'). destruct (decide (x ∈ l)) as [Hx|Hx].
      * rewrite decide_True by (by apply (Hl2 x)). lia.
      * destruct (decide (y ∈ l)); lia.
Qed.

(** The last part of the three operations. *)
Lemma insert_valid s s1 s' kids this a l1 l2 rank N :
  ranked rank N s -> ~ rtc (up s) this a -> a <> root ->
  detached s s1 kids ∅ a -> remove_kid a kids !! this = Some (l1 ++ l2) -> chg s1 s' (inserted_node this a l1 l2) ->
  valid s' (<[this := l1 ++ a :: l2]> (remove_kid a kids)) /\ same_data s s'.
Proof.
  intros R Hna Hr [L O (n & Hn & Hp) D Hup _] Hk C. split; [split|].
  - by apply (insert_linked s1 s' _ this a l1 l2 n).
  - apply (owned_chg ({[a]} ∪ ∅) ∅ s1 s' _ O C); [done| |].
    + intros m. unfold inserted_node. cbn. by rewrite decide_False.
    + intros x m Hm Hx. unfold inserted_node. cbn. destruct (decide (x = a)); set_solver.
  - apply (insert_ranked rank N s s' this a R Hna). intros x y (m' & Hm' & Hpm).
    destruct (chg_inv _ _ _ _ _ C Hm') as (m & Hm & ->). unfold inserted_node in Hpm. cbn in Hpm.
    destruct (decide (x = a)) as [->|Hne]; [left; split; congruence|]. right. split; [done|]. apply Hup. by exists m.
  - intros x. rewrite (chg_same_data s1 s' _ C) by done. apply D.
Qed.

Ltac upd_step C :=
  match goal with
  | |- context [upd ?a ?f ?s] =>
      let s' := fresh "s" in let E := fresh "E" in let C1 := fresh "C" in let C2 := fresh "C" in
      destruct (upd_ok a f s) as (s' & E & C1); [apply (chg_is_some _ _ _ _ C); eauto|];
      rewrite E; clear E; cbn [mbind outcome_bind];
      pose proof (chg_trans _ _ _ _ _ C C1) as C2; cbn beta in C2; clear C C1; rename C2 into C
  end.

(** Two changes of a node agree, whichever of the nodes named it is. *)
Ltac decide_nodes Hx :=
  repeat match goal with |- context [decide ?Q] => destruct (decide Q) end;
  unfold set_parent, set_first, set_last, set_prev, set_next; cbn; try congruence; rewrite ?Hx by done; congruence.

Lemma at_end_insert kids this a l : remove_kid a kids !! this = Some l ->
  at_end this a kids = <[this := l ++ [a]]> (remove_kid a kids).
Proof. intros E. unfold at_end. apply map_eq. intros x. destruct (decide (x = this)) as [->|Hne].
  - by rewrite lookup_alter_eq, lookup_insert_eq, E.
  - by rewrite lookup_alter_ne, lookup_insert_ne. Qed.

Lemma InsertEndChild_correct s kids this a :
  valid s kids -> is_Some (nodes s !! this) -> is_Some (nodes s !! a) -> a <> root -> ~ rtc (up s) this a ->
  exists s', InsertEndChild this a s = Ret s' /\ valid s' (at_end this a kids) /\ same_data s s'.
Proof.
  intros [L O (rank & N & R)] Ht Ha Hr Hna. destruct (preamble_correct s kids a L O Ha Hr) as (s1 & E & D).
  unfold InsertEndChild. rewrite E. cbn [mbind outcome_bind].
  destruct (same_data_is_some _ _ this (d_data _ _ _ _ _ D) Ht) as [nt Hnt]. rewrite (deref_run _ _ _ Hnt). cbn [mbind outcome_bind].
  destruct (l_node _ _ (d_linked _ _ _ _ _ D) _ _ Hnt) as (l & Hl & Hf & Hla).
  destruct (d_node _ _ _ _ _ D) as (na & Hna' & Hpa).
  assert (a ∉ l) as Hal.
  { intros X. pose proof (kid_same_parent _ _ _ _ _ _ _ (d_linked _ _ _ _ _ D) Hl X Hna' Hpa). done. }
  rewrite (at_end_insert kids this a l Hl).
  enough (exists s', (s ← match lastChild nt with
      | Some l => s ← upd l (set_next (Some a)) s1; s ← upd a (set_prev (Some l)) s; s ← upd this (set_last (Some a)) s; upd a (set_next None) s
      | None => s ← upd this (fun t => set_first (Some a) (set_last (Some a) t)) s1; s ← upd a (set_prev None) s; upd a (set_next None) s
      end; upd a (set_parent (Some this)) s) = Ret s' /\ chg s1 s' (inserted_node this a l [])) as (s' & E' & C).
  { exists s'. split; [exact E'|]. apply (insert_valid s s1 s' kids this a l [] rank N); try done. by rewrite app_nil_r. }
  pose proof (chg_refl s1) as C. assert (is_Some (nodes s1 !! a)) by eauto. assert (is_Some (nodes s1 !! this)) by eauto.
  rewrite Hla. destruct (last l) as [q|] eqn:Eq.
  - apply last_Some in Eq as [l' ->]. destruct (l_kid _ _ (d_linked _ _ _ _ _ D) _ _ _ _ Hl) as (nq & Hnq & _).
    assert (is_Some (nodes s1 !! q)) by eauto. do 5 upd_step C. eexists. split; [done|]. apply (chg_ext _ _ _ _ C).
    intros x n Hx. unfold at_node, inserted_node. rewrite last_snoc.
    assert (x = this -> firstChild n = head ((l' ++ [q]) ++ [a])) as Hfx.
    { intros ->. assert (n = nt) as -> by congruence. rewrite Hf. by destruct l'. }
    rewrite last_snoc. cbn [head]. assert (q <> a) by set_solver. destruct n. cbn [firstChild] in Hfx. by decide_nodes Hfx.
  - apply last_None in Eq as ->. do 4 upd_step C. eexists. split; [done|]. apply (chg_ext _ _ _ _ C).
    intros x n Hx. unfold at_node, inserted_node. cbn [app head last]. destruct n. by decide_nodes I.
Qed.

Lemma at_front_insert kids this a l : remove_kid a kids !! this = Some l ->
  at_front this a kids = <[this := a :: l]> (remove_kid a kids).
Proof. intros E. unfold at_front. apply map_eq. intros x. destruct (decide (x = this)) as [->|Hne].
  - by rewrite lookup_alter_eq, lookup_insert_eq, E.
  - by rewrite lookup_alter_ne, lookup_insert_ne. Qed.

Lemma InsertFirstChild_correct s kids this a :
  valid s kids -> is_Some (nodes s !! this) -> is_Some (nodes s !! a) -> a <> root -> ~ rtc (up s) this a ->
  exists s', InsertFirstChild this a s = Ret s' /\ valid s' (at_front this a kids) /\ same_data s s'.
Proof.
  intros [L O (rank & N & R)] Ht Ha Hr Hna. destruct (preamble_correct s kids a L O Ha Hr) as (s1 & E & D).
  unfold InsertFirstChild. rewrite E. cbn [mbind outcome_bind].
  destruct (same_data_is_some _ _ this (d_data _ _ _ _ _ D) Ht) as [nt Hnt]. rewrite (deref_run _ _ _ Hnt). cbn [mbind outcome_bind].
  destruct (l_node _ _ (d_linked _ _ _ _ _ D) _ _ Hnt) as (l & Hl & Hf & Hla).
  destruct (d_node _ _ _ _ _ D) as (na & Hna' & Hpa).
  assert (a ∉ l) as Hal.
  { intros X. pose proof (kid_same_parent _ _ _ _ _ _ _ (d_linked _ _ _ _ _ D) Hl X Hna' Hpa). done. }
  rewrite (at_front_insert kids this a l Hl).
  enough (exists s', (s ← match firstChild nt with
      | Some f => s ← upd f (set_prev (Some a)) s1; s ← upd a (set_next (Some f)) s; s ← upd this (set_first (Some a)) s; upd a (set_prev None) s
      | None => s ← upd this (fun t => set_first (Some a) (set_last (Some a) t)) s1; s ← upd a (set_prev None) s; upd a (set_next None) s
      end; upd a (set_parent (Some this)) s) = Ret s' /\ chg s1 s' (inserted_node this a [] l)) as (s' & E' & C).
  { exists s'. split; [exact E'|]. by apply (insert_valid s s1 s' kids this a [] l rank N). }
  pose proof (chg_refl s1) as C. assert (is_Some (nodes s1 !! a)) by eauto. assert (is_Some (nodes s1 !! this)) by eauto.
  rewrite Hf. destruct l as [|q l]; cbn [head].
  - do 4 upd_step C. eexists. split; [done|]. apply (chg_ext _ _ _ _ C).
    intros x n Hx. unfold at_node, inserted_node. cbn [app head last]. destruct n. by decide_nodes I.
  - destruct (l_kid _ _ (d_linked _ _ _ _ _ D) _ [] _ _ Hl) as (nq & Hnq & _).
    assert (is_Some (nodes s1 !! q)) by eauto. do 5 upd_step C. eexists. split; [done|]. apply (chg_ext _ _ _ _ C).
    intros x n Hx. unfold at_node, inserted_node.
    assert (x = this -> lastChild n = last (a :: q :: l)) as Hfx.
    { intros ->. assert (n = nt) as -> by congruence. by rewrite Hla. }
    cbn [head app]. change (last []) with (@None addr). assert (q <> a) by set_solver.
    generalize dependent (last (a :: q :: l)). intros la Hfx. destruct n. cbn [lastChild] in Hfx. by decide_nodes Hfx.
Qed.

Lemma after_middle (x a : addr) l1 l2 : x ∉ l1 -> after x a (l1 ++ x :: l2) = l1 ++ x :: a :: l2.
Proof.
  induction l1 as [|y l1 IH]; intros Hx; cbn; [by rewrite bool_decide_true|]. rewrite bool_decide_false by set_solver.
  f_equal. apply IH. set_solver.
Qed.
Lemma after_kid_insert kids this x a l1 l2 : remove_kid a kids !! this = Some (l1 ++ x :: l2) -> x ∉ l1 ->
  after_kid this x a kids = <[this := (l1 ++ [x]) ++ a :: l2]> (remove_kid a kids).
Proof. intros E Hx. unfold after_kid. apply map_eq. intros y. destruct (decide (y = this)) as [->|Hne].
  - rewrite lookup_alter_eq, lookup_insert_eq, E. cbn. by rewrite after_middle, <-app_assoc.
  - by rewrite lookup_alter_ne, lookup_insert_ne. Qed.

Lemma remove_kid_list a kids this l : kids !! this = Some l -> remove_kid a kids !! this = Some (filter (fun x => x <> a) l).
Proof. intros E. unfold remove_kid. by rewrite lookup_fmap, E. Qed.

(** [InsertAfterChild] behind [x], unless [a] is the last node and just behind it. *)
(** The pointers set when [a] comes between [x] and [q]. *)
Lemma relink_after s1 kids this x a m1 q m2 :
  linked s1 kids -> kids !! this = Some (m1 ++ x :: q :: m2) -> a ∉ m1 ++ x :: q :: m2 -> is_Some (nodes s1 !! a) ->
  exists s', (s ← upd a (set_prev (Some x)) s1; n ← deref x s; s ← upd a (set_next (next n)) s; n ← deref x s;
      s ← match next n with Some n => upd n (set_prev (Some a)) s | None => Undef end;
      s ← upd x (set_next (Some a)) s; s ← upd a (set_parent (Some this)) s; Ret (true, s)) = Ret (true, s') /\
    chg s1 s' (inserted_node this a (m1 ++ [x]) (q :: m2)).
Proof.
  intros L1 Hk1 Hal Ha. destruct (l_kid _ _ L1 _ _ _ _ Hk1) as (nx1 & Hnx1 & _ & _ & Hnext1). cbn [head] in Hnext1.
  assert (x <> a) as Hxa by (intros ->; apply Hal; set_solver).
  pose proof Hk1 as Hkq. replace (m1 ++ x :: q :: m2) with ((m1 ++ [x]) ++ q :: m2) in Hkq by (by rewrite <-app_assoc).
  destruct (l_kid _ _ L1 _ _ _ _ Hkq) as (nq & Hnq & _).
  destruct (l_dom _ _ L1 _ _ Hkq) as [[nt1 Hnt1] NDq].
  pose proof (chg_refl s1) as C. assert (is_Some (nodes s1 !! x)) by eauto.
  assert (is_Some (nodes s1 !! q)) by eauto. upd_step C.
  rewrite (deref_run _ _ _ (chg_some _ _ _ _ _ C Hnx1)). cbn [mbind outcome_bind].
  unfold at_node at 1. rewrite (decide_False (P := x = a)) by done. rewrite Hnext1. upd_step C.
  rewrite (deref_run _ _ _ (chg_some _ _ _ _ _ C Hnx1)). cbn [mbind outcome_bind].
  unfold at_node at 1 2. rewrite !(decide_False (P := x = a)) by done. rewrite Hnext1. do 3 upd_step C.
  eexists. split; [done|]. apply (chg_ext _ _ _ _ C).
  assert (a <> q /\ x <> q) as [Haq Hxq].
  { split; [set_solver|]. intros ->. apply NoDup_app in NDq as (_ & Hdq & _). apply (Hdq q); set_solver. }
  destruct (l_node _ _ L1 _ _ Hnt1) as (l & Hl & Hf & Hla). rewrite Hkq in Hl. injection Hl as <-.
  intros z n Hz. unfold at_node, inserted_node. rewrite last_snoc. cbn [head].
  assert (z = this -> firstChild n = head ((m1 ++ [x]) ++ a :: q :: m2) /\ lastChild n = last ((m1 ++ [x]) ++ a :: q :: m2)) as Hfz.
  { intros ->. assert (n = nt1) as -> by congruence. rewrite Hf, Hla, !last_app_cons. split; [by destruct m1|done]. }
  destruct n. cbn [firstChild lastChild] in Hfz. destruct (decide (z = this)) as [->|Hne].
  - destruct (Hfz eq_refl) as [-> ->]. by decide_nodes I.
  - by decide_nodes I.
Qed.
Lemma filter_not_empty (a : addr) l : NoDup l -> l <> [] -> l <> [a] -> filter (fun x => x <> a) l <> [].
Proof.
  intros ND Hne Hna X. assert (forall z, z ∈ l -> z = a) as Hall.
  { intros z Hz. destruct (decide (z = a)); [done|]. exfalso. eapply (not_elem_of_nil z). rewrite <-X. by apply list_elem_of_filter. }
  destruct l as [|y l]; [done|]. pose proof (Hall y ltac:(set_solver)) as ->. destruct l as [|z l]; [done|].
  pose proof (Hall z ltac:(set_solver)) as ->. apply NoDup_cons in ND as [ND _]. set_solver.
Qed.

Lemma InsertAfterChild_correct s kids this x a l1 l2 :
  valid s kids -> kids !! this = Some (l1 ++ x :: l2) -> x <> a -> l2 <> [a] ->
  is_Some (nodes s !! a) -> a <> root -> ~ rtc (up s) this a ->
  exists s', InsertAfterChild this x a s = Ret (true, s') /\ valid s' (after_kid this x a kids) /\ same_data s s'.
Proof.
  intros V Hk Hxa Hl2 Ha Hr Hna. pose proof V as [L O (rank & N & R)]. destruct (l_dom s kids L _ _ Hk) as [Ht ND].
  destruct (l_kid s kids L _ _ _ _ Hk) as (nx & Hnx & Hpx & _ & Hnext).
  apply NoDup_app in ND as (_ & Hd & ND). apply NoDup_cons in ND as [Hx2 ND].
  assert (x ∉ l1) as Hx1 by (intros X; apply (Hd x X); set_solver).
  pose proof (remove_kid_list a kids this _ Hk) as Hk1. rewrite filter_app, filter_cons_True in Hk1 by done.
  set (m1 := filter (fun x => x <> a) l1) in *. set (m2 := filter (fun x => x <> a) l2) in *.
  assert (x ∉ m1) as Hxm by (unfold m1; intros [_ X]%list_elem_of_filter; done).
  rewrite (after_kid_insert kids this x a m1 m2 Hk1 Hxm).
  unfold InsertAfterChild. rewrite (deref_run _ _ _ Hnx). cbn [mbind outcome_bind].
  rewrite (bool_decide_true (parent nx = Some this)), (bool_decide_false (x = a)) by done. cbn [negb]. rewrite Hnext.
  destruct l2 as [|y l2'] eqn:El2; cbn [head].
  { destruct (InsertEndChild_correct s kids this a V Ht Ha Hr Hna) as (s' & E & V' & D). rewrite E. exists s'.
    split; [done|]. split; [|done]. rewrite (at_end_insert kids this a (m1 ++ [x]) Hk1) in V'. done. }
  rewrite <-El2 in *. destruct (preamble_correct s kids a L O Ha Hr) as (s1 & E & D). rewrite E. cbn [mbind outcome_bind].
  destruct (d_node _ _ _ _ _ D) as (na & Hna' & Hpa). pose proof (d_linked _ _ _ _ _ D) as L1.
  assert (a ∉ m1 ++ x :: m2) as Hal.
  { intros X. pose proof (kid_same_parent _ _ _ _ _ _ _ L1 Hk1 X Hna' Hpa). done. }
  assert (m2 <> []) as Hm2 by (apply filter_not_empty; [by rewrite <-El2|done|by rewrite <-El2]).
  destruct m2 as [|q m2'] eqn:Em2; [done|].
  destruct (relink_after s1 _ this x a m1 q m2' L1 Hk1 Hal ltac:(by eexists)) as (s' & E' & C). exists s'. split; [exact E'|].
  apply (insert_valid s s1 s' kids this a (m1 ++ [x]) (q :: m2') rank N); [done..|by rewrite <-app_assoc|done].
Qed.

(** C9: the operations on the tree do to the pointers what they say on the lists of
    children: in a document whose pointers form a tree, [InsertEndChild],
    [InsertFirstChild] and [InsertAfterChild] take the node out of the list it is
    in, or out of [unlinked], and put it at its new place; all other lists, the
    order in them and what the nodes are stay, and the pointers again form a tree
    that owns every node.  The node must not be the document, the new parent or a
    node above it.  [InsertAfterChild] is asked for another place than the one behind
    the node itself, and not to put the last child behind its predecessor, where it
    already is ([l2 <> [a]]): that uses a null pointer ([InsertAfterChild_last]). *)
Theorem inserts_refine s kids this a :
  valid s kids -> is_Some (nodes s !! this) -> is_Some (nodes s !! a) -> a <> root -> ~ rtc (up s) this a ->
  (exists s', InsertEndChild this a s = Ret s' /\ valid s' (at_end this a kids) /\ same_data s s') /\
  (exists s', InsertFirstChild this a s = Ret s' /\ valid s' (at_front this a kids) /\ same_data s s') /\
  (forall x l1 l2, kids !! this = Some (l1 ++ x :: l2) -> x <> a -> l2 <> [a] ->
     exists s', InsertAfterChild this x a s = Ret (true, s') /\ valid s' (after_kid this x a kids) /\ same_data s s').
Proof.
  intros V Ht Ha Hr Hna. split; [by apply InsertEndChild_correct|]. split; [by apply InsertFirstChild_correct|].
  intros x l1 l2 Hk Hxa Hl2. by apply (InsertAfterChild_correct s kids this x a l1 l2).
Qed.

(** moving the last child behind its predecessor, where it already is, uses a
    null pointer: the test for the last node is made before the node is taken out
    of the list. *)
Theorem InsertAfterChild_last s kids this x a l1 :
  valid s kids -> kids !! this = Some (l1 ++ [x; a]) -> a <> root -> InsertAfterChild this x a s = Undef.
Proof.
  intros [L O _] Hk Hr. destruct (l_dom s kids L _ _ Hk) as [Ht ND].
  destruct (l_kid s kids L _ _ _ _ Hk) as (nx & Hnx & Hpx & _ & Hnext).
  assert (kids !! this = Some ((l1 ++ [x]) ++ [a])) as Hka by (by rewrite Hk, <-app_assoc).
  destruct (l_kid s kids L _ _ _ _ Hka) as (na & Hna & Hpa & _).
  assert (x <> a /\ a ∉ l1) as [Hxa Ha1].
  { apply NoDup_app in ND as (_ & Hd & ND). apply NoDup_cons in ND as [ND _]. split; [set_solver|]. intros X. apply (Hd a X). set_solver. }
  unfold InsertAfterChild. rewrite (deref_run _ _ _ Hnx). cbn [mbind outcome_bind].
  rewrite (bool_decide_true (parent nx = Some this)), (bool_decide_false (x = a)) by done. cbn [negb]. rewrite Hnext. cbn [head].
  destruct (preamble_correct s kids a L O ltac:(eauto) Hr) as (s1 & E & D). rewrite E. cbn [mbind outcome_bind].
  pose proof (remove_kid_list a kids this _ Hk) as Hk1. rewrite filter_app, filter_cons_True, filter_cons_False in Hk1 by (done || by intros ?).
  destruct (l_kid _ _ (d_linked _ _ _ _ _ D) _ _ _ _ Hk1) as (nx1 & Hnx1 & _ & _ & Hnext1). cbn in Hnext1.
  destruct (d_node _ _ _ _ _ D) as (na1 & Hna1 & _).
  pose proof (chg_refl s1) as C. assert (is_Some (nodes s1 !! a)) by eauto. upd_step C.
  rewrite (deref_run _ _ _ (chg_some _ _ _ _ _ C Hnx1)). cbn [mbind outcome_bind].
  unfold at_node at 1. rewrite (decide_False (P := x = a)) by done. rewrite Hnext1. upd_step C.
  rewrite (deref_run _ _ _ (chg_some _ _ _ _ _ C Hnx1)). cbn [mbind outcome_bind].
  unfold at_node. rewrite !(decide_False (P := x = a)) by done. by rewrite Hnext1.
Qed.

(** ** Deleting *)

(** The lists of the nodes that are left. *)
Definition restrict (s : XMLDocument) (kids : forest) : forest := filter (fun p => is_Some (nodes s !! p.1)) kids.
Lemma restrict_lookup s kids p l : restrict s kids !! p = Some l <-> kids !! p = Some l /\ is_Some (nodes s !! p).
Proof. unfold restrict. by rewrite map_lookup_filter_Some. Qed.

(** [s'] is [s] without the nodes of [gone]; the others keep what they are and
    their parents. *)
Record pruned (s s' : XMLDocument) (gone : addr -> Prop) : Prop := {
  pr_dom : forall x, is_Some (nodes s' !! x) <-> is_Some (nodes s !! x) /\ ~ gone x;
  pr_data : forall x, is_Some (nodes s' !! x) -> data <$> nodes s' !! x = data <$> nodes s !! x;
  pr_up : forall x y, up s' x y -> up s x y;
  pr_up_back : forall x y, up s x y -> is_Some (nodes s' !! x) -> up s' x y }.

Lemma owned_limbo limbo limbo' s :
  (forall x, is_Some (nodes s !! x) -> x ∈ limbo <-> x ∈ limbo') -> owned limbo s -> owned limbo' s.
Proof.
  intros E [O1 O2 O3 O4 O5 O6 O7]. split; try done. intros a. rewrite O3. split.
  - intros ((n & Hn & Hp) & Hr & Hl). split; [by exists n|]. split; [done|]. by rewrite <-E.
  - intros ((n & Hn & Hp) & Hr & Hl). split; [by exists n|]. split; [done|]. by rewrite E.
Qed.
Lemma ranked_up rank N s s' : (forall x y, up s' x y -> up s x y) -> ranked rank N s -> ranked rank N s'.
Proof. intros E [Hb Hr]. split; [done|]. intros a b Hab. by apply Hr, E. Qed.
Lemma rtc_rank rank N s a b : ranked rank N s -> rtc (up s) a b -> (rank a <= rank b)%nat.
Proof. intros [_ Hr] Hab. induction Hab as [|x y z Hxy _ IH]; [done|]. pose proof (Hr _ _ Hxy). lia. Qed.

Lemma kid_up s kids p l a : linked s kids -> kids !! p = Some l -> a ∈ l -> up s a p.
Proof. intros L Hk Ha. destruct (kid_parent s kids p l a L Hk Ha) as (n & Hn & Hp). by exists n. Qed.
Lemma up_kid s kids a p : linked s kids -> up s a p -> exists l, kids !! p = Some l /\ a ∈ l.
Proof. intros L (n & Hn & Hp). by apply (l_parent s kids L a n). Qed.
Lemma kids_of_node s kids a : linked s kids -> is_Some (nodes s !! a) -> exists l, kids !! a = Some l.
Proof. intros L [n Hn]. destruct (l_node s kids L a n Hn) as (l & Hl & _). by exists l. Qed.

(** At or below [a]: [a] itself, or at or below a child of it. *)
Lemma below_cases s kids a l x :
  linked s kids -> kids !! a = Some l -> rtc (up s) x a <-> x = a \/ exists c, c ∈ l /\ rtc (up s) x c.
Proof.
  intros L Hk. split.
  - intros Hx. apply rtc_inv_r in Hx as [->|(y & Hy & Hya)]; [by left|]. right.
    destruct (up_kid s kids y a L Hya) as (l' & Hl' & Hin). exists y. split; [congruence|done].
  - intros [->|(c & Hc & Hx)]; [done|]. eapply rtc_r; [done|]. by apply (kid_up s kids a l).
Qed.

Lemma kids_length s kids a l : linked s kids -> kids !! a = Some l -> (length l <= size (nodes s))%nat.
Proof.
  intros L Hk. destruct (l_dom s kids L _ _ Hk) as [_ ND].
  rewrite <-(size_list_to_set (C := gset addr) l ND), <-size_dom. apply subseteq_size. intros x Hx%elem_of_list_to_set.
  apply elem_of_dom. destruct (kid_parent s kids a l x L Hk Hx) as (n & Hn & _). by exists n.
Qed.

(** Deleting the node [a] that has left its list. *)
Definition deletes (del : addr -> XMLDocument -> outcome XMLDocument) (rank : addr -> nat) (bound : nat) : Prop :=
  forall a s kids limbo N, linked s kids -> owned limbo s -> ranked rank N s -> (rank a < bound)%nat ->
    (exists n, nodes s !! a = Some n /\ parent n = None) -> a <> root ->
    exists s', del a s = Ret s' /\ linked s' (restrict s' kids) /\ owned limbo s' /\ pruned s s' (fun x => rtc (up s) x a).

Lemma pruned_trans s s2 s3 (g1 g2 g : addr -> Prop) :
  pruned s s2 g1 -> pruned s2 s3 g2 -> (forall x, g1 x -> g x) ->
  (forall x, is_Some (nodes s2 !! x) -> g2 x <-> g x) -> pruned s s3 g.
Proof.
  intros [P1 P2 P3 P4] [Q1 Q2 Q3 Q4] H1 H2. assert (forall x, is_Some (nodes s3 !! x) -> is_Some (nodes s2 !! x)) as Hsub
    by (intros x Hx; by apply Q1 in Hx as [? _]). split.
  - intros x. rewrite Q1. split.
    + intros [Hx Hg]. split; [by apply P1 in Hx as [? _]|]. by rewrite <-H2.
    + intros [Hx Hg]. assert (is_Some (nodes s2 !! x)) as Hx2 by (apply P1; auto). split; [done|]. by rewrite H2.
  - intros x Hx. rewrite Q2, P2 by auto. done.
  - intros x y Hxy. by apply P3, Q3.
  - intros x y Hxy Hx. apply Q4; [|done]. apply P4; auto.
Qed.
(** A path that starts at a node that is left is left whole. *)
Lemma pruned_path s s' kids c x y :
  linked s kids -> pruned s s' (fun x => rtc (up s) x c) -> is_Some (nodes s' !! x) -> rtc (up s) x y -> rtc (up s') x y.
Proof.
  intros L [P1 P2 P3 P4] Hx Hxy. revert x Hxy Hx. apply (rtc_ind_l (fun x => is_Some (nodes s' !! x) -> rtc (up s') x y)); [done|].
  intros x z Hxz _ IHx Hx. eapply rtc_l; [by apply P4|]. apply IHx. apply P1 in Hx as [Hx1 Hx2]. apply P1. split.
  - destruct (up_kid s kids x z L Hxz) as (l & Hl & _). by apply (l_dom s kids L z l).
  - intros Hz. apply Hx2. by eapply rtc_l.
Qed.

Lemma delete_no_children del this n s kids limbo :
  linked s kids -> owned limbo s -> kids !! this = Some [] ->
  exists s', delete_children del n this s = Ret s' /\ linked s' (<[this := []]> (restrict s' kids)) /\ owned limbo s' /\
    pruned s s' (fun x => exists c, c ∈ @nil addr /\ rtc (up s) x c).
Proof.
  intros L O Hk. destruct (l_dom s kids L _ _ Hk) as [[nt Ht] _]. destruct (l_node s kids L _ _ Ht) as (l & Hl & Hf & Hla).
  rewrite Hk in Hl. injection Hl as <-. cbn in Hf, Hla.
  assert (delete_children del n this s = upd this (fun t => set_first None (set_last None t)) s) as ->.
  { destruct n; cbn [delete_children]; rewrite (deref_run _ _ _ Ht); cbn [mbind outcome_bind]; by rewrite Hf. }
  rewrite (upd_run _ _ _ _ Ht). eexists. split; [done|].
  assert (<[this := set_first None (set_last None nt)]> (nodes s) = nodes s) as ->.
  { apply insert_id. rewrite Ht. f_equal. destruct nt. cbn in *. by subst. }
  assert (set_nodes (nodes s) s = s) as -> by (by destruct s).
  assert (<[this := []]> (restrict s kids) = kids) as ->.
  { apply map_eq. intros x. destruct (decide (x = this)) as [->|Hne]; [by rewrite lookup_insert_eq|].
    rewrite lookup_insert_ne by done. apply option_eq. intros l. rewrite restrict_lookup. split; [by intros []|].
    intros Hl. split; [done|]. by apply (l_dom s kids L x l). }
  split; [done|]. split; [done|]. split; [|done..]. intros x. split; [|by intros []].
  intros Hx. split; [done|]. intros (c & Hc & _). set_solver.
Qed.

(** One turn of the loop: the first child is taken out of the list and deleted. *)
Lemma delete_first_child del rank bound this c l s kids limbo N :
  deletes del rank bound -> (rank this <= bound)%nat -> linked s kids -> owned limbo s -> ranked rank N s ->
  kids !! this = Some (c :: l) ->
  exists s1 s2, Unlink this c s = Ret s1 /\ del c s1 = Ret s2 /\ linked s2 (restrict s2 (remove_kid c kids)) /\
    owned limbo s2 /\ pruned s s2 (fun x => rtc (up s) x c) /\ restrict s2 (remove_kid c kids) !! this = Some l.
Proof.
  intros Hdel Hbound L O R Hk. assert (up s c this) as Hct by (apply (kid_up s kids this (c :: l)); [done|done|set_solver]).
  assert (c <> root) as Hcr.
  { intros ->. destruct (o_root _ _ O) as (n0 & Hn0 & Hp0 & _). destruct Hct as (n1 & Hn1 & Hp1). congruence. }
  destruct (Unlink_detaches limbo s kids this c [] l L O Hk Hcr) as (s1 & E1 & [L1 O1 N1 D1 U1 B1]).
  assert (ranked rank N s1) as R1 by (by apply (ranked_up rank N s)).
  assert (rank c < rank this)%nat as Hrk by (by apply (proj2 R)).
  destruct (Hdel c s1 _ _ N L1 O1 R1 ltac:(lia) N1 Hcr) as (s2 & E2 & L2 & O2 & [P1 P2 P3 P4]).
  assert (forall x, rtc (up s1) x c <-> rtc (up s) x c) as Hrtc1.
  { intros x. split; [apply rtc_subrel; exact U1|]. revert x. apply rtc_ind_l; [done|]. intros x y Hxy Hyz IHx.
    destruct (decide (x = c)) as [->|Hne]; [done|]. eapply rtc_l; [|by apply IHx]. by apply B1. }
  assert (forall x, is_Some (nodes s1 !! x) <-> is_Some (nodes s !! x)) as Hdom1.
  { intros x. specialize (D1 x). destruct (nodes s1 !! x), (nodes s !! x); try done; split; intros [? ?]; done. }
  assert (forall x, is_Some (nodes s2 !! x) -> x <> c) as Hnc.
  { intros x Hx ->. apply P1 in Hx as [_ Hx]. by apply Hx. }
  exists s1, s2. split; [done|]. split; [done|]. split; [done|]. split; [|split; [split|]].
  - revert O2. apply owned_limbo. intros x Hx. pose proof (Hnc x Hx). set_solver.
  - intros x. by rewrite P1, Hdom1, Hrtc1.
  - intros x Hx. by rewrite P2, D1.
  - intros x y Hxy. by apply U1, P3.
  - intros x y Hxy Hx. apply P4; [|done]. apply B1; [done|]. by apply Hnc.
  - apply restrict_lookup. split; [apply (remove_kid_lookup s kids this c [] l this l L Hk); by left|].
    apply P1. split; [apply Hdom1; by apply (l_dom s kids L _ _ Hk)|].
    intros X. pose proof (rtc_rank rank N s1 _ _ R1 X). lia.
Qed.

Lemma delete_children_correct del rank bound this :
  deletes del rank bound -> (rank this <= bound)%nat ->
  forall l n s kids limbo N, linked s kids -> owned limbo s -> ranked rank N s ->
    kids !! this = Some l -> (length l <= n)%nat ->
    exists s', delete_children del n this s = Ret s' /\ linked s' (<[this := []]> (restrict s' kids)) /\ owned limbo s' /\
      pruned s s' (fun x => exists c, c ∈ l /\ rtc (up s) x c).
Proof.
  intros Hdel Hbound. induction l as [|c l IH]; intros n s kids limbo N L O R Hk Hn; [by apply delete_no_children|].
  destruct n as [|n]; [cbn in Hn; lia|]. cbn [delete_children].
  destruct (l_dom s kids L _ _ Hk) as [[nt Ht] ND]. destruct (l_node s kids L _ _ Ht) as (l0 & Hl & Hf & Hla).
  rewrite Hk in Hl. injection Hl as <-. cbn in Hf. rewrite (deref_run _ _ _ Ht). cbn [mbind outcome_bind]. rewrite Hf.
  destruct (delete_first_child del rank bound this c l s kids limbo N Hdel Hbound L O R Hk)
    as (s1 & s2 & E1 & E2 & L2 & O2 & P2 & Hk2).
  rewrite E1. cbn [mbind outcome_bind]. rewrite E2. cbn [mbind outcome_bind].
  destruct (IH n s2 _ limbo N L2 O2 (ranked_up rank N s s2 (pr_up _ _ _ P2) R) Hk2 ltac:(cbn in Hn; lia)) as (s3 & E3 & L3 & O3 & Q).
  exists s3. split; [exact E3|]. split; [|split; [done|]].
  - assert (<[this := []]> (restrict s3 kids) = <[this := []]> (restrict s3 (restrict s2 (remove_kid c kids)))) as ->; [|done].
    apply map_eq. intros p. destruct (decide (p = this)) as [->|Hne]; [by rewrite !lookup_insert_eq|].
    rewrite !lookup_insert_ne by done. apply option_eq. intros l'.
    rewrite !restrict_lookup, (remove_kid_lookup s kids this c [] l p l' L Hk). pose proof (pr_dom _ _ _ Q p). naive_solver.
  - apply (pruned_trans s s2 s3 _ _ _ P2 Q); [intros x Hx; exists c; set_solver|]. intros x Hx. split.
    + intros (c' & Hc' & Hxc). exists c'. split; [set_solver|]. eapply rtc_subrel; [exact (pr_up _ _ _ P2)|done].
    + intros (c' & [->|Hc']%elem_of_cons & Hxc); [by apply (pr_dom _ _ _ P2) in Hx as [_ Hx]|]. exists c'. split; [done|].
      by apply (pruned_path s s2 kids c).
Qed.

Lemma Free_correct limbo s kids a n :
  linked s (<[a := []]> kids) -> owned limbo s -> nodes s !! a = Some n -> parent n = None -> a <> root -> a ∈ limbo ->
  exists s', Free a s = Ret s' /\ linked s' (delete a kids) /\ owned limbo s' /\ pruned s s' (fun x => x = a).
Proof.
  intros L O Hn Hp Hr Hlim. pose proof (owned_tag limbo s a O ltac:(by eexists) Hr) as Ht. pose proof O as [O1 O2 O3 O4 O5 O6 O7].
  assert (forall x m, nodes s !! x = Some m -> parent m <> Some a) as Hnk.
  { intros x m Hm Hpm. destruct (l_parent _ _ L _ _ _ Hm Hpm) as (l & Hl & Hin). rewrite lookup_insert_eq in Hl.
    injection Hl as <-. set_solver. }
  unfold Free. destruct a as [[|t] i]; [done|]. cbn [fst snd]. eexists. split; [done|].
  set (a := (S t, i)) in *. split; [|split].
  - destruct L as [L1 L2 L3 L4 L5]. split; cbn [nodes set_nodes set_pool].
    + intros x m Hm. apply lookup_delete_Some in Hm as [Hx Hm]. destruct (L1 x m Hm) as (l & Hl & Hfl).
      exists l. rewrite lookup_insert_ne in Hl by done. by rewrite lookup_delete_ne.
    + intros p l1 x l2 Hl. apply lookup_delete_Some in Hl as [Hpa Hl]. specialize (L2 p l1 x l2).
      rewrite lookup_insert_ne in L2 by done. destruct (L2 Hl) as (m & Hm & Hpm & Hrest). exists m.
      rewrite lookup_delete_ne; [done|]. intros <-. congruence.
    + intros x m p Hm Hpm. apply lookup_delete_Some in Hm as [Hx Hm]. destruct (L3 x m p Hm Hpm) as (l & Hl & Hin).
      exists l. split; [|done]. assert (p <> a) by (intros ->; by apply (Hnk x m)).
      rewrite lookup_insert_ne in Hl by done. by rewrite lookup_delete_ne.
    + intros x m Hm Hpm. apply lookup_delete_Some in Hm as [Hx Hm]. by apply (L4 x m).
    + intros p l Hl. apply lookup_delete_Some in Hl as [Hpa Hl]. rewrite lookup_delete_ne by done.
      apply (L5 p). by rewrite lookup_insert_ne.
  - split; cbn [nodes unlinked pools set_nodes set_pool]; try done.
    + intros x. rewrite O3. split.
      * intros ((m & Hm & Hpm) & Hx & Hxl). split; [|done]. exists m. rewrite lookup_delete_ne; [done|]. intros ->. done.
      * intros ((m & Hm & Hpm) & Hx & Hxl). apply lookup_delete_Some in Hm as [_ Hm]. split; [by exists m|done].
    + intros u Hu. destruct (O4 u Hu) as [W U]. destruct (Nat.eqb_spec u (S t)) as [->|Hne].
      * destruct (free_law i (pools s (S t)) W) as [F1 F2]; [apply U; by exists n|]. split; [done|].
        intros j. rewrite F1, elem_of_difference, elem_of_singleton, U. destruct (decide (j = i)) as [->|Hj].
        -- fold a. rewrite lookup_delete_eq. split; [naive_solver|by intros []].
        -- rewrite lookup_delete_ne by (unfold a; congruence). naive_solver.
      * split; [done|]. intros j. rewrite U, lookup_delete_ne by (unfold a; congruence). done.
    + intros x m Hm. apply lookup_delete_Some in Hm as [_ Hm]. by apply O5.
    + destruct O6 as (m & Hm & Hrest). exists m. by rewrite lookup_delete_ne.
    + intros x m Hm. apply lookup_delete_Some in Hm as [_ Hm]. by apply (O7 x m).
  - split; cbn [nodes set_nodes set_pool].
    + intros x. destruct (decide (x = a)) as [->|Hx].
      * rewrite lookup_delete_eq. split; [by intros []|by intros []].
      * rewrite lookup_delete_ne by done. naive_solver.
    + intros x Hx. rewrite lookup_delete_ne; [done|]. intros <-. rewrite lookup_delete_eq in Hx. by destruct Hx.
    + intros x y (m & Hm & Hpm). cbn in Hm. apply lookup_delete_Some in Hm as [_ Hm]. by exists m.
    + intros x y (m & Hm & Hpm) Hx. exists m. split; [|done]. cbn. rewrite lookup_delete_ne; [done|].
      intros <-. rewrite lookup_delete_eq in Hx. by destruct Hx.
Qed.

Lemma linked_nodes s s' kids : nodes s' = nodes s -> linked s kids -> linked s' kids.
Proof. intros E [L1 L2 L3 L4 L5]. split; rewrite E; done. Qed.
Lemma up_nodes s s' x y : nodes s' = nodes s -> up s' x y <-> up s x y.
Proof. intros E. unfold up. by rewrite E. Qed.

Lemma DeleteNode_correct rank fuel : deletes (DeleteNode fuel) rank fuel.
Proof.
  induction fuel as [|fuel IH]; intros a s kids limbo N L O R Hlt (n & Hn & Hp) Hr; [lia|]. cbn [DeleteNode].
  rewrite (deref_run _ _ _ Hn). cbn [mbind outcome_bind].
  assert (exists s1, match data n with PDocument => Ret s | _ => MarkInUse a s end = Ret s1 /\
    owned ({[a]} ∪ limbo) s1 /\ nodes s1 = nodes s) as (s1 & E1 & O1 & N1).
  { destruct (MarkInUse_correct limbo s a n O Hn Hp Hr) as (s1 & E1 & O1 & N1 & _). exists s1. split; [|done].
    destruct (data n) eqn:Ed; try done. pose proof (o_tag _ _ O a n Hn) as Et. rewrite Ed in Et.
    by destruct Hr; apply (o_only_root _ _ O a n). }
  rewrite E1. cbn [mbind outcome_bind]. clear E1.
  assert (forall x y, rtc (up s1) x y <-> rtc (up s) x y) as Hrtc.
  { intros x y. split; apply rtc_subrel; intros ? ?; by apply up_nodes. }
  pose proof (linked_nodes s s1 kids N1 L) as L1.
  destruct (kids_of_node s1 kids a L1) as [l Hl]; [rewrite N1; by exists n|].
  destruct (delete_children_correct (DeleteNode fuel) rank fuel a IH ltac:(lia) l (size (nodes s1)) s1 kids _ N L1 O1) as
    (s2 & E2 & L2 & O2 & [P1 P2 P3 P4]); [|done|by apply (kids_length s1 kids a)|].
  { apply (ranked_up rank N s); [|done]. intros x y. by apply up_nodes. }
  rewrite E2. cbn [mbind outcome_bind]. clear E2.
  assert (exists n2, nodes s2 !! a = Some n2 /\ parent n2 = None) as (n2 & Hn2 & Hp2).
  { assert (is_Some (nodes s2 !! a)) as [n2 Hn2].
    { apply P1. split; [rewrite N1; by exists n|]. intros (c & Hc & X). rewrite Hrtc in X.
      pose proof (rtc_rank rank N s _ _ R X). pose proof (proj2 R c a). assert (up s c a) as Hca by (by apply (kid_up s kids a l)).
      specialize (H2 Hca). lia. }
    exists n2. split; [done|]. destruct (parent n2) as [q|] eqn:Eq; [|done].
    assert (up s1 a q) as (m & Hm & Hpm) by (apply P3; by exists n2). rewrite N1 in Hm. congruence. }
  rewrite (deref_run _ _ _ Hn2). cbn [mbind outcome_bind]. rewrite Hp2. cbn [mbind outcome_bind].
  destruct (Free_correct _ s2 (restrict s2 kids) a n2 L2 O2 Hn2 Hp2 Hr ltac:(set_solver)) as (s3 & E3 & L3 & O3 & [Q1 Q2 Q3 Q4]).
  exists s3. split; [exact E3|]. split; [|split].
  - assert (restrict s3 kids = delete a (restrict s2 kids)) as ->; [|done]. apply map_eq. intros p. apply option_eq. intros l'.
    rewrite restrict_lookup, lookup_delete_Some, restrict_lookup, Q1. naive_solver.
  - revert O3. apply owned_limbo. intros x Hx. apply Q1 in Hx as [_ Hx]. set_solver.
  - split.
    + intros x. rewrite Q1, P1, N1. rewrite (below_cases s kids a l x L Hl). split.
      * intros [[Hx Hnb] Hxa]. split; [done|]. intros [|(c & Hc & X)]; [done|]. apply Hnb. exists c. by rewrite Hrtc.
      * intros [Hx Hnb]. split; [split; [done|]|].
        -- intros (c & Hc & X). apply Hnb. right. exists c. by rewrite <-Hrtc.
        -- intros ->. apply Hnb. by left.
    + intros x Hx. rewrite Q2 by done. apply Q1 in Hx as [Hx _]. rewrite P2, N1 by done. done.
    + intros x y Hxy. apply (up_nodes s s1); [done|]. by apply P3, Q3.
    + intros x y Hxy Hx. apply Q4; [|done]. apply Q1 in Hx as [Hx _]. apply P4; [|done]. by apply (up_nodes s s1).
Qed.

(** C21: deleting a child removes the child and everything below it, and nothing else:
    the other nodes keep what they are, their parents and, apart from the child,
    their lists, and their pointers form a tree again; the memory of the removed
    nodes goes back to the pools.  The recursion ends, at the depth of the tree. *)
Theorem DeleteChild_refines s kids this a l :
  valid s kids -> kids !! this = Some l -> a ∈ l ->
  exists depth, forall fuel, (depth <= fuel)%nat ->
    exists s', DeleteChild fuel this a s = Ret s' /\ valid s' (restrict s' (remove_kid a kids)) /\
      pruned s s' (fun x => rtc (up s) x a).
Proof.
  intros [L O (rank & N & R)] Hk Ha. exists (S N). intros fuel Hf.
  pose proof (kid_up s kids this l a L Hk Ha) as Hat.
  apply list_elem_of_split in Ha as (l1 & l2 & ->).
  assert (a <> root) as Hr.
  { intros ->. destruct (o_root _ _ O) as (n0 & Hn0 & Hp0 & _). destruct Hat as (n1 & Hn1 & Hp1). congruence. }
  destruct (Unlink_detaches ∅ s kids this a l1 l2 L O Hk Hr) as (s1 & E1 & [L1 O1 N1 D1 U1 B1]).
  unfold DeleteChild. rewrite E1. cbn [mbind outcome_bind].
  assert (rank a < fuel)%nat as Hra by (pose proof (proj1 R a); lia).
  destruct (DeleteNode_correct rank fuel a s1 _ _ N L1 O1 (ranked_up rank N s s1 U1 R) Hra N1 Hr) as (s2 & E2 & L2 & O2 & [P1 P2 P3 P4]).
  assert (forall x, rtc (up s1) x a <-> rtc (up s) x a) as Hrtc.
  { intros x. split; [apply rtc_subrel; exact U1|]. revert x. apply rtc_ind_l; [done|]. intros x y Hxy Hyz IHx.
    destruct (decide (x = a)) as [->|Hne]; [done|]. eapply rtc_l; [|by apply IHx]. by apply B1. }
  assert (forall x, is_Some (nodes s1 !! x) <-> is_Some (nodes s !! x)) as Hdom1.
  { intros x. specialize (D1 x). destruct (nodes s1 !! x), (nodes s !! x); try done; split; intros [? ?]; done. }
  assert (forall x, is_Some (nodes s2 !! x) -> x <> a) as Hna by (intros x Hx ->; apply P1 in Hx as [_ Hx]; by apply Hx).
  exists s2. split; [exact E2|]. split; [split; [done| |]|split].
  - revert O2. apply owned_limbo. intros x Hx. pose proof (Hna x Hx). set_solver.
  - exists rank, N. apply (ranked_up rank N s); [|done]. auto.
  - intros x. by rewrite P1, Hdom1, Hrtc.
  - intros x Hx. by rewrite P2, D1.
  - auto.
  - intros x y Hxy Hx. apply P4; [|done]. apply B1; [done|]. by apply Hna.
Qed.

(** ** Clearing a document *)

Lemma top_of rank N s : ranked rank N s -> forall x, is_Some (nodes s !! x) ->
  (forall y z, up s y z -> is_Some (nodes s !! z)) ->
  exists t, rtc (up s) x t /\ exists n, nodes s !! t = Some n /\ parent n = None.
Proof.
  intros [Hb Hr]. assert (forall k x, (N - rank x <= k)%nat -> is_Some (nodes s !! x) ->
    (forall y z, up s y z -> is_Some (nodes s !! z)) ->
    exists t, rtc (up s) x t /\ exists n, nodes s !! t = Some n /\ parent n = None) as Hgo.
  2: { intros x. by apply (Hgo (N - rank x)%nat). }
  induction k as [|k IH]; intros x Hk [n Hn] Hc.
  - exists x. split; [done|]. exists n. split; [done|]. destruct (parent n) as [p|] eqn:Hp; [|done].
    pose proof (Hr x p ltac:(by exists n)). pose proof (Hb p). lia.
  - destruct (parent n) as [p|] eqn:Hp; [|exists x; split; [done|by exists n]].
    assert (up s x p) as Hxp by (by exists n). pose proof (Hr x p Hxp). pose proof (Hb p).
    destruct (IH p ltac:(lia) (Hc _ _ Hxp) Hc) as (t & Ht & Hrest). exists t. split; [by eapply rtc_l|done].
Qed.

(** When the document has no children and nothing is unlinked it is alone. *)
Lemma only_root_left rank N s kids :
  linked s kids -> owned ∅ s -> ranked rank N s -> kids !! root = Some [] -> DynArray.contents (unlinked s) = [] ->
  forall x, is_Some (nodes s !! x) <-> x = root.
Proof.
  intros L O R Hk Hu x. split.
  2: { intros ->. destruct (o_root _ _ O) as (n & Hn & _). by exists n. }
  intros Hx. destruct (top_of rank N s R x Hx) as (t & Hxt & Ht).
  { intros y z Hyz. destruct (up_kid s kids y z L Hyz) as (l & Hl & _). by apply (l_dom s kids L z l). }
  assert (t = root) as ->.
  { destruct (decide (t = root)) as [|Hne]; [done|]. exfalso. apply (not_elem_of_nil t). rewrite <-Hu.
    apply (o_unlinked _ _ O). split; [done|]. split; [done|set_solver]. }
  apply rtc_inv_r in Hxt as [|(y & _ & Hy)]; [done|]. destruct (up_kid s kids y root L Hy) as (l & Hl & Hin).
  rewrite Hk in Hl. injection Hl as <-. by apply not_elem_of_nil in Hin.
Qed.

Lemma only_root_kids s kids : linked s kids -> kids !! root = Some [] -> (forall x, is_Some (nodes s !! x) <-> x = root) ->
  kids = {[root := []]}.
Proof.
  intros L Hk Ho. apply map_eq. intros x. destruct (decide (x = root)) as [->|Hne]; [by rewrite lookup_singleton_eq|].
  rewrite lookup_singleton_ne by done. destruct (kids !! x) as [l|] eqn:E; [|done].
  destruct (l_dom s kids L x l E) as [Hx _]. by apply Ho in Hx.
Qed.
Lemma clear_unlinked_correct rank N fuel : (N < fuel)%nat -> forall n s kids,
  linked s kids -> owned ∅ s -> ranked rank N s -> kids !! root = Some [] -> (size (nodes s) <= n)%nat ->
  exists s', clear_unlinked fuel n s = Ret s' /\ linked s' {[root := []]} /\ owned ∅ s' /\
    DynArray.contents (unlinked s') = [] /\ (forall x, is_Some (nodes s' !! x) <-> x = root).
Proof.
  intros Hf. induction n as [|n IH]; intros s kids L O R Hk Hn.
  - exfalso. destruct (o_root _ _ O) as (m & Hm & _).
    assert (nodes s = ∅) as E by (apply map_size_empty_iff; lia). rewrite E in Hm. done.
  - cbn [clear_unlinked]. destruct (DynArray.contents (unlinked s)) as [|a us] eqn:Eu.
    { pose proof (only_root_left rank N s kids L O R Hk Eu) as Ho. exists s. rewrite <-(only_root_kids s kids L Hk Ho). done. }
    assert (a ∈ DynArray.contents (unlinked s)) as Ha by (rewrite Eu; set_solver).
    apply (o_unlinked _ _ O) in Ha as ((m & Hm & Hpm) & Hr & _).
    unfold document_DeleteNode. rewrite (deref_run _ _ _ Hm). cbn [mbind outcome_bind]. rewrite Hpm.
    destruct a as [t i]. pose proof (owned_tag ∅ s (t, i) O ltac:(by exists m) Hr) as Ht. cbn [fst] in Ht.
    destruct (SetTracked_correct ∅ s t i O Ht) as (s1 & E1 & O1 & N1 & _). rewrite E1. cbn [mbind outcome_bind].
    assert (ranked rank N s1) as R1 by (apply (ranked_up rank N s); [|done]; intros x y; by apply up_nodes).
    destruct (DeleteNode_correct rank fuel (t, i) s1 kids ∅ N (linked_nodes s s1 kids N1 L) O1 R1) as (s2 & E2 & L2 & O2 & [P1 P2 P3 P4]);
      [pose proof (proj1 R (t, i)); lia|rewrite N1; by exists m|done|].
    rewrite E2. cbn [mbind outcome_bind].
    assert (is_Some (nodes s2 !! root)) as Hroot by (destruct (o_root _ _ O2) as (m2 & Hm2 & _); by exists m2).
    apply (IH s2 (restrict s2 kids)); [done|done|by apply (ranked_up rank N s1)|by apply restrict_lookup|].
    assert (size (nodes s2) < size (nodes s))%nat; [|lia].
    rewrite <-!size_dom. apply subset_size. split.
    + intros x. rewrite !elem_of_dom, P1, N1. by intros [].
    + intros X. assert ((t, i) ∈ dom (nodes s2)) as Hin by (apply X, elem_of_dom; by exists m).
      apply elem_of_dom, P1 in Hin as [_ Hin]. by apply Hin.
Qed.

Lemma Clear_ranked rank N fuel s kids :
  linked s kids -> owned ∅ s -> ranked rank N s -> (N < fuel)%nat ->
  exists s', Clear fuel s = Ret s' /\ valid s' {[root := []]} /\ (forall x, is_Some (nodes s' !! x) <-> x = root) /\
    DynArray.contents (unlinked s') = [].
Proof.
  intros L O R Hf. unfold Clear, DeleteChildren.
  destruct (o_root _ _ O) as (n & Hn & _). destruct (kids_of_node s kids root L) as [l Hl]; [by exists n|].
  destruct (delete_children_correct (DeleteNode fuel) rank fuel root (DeleteNode_correct rank fuel)
    ltac:(pose proof (proj1 R root); lia) l (size (nodes s)) s kids ∅ N L O R Hl) as (s1 & E1 & L1 & O1 & [P1 P2 P3 P4]);
    [by apply (kids_length s kids root)|].
  rewrite E1. cbn [mbind outcome_bind].
  destruct (clear_unlinked_correct rank N fuel ltac:(lia) (size (nodes s1)) s1 _ L1 O1) as (s2 & E2 & L2 & O2 & U2 & A2);
    [by apply (ranked_up rank N s)|by rewrite lookup_insert_eq|done|].
  exists s2. split; [done|]. split; [|done]. split; [done|done|]. exists (fun _ => 0%nat), 0%nat. split; [done|].
  intros x y Hxy. destruct (up_kid s2 _ x y L2 Hxy) as (l2 & [<- <-]%lookup_singleton_Some & Hin). by apply not_elem_of_nil in Hin.
Qed.
Lemma Clear_correct s kids :
  valid s kids ->
  exists depth, forall fuel, (depth <= fuel)%nat ->
    exists s', Clear fuel s = Ret s' /\ valid s' {[root := []]} /\ (forall x, is_Some (nodes s' !! x) <-> x = root) /\
      DynArray.contents (unlinked s') = [].
Proof.
  intros [L O (rank & N & R)]. exists (S N). intros fuel Hf. by apply (Clear_ranked rank N fuel s kids).
Qed.

(** No path is longer than there are nodes: the number of nodes is fuel enough for
    every recursion on the tree. *)
Lemma ranked_size s kids : valid s kids ->
  exists rank, ranked rank (size (nodes s)) s /\ forall a, is_Some (nodes s !! a) -> (rank a < size (nodes s))%nat.
Proof.
  intros [_ _ (rank & N & _ & Hr)].
  set (lower := fun a => filter (fun b => (rank b < rank a)%nat) (dom (nodes s)) : gset addr).
  assert (forall a, lower a ⊆ dom (nodes s)) as Hsub by (intros a; unfold lower; set_solver).
  exists (fun a => size (lower a)). split; [split|].
  - intros a. rewrite <-size_dom. by apply subseteq_size.
  - intros a b Hab. pose proof (Hr a b Hab) as Hlt. destruct Hab as (n & Hn & _). apply subset_size. split.
    + intros x. unfold lower. rewrite !elem_of_filter. intros [? ?]. split; [lia|done].
    + intros X. assert (a ∈ lower a) as Ha; [|unfold lower in Ha; apply elem_of_filter in Ha as [? _]; lia].
      apply X. unfold lower. apply elem_of_filter. split; [done|]. apply elem_of_dom. by exists n.
  - intros a Ha. rewrite <-size_dom. apply subset_size. split; [done|]. intros X. apply elem_of_dom in Ha. apply X in Ha.
    unfold lower in Ha. apply elem_of_filter in Ha as [? _]. lia.
Qed.

(** C11: [XMLDocument::Clear], which also is the destructor of a document, leaves
    nothing behind: in a document whose pointers form a tree that owns every node it
    ends, with no node but the document itself, nothing in [unlinked], and no item
    of any pool in use. *)
Theorem Clear_frees_everything s kids :
  valid s kids ->
  exists depth, forall fuel, (depth <= fuel)%nat ->
    exists s', Clear fuel s = Ret s' /\ (forall x, is_Some (nodes s' !! x) <-> x = root) /\
      DynArray.contents (unlinked s') = [] /\ forall t, t <> O -> pool_used (pools s' t) ≡ ∅.
Proof.
  intros V. destruct (Clear_correct s kids V) as (depth & Hd). exists depth. intros fuel Hf.
  destruct (Hd fuel Hf) as (s2 & E2 & [_ O2 _] & A2 & U2). exists s2. do 3 (split; [done|]).
  intros t Ht i. destruct (o_pools _ _ O2 t Ht) as [_ U].
  rewrite U, A2. split; [|by intros ?%not_elem_of_empty]. intros X. unfold root in X. by injection X as ->.
Qed.

(** ** Creating nodes *)

(** A new node, which nothing points to. *)
Lemma new_linked s s' kids a d :
  linked s kids -> nodes s !! a = None -> nodes s' = <[a := new_node d]> (nodes s) -> linked s' (<[a := []]> kids).
Proof.
  intros L Ha E. assert (forall x l, kids !! x = Some l -> x <> a /\ a ∉ l) as Hka.
  { intros x l Hl. split; [intros E'; destruct (l_dom s kids L _ _ Hl) as [[n' Hn'] _]; by rewrite E', Ha in Hn'|].
    intros X. destruct (kid_parent s kids x l a L Hl X) as (n & Hn & _). by rewrite Ha in Hn. }
  destruct L as [L1 L2 L3 L4 L5]. split; rewrite E.
  - intros x n Hn. apply lookup_insert_Some in Hn as [[<- <-]|[Hne Hn]].
    + exists []. by rewrite lookup_insert_eq.
    + rewrite lookup_insert_ne by done. by apply L1.
  - intros q l1 x l2 Hl. apply lookup_insert_Some in Hl as [[<- Hl]|[Hne Hl]]; [by destruct l1|].
    destruct (L2 q l1 x l2 Hl) as (n & Hn & Hrest). exists n. rewrite lookup_insert_ne; [done|]. intros <-. congruence.
  - intros x n q Hn Hp. apply lookup_insert_Some in Hn as [[<- <-]|[Hne Hn]]; [done|].
    destruct (L3 x n q Hn Hp) as (l & Hl & Hin). exists l. rewrite lookup_insert_ne; [done|]. intros <-.
    by destruct (Hka _ _ Hl).
  - intros x n Hn Hp. apply lookup_insert_Some in Hn as [[<- <-]|[Hne Hn]]; [done|]. by apply (L4 x).
  - intros q l Hl. apply lookup_insert_Some in Hl as [[<- <-]|[Hne Hl]].
    + split; [by rewrite lookup_insert_eq|constructor].
    + rewrite lookup_insert_ne by done. by apply (L5 q).
Qed.
Lemma new_owned s s' i d p u :
  let a : addr := (pool_of d, i) in
  owned ∅ s -> pool_of d <> O -> nodes s !! a = None -> pool_wf p -> pool_used p = {[i]} ∪ pool_used (pools s (pool_of d)) ->
  DynArray.wf 10 u -> DynArray.contents u = DynArray.contents (unlinked s) ++ [a] ->
  s' = set_unlinked u (set_nodes (<[a := new_node d]> (nodes s)) (set_pool (pool_of d) p s)) -> owned ∅ s'.
Proof.
  intros a [O1 O2 O3 O4 O5 O6 O7] Hd Ha Wp Hu Wu Cu ->. assert (a <> root) as Har by (unfold a, root; congruence).
  split; cbn [nodes unlinked pools set_unlinked set_nodes set_pool].
  - done.
  - rewrite Cu. apply NoDup_app. split; [done|]. split; [|apply NoDup_singleton]. intros x Hx ->%list_elem_of_singleton.
    apply O3 in Hx as ((n & Hn & _) & _). congruence.
  - intros x. rewrite Cu, elem_of_app, list_elem_of_singleton, O3. split.
    + intros [((n & Hn & Hp) & Hr & Hl)| ->].
      * split; [|done]. exists n. rewrite lookup_insert_ne; [done|]. intros <-. congruence.
      * split; [|set_solver]. exists (new_node d). by rewrite lookup_insert_eq.
    + intros ((n & Hn & Hp) & Hr & Hl). apply lookup_insert_Some in Hn as [[<- <-]|[Hne Hn]]; [by right|].
      left. split; [by exists n|done].
  - intros t Ht. destruct (Nat.eqb_spec t (pool_of d)) as [->|Hne].
    + split; [done|]. intros j. rewrite Hu, elem_of_union, elem_of_singleton, (proj2 (O4 _ Hd) j). destruct (decide (j = i)) as [->|Hj].
      * fold a. rewrite lookup_insert_eq. split; [done|by left].
      * rewrite lookup_insert_ne by (unfold a; congruence). naive_solver.
    + destruct (O4 t Ht) as [Wt Ut]. split; [done|]. intros j. rewrite Ut, lookup_insert_ne by (unfold a; congruence). done.
  - intros x n Hn. apply lookup_insert_Some in Hn as [[<- <-]|[Hne Hn]]; [done|]. by apply O5.
  - destruct O6 as (n & Hn & Hrest). exists n. by rewrite lookup_insert_ne.
  - intros x n Hn Hx. apply lookup_insert_Some in Hn as [[<- <-]|[Hne Hn]]; [by destruct Hd|]. by apply (O7 x n).
Qed.

Lemma CreateUnlinkedNode_correct s kids d :
  valid s kids -> pool_of d <> O -> Z.of_nat (size (nodes s) + 1) * 2 <= DynArray.INT_MAX ->
  exists a s', CreateUnlinkedNode d s = Ret (a, s') /\ nodes s !! a = None /\ a <> root /\
    nodes s' = <[a := new_node d]> (nodes s) /\ valid s' (<[a := []]> kids).
Proof.
  intros V Hd Hmax. pose proof V as [L O (rank & N & R)]. pose proof O as [O1 O2 O3 O4 _ _ _].
  assert (length (DynArray.contents (unlinked s)) <= size (nodes s))%nat as Hlen.
  { rewrite <-(size_list_to_set (C := gset addr) _ O2), <-size_dom. apply subseteq_size. intros x Hx%elem_of_list_to_set.
    apply O3 in Hx as ((n & Hn & _) & _). apply elem_of_dom. by exists n. }
  rewrite (DynArray.length_contents 10 _ O1) in Hlen.
  destruct (O4 _ Hd) as [W U]. destruct (alloc_law (pools s (pool_of d)) W) as (i & p & E & Hi & Hu & Wp).
  set (a := ((pool_of d, i) : addr)). assert (nodes s !! a = None) as Ha.
  { apply eq_None_not_Some. intros X. by apply Hi, U. }
  unfold CreateUnlinkedNode. rewrite E. cbn [mbind outcome_bind]. fold a.
  destruct (DynArray.Push_correct 10 root a (unlinked s) O1) as (u & Eu & Wu & Cu); [lia|].
  cbn [unlinked set_nodes set_pool]. rewrite Eu. cbn [mbind outcome_bind]. eexists a, _. split; [done|].
  split; [done|]. split; [unfold a, root; congruence|]. split; [done|]. split.
  - by apply (new_linked s _ kids a d).
  - by apply (new_owned s _ i d p u).
  - exists rank, N. apply (ranked_up rank N s); [|done]. intros x y (n & Hn & Hp). cbn in Hn.
    apply lookup_insert_Some in Hn as [[<- <-]|[Hne Hn]]; [done|]. by exists n.
Qed.

(** ** Copies *)

(** [XMLElement::SetAttribute] on the attributes of a copy. *)
Fixpoint set_attr (l : list (bytes * bytes)) (name value : bytes) : list (bytes * bytes) :=
  match l with
  | [] => [(name, value)]
  | (n, v) :: l => if bool_decide (n = name) then (n, value) :: l else (n, v) :: set_attr l name value
  end.
(** The [ShallowClone]s: what the copy is; the document has none. *)
Definition clone_payload (d : payload) : option payload :=
  match d with
  | PDocument => None
  | PElement name attributes => Some (PElement name (fold_left (fun l a => set_attr l (fst a) (snd a)) attributes []))
  | d => Some d
  end.
Definition ShallowClone (a : addr) (s : XMLDocument) : outcome (option addr * XMLDocument) :=
  n ← deref a s;
  match clone_payload (data n) with
  | None => Ret (None, s)
  | Some d => x ← CreateUnlinkedNode d s; Ret (Some (fst x), snd x)
  end.
(** [XMLNode::DeepClone] into the same document; [n] bounds the loop. *)
Fixpoint clone_children (DeepClone : addr -> XMLDocument -> outcome (option addr * XMLDocument)) (n : nat)
    (clone : addr) (child : option addr) (s : XMLDocument) : outcome XMLDocument :=
  match child, n with
  | None, _ => Ret s
  | Some _, O => Undef
  | Some c, S n =>
      x ← DeepClone c s;
      s ← match fst x with Some b => InsertEndChild clone b (snd x) | None => Undef end;
      m ← deref c s;
      clone_children DeepClone n clone (next m) s
  end.
Fixpoint DeepClone (fuel : nat) (a : addr) (s : XMLDocument) : outcome (option addr * XMLDocument) :=
  match fuel with
  | O => Undef
  | S fuel =>
      x ← ShallowClone a s;
      match fst x with
      | None => Ret (None, snd x)
      | Some clone =>
          m ← deref a (snd x);
          s ← clone_children (DeepClone fuel) (size (nodes (snd x))) clone (firstChild m) (snd x);
          Ret (Some clone, s)
      end
  end.
(** [ShallowEqual]: of elements the names and, in order, the values of the
    attributes. *)
Definition ShallowEqual (d compare : payload) : bool :=
  match d, compare with
  | PElement n l, PElement n' l' => bool_decide (n' = n) && bool_decide (map snd l = map snd l')
  | PText v _, PText v' _ => bool_decide (v' = v)
  | PComment v, PComment v' | PDeclaration v, PDeclaration v' | PUnknown v, PUnknown v' => bool_decide (v' = v)
  | _, _ => false
  end.

(** The tree under a node. *)
Inductive tree := Tree (d : payload) (children : list tree).
Fixpoint tree_size (t : tree) : nat := match t with Tree _ ts => S (list_sum (map tree_size ts)) end.
(** Payloads that a copy can have: an element has no attribute twice. *)
Definition plain (d : payload) : Prop :=
  match d with PDocument => False | PElement _ attributes => NoDup (map fst attributes) | _ => True end.
Fixpoint shape (h : nat) (s : XMLDocument) (kids : forest) (a : addr) (t : tree) : Prop :=
  match h, t with
  | O, _ => False
  | S h, Tree d ts =>
      plain d /\ data <$> nodes s !! a = Some d /\ exists l, kids !! a = Some l /\ Forall2 (shape h s kids) l ts
  end.

Lemma set_attr_new l name value : name ∉ map fst l -> set_attr l name value = l ++ [(name, value)].
Proof.
  induction l as [|[n v] l IH]; intros Hn; cbn in *; [done|]. rewrite bool_decide_false by set_solver. f_equal. apply IH. set_solver.
Qed.
Lemma clone_attributes l : forall acc, NoDup (map fst (acc ++ l)) ->
  fold_left (fun l a => set_attr l (fst a) (snd a)) l acc = acc ++ l.
Proof.
  induction l as [|[n v] l IH]; intros acc ND; cbn [fold_left fst snd]; [by rewrite app_nil_r|].
  rewrite set_attr_new.
  - rewrite IH by (by rewrite <-app_assoc). by rewrite <-app_assoc.
  - rewrite map_app in ND. apply NoDup_app in ND as (_ & Hd & _). intros X. apply (Hd n X). cbn. set_solver.
Qed.
Lemma clone_payload_plain d : plain d -> clone_payload d = Some d.
Proof. destruct d; cbn; try done. intros ND. by rewrite clone_attributes. Qed.
Lemma plain_pool d : plain d -> pool_of d <> O.
Proof. by destruct d. Qed.

(** [s'] has more nodes than [s]; those of [s] are the same, in the same places. *)
Record extends (s : XMLDocument) (kids : forest) (s' : XMLDocument) (kids' : forest) : Prop := {
  e_data : forall x, is_Some (nodes s !! x) -> data <$> nodes s' !! x = data <$> nodes s !! x;
  e_kids : forall x, is_Some (nodes s !! x) -> kids' !! x = kids !! x;
  e_up : forall x y, is_Some (nodes s !! x) -> up s' x y -> up s x y }.
Lemma extends_is_some s kids s' kids' x : extends s kids s' kids' -> is_Some (nodes s !! x) -> is_Some (nodes s' !! x).
Proof. intros [E _ _] Hx. pose proof (E x Hx) as Ex. destruct Hx as [n Hn]. rewrite Hn in Ex. destruct (nodes s' !! x); [by eexists|done]. Qed.
Lemma extends_trans s1 k1 s2 k2 s3 k3 : extends s1 k1 s2 k2 -> extends s2 k2 s3 k3 -> extends s1 k1 s3 k3.
Proof.
  intros E1 E2. pose proof (fun x => extends_is_some _ _ _ _ x E1) as Hs. destruct E1 as [A1 B1 C1], E2 as [A2 B2 C2]. split.
  - intros x Hx. rewrite A2, A1 by auto. done.
  - intros x Hx. rewrite B2, B1 by auto. done.
  - intros x y Hx Hxy. apply C1; [done|]. apply C2; auto.
Qed.
Lemma extends_refl s kids : extends s kids s kids.
Proof. by split. Qed.

Lemma created_extends s kids s' b d : nodes s !! b = None -> nodes s' = <[b := new_node d]> (nodes s) ->
  extends s kids s' (<[b := []]> kids).
Proof.
  intros Hb N. assert (forall x, is_Some (nodes s !! x) -> b <> x) as Hxb by (intros x [? Hx] ->; congruence). split.
  - intros x Hx. by rewrite N, lookup_insert_ne by auto.
  - intros x Hx. by rewrite lookup_insert_ne by auto.
  - intros x y Hx (m & Hm & Hpm). rewrite N, lookup_insert_ne in Hm by auto. by exists m.
Qed.

Lemma shape_extends h : forall s kids s' kids' a t,
  linked s kids -> extends s kids s' kids' -> shape h s kids a t -> shape h s' kids' a t.
Proof.
  induction h as [|h IH]; intros s kids s' kids' a [d ts] L E; [done|]. cbn [shape]. intros (Hp & Hd & l & Hl & Hts).
  assert (is_Some (nodes s !! a)) as Ha by (by apply (l_dom s kids L a l)).
  split; [done|]. split; [by rewrite (e_data _ _ _ _ E)|]. exists l. split; [by rewrite (e_kids _ _ _ _ E)|].
  eapply Forall2_impl; [exact Hts|]. intros c t. by apply IH.
Qed.

Lemma tree_size_pos t : (0 < tree_size t)%nat.
Proof. destruct t. cbn. lia. Qed.

Lemma same_data_size s s' : same_data s s' -> size (nodes s') = size (nodes s).
Proof.
  intros D. rewrite <-!size_dom. f_equal. apply set_eq. intros x. rewrite !elem_of_dom. specialize (D x).
  destruct (nodes s' !! x), (nodes s !! x); try done; split; intros [? ?]; done.
Qed.

(** Putting a fresh root under a node without a parent. *)
Lemma insert_fresh s kids b c l :
  valid s kids -> kids !! b = Some l -> is_Some (nodes s !! c) -> c <> root -> c <> b ->
  (forall y, ~ up s b y) -> (forall y, ~ up s c y) ->
  exists s', InsertEndChild b c s = Ret s' /\ valid s' (<[b := l ++ [c]]> kids) /\ same_data s s' /\
    (forall x y, up s' x y -> x = c \/ up s x y).
Proof.
  intros V Hl Hc Hr Hne Hb Hcu. pose proof V as [L O (rank & N & R)]. destruct (l_dom s kids L _ _ Hl) as [Hbs _].
  destruct Hc as [nc Hnc]. assert (parent nc = None) as Hpc.
  { destruct (parent nc) as [p|] eqn:Ep; [|done]. exfalso. apply (Hcu p). by exists nc. }
  assert (~ rtc (up s) b c) as Hna.
  { intros X. apply rtc_inv in X as [->|(y & Hy & _)]; [done|by apply (Hb y)]. }
  destruct (InsertEndChild_correct s kids b c V Hbs ltac:(by exists nc) Hr Hna) as (s' & E & V' & D). exists s'.
  split; [done|]. pose proof (remove_kid_absent s kids c nc L Hnc Hpc) as Hrm.
  rewrite (at_end_insert kids b c l) in V' by (by rewrite Hrm). rewrite Hrm in V'. split; [done|]. split; [done|].
  intros x y Hxy. destruct (decide (x = c)) as [->|Hx]; [by left|]. right.
  destruct (up_kid s' _ x y (v_linked _ _ V') Hxy) as (l' & Hl' & Hin). apply lookup_insert_Some in Hl' as [[<- <-]|[Hyb Hl']].
  - apply (kid_up s kids b l); [done|done|]. set_solver.
  - by apply (kid_up s kids y l').
Qed.

Definition clones (clone : addr -> XMLDocument -> outcome (option addr * XMLDocument)) (h : nat) : Prop :=
  forall s kids a t, valid s kids -> shape h s kids a t -> Z.of_nat (size (nodes s) + tree_size t) * 2 <= DynArray.INT_MAX ->
    exists b s' kids', clone a s = Ret (Some b, s') /\ valid s' kids' /\ extends s kids s' kids' /\ shape h s' kids' b t /\
      nodes s !! b = None /\ b <> root /\ (forall y, ~ up s' b y) /\ size (nodes s') = (size (nodes s) + tree_size t)%nat.

(** A tree that does not contain [b], whose list changes. *)
Lemma shape_except h b s kids s' kids' : linked s kids -> same_data s s' ->
  (forall x, x <> b -> kids' !! x = kids !! x) -> (forall y, ~ up s b y) ->
  forall c t, c <> b -> shape h s kids c t -> shape h s' kids' c t.
Proof.
  intros L D Hk Hb. induction h as [|h IH]; intros c [d ts] Hc; [done|]. cbn [shape]. intros (Hp & Hd & l & Hl & Hts).
  split; [done|]. split; [by rewrite (D c)|]. exists l. split; [by rewrite Hk|].
  assert (Forall (fun x => x <> b) l) as Hlb.
  { apply Forall_forall. intros x Hx ->. apply (Hb c). by apply (kid_up s kids c l). }
  clear Hl. revert Hlb. induction Hts as [|x t l ts Hx _ IHl]; intros Hlb; [constructor|].
  apply Forall_cons in Hlb as [Hxb Hlb]. constructor; auto.
Qed.
Lemma Forall2_shape_except h b s kids s' kids' l ts : linked s kids -> same_data s s' ->
  (forall x, x <> b -> kids' !! x = kids !! x) -> (forall y, ~ up s b y) -> b ∉ l ->
  Forall2 (shape h s kids) l ts -> Forall2 (shape h s' kids') l ts.
Proof.
  intros L D Hk Hb Hl Hts. induction Hts as [|x t l ts Hx _ IHl]; [constructor|]. constructor; [|apply IHl; set_solver].
  apply (shape_except h b s kids); [done..|set_solver|done].
Qed.
Lemma Forall2_shape_extends h s kids s' kids' l ts : linked s kids -> extends s kids s' kids' ->
  Forall2 (shape h s kids) l ts -> Forall2 (shape h s' kids') l ts.
Proof. intros L X Hts. eapply Forall2_impl; [exact Hts|]. intros x t. by apply shape_extends. Qed.
Lemma shape_live h s kids x t : shape h s kids x t -> is_Some (nodes s !! x).
Proof. destruct h, t; [done|]. intros (_ & Hd & _). destruct (nodes s !! x); [by eexists|done]. Qed.
Lemma kid_not_orphan s kids p l b : linked s kids -> kids !! p = Some l -> (forall y, ~ up s b y) -> b ∉ l.
Proof. intros L Hl Hb X. apply (Hb p). by apply (kid_up s kids p l). Qed.

Lemma clone_children_correct clone h : clones clone h ->
  forall l2 n s kids a l1 b done ts ts0,
    valid s kids -> kids !! a = Some (l1 ++ l2) -> a <> b -> kids !! b = Some done -> Forall2 (shape h s kids) l2 ts ->
    Forall2 (shape h s kids) done ts0 -> (forall y, ~ up s b y) -> (length l2 <= n)%nat ->
    Z.of_nat (size (nodes s) + list_sum (map tree_size ts)) * 2 <= DynArray.INT_MAX ->
    exists s' kids' cs, clone_children clone n b (head l2) s = Ret s' /\ valid s' kids' /\
      (forall x, is_Some (nodes s !! x) -> data <$> nodes s' !! x = data <$> nodes s !! x /\ (x <> b -> kids' !! x = kids !! x)) /\
      (forall x y, is_Some (nodes s !! x) -> up s' x y -> up s x y) /\
      kids' !! b = Some (done ++ cs) /\ Forall2 (shape h s' kids') (done ++ cs) (ts0 ++ ts) /\
      size (nodes s') = (size (nodes s) + list_sum (map tree_size ts))%nat.
Proof.
  intros Hclone. induction l2 as [|c l2 IH]; intros n s kids a l1 b done ts ts0 V Hka Hab Hkb Hts Hts0 Hb Hn Hmax.
  { apply Forall2_nil_inv_l in Hts as ->. exists s, kids, []. rewrite !app_nil_r. cbn. destruct n; (split; [done|]);
      (split; [done|]); (split; [done|]); (split; [done|]); (split; [done|]); (split; [done|]); lia. }
  destruct n as [|n]; [cbn in Hn; lia|]. apply Forall2_cons_inv_l in Hts as (t & ts' & Ht & Hts & ->). rename ts' into ts.
  pose proof (v_linked _ _ V) as L. pose proof (tree_size_pos t) as Hpos. cbn [map list_sum fold_right] in Hmax |- *.
  fold (list_sum (map tree_size ts)) in Hmax |- *.
  destruct (Hclone s kids c t V Ht ltac:(lia)) as (cb & s2 & kids2 & E2 & V2 & X2 & Hcb & Hfresh & Hcr & Hcu & Hsz2).
  pose proof (v_linked _ _ V2) as L2.
  destruct (l_dom s kids L _ _ Hkb) as [Hbs _]. destruct (l_dom s kids L _ _ Hka) as [Has _].
  assert (kids2 !! b = Some done) as Hkb2 by (by rewrite (e_kids _ _ _ _ X2)).
  assert (forall y, ~ up s2 b y) as Hb2 by (intros y Hy; apply (Hb y); by apply (e_up _ _ _ _ X2)).
  assert (cb <> b) as Hcbb by (intros ->; destruct Hbs as [? Hbs]; congruence).
  pose proof (shape_live _ _ _ _ _ Hcb) as Hcbs.
  destruct (insert_fresh s2 kids2 b cb done V2 Hkb2 Hcbs Hcr Hcbb Hb2 Hcu) as (s3 & E3 & V3 & D3 & U3).
  pose proof (v_linked _ _ V3) as L3. set (kids3 := <[b := done ++ [cb]]> kids2) in *.
  assert (forall x, x <> b -> kids3 !! x = kids2 !! x) as Hk3 by (intros x Hx; by apply lookup_insert_ne).
  assert (kids3 !! a = Some (l1 ++ c :: l2)) as Hka3 by (by rewrite Hk3, (e_kids _ _ _ _ X2)).
  assert (forall y, ~ up s3 b y) as Hb3 by (intros y Hy; destruct (U3 _ _ Hy) as [|Hy2]; [done|by apply (Hb2 y)]).
  destruct (l_kid s3 kids3 L3 _ _ _ _ Hka3) as (nc & Hnc & _ & _ & Hnext).
  cbn [clone_children head]. rewrite E2. cbn [mbind outcome_bind fst snd]. rewrite E3. cbn [mbind outcome_bind].
  rewrite (deref_run _ _ _ Hnc). cbn [mbind outcome_bind]. rewrite Hnext.
  pose proof (Forall2_shape_extends _ _ _ _ _ _ _ L X2 Hts) as Hts2.
  pose proof (Forall2_shape_extends _ _ _ _ _ _ _ L X2 Hts0) as Hts02.
  assert (b ∉ l1 ++ c :: l2) as Hbl by (apply (kid_not_orphan s3 kids3 a _ b L3 Hka3 Hb3)).
  assert (b ∉ done) as Hbd by (apply (kid_not_orphan s2 kids2 b _ b L2 Hkb2 Hb2)).
  assert (Forall2 (shape h s3 kids3) l2 ts) as Hts3 by (apply (Forall2_shape_except h b s2 kids2); [done..|set_solver|done]).
  assert (Forall2 (shape h s3 kids3) (done ++ [cb]) (ts0 ++ [t])) as Hts03.
  { apply Forall2_app; [by apply (Forall2_shape_except h b s2 kids2)|]. constructor; [|constructor].
    by apply (shape_except h b s2 kids2). }
  pose proof (same_data_size _ _ D3) as Hsz3.
  destruct (IH n s3 kids3 a (l1 ++ [c]) b (done ++ [cb]) ts (ts0 ++ [t]) V3) as (s4 & kids4 & cs & E4 & V4 & P4 & U4 & Hkb4 & Hs4 & Hsz4);
    [by rewrite <-app_assoc|done|by apply lookup_insert_eq|done|done|done|cbn in Hn; lia|lia|].
  exists s4, kids4, (cb :: cs). rewrite <-!app_assoc in *. cbn [app] in *.
  assert (forall x, is_Some (nodes s !! x) -> is_Some (nodes s3 !! x)) as Hsub.
  { intros x Hx. apply (same_data_is_some s2 s3 x D3). by apply (extends_is_some s kids s2 kids2). }
  split; [done|]. split; [done|]. split; [|split; [|split; [done|split; [done|lia]]]].
  - intros x Hx. destruct (P4 x (Hsub x Hx)) as [Q1 Q2]. rewrite Q1, (D3 x), (e_data _ _ _ _ X2) by done. split; [done|].
    intros Hxb. by rewrite Q2, Hk3, (e_kids _ _ _ _ X2).
  - intros x y Hx Hxy. apply (e_up _ _ _ _ X2); [done|]. destruct (U3 x y) as [->|]; [by apply U4; [by apply Hsub|]| |done].
    destruct Hx as [? Hx]. congruence.
Qed.

Lemma DeepClone_correct h : clones (DeepClone h) h.
Proof.
  induction h as [|h IH]; intros s kids a [d ts] V; [done|]. cbn [shape]. intros (Hp & Hd & l & Hl & Hts) Hmax.
  cbn [tree_size] in Hmax |- *. pose proof (v_linked _ _ V) as L.
  destruct (nodes s !! a) as [n|] eqn:Hn; [|done]. injection Hd as Hd.
  cbn [DeepClone]. unfold ShallowClone. rewrite (deref_run _ _ _ Hn). cbn [mbind outcome_bind]. rewrite Hd, clone_payload_plain by done.
  destruct (CreateUnlinkedNode_correct s kids d V (plain_pool d Hp)) as (b & s1 & E1 & Hb & Hbr & N1 & V1); [lia|].
  rewrite E1. cbn [mbind outcome_bind fst snd].
  assert (a <> b) as Hab by congruence. set (kids1 := <[b := []]> kids) in *. pose proof (v_linked _ _ V1) as L1.
  assert (nodes s1 !! a = Some n) as Hn1 by (by rewrite N1, lookup_insert_ne).
  rewrite (deref_run _ _ _ Hn1). cbn [mbind outcome_bind].
  assert (kids1 !! a = Some l) as Hl1 by (unfold kids1; by rewrite lookup_insert_ne).
  destruct (l_node s1 kids1 L1 a n Hn1) as (l' & Hl' & Hf & _). rewrite Hl1 in Hl'. injection Hl' as <-. rewrite Hf.
  assert (forall y, ~ up s1 b y) as Hbu by (intros y (m & Hm & Hpm); rewrite N1, lookup_insert_eq in Hm; by injection Hm as <-).
  assert (extends s kids s1 kids1) as X1 by (by apply (created_extends s kids s1 b d)).
  assert (size (nodes s1) = S (size (nodes s))) as Hsz1 by (rewrite N1; by apply map_size_insert_None).
  destruct (clone_children_correct (DeepClone h) h IH l (size (nodes s1)) s1 kids1 a [] b [] ts [] V1 Hl1 Hab) as
    (s2 & kids2 & cs & E2 & V2 & P2 & U2 & Hkb2 & Hs2 & Hsz2);
    [apply lookup_insert_eq|eapply Forall2_impl; [exact Hts|]; intros x t; by apply shape_extends|constructor|done
    |by apply (kids_length s1 kids1 a)|rewrite Hsz1; lia|].
  rewrite E2. cbn [mbind outcome_bind app] in *. exists b, s2, kids2. split; [done|]. split; [done|].
  assert (is_Some (nodes s1 !! b)) as Hb1 by (rewrite N1, lookup_insert_eq; by eexists).
  split; [|split; [|split; [done|split; [done|split; [|lia]]]]].
  - pose proof (fun x => extends_is_some s kids s1 kids1 x X1) as Hsub. destruct X1 as [A1 B1 C1]. split.
    + intros x Hx. destruct (P2 x (Hsub x Hx)) as [-> _]. by apply A1.
    + intros x Hx. destruct (P2 x (Hsub x Hx)) as [_ ->]; [by apply B1|]. intros ->. destruct Hx as [? Hx]. congruence.
    + intros x y Hx Hxy. apply C1; [done|]. apply U2; [by apply Hsub|done].
  - split; [done|]. destruct (P2 b Hb1) as [-> _]. rewrite N1, lookup_insert_eq. split; [done|]. by exists cs.
  - intros y Hy. apply (Hbu y). by apply U2.
Qed.

(** [DeepClone] makes a faithful copy: from a tree in a document it builds, from
    new nodes only, a tree of the same nodes, texts and attributes in the same
    order, without a parent and registered in [unlinked]; what the document had
    before stays as it was, and its pointers still form a tree.  [h] is the height
    of the tree, which the recursion needs as fuel. *)
Theorem DeepClone_faithful h s kids a t :
  valid s kids -> shape h s kids a t -> Z.of_nat (size (nodes s) + tree_size t) * 2 <= DynArray.INT_MAX ->
  exists b s' kids', DeepClone h a s = Ret (Some b, s') /\ valid s' kids' /\ shape h s' kids' b t /\
    nodes s !! b = None /\ (forall y, ~ up s' b y) /\ extends s kids s' kids' /\ shape h s' kids' a t.
Proof.
  intros V Ht Hmax. destruct (DeepClone_correct h s kids a t V Ht Hmax) as (b & s' & kids' & E & V' & X & Hb & Hf & _ & Hu & _).
  exists b, s', kids'. pose proof (shape_extends h s kids s' kids' a t (v_linked _ _ V) X Ht). done.
Qed.

(** [ShallowEqual] does not compare the names of the attributes. *)
Theorem ShallowEqual_ignores_names name n1 n2 v :
  ShallowEqual (PElement name [(n1, v)]) (PElement name [(n2, v)]) = true.
Proof. cbn. by rewrite !bool_decide_true. Qed.

(** ** A new document *)

Definition new_document (p : P) : XMLDocument :=
  mk_document {[root := new_node PDocument]} (DynArray.new 10 root) (fun _ => p).
Lemma new_document_valid p : pool_wf p -> pool_used p ≡ ∅ -> valid (new_document p) {[root := []]}.
Proof.
  intros Hw Hu. destruct (DynArray.new_array_wf 10 root) as [Wa Ca].
  assert (forall x n, nodes (new_document p) !! x = Some n -> x = root /\ n = new_node PDocument) as Hn
    by (intros x n E; cbn in E; by apply lookup_singleton_Some in E as [<- <-]).
  split.
  - split.
    + intros a n E. apply Hn in E as [-> ->]. exists []. by rewrite lookup_singleton_eq.
    + intros q l1 a l2 E. apply lookup_singleton_Some in E as [_ E]. by destruct l1.
    + intros a n q E. by apply Hn in E as [-> ->].
    + intros a n E. by apply Hn in E as [-> ->].
    + intros q l E. apply lookup_singleton_Some in E as [<- <-]. split; [eexists; reflexivity|constructor].
  - split; cbn [unlinked pools new_document]; try done.
    + rewrite Ca. constructor.
    + intros a. rewrite Ca. split; [by intros ?%not_elem_of_nil|]. intros ((n & E & _) & Hr & _). by apply Hn in E as [-> _].
    + intros t Ht. split; [done|]. intros i. rewrite Hu. split; [by intros ?%not_elem_of_empty|]. intros [n E].
      apply Hn in E as [E _]. unfold root in E. by injection E as ->.
    + intros a n E. by apply Hn in E as [-> ->].
    + exists (new_node PDocument). split; [reflexivity|done].
    + intros a n E _. by apply Hn in E as [-> _].
  - exists (fun _ => O), O. split; [lia|]. intros a b (n & E & Hp). by apply Hn in E as [-> ->].
Qed.

End document.
End Dom.

(** ** Concrete runs *)
Section witnesses.
Import Dom.

Lemma not_above_root {P} `{PoolLaws P} (s : XMLDocument (P := P)) kids a : valid s kids -> a <> root -> ~ rtc (up s) root a.
Proof.
  intros V Ha X. apply rtc_inv in X as [<-|(y & (n & Hn & Hp) & _)]; [done|].
  destruct (o_root _ _ (v_owned _ _ V)) as (m & Hm & Hpm & _). congruence.
Qed.

(** A document with two items per block, and three children. *)
Definition xml := XMLDocument (P := mempool 1).
Definition doc0 : xml := new_document (mk_mempool MemPool.new).
Definition node_b : addr := (1, 1)%nat.
Definition node_a : addr := (1, 0)%nat.
Definition node_t : addr := (2, 0)%nat.
Definition get_doc (x : outcome xml) : xml := match x with Ret s => s | _ => doc0 end.
Definition create (d : payload) (s : xml) : xml := match CreateUnlinkedNode d s with Ret (_, s) => s | _ => doc0 end.
Definition elem_a : payload := PElement (bs "a") [(bs "k", bs "v")].
Definition elem_b : payload := PElement (bs "b") [].
Definition text_t : payload := PText (bs "text") false.
Definition doc3 : xml := create text_t (create elem_b (create elem_a doc0)).
Definition kids3 : gmap addr (list addr) := <[node_t := []]> (<[node_b := []]> (<[node_a := []]> {[root := []]})).
Definition doc6 : xml :=
  get_doc (InsertEndChild root node_t (get_doc (InsertEndChild root node_b (get_doc (InsertEndChild root node_a doc3))))).
Definition kids6 : gmap addr (list addr) := at_end root node_t (at_end root node_b (at_end root node_a kids3)).

Lemma create_valid d (s : xml) kids a :
  valid s kids -> pool_of d <> O -> Z.of_nat (size (nodes s) + 1) * 2 <= DynArray.INT_MAX ->
  match CreateUnlinkedNode d s with Ret (b, _) => b = a | _ => False end -> valid (create d s) (<[a := []]> kids).
Proof.
  intros V Hd Hm Ha. destruct (CreateUnlinkedNode_correct s kids d V Hd Hm) as (b & s' & E & _ & _ & _ & V').
  unfold create. rewrite E in *. by subst.
Qed.
Lemma insert_end_valid (s : xml) kids a :
  valid s kids -> is_Some (nodes s !! a) -> a <> root -> valid (get_doc (InsertEndChild root a s)) (at_end root a kids).
Proof.
  intros V Ha Hr. destruct (o_root _ _ (v_owned _ _ V)) as (n & Hn & _).
  destruct (InsertEndChild_correct s kids root a V ltac:(by exists n) Ha Hr (not_above_root s kids a V Hr)) as (s' & E & V' & _).
  by rewrite E.
Qed.
Lemma doc0_valid : valid doc0 {[root := []]}.
Proof. destruct (MemPool.new_pool_wf 2) as [W U]. apply new_document_valid; [exact W|]. intros x. cbn. by rewrite U. Qed.
Lemma doc3_valid : valid doc3 kids3.
Proof.
  apply create_valid; [|done|vm_compute; done|vm_compute; reflexivity].
  apply create_valid; [|done|vm_compute; done|vm_compute; reflexivity].
  apply create_valid; [|done|vm_compute; done|vm_compute; reflexivity]. apply doc0_valid.
Qed.
Lemma doc6_valid : valid doc6 kids6.
Proof.
  apply insert_end_valid; [|vm_compute; by eexists|done].
  apply insert_end_valid; [|vm_compute; by eexists|done].
  apply insert_end_valid; [|vm_compute; by eexists|done]. apply doc3_valid.
Qed.

Lemma inserts_refine_witness :
  exists s', InsertAfterChild root node_a node_t doc6 = Ret (true, s') /\ valid s' (after_kid root node_a node_t kids6) /\
    after_kid root node_a node_t kids6 !! root = Some [node_a; node_t; node_b].
Proof.
  assert (is_Some (nodes doc6 !! root)) as H1 by (vm_compute; eexists; reflexivity).
  assert (is_Some (nodes doc6 !! node_t)) as H2 by (vm_compute; eexists; reflexivity).
  assert (kids6 !! root = Some ([] ++ node_a :: [node_b; node_t])) as H3 by (vm_compute; reflexivity).
  assert (node_t <> root) as H4 by (intros [=]).
  assert (node_a <> node_t) as H5 by (intros [=]).
  assert ([node_b; node_t] <> [node_t]) as H6 by (intros [=]).
  assert (after_kid root node_a node_t kids6 !! root = Some [node_a; node_t; node_b]) as H7 by (vm_compute; reflexivity).
  destruct (inserts_refine doc6 kids6 root node_t doc6_valid H1 H2 H4 (not_above_root doc6 kids6 node_t doc6_valid H4)) as (_ & _ & Hafter).
  destruct (Hafter node_a [] [node_b; node_t] H3 H5 H6) as (s' & E & V & _).
  exists s'. exact (conj E (conj V H7)).
Defined.

Lemma kids6_root : kids6 !! root = Some [node_a; node_b; node_t].
Proof. vm_compute. reflexivity. Qed.

Lemma InsertAfterChild_last_witness : InsertAfterChild root node_b node_t doc6 = Undef.
Proof. refine (InsertAfterChild_last doc6 kids6 root node_b node_t [node_a] doc6_valid kids6_root _). intros [=]. Defined.

Lemma DeleteChild_refines_witness :
  exists fuel s', DeleteChild fuel root node_b doc6 = Ret s' /\ valid s' (restrict s' (remove_kid node_b kids6)).
Proof.
  assert (node_b ∈ [node_a; node_b; node_t]) as H1 by set_solver.
  destruct (DeleteChild_refines doc6 kids6 root node_b [node_a; node_b; node_t] doc6_valid kids6_root H1) as (fuel & Hf).
  destruct (Hf fuel (le_n _)) as (s' & E & V & _). exists fuel, s'. exact (conj E V).
Defined.

Lemma Clear_frees_everything_witness :
  exists fuel s', Clear fuel doc6 = Ret s' /\ nodes s' !! node_a = None.
Proof.
  destruct (Clear_frees_everything doc6 kids6 doc6_valid) as (fuel & Hf). destruct (Hf fuel (le_n _)) as (s' & E & Hn & _).
  exists fuel, s'. split; [exact E|]. apply eq_None_not_Some. intros X. apply Hn in X. revert X. intros [=].
Defined.

Lemma DeepClone_faithful_witness :
  exists b s' kids', DeepClone 1 node_a doc6 = Ret (Some b, s') /\ valid s' kids' /\
    shape 1 s' kids' b (Tree elem_a []) /\ nodes doc6 !! b = None.
Proof.
  assert (data <$> nodes doc6 !! node_a = Some elem_a) as H1 by (vm_compute; reflexivity).
  assert (kids6 !! node_a = Some []) as H2 by (vm_compute; reflexivity).
  assert (Z.of_nat (size (nodes doc6) + tree_size (Tree elem_a [])) * 2 <= DynArray.INT_MAX) as H3 by (vm_compute; discriminate).
  assert (shape 1 doc6 kids6 node_a (Tree elem_a [])) as H4.
  { split; [apply NoDup_singleton|]. split; [exact H1|]. exists []. split; [exact H2|constructor]. }
  destruct (DeepClone_faithful 1 doc6 kids6 node_a (Tree elem_a []) doc6_valid H4 H3) as (b & s' & kids' & E & V & S & Hb & _).
  exists b, s', kids'. exact (conj E (conj V (conj S Hb))).
Defined.

End witnesses.
