(* ===== verification/XmlNav.v ===== *)
(** * Moving in the tree of a document: the accessors of XMLNode, XMLHandle and the
    visits of XMLVisitor in tinyxml2.h and tinyxml2.cpp

    All of it only reads the nodes of [XmlDom], through their pointers.  The loops
    over siblings are bounded by the number of nodes, a visit by its nesting. *)

From stdpp Require Import fin_sets.
From S2P Require Import Prelude CStd XmlMem XmlDom.
#[local] Open Scope Z_scope.
Import Dom.

Module Nav.

(** ** The kind and the value of a node *)

Definition ToElement (d : payload) : bool := match d with PElement _ _ => true | _ => false end.
Definition ToText (d : payload) : bool := match d with PText _ _ => true | _ => false end.
Definition ToComment (d : payload) : bool := match d with PComment _ => true | _ => false end.
Definition ToDocument (d : payload) : bool := match d with PDocument => true | _ => false end.
Definition ToDeclaration (d : payload) : bool := match d with PDeclaration _ => true | _ => false end.
Definition ToUnknown (d : payload) : bool := match d with PUnknown _ => true | _ => false end.
(** [XMLNode::Value]: a document has none. *)
Definition Value (d : payload) : option bytes :=
  match d with
  | PDocument => None
  | PElement v _ | PText v _ | PComment v | PDeclaration v | PUnknown v => Some v
  end.
Definition SetValue (str : bytes) (d : payload) : payload :=
  match d with
  | PDocument => PDocument
  | PElement _ attributes => PElement str attributes
  | PText _ cdata => PText str cdata
  | PComment _ => PComment str
  | PDeclaration _ => PDeclaration str
  | PUnknown _ => PUnknown str
  end.
Definition CData (d : payload) : bool := match d with PText _ cdata => cdata | _ => false end.
Definition ToElementWithName (name : option bytes) (d : payload) : bool :=
  ToElement d && match name with None => true | Some name => bool_decide (Value d = Some name) end.

Section document.
Context {P : Type} `{PoolLaws P}.
Notation document := (XMLDocument (P := P)).

(** ** The pointers of a node *)

Definition Parent (this : addr) (s : document) : outcome (option addr) := n ← deref this s; Ret (parent n).
Definition NoChildren (this : addr) (s : document) : outcome bool :=
  n ← deref this s; Ret (negb (bool_decide (is_Some (firstChild n)))).
Definition FirstChild (this : addr) (s : document) : outcome (option addr) := n ← deref this s; Ret (firstChild n).
Definition LastChild (this : addr) (s : document) : outcome (option addr) := n ← deref this s; Ret (lastChild n).
Definition PreviousSibling (this : addr) (s : document) : outcome (option addr) := n ← deref this s; Ret (prev n).
Definition NextSibling (this : addr) (s : document) : outcome (option addr) := n ← deref this s; Ret (next n).

(** The loops that look for an element. *)
Fixpoint find_element (step : XMLNode -> option addr) (name : option bytes) (fuel : nat) (node : option addr)
    (s : document) : outcome (option addr) :=
  match node, fuel with
  | None, _ => Ret None
  | Some _, O => Undef
  | Some a, S fuel =>
      n ← deref a s;
      if ToElementWithName name (data n) then Ret (Some a) else find_element step name fuel (step n) s
  end.
Definition FirstChildElement (name : option bytes) (this : addr) (s : document) : outcome (option addr) :=
  n ← deref this s; find_element next name (size (nodes s)) (firstChild n) s.
Definition LastChildElement (name : option bytes) (this : addr) (s : document) : outcome (option addr) :=
  n ← deref this s; find_element prev name (size (nodes s)) (lastChild n) s.
Definition NextSiblingElement (name : option bytes) (this : addr) (s : document) : outcome (option addr) :=
  n ← deref this s; find_element next name (size (nodes s)) (next n) s.
Definition PreviousSiblingElement (name : option bytes) (this : addr) (s : document) : outcome (option addr) :=
  n ← deref this s; find_element prev name (size (nodes s)) (prev n) s.
(** [XMLDocument::RootElement]. *)
Definition RootElement (s : document) : outcome (option addr) := FirstChildElement None root s.

(** ** XMLHandle: a pointer that may be null; XMLConstHandle is the same *)

Definition XMLHandle : Type := option addr.
Definition if_node (move : addr -> document -> outcome (option addr)) (h : XMLHandle) (s : document) : outcome XMLHandle :=
  match h with Some node => move node s | None => Ret None end.
Definition handle_FirstChild : XMLHandle -> document -> outcome XMLHandle := if_node FirstChild.
Definition handle_FirstChildElement (name : option bytes) : XMLHandle -> document -> outcome XMLHandle := if_node (FirstChildElement name).
Definition handle_LastChild : XMLHandle -> document -> outcome XMLHandle := if_node LastChild.
Definition handle_LastChildElement (name : option bytes) : XMLHandle -> document -> outcome XMLHandle := if_node (LastChildElement name).
Definition handle_PreviousSibling : XMLHandle -> document -> outcome XMLHandle := if_node PreviousSibling.
Definition handle_PreviousSiblingElement (name : option bytes) : XMLHandle -> document -> outcome XMLHandle := if_node (PreviousSiblingElement name).
Definition handle_NextSibling : XMLHandle -> document -> outcome XMLHandle := if_node NextSibling.
Definition handle_NextSiblingElement (name : option bytes) : XMLHandle -> document -> outcome XMLHandle := if_node (NextSiblingElement name).
Definition handle_to (kind : payload -> bool) (h : XMLHandle) (s : document) : outcome (option addr) :=
  match h with
  | Some node => n ← deref node s; Ret (if kind (data n) then Some node else None)
  | None => Ret None
  end.
Definition handle_ToElement : XMLHandle -> document -> outcome (option addr) := handle_to ToElement.
Definition handle_ToText : XMLHandle -> document -> outcome (option addr) := handle_to ToText.
Definition handle_ToUnknown : XMLHandle -> document -> outcome (option addr) := handle_to ToUnknown.
Definition handle_ToDeclaration : XMLHandle -> document -> outcome (option addr) := handle_to ToDeclaration.

(** ** Navigation, as a function of the lists of children *)

(** [chain step s l]: [step] leads from each node of [l] to the next, and from the
    last to null. *)
Fixpoint chain (step : XMLNode -> option addr) (s : document) (l : list addr) : Prop :=
  match l with [] => True | a :: l => (exists n, nodes s !! a = Some n /\ step n = head l) /\ chain step s l end.
Definition matches (name : option bytes) (s : document) (a : addr) : bool :=
  match nodes s !! a with Some n => ToElementWithName name (data n) | None => false end.

Lemma chain_next s kids p l2 : linked s kids -> forall l1, kids !! p = Some (l1 ++ l2) -> chain next s l2.
Proof.
  intros L. induction l2 as [|a l2 IH]; intros l1 Hk; [done|]. cbn. split.
  - destruct (l_kid s kids L _ _ _ _ Hk) as (n & Hn & _ & _ & Hnx). by exists n.
  - apply (IH (l1 ++ [a])). by rewrite <-app_assoc.
Qed.
Lemma chain_prev s kids p l1 : linked s kids -> forall l2, kids !! p = Some (l1 ++ l2) -> chain prev s (reverse l1).
Proof.
  intros L. induction l1 as [|a l1 IH] using rev_ind; intros l2 Hk; [done|]. rewrite reverse_snoc. cbn. split.
  - rewrite <-app_assoc in Hk. destruct (l_kid s kids L _ _ _ _ Hk) as (n & Hn & _ & Hpr & _).
    exists n. by rewrite head_reverse.
  - apply (IH (a :: l2)). by rewrite <-app_assoc in Hk.
Qed.
Lemma find_element_chain step name s l : forall fuel, chain step s l -> (length l <= fuel)%nat ->
  find_element step name fuel (head l) s = Ret (find (matches name s) l).
Proof.
  induction l as [|a l IH]; intros fuel Hc Hf; [by destruct fuel|]. destruct Hc as [(n & Hn & Hs) Hc].
  destruct fuel as [|fuel]; [cbn in Hf; lia|]. cbn [head find_element]. rewrite (deref_run _ _ _ Hn). cbn.
  unfold matches at 1. rewrite Hn. destruct (ToElementWithName name (data n)); [done|].
  rewrite Hs. apply IH; [done|cbn in Hf; lia].
Qed.

(** C27: in a document whose pointers form a tree, the four searches find the first
    child element, the last one, the next sibling element and the previous one of
    the name asked for, as positions in the list of children, and null when there
    is none. *)
Theorem element_searches s kids p l1 a l2 name :
  valid s kids -> kids !! p = Some (l1 ++ a :: l2) ->
  FirstChildElement name p s = Ret (find (matches name s) (l1 ++ a :: l2)) /\
  LastChildElement name p s = Ret (find (matches name s) (reverse (l1 ++ a :: l2))) /\
  NextSiblingElement name a s = Ret (find (matches name s) l2) /\
  PreviousSiblingElement name a s = Ret (find (matches name s) (reverse l1)).
Proof.
  intros [L _ _] Hk. pose proof (kids_length s kids p _ L Hk) as Hlen. rewrite length_app in Hlen. cbn in Hlen.
  destruct (l_dom s kids L _ _ Hk) as [[np Hp] _]. destruct (l_node s kids L _ _ Hp) as (l & E & Hf & Hl).
  rewrite Hk in E. injection E as <-.
  destruct (l_kid s kids L _ _ _ _ Hk) as (n & Hn & _ & Hpr & Hnx).
  unfold FirstChildElement, LastChildElement, NextSiblingElement, PreviousSiblingElement.
  rewrite (deref_run _ _ _ Hp), (deref_run _ _ _ Hn). cbn. rewrite Hf, Hl, Hpr, Hnx, <-!head_reverse.
  split; [|split; [|split]]; apply find_element_chain; rewrite ?length_reverse, ?length_app; cbn; try lia.
  - by apply (chain_next s kids p _ L []).
  - apply (chain_prev s kids p _ L []). by rewrite app_nil_r.
  - apply (chain_next s kids p _ L (l1 ++ [a])). by rewrite <-app_assoc.
  - by apply (chain_prev s kids p _ L (a :: l2)).
Qed.
Lemma no_child_element s kids p name : valid s kids -> kids !! p = Some [] ->
  FirstChildElement name p s = Ret None /\ LastChildElement name p s = Ret None.
Proof.
  intros [L _ _] Hk. destruct (l_dom s kids L _ _ Hk) as [[np Hp] _]. destruct (l_node s kids L _ _ Hp) as (l & E & Hf & Hl).
  rewrite Hk in E. injection E as <-. unfold FirstChildElement, LastChildElement.
  rewrite (deref_run _ _ _ Hp). cbn. rewrite Hf, Hl. by destruct (size (nodes s)).
Qed.

(** ** Handles *)

(** Where a node is: alone, or in the list of its parent. *)
Lemma position s kids a n : valid s kids -> nodes s !! a = Some n ->
  (prev n = None /\ next n = None) \/
  exists p l1 l2, kids !! p = Some (l1 ++ a :: l2) /\ prev n = last l1 /\ next n = head l2.
Proof.
  intros [L _ _] Hn. destruct (parent n) as [p|] eqn:Ep; [right|left; by apply (l_alone s kids L a)].
  destruct (l_parent s kids L a n p Hn Ep) as (l & Hk & (l1 & l2 & ->)%list_elem_of_split). exists p, l1, l2.
  destruct (l_kid s kids L _ _ _ _ Hk) as (n' & Hn' & _ & Hpr & Hnx). by simplify_eq.
Qed.
Lemma kid_live s kids p l a : valid s kids -> kids !! p = Some l -> a ∈ l -> is_Some (nodes s !! a).
Proof.
  intros [L _ _] Hk (l1 & l2 & ->)%list_elem_of_split. destruct (l_kid s kids L _ _ _ _ Hk) as (n & Hn & _). by exists n.
Qed.

(** The siblings of a node on both sides: none, or parts of a list of children. *)
Lemma siblings_around s kids a n : valid s kids -> nodes s !! a = Some n ->
  exists p l0 l1 l2, kids !! p = Some l0 /\ (forall x, x ∈ l1 \/ x ∈ l2 -> x ∈ l0) /\ prev n = last l1 /\ next n = head l2 /\
    chain next s l2 /\ chain prev s (reverse l1) /\ (length l1 <= size (nodes s))%nat /\ (length l2 <= size (nodes s))%nat.
Proof.
  intros V Hn. pose proof V as [L _ _].
  destruct (position s kids a n V Hn) as [[-> ->]|(p & l1 & l2 & Hp & -> & ->)].
  - destruct (l_node s kids L a n Hn) as (l & Hk & _). exists a, l, [], []. do 2 (split; [done || set_solver|]). cbn. repeat split; lia.
  - exists p, (l1 ++ a :: l2), l1, l2. pose proof (kids_length s kids p _ L Hp) as Hlen'. rewrite length_app in Hlen'. cbn in Hlen'.
    split; [done|]. split; [set_solver|]. do 2 (split; [done|]). split; [|split; [|lia]].
    + apply (chain_next s kids p _ L (l1 ++ [a])). by rewrite <-app_assoc.
    + by apply (chain_prev s kids p _ L (a :: l2)).
Qed.

(** A null pointer or a node of the document. *)
Definition live (s : document) (h : XMLHandle) : Prop := forall a, h = Some a -> is_Some (nodes s !! a).

Inductive move :=
| MFirstChild | MLastChild | MPreviousSibling | MNextSibling
| MFirstChildElement (name : option bytes) | MLastChildElement (name : option bytes)
| MPreviousSiblingElement (name : option bytes) | MNextSiblingElement (name : option bytes).
Definition run_move (m : move) : XMLHandle -> document -> outcome XMLHandle :=
  match m with
  | MFirstChild => handle_FirstChild | MLastChild => handle_LastChild
  | MPreviousSibling => handle_PreviousSibling | MNextSibling => handle_NextSibling
  | MFirstChildElement name => handle_FirstChildElement name
  | MLastChildElement name => handle_LastChildElement name
  | MPreviousSiblingElement name => handle_PreviousSiblingElement name
  | MNextSiblingElement name => handle_NextSiblingElement name
  end.
Fixpoint follow (path : list move) (h : XMLHandle) (s : document) : outcome XMLHandle :=
  match path with [] => Ret h | m :: path => h ← run_move m h s; follow path h s end.

Lemma live_find s kids p l l' name : valid s kids -> kids !! p = Some l -> (forall x, x ∈ l' -> x ∈ l) -> live s (find (matches name s) l').
Proof.
  intros V Hk Hsub a [Hin _]%find_some. apply (kid_live s kids p l a V Hk), Hsub. by apply list_elem_of_In.
Qed.
Lemma run_move_live m s kids h : valid s kids -> live s h -> exists h', run_move m h s = Ret h' /\ live s h'.
Proof.
  intros V Hh. destruct h as [a|]; [|exists None; split; [by destruct m|done]].
  destruct (Hh a eq_refl) as [n Hn]. pose proof V as [L _ _].
  destruct (l_node s kids L a n Hn) as (l & Hk & Hf & Hl). pose proof (kids_length s kids a l L Hk) as Hlen.
  assert (forall name, find_element next name (size (nodes s)) (firstChild n) s = Ret (find (matches name s) l)) as Ef.
  { intros name. rewrite Hf. apply find_element_chain; [by apply (chain_next s kids a l L [])|done]. }
  assert (forall name, find_element prev name (size (nodes s)) (lastChild n) s = Ret (find (matches name s) (reverse l))) as El.
  { intros name. rewrite Hl, <-head_reverse. apply find_element_chain; [|by rewrite length_reverse].
    apply (chain_prev s kids a l L []). by rewrite app_nil_r. }
  assert (live s (head l) /\ live s (last l)) as [Lf Ll].
  { split; intros b E; apply (kid_live s kids a l b V Hk); [by apply head_Some_elem_of|by apply last_Some_elem_of]. }
  destruct (siblings_around s kids a n V Hn) as (p & l0 & l1 & l2 & Hp & Hin & Hpr & Hnx & Cn & Cp & N1 & N2).
  assert (forall name, find_element next name (size (nodes s)) (next n) s = Ret (find (matches name s) l2)) as En.
  { intros name. rewrite Hnx. by apply find_element_chain. }
  assert (forall name, find_element prev name (size (nodes s)) (prev n) s = Ret (find (matches name s) (reverse l1))) as Epv.
  { intros name. rewrite Hpr, <-head_reverse. apply find_element_chain; [done|by rewrite length_reverse]. }
  destruct m; cbn [run_move];
    unfold handle_FirstChild, handle_LastChild, handle_PreviousSibling, handle_NextSibling, handle_FirstChildElement,
      handle_LastChildElement, handle_PreviousSiblingElement, handle_NextSiblingElement; cbn [if_node];
    unfold FirstChild, LastChild, PreviousSibling, NextSibling, FirstChildElement, LastChildElement,
      PreviousSiblingElement, NextSiblingElement; rewrite (deref_run _ _ _ Hn); cbn [mbind outcome_bind];
    rewrite ?Ef, ?El, ?En, ?Epv; (eexists; split; [reflexivity|]).
  - by rewrite Hf.
  - by rewrite Hl.
  - rewrite Hpr. intros b E. apply (kid_live s kids p l0 b V Hp), Hin. left. by apply last_Some_elem_of.
  - rewrite Hnx. intros b E. apply (kid_live s kids p l0 b V Hp), Hin. right. by apply head_Some_elem_of.
  - by apply (live_find s kids a l).
  - apply (live_find s kids a l); [done..|]. intros x. by rewrite elem_of_reverse.
  - apply (live_find s kids p l0); [done..|]. intros x. rewrite elem_of_reverse. auto.
  - apply (live_find s kids p l0); auto.
Qed.

(** following a handle along any path, through any number of null results, never
    reads a node that does not exist, and ends with null or a node of the
    document. *)
Theorem handles_safe path s kids h :
  valid s kids -> live s h -> exists h', follow path h s = Ret h' /\ live s h' /\ (h = None -> h' = None).
Proof.
  intros V. revert h. induction path as [|m path IH]; intros h Hh; [by exists h|]. cbn [follow].
  destruct (run_move_live m s kids h V Hh) as (h1 & E1 & H1). rewrite E1. cbn [mbind outcome_bind].
  destruct (IH h1 H1) as (h2 & E2 & H2 & Hnull). exists h2. split; [done|]. split; [done|]. intros ->. apply Hnull.
  destruct m; by injection E1 as <-.
Qed.

End document.

(** ** Visits *)

(** [XMLVisitor]: the callbacks may change the state of the visitor; what they
    return says whether to go on. *)
Class XMLVisitor (V : Type) := {
  VisitEnter_document : V -> bool * V;
  VisitExit_document : V -> bool * V;
  VisitEnter_element : bytes -> list (bytes * bytes) -> V -> bool * V;
  VisitExit_element : bytes -> list (bytes * bytes) -> V -> bool * V;
  Visit_declaration : bytes -> V -> bool * V;
  Visit_text : bytes -> bool -> V -> bool * V;
  Visit_comment : bytes -> V -> bool * V;
  Visit_unknown : bytes -> V -> bool * V }.
(** The methods of the base class. *)
Definition base_visitor (V : Type) : XMLVisitor V := {|
  VisitEnter_document v := (true, v); VisitExit_document v := (true, v);
  VisitEnter_element _ _ v := (true, v); VisitExit_element _ _ v := (true, v);
  Visit_declaration _ v := (true, v); Visit_text _ _ v := (true, v);
  Visit_comment _ v := (true, v); Visit_unknown _ v := (true, v) |}.

Section visits.
Context {V : Type} {visitor : XMLVisitor V}.

(** The calls for a node before and after its children; a node without children
    has one call. *)
Definition enter (d : payload) (v : V) : bool * V :=
  match d with
  | PDocument => VisitEnter_document v
  | PElement name attributes => VisitEnter_element name attributes v
  | PText value cdata => Visit_text value cdata v
  | PComment value => Visit_comment value v
  | PDeclaration value => Visit_declaration value v
  | PUnknown value => Visit_unknown value v
  end.
Definition leave (d : payload) (v : V) : bool * V :=
  match d with
  | PDocument => VisitExit_document v
  | PElement name attributes => VisitExit_element name attributes v
  | _ => (true, v)
  end.
Definition is_leaf (d : payload) : bool := match d with PDocument | PElement _ _ => false | _ => true end.

Context {P : Type} `{PoolLaws P}.
Notation document := (XMLDocument (P := P)).

(** The loop over the children and the [Accept] methods. *)
Fixpoint accept_children (Accept : addr -> V -> outcome (bool * V)) (n : nat) (node : option addr) (s : document) (v : V)
  : outcome V :=
  match node, n with
  | None, _ => Ret v
  | Some _, O => Undef
  | Some a, S n =>
      x ← Accept a v;
      let '(go, v) := (x : bool * V) in
      if go then m ← deref a s; accept_children Accept n (next m) s v else Ret v
  end.
Fixpoint Accept (fuel : nat) (s : document) (this : addr) (v : V) : outcome (bool * V) :=
  match fuel with
  | O => Undef
  | S fuel =>
      n ← deref this s;
      if is_leaf (data n) then Ret (enter (data n) v)
      else
        let '(go, v) := enter (data n) v in
        v ← (if go then accept_children (Accept fuel s) (size (nodes s)) (firstChild n) s v else Ret v);
        Ret (leave (data n) v)
  end.

(** The visit of a tree. *)
Fixpoint visit (t : tree) (v : V) : bool * V :=
  match t with
  | Tree d ts =>
      if is_leaf d then enter d v
      else
        let '(go, v) := enter d v in
        leave d (if go then (fix visits (l : list tree) (v : V) : V := match l with [] => v | t :: l => let '(go, v) := visit t v in if go then visits l v else v end) ts v
                 else v)
  end.
Fixpoint visits (l : list tree) (v : V) : V :=
  match l with [] => v | t :: l => let '(go, v) := visit t v in if go then visits l v else v end.
Lemma visit_eq d ts v : visit (Tree d ts) v =
  if is_leaf d then enter d v else let '(go, v) := enter d v in leave d (if go then visits ts v else v).
Proof.
  cbn. destruct (is_leaf d); [reflexivity|]. destruct (enter d v) as [[] v1]; reflexivity.
Qed.

(** The tree under a node, whatever the nodes are. *)
Fixpoint layout (h : nat) (s : document) (kids : gmap addr (list addr)) (a : addr) (t : tree) : Prop :=
  match h, t with
  | O, _ => False
  | S h, Tree d ts => data <$> nodes s !! a = Some d /\ exists l, kids !! a = Some l /\ Forall2 (layout h s kids) l ts
  end.
Lemma layout_exists s kids rank N : linked s kids -> ranked rank N s ->
  forall h a, (rank a < h)%nat -> is_Some (nodes s !! a) -> exists t, layout h s kids a t.
Proof.
  intros L [_ R]. induction h as [|h IH]; intros a Ha [n Hn]; [lia|]. destruct (l_node s kids L a n Hn) as (l & Hk & _).
  assert (exists ts, Forall2 (layout h s kids) l ts) as [ts Hts].
  { assert (Forall (fun c => exists t, layout h s kids c t) l) as Hl.
    { apply Forall_forall. intros c Hc. destruct (kid_up s kids a l c L Hk Hc) as (m & Hm & Hp).
      apply IH; [|by exists m]. pose proof (R c a ltac:(by exists m)). lia. }
    clear -Hl. induction Hl as [|c l [t Ht] _ [ts IH]]; [by exists []|]. exists (t :: ts). by constructor. }
  exists (Tree (data n) ts). cbn. rewrite Hn. split; [done|]. by exists l.
Qed.

Lemma accept_children_chain Accept s l ts : forall n v,
  chain next s l -> (length l <= n)%nat -> Forall2 (fun a t => forall v, Accept a v = Ret (visit t v)) l ts ->
  accept_children Accept n (head l) s v = Ret (visits ts v).
Proof.
  revert ts. induction l as [|a l IH]; intros ts n v Hc Hn Hl.
  - apply Forall2_nil_inv_l in Hl as ->. by destruct n.
  - destruct n as [|n]; [cbn in Hn; lia|]. apply Forall2_cons_inv_l in Hl as (t & ts' & Ha & Hl & ->).
    destruct Hc as [(m & Hm & Hnx) Hc]. cbn. rewrite Ha. cbn. destruct (visit t v) as [[] v1]; [|done]. cbn.
    rewrite (deref_run _ _ _ Hm). cbn. rewrite Hnx. apply IH; [done|cbn in Hn; lia|done].
Qed.
Lemma Accept_layout s kids : linked s kids -> forall h a t, layout h s kids a t ->
  forall fuel v, (h <= fuel)%nat -> Accept fuel s a v = Ret (visit t v).
Proof.
  intros L. induction h as [|h IH]; intros a [d ts] Ht; [done|]. destruct Ht as (Hd & l & Hk & Hl).
  intros [|fuel] v Hf; [lia|]. destruct (nodes s !! a) as [n|] eqn:Hn; [|done]. injection Hd as Hd.
  cbn [Accept]. rewrite (deref_run _ _ _ Hn), visit_eq. cbn. rewrite Hd. destruct (is_leaf d); [done|].
  destruct (enter d v) as [[] v1]; [|done]. destruct (l_node s kids L a n Hn) as (l' & Hk' & Hfc & _).
  rewrite Hk in Hk'. injection Hk' as <-. rewrite Hfc, (accept_children_chain _ s l ts); [done| | |].
  - by apply (chain_next s kids a l L []).
  - by apply (kids_length s kids a l L).
  - eapply Forall2_impl; [exact Hl|]. intros b t Hb v'. apply (IH b t Hb). lia.
Qed.

(** C23: [Accept] on any node of a document makes exactly the calls of a recursive
    walk over the tree that the pointers of the document stand for, in that order,
    whatever the visitor is, and it returns. *)
Theorem Accept_visits s kids a :
  valid s kids -> is_Some (nodes s !! a) ->
  exists h t, layout h s kids a t /\ forall fuel v, (h <= fuel)%nat -> Accept fuel s a v = Ret (visit t v).
Proof.
  intros [L _ (rank & N & R)] Ha. destruct (layout_exists s kids rank N L R (S (rank a)) a (Nat.lt_succ_diag_r _) Ha) as [t Ht].
  exists (S (rank a)), t. split; [done|]. intros fuel v. by apply (Accept_layout s kids L).
Qed.

(** a visitor that refuses an element in [VisitEnter] does not skip the siblings
    of the element, as the comment of the class says it does: only the children are
    skipped, and [VisitExit], which is called nevertheless, decides on the
    siblings. *)
Theorem refused_element s kids p l1 a l2 name attributes fuel v v1 n :
  valid s kids -> kids !! p = Some (l1 ++ a :: l2) -> data <$> nodes s !! a = Some (PElement name attributes) ->
  VisitEnter_element name attributes v = (false, v1) -> fst (VisitExit_element name attributes v1) = true ->
  accept_children (Accept (S fuel) s) (S n) (Some a) s v =
  accept_children (Accept (S fuel) s) n (head l2) s (snd (VisitExit_element name attributes v1)).
Proof.
  intros [L _ _] Hk Hd He Hx. destruct (l_kid s kids L _ _ _ _ Hk) as (m & Hm & _ & _ & Hnx). rewrite Hm in Hd. injection Hd as Hd.
  cbn [accept_children Accept]. rewrite (deref_run _ _ _ Hm). cbn. rewrite Hd. cbn. rewrite He. cbn.
  destruct (VisitExit_element name attributes v1) as [go v2]. cbn in Hx |- *. subst go. by rewrite Hnx.
Qed.

End visits.

(** ** A visitor that records what it sees *)

Definition recorder : XMLVisitor (list payload) := {|
  VisitEnter_document v := (true, v ++ [PDocument]); VisitExit_document v := (true, v);
  VisitEnter_element name attributes v := (true, v ++ [PElement name attributes]); VisitExit_element _ _ v := (true, v);
  Visit_declaration value v := (true, v ++ [PDeclaration value]); Visit_text value cdata v := (true, v ++ [PText value cdata]);
  Visit_comment value v := (true, v ++ [PComment value]); Visit_unknown value v := (true, v ++ [PUnknown value]) |}.
Fixpoint preorder (t : tree) : list payload := match t with Tree d ts => d :: concat (map preorder ts) end.
Lemma recorder_enter d v : @enter _ recorder d v = (true, v ++ [d]).
Proof. by destruct d. Qed.
Lemma recorder_leave d v : @leave _ recorder d v = (true, v).
Proof. by destruct d. Qed.
(** Of the trees in which only documents and elements have children, all of it is
    recorded, in document order. *)
Fixpoint leaves_empty (t : tree) : Prop :=
  match t with Tree d ts => (is_leaf d = true -> ts = []) /\ Forall id (map leaves_empty ts) end.
Lemma visit_recorder h : forall t v, (tree_size t <= h)%nat -> leaves_empty t -> @visit _ recorder t v = (true, v ++ preorder t).
Proof.
  induction h as [|h IH]; intros [d ts] v Hh; cbn [tree_size] in Hh; [lia|]. intros [Hleaf Hts].
  rewrite (@visit_eq _ recorder), recorder_enter, recorder_leave. cbn [preorder]. destruct (is_leaf d) eqn:El; [by rewrite (Hleaf eq_refl)|]. f_equal.
  replace (v ++ d :: concat (map preorder ts)) with ((v ++ [d]) ++ concat (map preorder ts)) by by rewrite <-app_assoc.
  clear Hleaf. assert (list_sum (map tree_size ts) <= h)%nat as Hs by lia. clear Hh.
  generalize (v ++ [d]). induction ts as [|t ts IHl]; intros w; cbn; [by rewrite app_nil_r|]. cbn in Hts.
  assert (tree_size t + list_sum (map tree_size ts) <= h)%nat as Hs' by exact Hs.
  apply Forall_cons in Hts as [Ht Hts]. rewrite IH by (done || lia). rewrite IHl by (done || lia). by rewrite app_assoc.
Qed.
(** ** Concrete runs *)
Section witnesses.
Import Dom.

(** Whatever the visitor keeps of the rest, it refuses the element [a]. *)
Definition picky : XMLVisitor (list payload) := {|
  VisitEnter_document v := (true, v); VisitExit_document v := (true, v);
  VisitEnter_element name attributes v := (negb (bool_decide (name = bs "a")), v ++ [PElement name attributes]);
  VisitExit_element _ _ v := (true, v);
  Visit_declaration _ v := (true, v); Visit_text value cdata v := (true, v ++ [PText value cdata]);
  Visit_comment _ v := (true, v); Visit_unknown _ v := (true, v) |}.

Lemma element_searches_witness :
  NextSiblingElement (Some (bs "b")) node_a doc6 = Ret (Some node_b) /\
  PreviousSiblingElement None node_t doc6 = Ret (Some node_b).
Proof.
  assert (kids6 !! root = Some ([node_a; node_b] ++ node_t :: [])) as H2 by exact kids6_root.
  destruct (element_searches doc6 kids6 root [] node_a [node_b; node_t] (Some (bs "b")) doc6_valid kids6_root) as (_ & _ & E1 & _).
  destruct (element_searches doc6 kids6 root [node_a; node_b] node_t [] None doc6_valid H2) as (_ & _ & _ & E2).
  assert (find (matches (Some (bs "b")) doc6) [node_b; node_t] = Some node_b) as F1 by (vm_compute; reflexivity).
  assert (find (matches None doc6) (reverse [node_a; node_b]) = Some node_b) as F2 by (vm_compute; reflexivity).
  rewrite F1 in E1. rewrite F2 in E2. exact (conj E1 E2).
Defined.

Lemma handles_safe_witness :
  exists h, follow [MFirstChildElement (Some (bs "c")); MNextSibling; MFirstChild] (Some root) doc6 = Ret h /\ live doc6 h.
Proof.
  assert (live doc6 (Some root)) as H1.
  { intros a [= <-]. assert (is_Some (nodes doc6 !! root)) as X by (vm_compute; eexists; reflexivity). exact X. }
  destruct (handles_safe [MFirstChildElement (Some (bs "c")); MNextSibling; MFirstChild] doc6 kids6 (Some root) doc6_valid H1)
    as (h & E & L & _).
  exists h. exact (conj E L).
Defined.

Lemma Accept_visits_witness :
  exists fuel t, layout fuel doc6 kids6 root t /\ Accept (visitor := recorder) fuel doc6 root [] = Ret (visit (visitor := recorder) t []).
Proof.
  assert (is_Some (nodes doc6 !! root)) as H1 by (vm_compute; eexists; reflexivity).
  destruct (Accept_visits (visitor := recorder) doc6 kids6 root doc6_valid H1) as (h & t & L & E).
  exists h, t. exact (conj L (E h [] (le_n h))).
Defined.

Lemma refused_element_witness :
  accept_children (Accept (visitor := picky) 1 doc6) 4 (Some node_a) doc6 [] =
  accept_children (Accept (visitor := picky) 1 doc6) 3 (Some node_b) doc6 [elem_a].
Proof.
  assert (data <$> nodes doc6 !! node_a = Some elem_a) as H1 by (vm_compute; reflexivity).
  exact (refused_element (visitor := picky) doc6 kids6 root [] node_a [node_b; node_t] (bs "a") [(bs "k", bs "v")] 0 [] [elem_a] 3
    doc6_valid kids6_root H1 eq_refl eq_refl).
Defined.

End witnesses.
End Nav.
