(* ===== verification/XmlCopy.v ===== *)
(** * Copies from one document into another: XMLNode::DeepClone with a target and
    XMLDocument::DeepCopy in tinyxml2.cpp

    The source is only read; every node of the copy is created in the target.  The
    copies inside one document are in [XmlDom]. *)

From stdpp Require Import fin_sets.
From S2P Require Import Prelude CStd XmlMem XmlDom XmlNav.
#[local] Open Scope Z_scope.
Import Dom Nav.

Module Copy.

Section document.
Context {P : Type} `{PoolLaws P}.
Notation document := (XMLDocument (P := P)).

(** ** The operations *)

Definition ShallowClone_into (source : document) (a : addr) (target : document) : outcome (option addr * document) :=
  n ← deref a source;
  match clone_payload (data n) with
  | None => Ret (None, target)
  | Some d => x ← CreateUnlinkedNode d target; Ret (Some (fst x), snd x)
  end.
(** The loop over the children, which [DeepClone] and [DeepCopy] share: each is
    cloned and put at the end of [this], a node of the target. *)
Fixpoint copy_children (DeepClone : addr -> document -> outcome (option addr * document)) (source : document) (n : nat)
    (this : addr) (child : option addr) (target : document) : outcome document :=
  match child, n with
  | None, _ => Ret target
  | Some _, O => Undef
  | Some c, S n =>
      x ← DeepClone c target;
      target ← match fst x with Some b => InsertEndChild this b (snd x) | None => Undef end;
      m ← deref c source;
      copy_children DeepClone source n this (next m) target
  end.
Fixpoint DeepClone_into (source : document) (fuel : nat) (a : addr) (target : document) : outcome (option addr * document) :=
  match fuel with
  | O => Undef
  | S fuel =>
      x ← ShallowClone_into source a target;
      match fst x with
      | None => Ret (None, snd x)
      | Some clone =>
          m ← deref a source;
          target ← copy_children (DeepClone_into source fuel) source (size (nodes source)) clone (firstChild m) (snd x);
          Ret (Some clone, target)
      end
  end.
(** A copy onto itself is a no-op. *)
Definition DeepCopy (fuel : nat) (source : document) (target : option document) : outcome document :=
  match target with
  | None => Ret source
  | Some target =>
      target ← Clear fuel target;
      m ← deref root source;
      copy_children (DeepClone_into source fuel) source (size (nodes source)) root (firstChild m) target
  end.

(** ** The copy of a tree *)

Section source.
Context (source : document) (kids0 : gmap addr (list addr)) (linked0 : linked source kids0).

Definition clones_into (clone : addr -> document -> outcome (option addr * document)) (h : nat) : Prop :=
  forall a t s kids, shape h source kids0 a t -> valid s kids -> Z.of_nat (size (nodes s) + tree_size t) * 2 <= DynArray.INT_MAX ->
    exists b s' kids', clone a s = Ret (Some b, s') /\ valid s' kids' /\ extends s kids s' kids' /\ shape h s' kids' b t /\
      nodes s !! b = None /\ b <> root /\ (forall y, ~ up s' b y) /\ size (nodes s') = (size (nodes s) + tree_size t)%nat.

(** What the loop does to the node [this] and to the others. *)
Record appended (s : document) (kids : gmap addr (list addr)) (this : addr) (s' : document) (kids' : gmap addr (list addr)) : Prop := {
  ap_data : forall x, is_Some (nodes s !! x) -> data <$> nodes s' !! x = data <$> nodes s !! x;
  ap_kids : forall x, is_Some (nodes s !! x) -> x <> this -> kids' !! x = kids !! x;
  ap_up : forall x y, is_Some (nodes s !! x) -> up s' x y -> up s x y }.
Lemma appended_extends s kids this s' kids' s2 kids2 :
  extends s kids s2 kids2 -> appended s2 kids2 this s' kids' -> appended s kids this s' kids'.
Proof.
  intros X [A B C]. pose proof (fun x => extends_is_some _ _ _ _ x X) as Hs. destruct X as [A1 B1 C1]. split.
  - intros x Hx. rewrite A by auto. by apply A1.
  - intros x Hx Hne. rewrite B by auto. by apply B1.
  - intros x y Hx Hxy. apply C1; [done|]. apply C; auto.
Qed.
Lemma appended_trans s kids this s1 kids1 s2 kids2 :
  appended s kids this s1 kids1 -> appended s1 kids1 this s2 kids2 -> appended s kids this s2 kids2.
Proof.
  intros [A1 B1 C1] [A2 B2 C2].
  assert (forall x, is_Some (nodes s !! x) -> is_Some (nodes s1 !! x)) as Hs.
  { intros x Hx. pose proof (A1 x Hx) as E. destruct Hx as [n Hn]. rewrite Hn in E. destruct (nodes s1 !! x); [by eexists|done]. }
  split.
  - intros x Hx. rewrite A2 by auto. by apply A1.
  - intros x Hx Hne. rewrite B2 by auto. by apply B1.
  - intros x y Hx Hxy. apply C1; [done|]. apply C2; auto.
Qed.

(** One clone put at the end of [this]. *)
Lemma append_clone clone h a t s kids this old ts0 :
  clones_into clone h -> shape h source kids0 a t -> valid s kids -> Z.of_nat (size (nodes s) + tree_size t) * 2 <= DynArray.INT_MAX ->
  kids !! this = Some old -> Forall2 (shape h s kids) old ts0 -> (forall y, ~ up s this y) ->
  exists b s1 s2 kids2, clone a s = Ret (Some b, s1) /\ InsertEndChild this b s1 = Ret s2 /\ valid s2 kids2 /\
    appended s kids this s2 kids2 /\ kids2 !! this = Some (old ++ [b]) /\ Forall2 (shape h s2 kids2) (old ++ [b]) (ts0 ++ [t]) /\
    (forall y, ~ up s2 this y) /\ size (nodes s2) = (size (nodes s) + tree_size t)%nat.
Proof.
  intros Hclone Ht V Hmax Hold Hts0 Hthis.
  destruct (Hclone a t s kids Ht V Hmax) as (b & s1 & kids1 & E1 & V1 & X1 & Hb & Hfresh & Hbr & Hbu & Hsz1).
  destruct (l_dom s kids (v_linked _ _ V) _ _ Hold) as [Hlive _].
  assert (kids1 !! this = Some old) as Hold1 by (by rewrite (e_kids _ _ _ _ X1)).
  assert (forall y, ~ up s1 this y) as Hthis1 by (intros y Hy; apply (Hthis y); by apply (e_up _ _ _ _ X1)).
  assert (b <> this) as Hne by (intros ->; destruct Hlive; congruence).
  assert (is_Some (nodes s1 !! b)) as Hblive.
  { destruct h, t; [done|]. destruct Hb as (_ & Hd & _). destruct (nodes s1 !! b); [by eexists|done]. }
  destruct (insert_fresh s1 kids1 this b old V1 Hold1 Hblive Hbr Hne Hthis1 Hbu) as (s2 & E2 & V2 & D2 & U2).
  pose proof (v_linked _ _ V1) as L1. set (kids2 := <[this := old ++ [b]]> kids1) in *.
  assert (forall x, x <> this -> kids2 !! x = kids1 !! x) as Hk2 by (intros x Hx; by apply lookup_insert_ne).
  assert (this ∉ old) as Hto by (by apply (kid_not_orphan s1 kids1 this)).
  exists b, s1, s2, kids2. split; [done|]. split; [done|]. split; [done|]. split; [|split; [apply lookup_insert_eq|split; [|split]]].
  - split.
    + intros x Hx. rewrite (D2 x). by apply (e_data _ _ _ _ X1).
    + intros x Hx Hxt. rewrite Hk2 by done. by apply (e_kids _ _ _ _ X1).
    + intros x y Hx Hxy. apply (e_up _ _ _ _ X1); [done|]. destruct (U2 x y Hxy) as [->|]; [|done]. destruct Hx. congruence.
  - apply Forall2_app.
    + apply (Forall2_shape_except h this s1 kids1); [done..|]. eapply Forall2_impl; [exact Hts0|]. intros x tx.
      by apply (shape_extends h s kids s1 kids1 x tx (v_linked _ _ V)).
    + constructor; [|constructor]. by apply (shape_except h this s1 kids1).
  - intros y Hy. destruct (U2 this y Hy) as [|Hy1]; [done|by apply (Hthis1 y)].
  - by rewrite (same_data_size _ _ D2).
Qed.

Lemma copy_children_correct clone h : clones_into clone h ->
  forall l ts, chain next source l -> Forall2 (shape h source kids0) l ts ->
  forall n s kids this old ts0,
    valid s kids -> kids !! this = Some old -> Forall2 (shape h s kids) old ts0 -> (forall y, ~ up s this y) ->
    (length l <= n)%nat -> Z.of_nat (size (nodes s) + list_sum (map tree_size ts)) * 2 <= DynArray.INT_MAX ->
    exists s' kids' cs, copy_children clone source n this (head l) s = Ret s' /\ valid s' kids' /\ appended s kids this s' kids' /\
      kids' !! this = Some cs /\ Forall2 (shape h s' kids') cs (ts0 ++ ts) /\ (forall y, ~ up s' this y) /\
      size (nodes s') = (size (nodes s) + list_sum (map tree_size ts))%nat.
Proof.
  intros Hclone. induction l as [|a l IH]; intros ts Hc Hts n s kids this old ts0 V Hold Hts0 Hthis Hn Hmax.
  { apply Forall2_nil_inv_l in Hts as ->. exists s, kids, old. rewrite app_nil_r. cbn.
    assert (copy_children clone source n this None s = Ret s) as -> by (by destruct n).
    do 2 (split; [done|]). split; [by split|]. do 3 (split; [done|]). lia. }
  apply Forall2_cons_inv_l in Hts as (t & ts' & Ht & Hts & ->). destruct n as [|n]; [cbn in Hn; lia|].
  destruct Hc as [(m & Hm & Hnx) Hc]. assert (list_sum (map tree_size (t :: ts')) = tree_size t + list_sum (map tree_size ts'))%nat as Es by done.
  rewrite Es in *.
  destruct (append_clone clone h a t s kids this old ts0 Hclone Ht V ltac:(lia) Hold Hts0 Hthis)
    as (b & s1 & s2 & kids2 & E1 & E2 & V2 & A2 & Hold2 & Hts2 & Hthis2 & Hsz2).
  destruct (IH ts' Hc Hts n s2 kids2 this (old ++ [b]) (ts0 ++ [t]) V2 Hold2 Hts2 Hthis2)
    as (s3 & kids3 & cs & E3 & V3 & A3 & Hk3 & Hs3 & Hthis3 & Hsz3); [cbn in Hn; lia|rewrite Hsz2; lia|].
  exists s3, kids3, cs. cbn [copy_children head]. rewrite E1. cbn [mbind outcome_bind fst snd]. rewrite E2. cbn [mbind outcome_bind].
  rewrite (deref_run _ _ _ Hm). cbn [mbind outcome_bind]. rewrite Hnx. split; [done|]. split; [done|].
  split; [by apply (appended_trans s kids this s2 kids2)|]. split; [done|]. rewrite <-app_assoc in Hs3. split; [done|]. split; [done|lia].
Qed.

Lemma DeepClone_into_correct h : clones_into (DeepClone_into source h) h.
Proof.
  induction h as [|h IH]; intros a [d ts] s kids; [done|]. cbn [shape]. intros (Hp & Hd & l & Hl & Hts) V Hmax.
  cbn [tree_size] in Hmax |- *. destruct (nodes source !! a) as [n|] eqn:Hn; [|done]. injection Hd as Hd.
  cbn [DeepClone_into]. unfold ShallowClone_into. rewrite (deref_run _ _ _ Hn). cbn [mbind outcome_bind]. rewrite Hd, clone_payload_plain by done.
  destruct (CreateUnlinkedNode_correct s kids d V (plain_pool d Hp)) as (b & s1 & E1 & Hb & Hbr & N1 & V1); [lia|].
  rewrite E1. cbn [mbind outcome_bind fst snd]. destruct (l_node source kids0 linked0 a n Hn) as (l' & Hl' & Hf & _).
  rewrite Hl in Hl'. injection Hl' as <-. rewrite Hf. set (kids1 := <[b := []]> kids) in *.
  assert (size (nodes s1) = S (size (nodes s))) as Hsz1 by (rewrite N1; by apply map_size_insert_None).
  assert (forall y, ~ up s1 b y) as Hbu by (intros y (m & Hm & Hpm); rewrite N1, lookup_insert_eq in Hm; by injection Hm as <-).
  assert (extends s kids s1 kids1) as X1 by (by apply (created_extends s kids s1 b d)).
  destruct (copy_children_correct _ h IH l ts (chain_next source kids0 a l linked0 [] Hl) Hts (size (nodes source)) s1 kids1 b [] [] V1)
    as (s2 & kids2 & cs & E2 & V2 & A2 & Hk2 & Hs2 & Hb2 & Hsz2);
    [apply lookup_insert_eq|constructor|done|by apply (kids_length source kids0 a)|rewrite Hsz1; lia|].
  rewrite E2. cbn [mbind outcome_bind app] in *. exists b, s2, kids2. split; [done|]. split; [done|].
  pose proof (appended_extends s kids b s2 kids2 s1 kids1 X1 A2) as A.
  assert (is_Some (nodes s1 !! b)) as Hb1 by (rewrite N1, lookup_insert_eq; by eexists).
  split; [|split; [|split; [done|split; [done|split; [done|lia]]]]].
  - destruct A as [A B C]. split; [done| |done]. intros x Hx. apply B; [done|]. intros ->. destruct Hx. congruence.
  - split; [done|]. rewrite (ap_data _ _ _ _ _ A2) by done. rewrite N1, lookup_insert_eq. split; [done|]. by exists cs.
Qed.

End source.
(** ** The copy of a document *)

Lemma shape_mono (h h' : nat) (s : document) (kids : gmap addr (list addr)) : (h <= h')%nat -> forall a t, shape h s kids a t -> shape h' s kids a t.
Proof.
  revert h'. induction h as [|h IH]; intros [|h'] Hle a [d ts]; [done|done|lia|]. cbn [shape]. intros (Hp & Hd & l & Hl & Hts).
  split; [done|]. split; [done|]. exists l. split; [done|]. eapply Forall2_impl; [exact Hts|]. apply IH. lia.
Qed.

(** C10: [XMLDocument::DeepCopy] makes the target a faithful copy: whatever the target
    held is freed, and its top-level nodes become, in order, trees of the same nodes
    as those of the source, made of new nodes only; the pointers of the target form
    a tree and it holds nothing else.  [h] is the height of the source. *)
Theorem DeepCopy_faithful h source kids0 l ts target kids :
  valid source kids0 -> kids0 !! root = Some l -> Forall2 (shape h source kids0) l ts -> valid target kids ->
  Z.of_nat (S (list_sum (map tree_size ts))) * 2 <= DynArray.INT_MAX ->
  exists depth, forall fuel, (depth <= fuel)%nat ->
    exists s' kids' cs, DeepCopy fuel source (Some target) = Ret s' /\ valid s' kids' /\ kids' !! root = Some cs /\
      Forall2 (shape fuel s' kids') cs ts /\ size (nodes s') = S (list_sum (map tree_size ts)).
Proof.
  intros V0 Hl Hts V Hmax. destruct (Clear_correct target kids V) as (depth & Hclear). exists (Nat.max depth h). intros fuel Hf.
  destruct (Hclear fuel ltac:(lia)) as (s1 & E1 & V1 & Hroot & _). pose proof V0 as [L0 O0 _].
  destruct (o_root _ _ O0) as (n & Hn & _). destruct (l_node source kids0 L0 root n Hn) as (l' & Hl' & Hfc & _).
  rewrite Hl in Hl'. injection Hl' as <-.
  assert (size (nodes s1) = 1%nat) as Hsz.
  { rewrite <-size_dom. replace (dom (nodes s1)) with ({[root]} : gset addr); [apply size_singleton|]. apply set_eq. intros x.
    by rewrite elem_of_singleton, elem_of_dom, Hroot. }
  assert (forall y, ~ up s1 root y) as Hup.
  { intros y (m & Hm & Hpm). destruct (o_root _ _ (v_owned _ _ V1)) as (m' & Hm' & Hpm' & _). congruence. }
  destruct (copy_children_correct source kids0 _ fuel (DeepClone_into_correct source kids0 L0 fuel) l ts
    (chain_next source kids0 root l L0 [] Hl)
    (Forall2_impl _ _ _ _ Hts (shape_mono h fuel source kids0 ltac:(lia)))
    (size (nodes source)) s1 {[root := []]} root [] [] V1 (lookup_singleton_eq _ _) (Forall2_nil_2 _ _ _) Hup)
    as (s2 & kids2 & cs & E2 & V2 & _ & Hk2 & Hs2 & _ & Hsz2); [by apply (kids_length source kids0 root)|rewrite Hsz; lia|].
  exists s2, kids2, cs. unfold DeepCopy. rewrite E1. cbn [mbind outcome_bind]. rewrite (deref_run _ _ _ Hn). cbn [mbind outcome_bind].
  rewrite Hfc, E2. do 3 (split; [done|]). split; [done|]. rewrite Hsz2, Hsz. lia.
Qed.

End document.

(** The document of [Dom.doc6] copied over another one. *)
Lemma DeepCopy_faithful_witness :
  exists fuel s' kids' cs, DeepCopy fuel doc6 (Some doc3) = Ret s' /\ valid s' kids' /\ kids' !! root = Some cs /\
    Forall2 (shape fuel s' kids') cs [Tree elem_a []; Tree elem_b []; Tree text_t []].
Proof.
  assert (forall a d, data <$> nodes doc6 !! a = Some d -> kids6 !! a = Some [] -> plain d -> shape 1 doc6 kids6 a (Tree d [])) as Hleaf.
  { intros a d Hd Hk Hp. split; [exact Hp|]. split; [exact Hd|]. exists []. split; [exact Hk|constructor]. }
  assert (Forall2 (shape 1 doc6 kids6) [node_a; node_b; node_t] [Tree elem_a []; Tree elem_b []; Tree text_t []]) as Hts.
  { constructor; [|constructor; [|constructor; [|constructor]]].
    - refine (Hleaf node_a elem_a _ _ _); [vm_compute; reflexivity|vm_compute; reflexivity|apply NoDup_singleton].
    - refine (Hleaf node_b elem_b _ _ _); [vm_compute; reflexivity|vm_compute; reflexivity|apply NoDup_nil; exact I].
    - refine (Hleaf node_t text_t _ _ _); [vm_compute; reflexivity|vm_compute; reflexivity|exact I]. }
  assert (Z.of_nat (S (list_sum (map tree_size [Tree elem_a []; Tree elem_b []; Tree text_t []]))) * 2 <= DynArray.INT_MAX) as Hmax
    by (vm_compute; discriminate).
  destruct (DeepCopy_faithful 1 doc6 kids6 _ _ doc3 kids3 doc6_valid kids6_root Hts doc3_valid Hmax) as (depth & Hd).
  destruct (Hd depth (le_n _)) as (s' & kids' & cs & E & V & Hk & Hs & _). exists depth, s', kids', cs.
  exact (conj E (conj V (conj Hk Hs))).
Defined.

End Copy.
