(* ===== verification/XmlBuild.v ===== *)
(** * The parser on the tree: XMLNode::ParseDeep and XMLDocument::Parse in
    tinyxml2.cpp, with the nodes they create, link and delete

    [XmlParse] gives the text its meaning: the fields of the document and the list of
    nodes.  Here the same functions run on the document of [XmlDom]: each node is
    taken from its pool when its header is seen, filled as it is read, put at the end
    of its parent's list or deleted.  What is read from the text, and what a node
    keeps of it, is computed by the functions of [XmlParse]. *)

From stdpp Require Import fin_sets.
From S2P Require Import Prelude CStd XmlStr XmlParse XmlMem XmlDom XmlNav.
#[local] Open Scope Z_scope.
Import XMLUtil StrPair XMLDocument Dom.

Module Build.

(** ** What a node keeps of the text *)

Definition attribute_text (a : attribute) : bytes * bytes := (c_str (a_name a), c_str (a_value a)).
Definition payload_of (n : node) : payload :=
  match n with
  | XMLElement v attributes _ _ _ => PElement (c_str v) (map attribute_text attributes)
  | XMLText v cdata _ => PText (c_str v) cdata
  | XMLComment v _ => PComment (c_str v)
  | XMLDeclaration v _ => PDeclaration (c_str v)
  | XMLUnknown v _ => PUnknown (c_str v)
  end.
Fixpoint tree_of (n : node) : tree :=
  Tree (payload_of n) (match n with XMLElement _ _ _ ch _ => map tree_of ch | _ => [] end).
(** The fields of the node itself, without its children. *)
Definition own (n : node) : node :=
  match n with XMLElement v attributes closing _ line => XMLElement v attributes closing [] line | n => n end.
(** A node just made by [XMLDocument::Identify]. *)
Definition fresh_payload (kind : fresh) : payload :=
  match kind with
  | FDeclaration => PDeclaration []
  | FComment => PComment []
  | FText cdata => PText [] cdata
  | FUnknown => PUnknown []
  | FElement => PElement [] []
  end.

Section document.
Context {P : Type} `{PoolLaws P}.
Notation document := (Dom.XMLDocument (P := P)).

(** What a [ParseDeep] returns: the fields of the document, the position, the end tag
    and the nodes; for a node also the fields it has set. *)
Definition level_result : Type := doc * option bytes * StrPair.t * document.
Definition node_result : Type := doc * option bytes * StrPair.t * node * document.

Definition set_data (d : payload) (n : XMLNode) : XMLNode :=
  mk_node (parent n) (firstChild n) (lastChild n) (prev n) (next n) d.

(** ** New nodes *)

(** [XMLDocument::NewElement] and its four companions: a node of the kind, with its
    value set.  Only a declaration has a text for a null pointer. *)
Definition New (d : payload) (str : option bytes) (s : document) : outcome (addr * document) :=
  x ← CreateUnlinkedNode d s;
  str ← of_access str;
  s ← upd x.1 (fun n => set_data (Nav.SetValue str (data n)) n) x.2;
  Ret (x.1, s).
Definition NewElement : option bytes -> document -> outcome (addr * document) := New (PElement [] []).
Definition NewComment : option bytes -> document -> outcome (addr * document) := New (PComment []).
Definition NewText : option bytes -> document -> outcome (addr * document) := New (PText [] false).
Definition NewDeclaration (str : option bytes) : document -> outcome (addr * document) :=
  New (PDeclaration []) (Some (default (bs "xml version=" ++ [z2b 34] ++ bs "1.0" ++ [z2b 34] ++ bs " encoding=" ++
                                        [z2b 34] ++ bs "UTF-8" ++ [z2b 34]) str)).
Definition NewUnknown : option bytes -> document -> outcome (addr * document) := New (PUnknown []).

(** A new node is a node created with its value. *)
Lemma New_creates d str (s : document) : New d (Some str) s = CreateUnlinkedNode (Nav.SetValue str d) s.
Proof.
  assert (pool_of (Nav.SetValue str d) = pool_of d) as Ep by by destruct d.
  unfold New, CreateUnlinkedNode. rewrite Ep. destruct (pool_alloc (pools s (pool_of d))) as [[i q]| |]; cbn; [|done..].
  destruct (DynArray.Push root (pool_of d, i) (unlinked s)) as [u| |]; cbn; [|done..].
  unfold upd. cbn. rewrite lookup_insert_eq. cbn. unfold set_nodes, set_unlinked. cbn. by rewrite insert_insert_eq.
Qed.

(** ** The operations *)

(** [XMLNode::DeleteNode]: no path of the tree is longer than there are nodes. *)
Definition delete_node (a : addr) (s : document) : outcome document := DeleteNode (size (nodes s)) a s.

(** [XMLDocument::Identify]: the node it makes is not linked. *)
Definition Identify (d : doc) (p : bytes) (s : document)
  : outcome (option (addr * fresh * Z) * bytes * doc * document) :=
  match XMLDocument.Identify d p with
  | (None, p, d) => Ret (None, p, d, s)
  | (Some (kind, line0), p, d) =>
      x ← CreateUnlinkedNode (fresh_payload kind) s;
      Ret (Some (x.1, kind, line0), p, d, x.2)
  end.

(** The [ParseDeep] of a node without children: it sets its value. *)
Definition leaf_ParseDeep (this : addr) (r : XMLDocument.result) (s : document) : outcome node_result :=
  let '(d, pos, endTag, n) := r in
  s ← upd this (set_data (payload_of n)) s;
  Ret (d, pos, endTag, n, s).

(** [XMLElement::ParseDeep]: the name, the attributes, then the children. *)
Definition XMLElement_ParseDeep (parse_children : addr -> doc -> bytes -> document -> outcome level_result)
    (this : addr) (line0 : Z) (d : doc) (p : bytes) (s : document) : outcome node_result :=
  let (p, line) := SkipWhiteSpace p (parseCurLineNum d) in
  let d := set_line d line in
  let (closing, p) :=
    match p with
    | b :: p' => if b2z b =? 47 then (CLOSING, p') else (OPEN, p)
    | [] => (OPEN, p)
    end in
  match ParseName p with
  | None => Ret (d, None, StrPair.empty, XMLElement StrPair.empty [] closing [] line0, s)
  | Some (name, p) =>
      let value := Set_ name 0 in
      s ← upd this (set_data (PElement (c_str value) [])) s;
      match ParseAttributes (S (length p)) value line0 closing [] d p with
      | None => Undef
      | Some (d, pos, closing, attributes) =>
          let n := XMLElement value attributes closing [] line0 in
          s ← upd this (set_data (payload_of n)) s;
          match pos, closing with
          | Some ((_ :: _) as p), OPEN =>
              x ← parse_children this d p s;
              let '(d, pos, endTag, s) := x in
              Ret (d, pos, endTag, n, s)
          | _, _ => Ret (d, pos, StrPair.empty, n, s)
          end
      end
  end.

Definition node_ParseDeep (parse_children : addr -> doc -> bytes -> document -> outcome level_result)
    (kind : fresh) (this : addr) (line0 : Z) (d : doc) (p : bytes) (s : document) : outcome node_result :=
  match kind with
  | FDeclaration => leaf_ParseDeep this (XMLDeclaration_ParseDeep line0 d p) s
  | FComment => leaf_ParseDeep this (XMLComment_ParseDeep line0 d p) s
  | FText cdata => leaf_ParseDeep this (XMLText_ParseDeep cdata line0 d p) s
  | FUnknown => leaf_ParseDeep this (XMLUnknown_ParseDeep line0 d p) s
  | FElement => XMLElement_ParseDeep parse_children this line0 d p s
  end.

(** Whether a declaration may be put under [this]: the loop over the children of the
    document. *)
Fixpoint all_declarations (fuel : nat) (existingNode : option addr) (s : document) : outcome bool :=
  match existingNode, fuel with
  | None, _ => Ret true
  | Some _, O => Undef
  | Some a, S fuel =>
      n ← deref a s;
      if Nav.ToDeclaration (data n) then all_declarations fuel (next n) s else Ret false
  end.
Definition well_located (this : addr) (s : document) : outcome bool :=
  t ← deref this s;
  if Nav.ToDocument (data t) then r ← deref root s; all_declarations (size (nodes s)) (firstChild r) s
  else Ret false.

(** The constructor and the destructor of the depth tracker around the loop. *)
Definition with_depth (loop : addr -> doc -> bytes -> document -> outcome level_result)
    (this : addr) (d : doc) (p : bytes) (s : document) : outcome level_result :=
  let d := PushDepth d in
  if Error d then Ret (PopDepth d, None, StrPair.empty, s)
  else
    x ← loop this d p s;
    let '(d, pos, endTag, s) := x in
    Ret (PopDepth d, pos, endTag, s).

(** [XMLNode::ParseDeep]: the loop over the nodes of a level. *)
Fixpoint ParseDeep_loop (fuel : nat) (this : addr) (d : doc) (p : bytes) (s : document) : outcome level_result :=
  match fuel with
  | O => Undef
  | S fuel =>
      match p with
      | [] => Ret (d, None, StrPair.empty, s)
      | _ =>
          x ← Identify d p s;
          match x with
          | (None, p, d, s) => Ret (d, None, StrPair.empty, s)
          | (Some (a, kind, line0), p, d, s) =>
              x ← node_ParseDeep (with_depth (ParseDeep_loop fuel)) kind a line0 d p s;
              match x with
              | (d, None, _, _, s) =>
                  s ← delete_node a s;
                  Ret (if Error d then d else SetError d XML_ERROR_PARSING line0 None, None, StrPair.empty, s)
              | (d, Some p, endTag, n, s) =>
                  wellLocated ← (if ToDeclaration n then well_located this s else Ret true);
                  if negb wellLocated then
                    s ← delete_node a s;
                    Ret (SetError d XML_ERROR_PARSING_DECLARATION line0 (Some (bs "XMLDeclaration value=" ++ Value n)),
                         None, StrPair.empty, s)
                  else
                    match n with
                    | XMLElement value _ CLOSING _ _ =>
                        s ← SetTracked a s;
                        s ← delete_node a s;
                        Ret (d, Some p, value, s)
                    | XMLElement value _ closing _ _ =>
                        if mismatch endTag value closing then
                          s ← delete_node a s;
                          Ret (SetError d XML_ERROR_MISMATCHED_ELEMENT line0 (element_name_message value),
                               None, StrPair.empty, s)
                        else s ← InsertEndChild this a s; ParseDeep_loop fuel this d p s
                    | _ => s ← InsertEndChild this a s; ParseDeep_loop fuel this d p s
                    end
              end
          end
      end
  end.

(** [XMLDocument::Parse()] on the text of the buffer. *)
Definition Parse_buffer (d : doc) (buffer : bytes) (s : document) : outcome (doc * document) :=
  let (p, line) := SkipWhiteSpace buffer 1 in
  let d := set_line d line in
  let (p, bom) := ReadBOM p in
  let d := set_bom d bom in
  match p with
  | [] => Ret (SetError d XML_ERROR_EMPTY_DOCUMENT 0 None, s)
  | _ =>
      x ← with_depth (ParseDeep_loop (S (length p))) root d p s;
      let '(d, _, _, s) := x in
      Ret (d, s)
  end.

(** [_elementPool.Clear()], [_textPool.Clear()] and [_commentPool.Clear()]: the items of
    the pools are gone.  The source also clears the pool of the attributes, which are
    values here; that every item of it has been given back when its element is
    deleted is in XmlAttr. *)
Definition clear_pools (s : document) : document :=
  mk_document (filter (fun x => fst x.1 = 0%nat) (nodes s)) (unlinked s)
    (fun t => match t with O => pools s O | _ => pool_clear (pools s t) end).
Definition clear_nodes (s : document) : outcome document := Dom.Clear (S (size (nodes s))) s.
(** [XMLDocument::Parse( p, len )]. *)
Definition Parse (d : doc) (p : option bytes) (len : option Z) (s : document) : outcome (doc * document) :=
  s ← clear_nodes s;
  let d := XMLDocument.Clear d in
  let empty := Ret (SetError d XML_ERROR_EMPTY_DOCUMENT 0 None, s) in
  match p with
  | None => empty
  | Some text =>
      if bool_decide (len = Some 0) || bool_decide (until_nul text = []) then empty
      else
        let buffer := match len with None => until_nul text | Some n => until_nul (ztake n text) end in
        x ← Parse_buffer d buffer s;
        let '(d, s) := x in
        if Error d then s ← DeleteChildren (size (nodes s)) root s; Ret (d, clear_pools s)
        else Ret (d, s)
  end.

(** [XMLDocument::LoadFile]: unlike [Parse] it keeps what was built before an
    error. *)
Definition LoadFile_fp (d : doc) (fp : xml_file) (s : document) : outcome (doc * document) :=
  s ← clear_nodes s;
  let d := XMLDocument.Clear d in
  if getc_error fp then Ret (SetError d XML_ERROR_FILE_READ_ERROR 0 None, s)
  else if file_length fp =? -1 then Ret (SetError d XML_ERROR_FILE_READ_ERROR 0 None, s)
  else if file_length fp =? 0 then Ret (SetError d XML_ERROR_EMPTY_DOCUMENT 0 None, s)
  else
    let read := ztake (file_length fp) (file_bytes fp) in
    if negb (zlen read =? file_length fp) then Ret (SetError d XML_ERROR_FILE_READ_ERROR 0 None, s)
    else Parse_buffer d (until_nul read) s.
Definition LoadFile (fopen : bytes -> option xml_file) (d : doc) (filename : option bytes) (s : document)
  : outcome (doc * document) :=
  match filename with
  | None => Ret (SetError d XML_ERROR_FILE_COULD_NOT_BE_OPENED 0 (Some (bs "filename=<null>")), s)
  | Some filename =>
      s ← clear_nodes s;
      let d := XMLDocument.Clear d in
      match fopen filename with
      | None => Ret (SetError d XML_ERROR_FILE_NOT_FOUND 0 (Some (bs "filename=" ++ filename)), s)
      | Some fp => LoadFile_fp d fp s
      end
  end.

(** ** What a part of the parser does to the tree *)

Definition live (s : document) (x : addr) : Prop := is_Some (nodes s !! x).
(** A node without a parent: the document, or a node of [unlinked]. *)
Definition orphan (s : document) (x : addr) : Prop := live s x /\ forall y, ~ up s x y.

(** [s'] may have more nodes than [s]; those of [s] are what and where they were,
    except that the list of [this] may have changed.  No node is without a parent
    that was not before. *)
Record grown (s : document) (kids : gmap addr (list addr)) (this : option addr) (s' : document)
    (kids' : gmap addr (list addr)) : Prop := {
  g_data : forall x, live s x -> data <$> nodes s' !! x = data <$> nodes s !! x;
  g_kids : forall x, live s x -> Some x <> this -> kids' !! x = kids !! x;
  g_up : forall x y, live s x -> up s' x y <-> up s x y;
  g_orphan : forall x, orphan s' x <-> orphan s x }.

(** [s'] has the new node [a], without a parent, and nodes below it. *)
Record sprouted (s : document) (kids : gmap addr (list addr)) (a : addr) (s' : document) (kids' : gmap addr (list addr)) : Prop := {
  sp_new : nodes s !! a = None;
  sp_root : a <> root;
  sp_data : forall x, live s x -> data <$> nodes s' !! x = data <$> nodes s !! x;
  sp_kids : forall x, live s x -> kids' !! x = kids !! x;
  sp_up : forall x y, live s x -> up s' x y <-> up s x y;
  sp_orphan : forall x, orphan s' x <-> orphan s x \/ x = a }.

Lemma live_data s s' x : data <$> nodes s' !! x = data <$> nodes s !! x -> live s x -> live s' x.
Proof. intros E [n Hn]. rewrite Hn in E. unfold live. destruct (nodes s' !! x); [by eexists|done]. Qed.
Lemma orphan_parent s x n : nodes s !! x = Some n -> orphan s x <-> parent n = None.
Proof.
  intros Hn. split.
  - intros [_ Hu]. destruct (parent n) as [y|] eqn:Hp; [|done]. exfalso. apply (Hu y). by exists n.
  - intros Hp. split; [by eexists|]. intros y (m & Hm & Hpm). congruence.
Qed.
Lemma grown_refl s kids this : grown s kids this s kids.
Proof. by split. Qed.
Lemma grown_live s kids this s' kids' x : grown s kids this s' kids' -> live s x -> live s' x.
Proof. intros [G _ _ _] Hx. apply (live_data s); auto. Qed.
Lemma grown_trans s kids this s1 kids1 s2 kids2 :
  grown s kids this s1 kids1 -> grown s1 kids1 this s2 kids2 -> grown s kids this s2 kids2.
Proof.
  intros G1 G2. pose proof (fun x => grown_live _ _ _ _ _ x G1) as Hl. destruct G1 as [A1 B1 C1 D1], G2 as [A2 B2 C2 D2]. split.
  - intros x Hx. rewrite A2, A1; auto.
  - intros x Hx Hne. rewrite B2, B1; auto.
  - intros x y Hx. rewrite C2, C1; auto.
  - intros x. by rewrite D2, D1.
Qed.
Lemma sprouted_live s kids a s' kids' x : sprouted s kids a s' kids' -> live s x -> live s' x /\ x <> a.
Proof. intros [G1 G2 G3 _ _ _] Hx. split; [apply (live_data s); auto|]. intros ->. destruct Hx. congruence. Qed.
(** What happens below the new node is no change to the others. *)
Lemma sprouted_grown s kids a s1 kids1 s2 kids2 :
  sprouted s kids a s1 kids1 -> grown s1 kids1 (Some a) s2 kids2 -> sprouted s kids a s2 kids2.
Proof.
  intros S1 [A2 B2 C2 D2]. pose proof (fun x => sprouted_live _ _ _ _ _ x S1) as Hl. destruct S1 as [N R A1 B1 C1 D1]. split; try done.
  - intros x Hx. destruct (Hl x Hx). rewrite A2, A1; auto.
  - intros x Hx. destruct (Hl x Hx). rewrite B2, B1; [done..|congruence].
  - intros x y Hx. destruct (Hl x Hx). rewrite C2, C1; auto.
  - intros x. by rewrite D2, D1.
Qed.
Lemma sprouted_extends s kids a s' kids' : sprouted s kids a s' kids' -> extends s kids s' kids'.
Proof. intros [N R A B C D]. split; [done|done|]. intros x y Hx. by apply C. Qed.
Lemma sprouted_orphan s kids a s' kids' : sprouted s kids a s' kids' -> orphan s' a.
Proof. intros S. apply (sp_orphan _ _ _ _ _ S). by right. Qed.

(** *** Filling a node *)

Definition same_pointers (n m : XMLNode) : Prop :=
  parent m = parent n /\ firstChild m = firstChild n /\ lastChild m = lastChild n /\ prev m = prev n /\ next m = next n.
Lemma linked_chg (s s' : document) g kids : chg s s' g -> (forall x n, same_pointers n (g x n)) -> linked s kids -> linked s' kids.
Proof.
  intros C Hg [L1 L2 L3 L4 L5]. split.
  - intros a n' Hn'. destruct (chg_inv _ _ _ _ _ C Hn') as (n & Hn & ->). destruct (Hg a n) as (_ & -> & -> & _). by apply L1.
  - intros p l1 a l2 Hk. destruct (L2 p l1 a l2 Hk) as (n & Hn & Hr). exists (g a n). split; [by apply (chg_some _ _ _ _ _ C)|].
    by destruct (Hg a n) as (-> & _ & _ & -> & ->).
  - intros a n' p Hn'. destruct (chg_inv _ _ _ _ _ C Hn') as (n & Hn & ->). destruct (Hg a n) as (-> & _). by apply L3.
  - intros a n' Hn'. destruct (chg_inv _ _ _ _ _ C Hn') as (n & Hn & ->). destruct (Hg a n) as (-> & _ & _ & -> & ->). by apply (L4 a).
  - intros p l Hk. destruct (L5 p l Hk) as [Hp ND]. split; [by apply (chg_is_some _ _ _ _ C)|done].
Qed.
Lemma up_chg (s s' : document) g : chg s s' g -> (forall x n, parent (g x n) = parent n) -> forall x y, up s' x y <-> up s x y.
Proof.
  intros C Hg x y. split.
  - intros (n' & Hn' & Hp). destruct (chg_inv _ _ _ _ _ C Hn') as (n & Hn & ->). exists n. by rewrite Hg in Hp.
  - intros (n & Hn & Hp). exists (g x n). split; [by apply (chg_some _ _ _ _ _ C)|by rewrite Hg].
Qed.

Lemma fill_correct (s : document) kids a d d' :
  valid s kids -> data <$> nodes s !! a = Some d -> pool_of d' = pool_of d -> a <> root ->
  exists s' : document, upd a (set_data d') s = Ret s' /\ valid s' kids /\ (forall x y, up s' x y <-> up s x y) /\
    (forall x : addr, data <$> nodes s' !! x = if decide (x = a) then Some d' else data <$> nodes s !! x).
Proof.
  intros V Hd Hpool Hr. pose proof V as [L O (rank & N & R)]. destruct (nodes s !! a) as [n|] eqn:Hn; [|done]. injection Hd as <-.
  destruct (upd_ok a (set_data d') s ltac:(by eexists)) as (s' & E & C). exists s'. split; [done|].
  assert (forall x m, same_pointers m (at_node a (set_data d') x m)) as Hg by (intros x m; unfold at_node; by destruct (decide _)).
  assert (forall x m, parent (at_node a (set_data d') x m) = parent m) as Hp by (intros x m; apply (Hg x m)).
  pose proof (up_chg s s' _ C Hp) as U.
  assert (forall x : addr, data <$> nodes s' !! x = if decide (x = a) then Some d' else data <$> nodes s !! x) as D.
  { intros x. destruct C as (A & _). rewrite A. unfold at_node. destruct (decide (x = a)) as [->|]; [by rewrite Hn|].
    by destruct (nodes s !! x). }
  split; [|done]. split; [by apply (linked_chg s s' _ kids C)| |].
  2: { exists rank, N. apply (ranked_up rank N s); [|done]. intros x y. by apply U. }
  assert (forall (x : addr) m, nodes s' !! x = Some m -> pool_of (data m) = fst x) as Htag.
  { intros x m Hm. specialize (D x). rewrite Hm in D. destruct (decide (x = a)) as [->|].
    - injection D as ->. rewrite Hpool. by apply (o_tag _ _ O).
    - destruct (nodes s !! x) as [m'|] eqn:Hm'; [|done]. injection D as ->. by apply (o_tag _ _ O). }
  destruct O as [O1 O2 O3 O4 O5 O6 O7]. pose proof C as (A & Bu & Bp). split; rewrite ?Bu, ?Bp; try done.
  - intros x. rewrite O3. split; intros ((m & Hm & Hpm) & Hx); (split; [|done]).
    + exists (at_node a (set_data d') x m). split; [by apply (chg_some _ _ _ _ _ C)|by rewrite Hp].
    + destruct (chg_inv _ _ _ _ _ C Hm) as (m' & Hm' & ->). exists m'. by rewrite Hp in Hpm.
  - intros t Ht. destruct (O4 t Ht) as [W Us]. split; [done|]. intros i. rewrite Us, A. by rewrite fmap_is_Some.
  - destruct O6 as (m & Hm & Hpm & Hdm). exists (at_node a (set_data d') root m). split; [by apply (chg_some _ _ _ _ _ C)|].
    rewrite Hp. unfold at_node. by rewrite decide_False.
  - intros x m Hm. destruct (chg_inv _ _ _ _ _ C Hm) as (m' & Hm' & ->). by apply (O7 x m').
Qed.

(** *** Making, filling, dropping and linking the new node *)

Lemma create_sprouts (s : document) kids d :
  valid s kids -> pool_of d <> O -> Z.of_nat (size (nodes s) + 1) * 2 <= DynArray.INT_MAX ->
  exists a (s1 : document), CreateUnlinkedNode d s = Ret (a, s1) /\ valid s1 (<[a := []]> kids) /\
    sprouted s kids a s1 (<[a := []]> kids) /\ data <$> nodes s1 !! a = Some d /\ size (nodes s1) = S (size (nodes s)).
Proof.
  intros V Hd Hm. destruct (CreateUnlinkedNode_correct s kids d V Hd Hm) as (a & s1 & E & Ha & Hr & N1 & V1).
  pose proof (created_extends s kids s1 a d Ha N1) as [X1 X2 X3].
  assert (forall x, nodes s1 !! x = if decide (x = a) then Some (new_node d) else nodes s !! x) as Hn.
  { intros x. rewrite N1. destruct (decide (x = a)) as [->|]; [apply lookup_insert_eq|by apply lookup_insert_ne]. }
  assert (forall x y, up s1 x y <-> up s x y) as U.
  { intros x y. unfold up. setoid_rewrite Hn. destruct (decide (x = a)) as [->|]; [|done]. rewrite Ha.
    split; intros (m & Hm' & Hp); [by injection Hm' as <-|done]. }
  exists a, s1. split; [done|]. split; [done|]. split; [|split].
  - split; try done. intros x. unfold orphan, live. setoid_rewrite U. rewrite Hn.
    destruct (decide (x = a)) as [->|]; [|naive_solver]. split; [by right|]. intros _. split; [by eexists|].
    intros y (m & Hm' & _). congruence.
  - rewrite Hn. by rewrite decide_True.
  - rewrite N1. by apply map_size_insert_None.
Qed.

Lemma sprouted_fill (s : document) kids a (s1 : document) kids1 d d' :
  sprouted s kids a s1 kids1 -> valid s1 kids1 -> data <$> nodes s1 !! a = Some d -> pool_of d' = pool_of d ->
  exists s2 : document, upd a (set_data d') s1 = Ret s2 /\ valid s2 kids1 /\ sprouted s kids a s2 kids1 /\
    data <$> nodes s2 !! a = Some d' /\ size (nodes s2) = size (nodes s1).
Proof.
  intros S1 V1 Hd Hp. pose proof (fun x => sprouted_live _ _ _ _ _ x S1) as Hl.
  destruct (fill_correct s1 kids1 a d d' V1 Hd Hp (sp_root _ _ _ _ _ S1)) as (s2 & E & V2 & U & D). exists s2.
  assert (forall x, live s2 x <-> live s1 x) as Hl2.
  { intros x. specialize (D x). unfold live. destruct (decide (x = a)) as [->|].
    - destruct (nodes s1 !! a), (nodes s2 !! a); done.
    - destruct (nodes s1 !! x), (nodes s2 !! x); done. }
  split; [done|]. split; [done|]. split; [|split].
  - destruct S1 as [N R A B C O]. split; try done.
    + intros x Hx. destruct (Hl x Hx). rewrite D, decide_False by done. by apply A.
    + intros x y Hx. rewrite U. by apply C.
    + intros x. rewrite <-O. unfold orphan. setoid_rewrite U. by rewrite Hl2.
  - rewrite D. by rewrite decide_True.
  - rewrite <-!size_dom. f_equal. apply set_eq. intros x. rewrite !elem_of_dom. apply Hl2.
Qed.

(** A node that was there before is not below the new one. *)
Lemma old_not_below (s : document) kids a (s1 : document) kids1 x :
  linked s kids -> sprouted s kids a s1 kids1 -> live s x -> ~ rtc (up s1) x a.
Proof.
  intros L S1 Hx X. revert x X Hx. apply (rtc_ind_l (fun x => live s x -> False)).
  - intros Ha. by destruct (sprouted_live _ _ _ _ _ a S1 Ha).
  - intros x y Hxy _ IH Hx. apply IH. apply (sp_up _ _ _ _ _ S1) in Hxy; [|done].
    destruct (up_kid s kids x y L Hxy) as (l & Hl & _). by apply (l_dom s kids L y l).
Qed.

(** [DeleteNode] of the new node undoes everything below it. *)
Lemma discard (s : document) kids a (s1 : document) kids1 :
  valid s kids -> sprouted s kids a s1 kids1 -> valid s1 kids1 ->
  exists (s2 : document) kids2, delete_node a s1 = Ret s2 /\ valid s2 kids2 /\ grown s kids None s2 kids2 /\
    (size (nodes s2) <= size (nodes s1))%nat.
Proof.
  intros V S1 V1. destruct (ranked_size s1 kids1 V1) as (rank & R & Hrank). pose proof V1 as [L1 O1 _].
  destruct (sprouted_orphan _ _ _ _ _ S1) as [[n Hn] Hno]. pose proof (v_linked _ _ V) as L.
  assert (parent n = None) as Hp by (apply (orphan_parent s1 a n Hn); split; [by exists n|done]).
  pose proof (fun x => old_not_below s kids a s1 kids1 x L S1) as Hold.
  destruct (DeleteNode_correct rank (size (nodes s1)) a s1 kids1 ∅ _ L1 O1 R ltac:(apply Hrank; by exists n)
    ltac:(by exists n) (sp_root _ _ _ _ _ S1)) as (s2 & E & L2 & O2 & [P1 P2 P3 P4]).
  pose proof (fun x => sprouted_live _ _ _ _ _ x S1) as Hl. destruct S1 as [N1 R1 A B C O].
  assert (forall x, live s x -> live s2 x) as Hl2 by (intros x Hx; apply P1; split; [apply (Hl x Hx)|by apply Hold]).
  exists s2, (restrict s2 kids1). split; [done|]. split; [|split; [split|]].
  - split; [done|done|]. exists rank, (size (nodes s1)). by apply (ranked_up rank _ s1).
  - intros x Hx. rewrite P2 by (by apply Hl2). by apply A.
  - intros x Hx _. rewrite <-B by done. apply option_eq. intros l. rewrite restrict_lookup. split; [by intros []|].
    intros Hk. split; [done|]. by apply Hl2.
  - intros x y Hx. rewrite <-C by done. split; [apply P3|]. intros X. apply P4; [done|by apply Hl2].
  - intros x. split.
    + intros [Hx Hu]. pose proof (proj1 (P1 x) Hx) as [Hx1 Hnb].
      assert (orphan s1 x) as Ho by (split; [done|]; intros y Hy; apply (Hu y); by apply P4).
      apply O in Ho as [| ->]; [done|by destruct Hnb].
    + intros Ho. split; [by apply Hl2, Ho|]. intros y Hy%P3. apply C in Hy; [|by apply Ho]. by apply Ho in Hy.
  - rewrite <-!size_dom. apply subseteq_size. intros x. rewrite !elem_of_dom. by intros [? _]%P1.
Qed.

(** [InsertEndChild] of the new node adds it to the list of [this]. *)
Lemma plant (s : document) kids a (s1 : document) kids1 this l h t ts :
  valid s kids -> sprouted s kids a s1 kids1 -> valid s1 kids1 -> kids !! this = Some l -> orphan s this ->
  Forall2 (shape h s kids) l ts -> shape h s1 kids1 a t ->
  exists (s2 : document) kids2, InsertEndChild this a s1 = Ret s2 /\ valid s2 kids2 /\ grown s kids (Some this) s2 kids2 /\
    kids2 !! this = Some (l ++ [a]) /\ Forall2 (shape h s2 kids2) (l ++ [a]) (ts ++ [t]) /\ size (nodes s2) = size (nodes s1).
Proof.
  intros V S1 V1 Hk Ho Hts Ht. pose proof (v_linked _ _ V) as L. pose proof (v_linked _ _ V1) as L1.
  pose proof (sprouted_orphan _ _ _ _ _ S1) as [Hla Hna]. pose proof (sprouted_extends _ _ _ _ _ S1) as X.
  pose proof (fun x => sprouted_live _ _ _ _ _ x S1) as Hl. destruct (Hl this (proj1 Ho)) as [Hlt Hta].
  assert (orphan s1 this) as [_ Hno] by (apply (sp_orphan _ _ _ _ _ S1); by left).
  assert (kids1 !! this = Some l) as Hk1 by (rewrite (sp_kids _ _ _ _ _ S1); [done|apply Ho]).
  destruct (insert_fresh s1 kids1 this a l V1 Hk1 Hla (sp_root _ _ _ _ _ S1) ltac:(congruence) Hno Hna) as (s2 & E & V2 & D & U).
  set (kids2 := <[this := l ++ [a]]> kids1) in *. pose proof (v_linked _ _ V2) as L2.
  assert (forall x, x <> this -> kids2 !! x = kids1 !! x) as Hk2 by (intros x Hx; by apply lookup_insert_ne).
  assert (forall x y, up s1 x y -> up s2 x y) as U'.
  { intros x y Hxy. destruct (up_kid s1 kids1 x y L1 Hxy) as (l' & Hl' & Hin). destruct (decide (y = this)) as [->|Hy].
    - apply (kid_up s2 kids2 this (l ++ [a])); [done|by apply lookup_insert_eq|]. rewrite Hk1 in Hl'. injection Hl' as <-. set_solver.
    - apply (kid_up s2 kids2 y l'); [done|by rewrite Hk2|done]. }
  assert (up s2 a this) as Hat by (apply (kid_up s2 kids2 this (l ++ [a])); [done|apply lookup_insert_eq|set_solver]).
  exists s2, kids2. split; [done|]. split; [done|]. split; [|split; [apply lookup_insert_eq|split]].
  - split.
    + intros x Hx. rewrite (D x). by apply (sp_data _ _ _ _ _ S1).
    + intros x Hx Hne. rewrite Hk2 by congruence. by apply (sp_kids _ _ _ _ _ S1).
    + intros x y Hx. rewrite <-(sp_up _ _ _ _ _ S1) by done. split; [|apply U']. intros Hxy.
      destruct (U x y Hxy) as [->|]; [|done]. by destruct (Hl a Hx).
    + intros x. split.
      * intros [Hx Hu]. assert (orphan s1 x) as Hx1; [|apply (sp_orphan _ _ _ _ _ S1) in Hx1 as [| ->]; [done|by destruct (Hu this)]].
        split; [by apply (live_data s2 s1)|]. intros y Hy. apply (Hu y). by apply U'.
      * intros Hx. assert (orphan s1 x) as [Hx1 Hu1] by (apply (sp_orphan _ _ _ _ _ S1); by left). split.
        -- by apply (live_data s1 s2).
        -- intros y Hy. destruct (U x y Hy) as [->|Hy1]; [destruct (Hl a (proj1 Hx)); done|by apply (Hu1 y)].
  - assert (this ∉ l) as Htl by (by apply (kid_not_orphan s1 kids1 this)). apply Forall2_app.
    + apply (Forall2_shape_except h this s1 kids1); [done..|]. eapply Forall2_impl; [exact Hts|]. intros x tx.
      by apply (shape_extends h s kids s1 kids1 x tx L).
    + constructor; [|constructor]. apply (shape_except h this s1 kids1); [done..|congruence|done].
  - by apply same_data_size.
Qed.

(** ** The parser on the tree follows the parser on the text *)

(** The array of unlinked nodes has room for as many nodes as the text has bytes. *)
Definition room (s : document) (p : bytes) : Prop := Z.of_nat (size (nodes s) + length p) * 2 <= DynArray.INT_MAX.
Definition left_over (pos : option bytes) : nat := length (default [] pos).

(** A level: under [this] there are now the nodes [ch], the rest is what it was. *)
Definition builds (h : nat) (s : document) (kids : gmap addr (list addr)) (this : addr) (p : bytes)
    (r : level) (o : outcome level_result) : Prop :=
  let '(d', pos, endTag, ch) := r in
  exists (s' : document) kids' l, o = Ret (d', pos, endTag, s') /\ valid s' kids' /\ grown s kids (Some this) s' kids' /\
    kids' !! this = Some l /\ Forall2 (shape h s' kids') l (map tree_of ch) /\
    (size (nodes s') + left_over pos <= size (nodes s) + length p)%nat.
Definition level_builds (n : nat) (pc : doc -> bytes -> option level)
    (build : addr -> doc -> bytes -> document -> outcome level_result) (h : nat) (D : Z) : Prop :=
  forall d p, (length p < n)%nat -> errorID d = XML_SUCCESS -> parsingDepth d = D ->
    exists r, pc d p = Some r /\ level_ok false h D p r /\
      forall (s : document) kids this, valid s kids -> kids !! this = Some [] -> orphan s this ->
        Nav.ToDocument <$> (data <$> nodes s !! this) = Some false -> room s p -> builds h s kids this p r (build this d p s).
(** A node: the new node [a] is the tree of [n] if the text after it is parsed. *)
Definition node_builds (h : nat) (s : document) (kids : gmap addr (list addr)) (a : addr) (q : bytes)
    (r : XMLDocument.result) (o : outcome node_result) : Prop :=
  let '(d', pos, endTag, n) := r in
  exists (s' : document) kids', o = Ret (d', pos, endTag, own n, s') /\ valid s' kids' /\ sprouted s kids a s' kids' /\
    (is_Some pos -> shape h s' kids' a (tree_of n)) /\ (size (nodes s') + left_over pos <= size (nodes s) + length q)%nat.

(** A new node that has no children and nothing in it yet. *)
Record seed (s : document) (kids : gmap addr (list addr)) (a : addr) (d : payload) (s1 : document)
    (kids1 : gmap addr (list addr)) : Prop := {
  sd_valid : valid s1 kids1;
  sd_sprouted : sprouted s kids a s1 kids1;
  sd_kids : kids1 !! a = Some [];
  sd_data : data <$> nodes s1 !! a = Some d;
  sd_size : size (nodes s1) = S (size (nodes s)) }.
Lemma seed_fill (s : document) kids a d (s1 : document) kids1 d' :
  seed s kids a d s1 kids1 -> pool_of d' = pool_of d ->
  exists s2 : document, upd a (set_data d') s1 = Ret s2 /\ seed s kids a d' s2 kids1.
Proof.
  intros [V1 S1 K1 D1 Z1] Hp. destruct (sprouted_fill s kids a s1 kids1 d d' S1 V1 D1 Hp) as (s2 & E & V2 & S2 & D2 & Z2).
  exists s2. split; [done|]. split; congruence || done.
Qed.

Lemma plain_attributes attributes : NoDup (map (fun a => c_str (a_name a)) attributes) ->
  NoDup (map fst (map attribute_text attributes)).
Proof. by rewrite map_map. Qed.
Lemma shape_node h n (s : document) kids a l :
  well_formed (S h) n -> data <$> nodes s !! a = Some (payload_of n) -> kids !! a = Some l ->
  Forall2 (shape h s kids) l (map tree_of (node_children n)) -> shape (S h) s kids a (tree_of n).
Proof.
  intros Hw Hd Hk Hl.
  assert (plain (payload_of n)) as Hp.
  { destruct n; try done. destruct Hw as (_ & _ & Hw & _). by apply plain_attributes. }
  assert (tree_of n = Tree (payload_of n) (map tree_of (node_children n))) as -> by (by destruct n).
  split; [done|]. split; [done|]. by exists l.
Qed.

Lemma leaf_builds h D (s : document) kids a d (s1 : document) kids1 q r :
  seed s kids a d s1 kids1 -> (0 < length q)%nat -> result_ok h D q r ->
  (let '(_, _, _, n) := r in own n = n /\ node_children n = [] /\ pool_of (payload_of n) = pool_of d) ->
  node_builds (S h) s kids a q r (leaf_ParseDeep a r s1).
Proof.
  destruct r as [[[d' pos] e] n]. intros S1 Hq [_ Hr] (Ho & Hc & Hp).
  destruct (seed_fill s kids a d s1 kids1 (payload_of n) S1 Hp) as (s2 & E & [V2 S2 K2 D2 Z2]).
  exists s2, kids1. unfold leaf_ParseDeep. rewrite E. cbn [mbind outcome_bind]. rewrite Ho. split; [done|]. split; [done|].
  split; [done|]. unfold left_over. destruct pos as [p'|]; cbn [default].
  - destruct Hr as (_ & Hl & Hw). split; [|cbn; lia]. intros _. apply (shape_node h n s2 kids1 a []); [done..|]. rewrite Hc. constructor.
  - split; [by intros []|]. cbn. lia.
Qed.

Lemma element_builds n pc build h D line0 d p (s : document) kids a (s1 : document) kids1 q r :
  level_builds n pc build h D -> (length p < length q <= n)%nat -> errorID d = XML_SUCCESS -> parsingDepth d = D ->
  seed s kids a (PElement [] []) s1 kids1 -> room s q ->
  XMLDocument.XMLElement_ParseDeep pc line0 d p = Some r -> result_ok h D q r ->
  node_builds (S h) s kids a q r (XMLElement_ParseDeep build a line0 d p s1).
Proof.
  intros Hpc Hn He HD S1 Hroom. unfold XMLDocument.XMLElement_ParseDeep, XMLElement_ParseDeep.
  destruct (SkipWhiteSpace p (parseCurLineNum d)) as [p1 l1] eqn:E1. apply SkipWhiteSpace_length_eq in E1.
  destruct (match p1 with b :: p' => if b2z b =? 47 then (CLOSING, p') else (OPEN, p1) | [] => (OPEN, p1) end)
    as [closing p2] eqn:E2.
  assert (length p2 <= length p1)%nat as L2.
  { destruct p1 as [|b p1]; [by invc E2|]. destruct (b2z b =? 47); invc E2; simpl; lia. }
  pose proof (sd_size _ _ _ _ _ _ S1) as Z1.
  destruct (ParseName p2) as [[name p3]|] eqn:E3.
  2: { intros [= <-] _. exists s1, kids1. destruct S1. do 3 (split; [done|]). split; [by intros []|]. cbn. lia. }
  pose proof (ParseName_length _ _ _ E3) as L3.
  destruct (seed_fill s kids a _ s1 kids1 (PElement (c_str (Set_ name 0)) []) S1 eq_refl) as (s2 & F2 & S2).
  rewrite F2. cbn [mbind outcome_bind].
  destruct (ParseAttributes_spec (S (length p3)) (Set_ name 0) line0 closing [] (set_line d l1) p3)
    as (d4 & pos & closing' & l' & -> & Hd4 & Hcl & Hpos); [lia|split; [done|apply NoDup_nil_2]|]. simpl in Hd4.
  set (n0 := XMLElement (Set_ name 0) l' closing' [] line0).
  destruct (seed_fill s kids a _ s2 kids1 (payload_of n0) S2 eq_refl) as (s3 & F3 & S3). rewrite F3. cbn [mbind outcome_bind].
  destruct S3 as [V3 S3 K3 D3 Z3].
  assert (forall pos', (length (default [] pos') < length q)%nat -> result_ok h D q (d4, pos', StrPair.empty, n0) ->
    node_builds (S h) s kids a q (d4, pos', StrPair.empty, n0) (Ret (d4, pos', StrPair.empty, n0, s3))) as Hend.
  { intros pos' Hl [_ Hr]. exists s3, kids1. do 3 (split; [done|]). split; [|unfold left_over; lia].
    intros [p' ->]. destruct Hr as (_ & _ & Hw). apply (shape_node h n0 s3 kids1 a []); [done..|constructor]. }
  destruct pos as [[|b p4]|]; [by intros [= <-]; apply Hend; cbn; lia| |by intros [= <-]; apply Hend; cbn; lia].
  destruct Hpos as (Hid & Hl4 & _). simpl in Hid. cbn [length] in Hl4.
  destruct closing'; [|intros [= <-]; apply Hend; cbn; lia..].
  destruct (Hpc d4 (b :: p4)) as ([[[d5 pos5] e5] ch5] & -> & _ & Hb); [cbn; lia|congruence|congruence|].
  intros [= <-] [_ Hr].
  destruct (Hb s3 kids1 a V3 K3) as (s4 & kids4 & l4 & E4 & V4 & G4 & K4 & T4 & Z4).
  { apply (sp_orphan _ _ _ _ _ S3). by right. }
  { by rewrite D3. }
  { unfold room in *. rewrite Z3. cbn [length]. lia. }
  rewrite E4. cbn [mbind outcome_bind]. exists s4, kids4. split; [done|]. split; [done|].
  split; [by apply (sprouted_grown s kids a s3 kids1)|]. cbn [length] in Z4. split; [|lia].
  intros [p5 ->]. destruct Hr as (_ & _ & Hw). apply (shape_node h _ s4 kids4 a l4); [done| |done..].
  rewrite (g_data _ _ _ _ _ G4); [exact D3|]. unfold live. by destruct (nodes s3 !! a).
Qed.

Lemma node_ParseDeep_builds n pc build h D kind line0 d0 d p (s : document) kids a (s1 : document) kids1 q r :
  XMLDocument.Identify d0 q = (Some (kind, line0), p, d) -> level_builds n pc build h D ->
  (0 < length q <= n)%nat -> errorID d = XML_SUCCESS -> parsingDepth d = D ->
  seed s kids a (fresh_payload kind) s1 kids1 -> room s q ->
  XMLDocument.node_ParseDeep pc kind line0 d p = Some r -> result_ok h D q r ->
  node_builds (S h) s kids a q r (node_ParseDeep build kind a line0 d p s1).
Proof.
  intros Hi Hpc Hq He HD S1 Hroom. apply Identify_spec in Hi as [_ Hi].
  assert (forall d' tag flags error make, own (make StrPair.empty) = make StrPair.empty ->
    (forall v, own (make v) = make v /\ node_children (make v) = [] /\ pool_of (payload_of (make v)) = pool_of (fresh_payload kind)) ->
    let '(_, _, _, n) := XMLDocument.leaf_ParseDeep tag flags error make line0 d' p in
    own n = n /\ node_children n = [] /\ pool_of (payload_of n) = pool_of (fresh_payload kind)) as Hleaf.
  { intros d' tag flags error make Ho Hm. unfold XMLDocument.leaf_ParseDeep. by destruct (parse_value d' p tag flags) as [d2 [[v rest]|]]. }
  destruct kind as [| |cdata| |]; cbn [node_ParseDeep XMLDocument.node_ParseDeep]; intros Hr Hok.
  1,2,4: injection Hr as <-; apply (leaf_builds h D s kids a _ s1 kids1 q _ S1); [lia|done|by apply Hleaf].
  - injection Hr as <-. apply (leaf_builds h D s kids a _ s1 kids1 q _ S1); [lia|done|].
    unfold XMLText_ParseDeep. destruct cdata; destruct (parse_value _ _ _ _) as [d2 [[v [|b rest]]|]]; done.
  - apply (element_builds n pc build h D line0 d p s kids a s1 kids1); done || lia.
Qed.

(** Where declarations may be. *)
Definition is_declaration (s : document) (a : addr) : bool :=
  match nodes s !! a with Some n => Nav.ToDeclaration (data n) | None => false end.
Lemma all_declarations_chain (s : document) l : forall fuel, Nav.chain next s l -> (length l <= fuel)%nat ->
  all_declarations fuel (head l) s = Ret (forallb (is_declaration s) l).
Proof.
  induction l as [|a l IH]; intros fuel Hc Hf; [by destruct fuel|]. destruct Hc as [(n & Hn & Hnx) Hc].
  destruct fuel as [|fuel]; [cbn in Hf; lia|]. cbn [head all_declarations]. rewrite (deref_run _ _ _ Hn). cbn [mbind outcome_bind forallb].
  unfold is_declaration at 1. rewrite Hn. destruct (Nav.ToDeclaration (data n)); [|done]. rewrite Hnx. apply IH; [done|cbn in Hf; lia].
Qed.
Lemma declarations_shape h (s : document) kids l ch : Forall2 (shape h s kids) l (map tree_of ch) ->
  forallb (is_declaration s) l = forallb ToDeclaration ch.
Proof.
  revert l. induction ch as [|n ch IH]; intros l Hl.
  { by apply Forall2_nil_inv_r in Hl as ->. }
  apply Forall2_cons_inv_r in Hl as (a & l' & Ha & Hl & ->). cbn [forallb]. rewrite (IH l' Hl). f_equal.
  unfold is_declaration. destruct h; [done|].
  assert (tree_of n = Tree (payload_of n) (map tree_of (node_children n))) as E by (by destruct n). rewrite E in Ha.
  destruct Ha as (_ & Hd & _). destruct (nodes s !! a) as [m|]; [|done]. injection Hd as ->. by destruct n.
Qed.
Lemma well_located_correct h isDoc (s : document) kids this l acc :
  valid s kids -> kids !! this = Some l -> Nav.ToDocument <$> (data <$> nodes s !! this) = Some isDoc ->
  Forall2 (shape h s kids) l (map tree_of acc) -> well_located this s = Ret (isDoc && forallb ToDeclaration acc).
Proof.
  intros [L O _] Hk Hd Hts. destruct (nodes s !! this) as [n|] eqn:Hn; [|done]. injection Hd as Hd.
  unfold well_located. rewrite (deref_run _ _ _ Hn). cbn [mbind outcome_bind]. rewrite Hd. destruct isDoc; [|done].
  assert (this = root) as ->.
  { apply (o_only_root _ _ O this n Hn). rewrite <-(o_tag _ _ O this n Hn). by destruct (data n). }
  rewrite (deref_run _ _ _ Hn). cbn [mbind outcome_bind]. destruct (l_node s kids L root n Hn) as (l' & Hl' & -> & _).
  rewrite Hk in Hl'. injection Hl' as <-. rewrite all_declarations_chain.
  - by rewrite (declarations_shape h s kids l acc Hts).
  - by apply (Nav.chain_next s kids root l L []).
  - by apply (kids_length s kids root).
Qed.

Lemma with_depth_builds h (s : document) kids this p d loop tree_loop :
  valid s kids -> kids !! this = Some [] ->
  (forall r, Error (PushDepth d) = false -> loop (PushDepth d) p = Some r ->
     builds h s kids this p r (tree_loop this (PushDepth d) p s)) ->
  forall r, XMLDocument.with_depth loop d p = Some r -> builds h s kids this p r (with_depth tree_loop this d p s).
Proof.
  intros V Hk Hloop r. unfold XMLDocument.with_depth, with_depth. destruct (Error (PushDepth d)).
  - intros [= <-]. exists s, kids, []. split; [done|]. split; [done|]. split; [apply grown_refl|]. split; [done|]. split; [constructor|].
    cbn. lia.
  - destruct (loop (PushDepth d) p) as [[[[d' pos] e] ch]|] eqn:E; [|done]. intros [= <-].
    destruct (Hloop _ eq_refl eq_refl) as (s' & kids' & l' & E' & Hr). exists s', kids', l'. rewrite E'. done.
Qed.

Lemma track_sprouted (s : document) kids a (s1 : document) kids1 : valid s1 kids1 -> sprouted s kids a s1 kids1 ->
  exists s2 : document, SetTracked a s1 = Ret s2 /\ valid s2 kids1 /\ sprouted s kids a s2 kids1 /\ nodes s2 = nodes s1.
Proof.
  intros [L O R] S1. destruct a as [t i]. pose proof (sp_root _ _ _ _ _ S1) as Hr.
  destruct (sprouted_orphan _ _ _ _ _ S1) as [Hl _]. pose proof (owned_tag ∅ s1 _ O Hl Hr) as Ht.
  destruct (SetTracked_correct ∅ s1 t i O Ht) as (s2 & E & O2 & N2 & _). exists s2. split; [done|].
  assert (forall x y, up s2 x y <-> up s1 x y) as U by (intros x y; by apply up_nodes).
  split; [split; [by apply (linked_nodes s1)|done|]|split; [|done]].
  - destruct R as (rank & N & R). exists rank, N. apply (ranked_up rank N s1); [|done]. intros x y. by apply U.
  - destruct S1 as [S_new S_root A B C D]. split; try done.
    + intros x Hx. rewrite N2. by apply A.
    + intros x y Hx. rewrite U. by apply C.
    + intros x. rewrite <-D. unfold orphan, live. setoid_rewrite U. by rewrite N2.
Qed.

(** What the loop returns when it stops with the node [a] dropped. *)
Lemma stop_builds h (s : document) kids this a q (s2 : document) kids2 l acc d' pos endTag :
  valid s kids -> kids !! this = Some l -> orphan s this -> Forall2 (shape h s kids) l (map tree_of acc) ->
  sprouted s kids a s2 kids2 -> valid s2 kids2 -> (size (nodes s2) + left_over pos <= size (nodes s) + length q)%nat ->
  builds h s kids this q (d', pos, endTag, acc) (s3 ← delete_node a s2; Ret (d', pos, endTag, s3)).
Proof.
  intros V Hk Ho Hts S2 V2 Hz. destruct (discard s kids a s2 kids2 V S2 V2) as (s3 & kids3 & E & V3 & G & Z).
  exists s3, kids3, l. rewrite E. cbn [mbind outcome_bind]. split; [done|]. split; [done|]. split; [|split; [|split; [|lia]]].
  - destruct G as [G1 G2 G3 G4]. split; try done. intros x Hx _. by apply G2.
  - rewrite (g_kids _ _ _ _ _ G); [done|apply Ho|done].
  - eapply Forall2_impl; [exact Hts|]. intros x t. apply (shape_extends h s kids s3 kids3 x t (v_linked _ _ V)).
    destruct G as [G1 G2 G3 G4]. split; [done| |]; intros x'; [intros Hx; by apply G2|]. intros y Hx. by apply G3.
Qed.

(** After the node [a] has been put under [this], the loop goes on. *)
Lemma go_builds h (s : document) kids this a q (s2 : document) kids2 l acc n p (rest : document -> outcome level_result) r :
  valid s kids -> kids !! this = Some l -> orphan s this -> Forall2 (shape h s kids) l (map tree_of acc) ->
  sprouted s kids a s2 kids2 -> valid s2 kids2 -> shape h s2 kids2 a (tree_of n) ->
  (size (nodes s2) + length p <= size (nodes s) + length q)%nat ->
  (forall (s3 : document) kids3, valid s3 kids3 -> kids3 !! this = Some (l ++ [a]) -> orphan s3 this ->
     data <$> nodes s3 !! this = data <$> nodes s !! this -> size (nodes s3) = size (nodes s2) ->
     Forall2 (shape h s3 kids3) (l ++ [a]) (map tree_of (acc ++ [n])) -> builds h s3 kids3 this p r (rest s3)) ->
  builds h s kids this q r (s3 ← InsertEndChild this a s2; rest s3).
Proof.
  intros V Hk Ho Hts S2 V2 Ht Hz Hrest.
  destruct (plant s kids a s2 kids2 this l h (tree_of n) (map tree_of acc) V S2 V2 Hk Ho Hts Ht)
    as (s3 & kids3 & E & V3 & G & Hk3 & Ht3 & Z).
  rewrite E. cbn [mbind outcome_bind]. assert (orphan s3 this) as Ho3 by (by apply (g_orphan _ _ _ _ _ G)).
  specialize (Hrest s3 kids3 V3 Hk3 Ho3 (g_data _ _ _ _ _ G this (proj1 Ho)) Z). rewrite map_app in Hrest. specialize (Hrest Ht3).
  destruct r as [[[d' pos] e] ch]. destruct Hrest as (s4 & kids4 & l4 & E4 & V4 & G4 & K4 & T4 & Z4).
  exists s4, kids4, l4. split; [done|]. split; [done|]. split; [by apply (grown_trans s kids (Some this) s3 kids3)|].
  do 2 (split; [done|]). lia.
Qed.

(** The loop on the tree against the loop on the text. *)
Definition loop_sim (fuel : nat) : Prop := forall isDoc acc d p r,
  (length p < fuel)%nat -> errorID d = XML_SUCCESS -> 1 <= parsingDepth d < 100 ->
  XMLDocument.ParseDeep_loop fuel isDoc acc d p = Some r ->
  forall (s : document) kids this l, valid s kids -> kids !! this = Some l -> orphan s this ->
    Nav.ToDocument <$> (data <$> nodes s !! this) = Some isDoc ->
    Forall2 (shape (Z.to_nat (100 - parsingDepth d)) s kids) l (map tree_of acc) -> room s p ->
    builds (Z.to_nat (100 - parsingDepth d)) s kids this p r (ParseDeep_loop fuel this d p s).

Lemma PushDepth_ok d : errorID d = XML_SUCCESS -> 0 <= parsingDepth d < 100 -> Error (PushDepth d) = false ->
  errorID (PushDepth d) = XML_SUCCESS /\ parsingDepth (PushDepth d) = parsingDepth d + 1 /\ parsingDepth d + 1 < 100.
Proof.
  intros He HD Hn. unfold PushDepth, Error in *. cbn [parsingDepth set_depth] in *.
  destruct (Z.eqb_spec (parsingDepth d + 1) TINYXML2_MAX_ELEMENT_DEPTH) as [Hx|Hx]; [done|].
  unfold TINYXML2_MAX_ELEMENT_DEPTH in Hx. cbn. split; [done|lia].
Qed.
Lemma levels_build fuel D : loop_sim fuel -> 1 <= D < 100 ->
  level_builds fuel (XMLDocument.with_depth (XMLDocument.ParseDeep_loop fuel false [])) (with_depth (ParseDeep_loop fuel))
    (Z.to_nat (100 - (D + 1))) D.
Proof.
  intros Hsim Hb d p Hl He HD.
  destruct (with_depth_ok (XMLDocument.ParseDeep_loop fuel false []) false D d p He HD ltac:(lia)) as (r & Er & Hok).
  { intros d3 He3 HD3 Hlt. rewrite <-HD3. apply loop_ok; [lia|done|lia|done|apply declarations_first_nil]. }
  exists r. split; [done|]. split; [done|]. intros s kids this V Hk Ho Hdoc Hroom.
  apply (with_depth_builds _ s kids this p d (XMLDocument.ParseDeep_loop fuel false [])); [done..| |done].
  intros r' Hn Er'. destruct (PushDepth_ok d He ltac:(lia) Hn) as (He' & HD' & Hlt). rewrite <-HD, <-HD'.
  apply (Hsim false [] (PushDepth d) p r' Hl He' ltac:(lia) Er' s kids this [] V Hk Ho Hdoc); [constructor|done].
Qed.

(** The test for a misplaced declaration, once the new node is there. *)
Lemma declaration_test (s : document) kids this a (s2 : document) kids2 h isDoc l acc n :
  valid s kids -> valid s2 kids2 -> sprouted s kids a s2 kids2 -> kids !! this = Some l -> orphan s this ->
  Nav.ToDocument <$> (data <$> nodes s !! this) = Some isDoc -> Forall2 (shape h s kids) l (map tree_of acc) ->
  (if ToDeclaration n then well_located this s2 else Ret true) =
    Ret (negb (ToDeclaration n && negb (isDoc && forallb ToDeclaration acc))).
Proof.
  intros V V2 S2 Hk Ho Hdoc Hts. destruct (ToDeclaration n); [|done]. cbn [andb]. rewrite negb_involutive.
  apply (well_located_correct h isDoc s2 kids2 this l acc); [done| | |].
  - rewrite (sp_kids _ _ _ _ _ S2); [done|apply Ho].
  - rewrite (sp_data _ _ _ _ _ S2); [done|apply Ho].
  - eapply Forall2_impl; [exact Hts|]. intros x t.
    apply (shape_extends h s kids s2 kids2 x t (v_linked _ _ V)). by apply (sprouted_extends _ _ a).
Qed.

(** Stopping at once. *)
Lemma nothing_builds h (s : document) kids this l p d' e acc :
  valid s kids -> kids !! this = Some l -> orphan s this -> Forall2 (shape h s kids) l (map tree_of acc) ->
  builds h s kids this p (d', None, e, acc) (Ret (d', None, e, s)).
Proof.
  intros V Hk Ho Hts. exists s, kids, l. do 2 (split; [done|]). split; [apply grown_refl|]. do 2 (split; [done|]). cbn. lia.
Qed.

Lemma loop_builds fuel : loop_sim fuel.
Proof.
  induction fuel as [|fuel IH]; intros isDoc acc d p r Hf He HD Hr s kids this l V Hk Ho Hdoc Hts Hroom; [lia|].
  cbn [XMLDocument.ParseDeep_loop ParseDeep_loop] in Hr |- *. set (H100 := Z.to_nat (100 - parsingDepth d)) in *.
  destruct p as [|b p]; [injection Hr as <-; by apply (nothing_builds H100 s kids this l)|]. set (q := b :: p) in *.
  unfold Identify. destruct (XMLDocument.Identify d q) as [[o p1] d1] eqn:Ei.
  pose proof (Identify_spec _ _ _ _ _ Ei) as [[HD1 He1] _].
  destruct o as [[kind line0]|]; [|injection Hr as <-; by apply (nothing_builds H100 s kids this l)].
  destruct (create_sprouts s kids (fresh_payload kind) V) as (a & s1 & E1 & V1 & S1 & D1 & Z1); [by destruct kind| |].
  { unfold room in Hroom. change (length q) with (S (length p)) in Hroom. lia. }
  rewrite E1. cbn [mbind outcome_bind fst snd].
  assert (seed s kids a (fresh_payload kind) s1 (<[a:=[]]> kids)) as Hseed by (split; [done..|apply lookup_insert_eq|done|done]).
  pose proof (levels_build fuel (parsingDepth d) IH HD) as Hlevel.
  destruct (node_ok (XMLDocument.with_depth (XMLDocument.ParseDeep_loop fuel false [])) (Z.to_nat (100 - (parsingDepth d + 1)))
    (parsingDepth d) kind line0 d1 p1 q d Ei) as (rn & En & Hok); [|congruence|done|].
  { intros d' q' Hl He' HD'. destruct (Hlevel d' q') as (r' & Er & Hlv & _); [lia|done|done|]. by exists r'. }
  rewrite En in Hr.
  pose proof (node_ParseDeep_builds fuel _ _ _ (parsingDepth d) kind line0 d d1 p1 s kids a s1 _ q rn Ei Hlevel ltac:(cbn in *; lia)
    ltac:(congruence) HD1 Hseed Hroom En Hok) as Hb.
  destruct rn as [[[d2 pos] endTag] n]. destruct Hb as (s2 & kids2 & -> & V2 & S2 & Hn & Z2). cbn [mbind outcome_bind].
  replace (S (Z.to_nat (100 - (parsingDepth d + 1)))) with H100 in Hn by lia. destruct Hok as [HD2 Hok].
  assert (forall d' pos' e' (s2' : document), (left_over pos' <= left_over pos)%nat -> sprouted s kids a s2' kids2 -> valid s2' kids2 ->
     size (nodes s2') = size (nodes s2) ->
     builds H100 s kids this q (d', pos', e', acc) (s3 ← delete_node a s2'; Ret (d', pos', e', s3))) as Hdrop.
  { intros d' pos' e' s2' Hl S2' V2' Z2'. apply (stop_builds H100 s kids this a q s2' kids2 l acc); [done..|lia]. }
  destruct pos as [p2|]; [|injection Hr as <-; by apply Hdrop].
  specialize (Hn ltac:(by eexists)). destruct Hok as (He2 & L2 & _).
  assert (forall r, XMLDocument.ParseDeep_loop fuel isDoc (acc ++ [n]) d2 p2 = Some r ->
    builds H100 s kids this q r (s3 ← InsertEndChild this a s2; ParseDeep_loop fuel this d2 p2 s3)) as Hgo.
  { intros r' Hr'. apply (go_builds H100 s kids this a q s2 kids2 l acc n p2); [done..|].
    intros s3 kids3 V3 K3 O3 D3 Z3 T3. unfold H100 in *. rewrite <-HD2 in *.
    apply (IH isDoc (acc ++ [n]) d2 p2 r' ltac:(lia) He2 ltac:(lia) Hr' s3 kids3 this (l ++ [a]) V3 K3 O3); [by rewrite D3|done|].
    change (left_over (Some p2)) with (length p2) in Z2. unfold room in *. rewrite Z3. lia. }
  assert (ToDeclaration (own n) = ToDeclaration n) as -> by (by destruct n).
  rewrite (declaration_test s kids this a s2 kids2 H100 isDoc l acc) by done. cbn [mbind outcome_bind]. rewrite negb_involutive.
  destruct (ToDeclaration n && negb (isDoc && forallb ToDeclaration acc)).
  { injection Hr as <-. assert (Value (own n) = Value n) as -> by (by destruct n). apply Hdrop; [unfold left_over; cbn; lia|done..]. }
  destruct n as [value attrs closing ch line| | | |]; cbn [own]; try by apply Hgo.
  destruct closing.
  1,2: destruct (mismatch endTag value _); [injection Hr as <-; apply Hdrop; [unfold left_over; cbn; lia|done..]|by apply Hgo].
  injection Hr as <-. destruct (track_sprouted s kids a s2 kids2 V2 S2) as (s3 & -> & V3 & S3 & N3). cbn [mbind outcome_bind].
  apply Hdrop; [unfold left_over; cbn; lia|done..|by rewrite N3].
Qed.

(** ** A whole document *)

Lemma ReadBOM_length p : (length (ReadBOM p).1 <= length p)%nat.
Proof. unfold ReadBOM. destruct (starts_with _ p); [|done]. cbn [fst]. rewrite length_drop. lia. Qed.

Lemma only_root_size (s : document) : (forall x, live s x <-> x = root) -> size (nodes s) = 1%nat.
Proof.
  intros Hone. rewrite <-size_dom. replace (dom (nodes s)) with ({[root]} : gset addr); [apply size_singleton|].
  apply set_eq. intros x. rewrite elem_of_singleton, elem_of_dom. symmetry. apply Hone.
Qed.

(** A document whose only node without a parent is the document itself. *)
Definition all_linked (s : document) : Prop := forall x, orphan s x <-> x = root.
Lemma root_orphan (s : document) kids : valid s kids -> orphan s root.
Proof.
  intros [_ O _]. destruct (o_root _ _ O) as (n & Hn & Hp & _). by apply (orphan_parent s root n Hn).
Qed.
Lemma all_linked_unlinked (s : document) kids : valid s kids -> all_linked s -> DynArray.contents (unlinked s) = [].
Proof.
  intros [_ O _] Ha. destruct (DynArray.contents (unlinked s)) as [|x l] eqn:E; [done|]. exfalso.
  assert (x ∈ DynArray.contents (unlinked s)) as Hx by (rewrite E; set_solver).
  apply (o_unlinked _ _ O) in Hx as ((n & Hn & Hp) & Hr & _). apply Hr, Ha. by apply (orphan_parent s x n Hn).
Qed.
Lemma all_linked_below (s : document) kids x : valid s kids -> all_linked s -> live s x -> rtc (up s) x root.
Proof.
  intros [L _ (rank & N & R)] Ha Hx. destruct (top_of rank N s R x Hx) as (t & Ht & n & Hn & Hp).
  - intros y z Hyz. destruct (up_kid s kids y z L Hyz) as (l & Hl & _). by apply (l_dom s kids L z l).
  - assert (t = root) as -> by (apply Ha; by apply (orphan_parent s t n Hn)). done.
Qed.
Lemma alone_linked (s : document) kids : valid s kids -> (forall x, live s x <-> x = root) -> all_linked s.
Proof.
  intros V Hl x. split; [|intros ->; by apply (root_orphan s kids)]. intros [Hx _]. by apply Hl.
Qed.

Lemma drop_children (s : document) kids : valid s kids -> all_linked s ->
  exists s' : document, DeleteChildren (size (nodes s)) root s = Ret s' /\ valid s' {[root := []]} /\ (forall x, live s' x <-> x = root).
Proof.
  intros V Ha. destruct (ranked_size s kids V) as (rank & R & Hrank). pose proof V as [L O _].
  pose proof (root_orphan s kids V) as [Hroot _]. destruct (kids_of_node s kids root L Hroot) as [l Hl].
  destruct (delete_children_correct (DeleteNode (size (nodes s))) rank (size (nodes s)) root (DeleteNode_correct rank _)
    ltac:(apply (proj1 R)) l (size (nodes s)) s kids ∅ _ L O R Hl) as (s1 & E1 & L1 & O1 & [P1 P2 P3 P4]);
    [by apply (kids_length s kids root)|].
  assert (ranked rank (size (nodes s)) s1) as R1 by (by apply (ranked_up rank _ s)).
  assert (valid s1 (<[root:=[]]> (restrict s1 kids))) as V1 by (split; [done|done|by exists rank, (size (nodes s))]).
  assert (all_linked s1) as Ha1.
  { intros x. split; [|intros ->; by apply (root_orphan s1 _ V1)]. intros [Hx Hu]. apply Ha. split; [by apply P1|].
    intros y Hy. apply (Hu y). by apply P4. }
  assert (forall x, live s1 x <-> x = root) as Hone.
  { apply (only_root_left rank _ s1 _ L1 O1 R1); [apply lookup_insert_eq|]. by apply (all_linked_unlinked s1 _ V1). }
  exists s1. split; [done|]. split; [|done]. by rewrite <-(only_root_kids s1 _ L1 (lookup_insert_eq _ _ _) Hone).
Qed.

Lemma clear_pools_correct (s : document) : valid s {[root := []]} -> (forall x, live s x <-> x = root) ->
  valid (clear_pools s) {[root := []]} /\ (forall x, live (clear_pools s) x <-> x = root).
Proof.
  intros [L O R] Hone.
  assert (nodes (clear_pools s) = nodes s) as N.
  { unfold clear_pools. cbn. apply map_filter_id. intros x n Hn. assert (x = root) as -> by (apply Hone; by exists n). done. }
  split; [|intros x; unfold live; rewrite N; apply Hone]. split.
  - by apply (linked_nodes s).
  - destruct O as [O1 O2 O3 O4 O5 O6 O7]. split; rewrite ?N; try done. intros t Ht. cbn [pools clear_pools]. destruct t as [|t]; [done|].
    destruct (clear_law (pools s (S t))) as [W ->]. split; [done|]. intros i. split; [by intros ?%not_elem_of_empty|].
    intros X. apply (Hone (S t, i)) in X. unfold root in X. discriminate X.
  - destruct R as (rank & M & R). exists rank, M. apply (ranked_up rank M s); [|done]. intros x y. by apply up_nodes.
Qed.

(** What the parser leaves: the fields [d1] of the text's meaning and the nodes. *)
Definition document_builds (h : nat) (d1 d2 : doc) (s' : document) (kids' : gmap addr (list addr)) : Prop :=
  set_children d2 (XMLDocument.children d1) = d1 /\ valid s' kids' /\ all_linked s' /\
  exists l, kids' !! root = Some l /\ Forall2 (shape h s' kids') l (map tree_of (XMLDocument.children d1)).

Lemma Parse_buffer_builds d buffer d1 (s : document) :
  errorID d = XML_SUCCESS -> parsingDepth d = 0 -> XMLDocument.children d = [] -> XMLDocument.Parse_buffer d buffer = Some d1 ->
  valid s {[root := []]} -> (forall x, live s x <-> x = root) -> room s buffer ->
  exists d2 (s' : document) kids', Parse_buffer d buffer s = Ret (d2, s') /\ document_builds 99 d1 d2 s' kids'.
Proof.
  intros He HD Hc Hp V Hone Hroom. unfold XMLDocument.Parse_buffer, Parse_buffer in *.
  destruct (SkipWhiteSpace buffer 1) as [p line] eqn:E1. apply SkipWhiteSpace_length_eq in E1.
  pose proof (ReadBOM_length p) as E2. destruct (ReadBOM p) as [p1 bom]. cbn [fst] in E2.
  pose proof (alone_linked s _ V Hone) as Ha. destruct p1 as [|b p1].
  { injection Hp as <-. eexists _, s, _. split; [done|]. split; [done|]. split; [exact V|]. split; [done|]. exists [].
    split; [apply lookup_singleton_eq|]. cbn. rewrite Hc. constructor. }
  set (d0 := set_bom (set_line d line) bom) in *. set (q := b :: p1) in *.
  destruct (XMLDocument.with_depth _ d0 q) as [[[[d2 pos] e] ch]|] eqn:Ew; [|done]. injection Hp as <-.
  pose proof (root_orphan s _ V) as Ho.
  destruct (with_depth_builds 99 s {[root := []]} root q d0 (XMLDocument.ParseDeep_loop (S (length q)) true [])
    (ParseDeep_loop (S (length q))) V (lookup_singleton_eq _ _)) with (2 := Ew)
    as (s' & kids' & l & E & V' & G & K & T & _).
  { intros r Hn Er. destruct (PushDepth_ok d0 He ltac:(cbn; lia) Hn) as (He' & HD' & _).
    assert (parsingDepth (PushDepth d0) = 1) as HD1 by (rewrite HD'; cbn; lia).
    change 99%nat with (Z.to_nat (100 - 1)). rewrite <-HD1.
    apply (loop_builds (S (length q)) true [] (PushDepth d0) q r ltac:(lia) He' ltac:(lia) Er s _ root [] V (lookup_singleton_eq _ _) Ho).
    - destruct (o_root _ _ (v_owned _ _ V)) as (n & Hn' & _ & Hd). rewrite Hn'. cbn. by rewrite Hd.
    - constructor.
    - unfold room in *. lia. }
  exists d2, s', kids'. rewrite E. split; [done|]. split; [done|]. split; [done|].
  split; [intros x; rewrite (g_orphan _ _ _ _ _ G); apply Ha|]. by exists l.
Qed.

Lemma clear_nodes_correct (s : document) kids : valid s kids ->
  exists s' : document, clear_nodes s = Ret s' /\ valid s' {[root := []]} /\ (forall x, live s' x <-> x = root).
Proof.
  intros V. destruct (ranked_size s kids V) as (rank & R & _). destruct V as [L O _].
  destruct (Clear_ranked rank _ (S (size (nodes s))) s kids L O R ltac:(lia)) as (s1 & E1 & V1 & Hone & _). by exists s1.
Qed.
(** A document with an error and no nodes. *)
Lemma failed_builds d1 (s : document) : XMLDocument.children d1 = [] -> valid s {[root := []]} -> (forall x, live s x <-> x = root) ->
  document_builds 99 d1 d1 s {[root := []]}.
Proof.
  intros Hc V Hone. split; [by destruct d1|]. split; [done|]. split; [by apply (alone_linked s _ V)|]. exists [].
  split; [apply lookup_singleton_eq|]. rewrite Hc. constructor.
Qed.

(** C7: [XMLDocument::Parse] builds the document the text stands for: on any
    document whose pointers form a tree it frees what was there and leaves the same
    fields (error, message, lines, depth) as [XmlParse] and, under the document node,
    exactly the tree of the nodes it read, in order; every node that exists is in
    that tree, so nothing made for a node that failed, for an end tag or below them
    is left over; after an error there is no node but the document.  The pointers
    again form a tree that owns every node and every pool item in use. *)
Theorem Parse_builds_document d p len (s : document) kids :
  valid s kids -> (forall text, p = Some text -> Z.of_nat (length text + 1) * 2 <= DynArray.INT_MAX) ->
  exists d1 d2 (s' : document) kids', XMLDocument.Parse d p len = Some d1 /\ Parse d p len s = Ret (d2, s') /\
    document_builds 99 d1 d2 s' kids' /\ (forall x, live s' x -> rtc (up s') x root) /\
    (Error d1 = true -> forall x, live s' x -> x = root).
Proof.
  intros V Hsize. destruct (clear_nodes_correct s kids V) as (s1 & E1 & V1 & Hone).
  unfold Parse. rewrite E1. cbn [mbind outcome_bind]. unfold XMLDocument.Parse. set (d0 := XMLDocument.Clear d).
  assert (forall d1 d2 (s' : document) kids', document_builds 99 d1 d2 s' kids' -> (Error d1 = true -> forall x, live s' x -> x = root) ->
    exists d1' d2' (s'' : document) kids'', Some d1 = Some d1' /\ Ret (d2, s') = Ret (d2', s'') /\ document_builds 99 d1' d2' s'' kids'' /\
    (forall x, live s'' x -> rtc (up s'') x root) /\ (Error d1' = true -> forall x, live s'' x -> x = root)) as Hdone.
  { intros d1 d2 s' kids' B Hr. exists d1, d2, s', kids'. do 3 (split; [done|]). split; [|done].
    intros x. destruct B as (_ & V' & Ha' & _). by apply (all_linked_below s' kids'). }
  pose proof (failed_builds (SetError d0 XML_ERROR_EMPTY_DOCUMENT 0 None) s1 eq_refl V1 Hone) as Hempty.
  assert (forall x, live s1 x -> x = root) as Hone' by (intros x; apply Hone).
  destruct p as [text|]; [|by apply (Hdone _ _ _ _ Hempty)].
  destruct (bool_decide (len = Some 0) || bool_decide (until_nul text = [])); [by apply (Hdone _ _ _ _ Hempty)|].
  set (buffer := match len with None => until_nul text | Some n => until_nul (ztake n text) end).
  destruct (Parse_buffer_ok d0 buffer) as (d1 & Ed1 & _); [done..|]. rewrite Ed1.
  destruct (Parse_buffer_builds d0 buffer d1 s1) as (d2 & s2 & kids2 & -> & B); [done..| |].
  { specialize (Hsize text eq_refl). unfold room. rewrite (only_root_size s1 Hone). assert (length buffer <= length text)%nat; [|lia].
    unfold buffer. destruct len; [etrans; [apply until_nul_length|apply length_ztake]|apply until_nul_length]. }
  cbn [mbind outcome_bind]. pose proof B as (Hc & V2 & Ha2 & _). assert (Error d2 = Error d1) as -> by (by rewrite <-Hc).
  destruct (Error d1) eqn:He; [|apply (Hdone _ _ _ kids2); [done|congruence]].
  destruct (drop_children s2 kids2 V2 Ha2) as (s3 & E3 & V3 & Hone3). rewrite E3. cbn [mbind outcome_bind].
  destruct (clear_pools_correct s3 V3 Hone3) as [V4 Hone4]. apply (Hdone _ _ _ {[root := []]}); [|intros _ x; apply Hone4].
  destruct (failed_builds (set_children d1 []) _ eq_refl V4 Hone4) as (_ & B'). split; [by rewrite <-Hc|done].
Qed.

(** so does loading a file, whatever the file system answers; a load that fails
    in the middle of the text leaves the nodes before the error, linked as they
    are, and nothing else. *)
Theorem LoadFile_builds_document fopen d filename (s : document) kids :
  valid s kids -> (forall fp, fopen filename = Some fp -> Z.of_nat (length (file_bytes fp) + 1) * 2 <= DynArray.INT_MAX) ->
  exists d1 d2 (s' : document) kids', XMLDocument.LoadFile fopen d (Some filename) = Some d1 /\
    LoadFile fopen d (Some filename) s = Ret (d2, s') /\ document_builds 99 d1 d2 s' kids' /\
    (forall x, live s' x -> rtc (up s') x root).
Proof.
  intros V Hsize. destruct (clear_nodes_correct s kids V) as (s1 & E1 & V1 & Hone1).
  destruct (clear_nodes_correct s1 _ V1) as (s2 & E2 & V2 & Hone2).
  assert (forall d1 d2 (s' : document) kids', document_builds 99 d1 d2 s' kids' ->
    exists d1' d2' (s'' : document) kids'', Some d1 = Some d1' /\ Ret (d2, s') = Ret (d2', s'') /\ document_builds 99 d1' d2' s'' kids'' /\
    (forall x, live s'' x -> rtc (up s'') x root)) as Hdone.
  { intros d1 d2 s' kids' B. exists d1, d2, s', kids'. do 3 (split; [done|]).
    intros x. destruct B as (_ & V' & Ha' & _). by apply (all_linked_below s' kids'). }
  unfold LoadFile, XMLDocument.LoadFile. rewrite E1. cbn [mbind outcome_bind].
  destruct (fopen filename) as [fp|]; [|by apply (Hdone _ _ s1 {[root := []]}), failed_builds].
  unfold LoadFile_fp, XMLDocument.LoadFile_fp. rewrite E2. cbn [mbind outcome_bind].
  set (d0 := XMLDocument.Clear (XMLDocument.Clear d)).
  destruct (getc_error fp); [by apply (Hdone _ _ s2 {[root := []]}), failed_builds|].
  destruct (file_length fp =? -1); [by apply (Hdone _ _ s2 {[root := []]}), failed_builds|].
  destruct (file_length fp =? 0); [by apply (Hdone _ _ s2 {[root := []]}), failed_builds|].
  destruct (negb _); [by apply (Hdone _ _ s2 {[root := []]}), failed_builds|].
  set (buffer := until_nul (ztake (file_length fp) (file_bytes fp))).
  destruct (Parse_buffer_ok d0 buffer) as (d1 & Ed1 & _); [done..|]. rewrite Ed1.
  destruct (Parse_buffer_builds d0 buffer d1 s2) as (d2 & s3 & kids3 & -> & B); [done..| |by apply (Hdone _ _ _ kids3)].
  specialize (Hsize fp eq_refl). unfold room. rewrite (only_root_size s2 Hone2).
  assert (length buffer <= length (file_bytes fp))%nat; [|lia].
  unfold buffer. etrans; [apply until_nul_length|apply length_ztake].
Qed.

End document.
(** ** Concrete runs *)

(** The documents of [XmlDom], before the text is parsed. *)
Definition build_test (text : string) : outcome (doc * Dom.XMLDocument (P := mempool 1)) :=
  Parse test_doc (Some (bs text)) None doc6.
Lemma Parse_builds_document_witness :
  exists d1 d2 s' kids', XMLDocument.Parse test_doc (Some (bs "<a k='v'><b/>text</a>")) None = Some d1 /\
    build_test "<a k='v'><b/>text</a>" = Ret (d2, s') /\ document_builds 99 d1 d2 s' kids'.
Proof.
  assert (forall text, Some (bs "<a k='v'><b/>text</a>") = Some text -> Z.of_nat (length text + 1) * 2 <= DynArray.INT_MAX) as Hsize.
  { intros text [= <-]. vm_compute. discriminate. }
  destruct (Parse_builds_document test_doc (Some (bs "<a k='v'><b/>text</a>")) None doc6 kids6 doc6_valid Hsize)
    as (d1 & d2 & s' & kids' & E1 & E2 & B & _).
  exists d1, d2, s', kids'. exact (conj E1 (conj E2 B)).
Defined.
Lemma LoadFile_builds_document_witness :
  exists d1 d2 s' kids', LoadFile (fun _ => Some (mk_file false 10 (bs "<a/><b><c>"))) test_doc (Some (bs "web.xml")) doc6 = Ret (d2, s') /\
    document_builds 99 d1 d2 s' kids'.
Proof.
  assert (forall fp, Some (mk_file false 10 (bs "<a/><b><c>")) = Some fp -> Z.of_nat (length (file_bytes fp) + 1) * 2 <= DynArray.INT_MAX) as Hsize.
  { intros fp [= <-]. vm_compute. discriminate. }
  destruct (LoadFile_builds_document (fun _ => Some (mk_file false 10 (bs "<a/><b><c>"))) test_doc (bs "web.xml") doc6 kids6 doc6_valid Hsize)
    as (d1 & d2 & s' & kids' & _ & E2 & B & _).
  exists d1, d2, s', kids'. exact (conj E2 B).
Defined.

(** What is left of the nodes of a text: their number, and the items in use of the
    pools of elements and texts. *)
Definition remains (x : outcome (doc * Dom.XMLDocument (P := mempool 1))) : option (nat * nat * nat) :=
  match x with
  | Ret (_, s) => Some (size (nodes s), size (pool_used (pools s 1%nat)), size (pool_used (pools s 2%nat)))
  | _ => None
  end.
(** An end tag is an element that is deleted at once; a text that does not parse
    leaves nothing, a file that does not parse what came before the error. *)
Lemma build_runs :
  remains (build_test "<a k='v'><b/>text</a>") = Some (4, 2, 1)%nat /\
  remains (build_test "<a/><b><c>text</b></c>") = Some (1, 0, 0)%nat /\
  remains (LoadFile (fun _ => Some (mk_file false 22 (bs "<a/><b><c>text</b></c>"))) test_doc (Some (bs "web.xml")) doc6) =
    Some (2, 1, 0)%nat.
Proof. repeat split; vm_compute; reflexivity. Qed.

End Build.
