(* ===== verification/XmlAttr.v ===== *)
(** * The attributes of an element: XMLAttribute, and the lists of XMLElement, in
    tinyxml2.cpp

    [XmlParse] and [XmlDom] take the attributes of an element as a list.  In the
    code they are items of one pool, shared by all elements of a document, and
    point to each other; an element points to the first.  Here are the operations on
    these pointers, and that they do to the list what [XmlParse] says. *)

From stdpp Require Import fin_sets.
From S2P Require Import Prelude CStd XmlStr XmlParse XmlMem.
#[local] Open Scope Z_scope.
Import XMLUtil StrPair XMLDocument.

Module Attr.

(** [XMLAttribute]: its name, value and line, and [_next]. *)
Record XMLAttribute := mk_item { fields : attribute; next : option nat }.
Definition new_attribute : XMLAttribute := mk_item (mk_attribute StrPair.empty StrPair.empty 0) None.
Definition set_next (n : option nat) (a : XMLAttribute) : XMLAttribute := mk_item (fields a) n.
Definition set_fields (f : attribute) (a : XMLAttribute) : XMLAttribute := mk_item f (next a).
Definition SetName (n : bytes) (a : XMLAttribute) : XMLAttribute :=
  set_fields (mk_attribute (SetStr n) (a_value (fields a)) (a_line (fields a))) a.
Definition SetValue (v : bytes) (a : XMLAttribute) : XMLAttribute :=
  set_fields (mk_attribute (a_name (fields a)) (SetStr v) (a_line (fields a))) a.
Definition Name (a : XMLAttribute) : bytes := c_str (a_name (fields a)).

Section pool.
Context {P : Type} `{PoolLaws P}.

(** The attributes of a document, by the item of [_attributePool] they are in. *)
Record store := mk_store { items : gmap nat XMLAttribute; pool : P }.
Definition deref (i : nat) (s : store) : outcome XMLAttribute :=
  match items s !! i with Some a => Ret a | None => Undef end.
Definition upd (i : nat) (f : XMLAttribute -> XMLAttribute) (s : store) : outcome store :=
  match items s !! i with Some a => Ret (mk_store (<[i := f a]> (items s)) (pool s)) | None => Undef end.

(** ** The operations *)

(** [XMLElement::CreateAttribute] and [DeleteAttribute( XMLAttribute* )]. *)
Definition CreateAttribute (s : store) : outcome (nat * store) :=
  x ← pool_alloc (pool s);
  Ret (x.1, mk_store (<[x.1 := new_attribute]> (items s)) (pool_tracked x.2)).
Definition free_attribute (i : nat) (s : store) : outcome store :=
  match items s !! i with Some _ => Ret (mk_store (delete i (items s)) (pool_free i (pool s))) | None => Undef end.

(** The loops that look for a name: the attribute before the one found, or the
    last, and the one found.  They are bounded by the number of attributes. *)
Fixpoint find_loop (fuel : nat) (name : bytes) (last attrib : option nat) (s : store)
  : outcome (option nat * option nat) :=
  match attrib, fuel with
  | None, _ => Ret (last, None)
  | Some _, O => Undef
  | Some i, S fuel =>
      a ← deref i s;
      if bool_decide (Name a = name) then Ret (last, Some i) else find_loop fuel name (Some i) (next a) s
  end.
Definition find (name : bytes) (rootAttribute : option nat) (s : store) : outcome (option nat * option nat) :=
  find_loop (size (items s)) name None rootAttribute s.
(** [XMLElement::FindAttribute]. *)
Definition FindAttribute (name : bytes) (rootAttribute : option nat) (s : store) : outcome (option nat) :=
  x ← find name rootAttribute s; Ret x.2.
(** Linking behind [last], or as the first: the new [_rootAttribute]. *)
Definition link (last : option nat) (i : nat) (rootAttribute : option nat) (s : store) : outcome (option nat * store) :=
  match last with
  | Some l => s ← upd l (set_next (Some i)) s; Ret (rootAttribute, s)
  | None => Ret (Some i, s)
  end.
(** [XMLElement::FindOrCreateAttribute]: the attribute and the new
    [_rootAttribute]. *)
Definition FindOrCreateAttribute (name : bytes) (rootAttribute : option nat) (s : store)
  : outcome (nat * option nat * store) :=
  x ← find name rootAttribute s;
  match x with
  | (_, Some i) => Ret (i, rootAttribute, s)
  | (last, None) =>
      y ← CreateAttribute s;
      z ← link last y.1 rootAttribute y.2;
      s ← upd y.1 (SetName name) z.2;
      Ret (y.1, z.1, s)
  end.
(** [XMLElement::SetAttribute]. *)
Definition SetAttribute (name value : bytes) (rootAttribute : option nat) (s : store) : outcome (option nat * store) :=
  x ← FindOrCreateAttribute name rootAttribute s;
  let '(i, rootAttribute, s) := x in
  s ← upd i (SetValue value) s;
  Ret (rootAttribute, s).
(** Unlinking the attribute behind [prev], or the first one, whose [_next] is [n]. *)
Definition bypass (prev n rootAttribute : option nat) (s : store) : outcome (option nat * store) :=
  match prev with
  | Some p => s ← upd p (set_next n) s; Ret (rootAttribute, s)
  | None => Ret (n, s)
  end.
(** [XMLElement::DeleteAttribute( const char* )]. *)
Definition DeleteAttribute (name : bytes) (rootAttribute : option nat) (s : store) : outcome (option nat * store) :=
  x ← find name rootAttribute s;
  match x with
  | (_, None) => Ret (rootAttribute, s)
  | (prev, Some i) =>
      a ← deref i s;
      y ← bypass prev (next a) rootAttribute s;
      s ← free_attribute i y.2;
      Ret (y.1, s)
  end.
(** [XMLElement::~XMLElement]. *)
Fixpoint destroy (fuel : nat) (rootAttribute : option nat) (s : store) : outcome store :=
  match rootAttribute, fuel with
  | None, _ => Ret s
  | Some _, O => Undef
  | Some i, S fuel => a ← deref i s; s ← free_attribute i s; destroy fuel (next a) s
  end.

(** [XMLElement::ParseAttributes]: the attribute is taken from the pool before it is
    read, and given back when it cannot be read or its name is not new. *)
Fixpoint ParseAttributes (fuel : nat) (name : StrPair.t) (line0 : Z) (closing : ElementClosingType)
    (prevAttribute rootAttribute : option nat) (d : doc) (p : bytes) (s : store)
  : outcome (doc * option bytes * ElementClosingType * option nat * store) :=
  match fuel with
  | O => Undef
  | S fuel =>
      let (p, line) := SkipWhiteSpace p (parseCurLineNum d) in
      let d := set_line d line in
      match p with
      | [] => Ret (SetError d XML_ERROR_PARSING_ELEMENT line0 (element_name_message name), None, closing, rootAttribute, s)
      | b :: p' =>
          if IsNameStartChar b then
            x ← CreateAttribute s;
            let '(attrib, s) := x in
            let attrLineNum := parseCurLineNum d in
            s ← upd attrib (set_fields (mk_attribute StrPair.empty StrPair.empty attrLineNum)) s;
            let fail d s :=
              s ← free_attribute attrib s;
              Ret (SetError d XML_ERROR_PARSING_ATTRIBUTE attrLineNum (element_name_message name),
                   None, closing, rootAttribute, s) in
            match XMLAttribute_ParseDeep d p with
            | (d, None) => fail d s
            | (d, Some (aname, avalue, rest)) =>
                s ← upd attrib (set_fields (mk_attribute aname avalue attrLineNum)) s;
                found ← FindAttribute (c_str aname) rootAttribute s;
                match found with
                | Some _ => fail d s
                | None =>
                    y ← link prevAttribute attrib rootAttribute s;
                    ParseAttributes fuel name line0 closing (Some attrib) y.1 d rest y.2
                end
            end
          else if b2z b =? 62 then Ret (d, Some p', closing, rootAttribute, s)
          else if (b2z b =? 47) && starts_with (bs ">") p' then Ret (d, Some (drop 1 p'), CLOSED, rootAttribute, s)
          else Ret (SetError d XML_ERROR_PARSING_ELEMENT line0 None, None, closing, rootAttribute, s)
      end
  end.

(** ** The list an element has *)

(** From [r] the pointers lead through the items [ids], which hold [l], to [r']. *)
Fixpoint seg (s : store) (r : option nat) (ids : list nat) (l : list attribute) (r' : option nat) : Prop :=
  match ids, l with
  | [], [] => r = r'
  | i :: ids, f :: l => r = Some i /\ exists a, items s !! i = Some a /\ fields a = f /\ seg s (next a) ids l r'
  | _, _ => False
  end.
(** An element whose [_rootAttribute] is [r] has the attributes [l], in the items [ids]. *)
Record element (s : store) (r : option nat) (ids : list nat) (l : list attribute) : Prop := {
  el_seg : seg s r ids l None; el_nodup : NoDup ids }.
(** The items in use are the attributes. *)
Record wf (s : store) : Prop := {
  wf_pool : pool_wf (pool s); wf_used : forall i, i ∈ pool_used (pool s) <-> is_Some (items s !! i) }.
(** An element that had the items [ids] has now [ids']: new ones, and those given
    back are free; the items of the others are as they were. *)
Record moved (s : store) (ids : list nat) (s' : store) (ids' : list nat) : Prop := {
  mv_others : forall i, i ∉ ids -> i ∉ ids' -> items s' !! i = items s !! i;
  mv_new : forall i, i ∈ ids' -> i ∈ ids \/ items s !! i = None;
  mv_free : forall i, i ∈ ids -> i ∉ ids' -> items s' !! i = None }.

Lemma seg_agree (s s' : store) ids : forall r l r', (forall i, i ∈ ids -> items s' !! i = items s !! i) ->
  seg s r ids l r' -> seg s' r ids l r'.
Proof.
  induction ids as [|i ids IH]; intros r [|f l] r' Hi; cbn; try done. intros (-> & a & Ha & Hf & Hs). split; [done|].
  exists a. rewrite Hi by set_solver. split; [done|]. split; [done|]. apply IH; [|done]. intros j Hj. apply Hi. set_solver.
Qed.
Lemma seg_length (s : store) ids : forall r l r', seg s r ids l r' -> length ids = length l.
Proof. induction ids as [|i ids IH]; intros r [|f l] r'; cbn; try done. intros (_ & a & _ & _ & Hs). f_equal. by eapply IH. Qed.
Lemma seg_app (s : store) ids1 ids2 : forall r l1 l2 r', length ids1 = length l1 ->
  seg s r (ids1 ++ ids2) (l1 ++ l2) r' <-> exists m, seg s r ids1 l1 m /\ seg s m ids2 l2 r'.
Proof.
  induction ids1 as [|i ids1 IH]; intros r [|f l1] l2 r' Hl; try done; cbn [app seg].
  - naive_solver.
  - injection Hl as Hl. split.
    + intros (-> & a & Ha & Hf & Hs). apply IH in Hs as (m & Hm & Hs); [|done]. exists m. split; [|done]. split; [done|]. by exists a.
    + intros (m & (-> & a & Ha & Hf & Hm) & Hs). split; [done|]. exists a. split; [done|]. split; [done|]. apply IH; [done|]. by exists m.
Qed.
Lemma seg_live (s : store) r ids l r' i : seg s r ids l r' -> i ∈ ids -> is_Some (items s !! i).
Proof.
  revert r l. induction ids as [|j ids IH]; intros r [|f l]; cbn; try done; [set_solver|].
  intros (_ & a & Ha & _ & Hs) [->|Hi]%elem_of_cons; [by exists a|by eapply IH].
Qed.
(** Where a segment ends is what its last item points to. *)
Lemma seg_relink (s s' : store) ids i a f r l r' r'' :
  i ∉ ids -> seg s r (ids ++ [i]) (l ++ [f]) r' -> length ids = length l -> items s !! i = Some a ->
  items s' !! i = Some (set_next r'' a) -> (forall j, j ∈ ids -> items s' !! j = items s !! j) -> seg s' r (ids ++ [i]) (l ++ [f]) r''.
Proof.
  intros Hi Hs Hl Ha Ha' Hj. apply seg_app in Hs as (m & Hm & Hs); [|done]. apply seg_app; [done|]. exists m.
  split; [by apply (seg_agree s)|]. cbn in Hs |- *. destruct Hs as (-> & a' & Ha2 & Hf & _). split; [done|].
  exists (set_next r'' a). rewrite Ha in Ha2. injection Ha2 as <-. done.
Qed.
Lemma ids_bound (s : store) r ids l r' : seg s r ids l r' -> NoDup ids -> (length ids <= size (items s))%nat.
Proof.
  intros Hs ND. rewrite <-(size_list_to_set (C := gset nat) ids ND), <-size_dom. apply subseteq_size.
  intros x Hx%elem_of_list_to_set. apply elem_of_dom. by eapply seg_live.
Qed.

(** What the search for a name finds in the list. *)
Definition named (n : bytes) (f : attribute) : Prop := c_str (a_name f) = n.
Inductive search (n : bytes) (ids : list nat) (l : list attribute) : option nat * option nat -> Prop :=
| search_found ids1 i ids2 l1 f l2 : ids = ids1 ++ i :: ids2 -> l = l1 ++ f :: l2 -> length ids1 = length l1 ->
    named n f -> Forall (fun g => ~ named n g) l1 -> search n ids l (last ids1, Some i)
| search_missed : Forall (fun g => ~ named n g) l -> search n ids l (last ids, None).
Lemma find_loop_spec (s : store) n ids2 : forall ids1 l1 l2 r fuel,
  seg s r ids2 l2 None -> (length ids2 <= fuel)%nat -> length ids1 = length l1 -> Forall (fun g => ~ named n g) l1 ->
  exists x, find_loop fuel n (last ids1) r s = Ret x /\ search n (ids1 ++ ids2) (l1 ++ l2) x.
Proof.
  induction ids2 as [|i ids2 IH]; intros ids1 l1 [|f l2] r fuel; cbn [seg]; try done.
  - intros -> _ Hl Hn. rewrite !app_nil_r. exists (last ids1, None). split; [by destruct fuel|by constructor].
  - intros (-> & a & Ha & Hf & Hs) Hfuel Hl Hn. destruct fuel as [|fuel]; [cbn in Hfuel; lia|]. cbn [find_loop].
    unfold deref. rewrite Ha. cbn [mbind outcome_bind]. unfold Name. rewrite Hf. destruct (bool_decide_reflect (c_str (a_name f) = n)) as [E|E].
    + exists (last ids1, Some i). split; [done|]. by apply (search_found _ _ _ ids1 i ids2 l1 f l2).
    + destruct (IH (ids1 ++ [i]) (l1 ++ [f]) l2 (next a) fuel Hs) as (x & Ex & Hx); [cbn in Hfuel; lia|rewrite !length_app; cbn; lia| |].
      { apply Forall_app. by repeat constructor. }
      exists x. rewrite last_snoc in Ex. rewrite <-!app_assoc in Hx. done.
Qed.
Lemma find_spec (s : store) r ids l n : element s r ids l -> exists x, find n r s = Ret x /\ search n ids l x.
Proof.
  intros [Hs ND]. destruct (find_loop_spec s n ids [] [] l r (size (items s)) Hs) as (x & E & Hx);
    [by apply (ids_bound s r ids l None)|done|constructor|]. by exists x.
Qed.

(** ** The pool *)

Lemma create_correct (s : store) : wf s -> exists i (s' : store), CreateAttribute s = Ret (i, s') /\
  items s !! i = None /\ items s' = <[i := new_attribute]> (items s) /\ wf s'.
Proof.
  intros [W U]. destruct (alloc_law (pool s) W) as (i & p & E & Hi & Hu & Wp). destruct (tracked_law p Wp) as [Wt Ut].
  unfold CreateAttribute. rewrite E. cbn [mbind outcome_bind fst snd]. exists i, (mk_store (<[i := new_attribute]> (items s)) (pool_tracked p)). split; [done|].
  assert (items s !! i = None) as Hn by (apply eq_None_not_Some; intros X; by apply Hi, U).
  split; [done|]. split; [done|]. split; [done|]. intros j. cbn [pool items]. rewrite Ut, Hu, elem_of_union, elem_of_singleton, U.
  destruct (decide (j = i)) as [->|Hj]; [rewrite lookup_insert_eq; naive_solver|]. rewrite lookup_insert_ne by done. naive_solver.
Qed.
Lemma free_correct (s : store) i : wf s -> is_Some (items s !! i) -> exists s' : store, free_attribute i s = Ret s' /\
  items s' = delete i (items s) /\ wf s'.
Proof.
  intros [W U] [a Ha]. unfold free_attribute. rewrite Ha. eexists. split; [done|]. split; [done|].
  destruct (free_law i (pool s) W) as [F1 F2]; [apply U; by exists a|]. split; [done|]. intros j. cbn [pool items].
  rewrite F1, elem_of_difference, elem_of_singleton, U. destruct (decide (j = i)) as [->|Hj].
  - rewrite lookup_delete_eq. split; [naive_solver|by intros []].
  - rewrite lookup_delete_ne by done. naive_solver.
Qed.
Lemma upd_correct (s : store) i f : wf s -> is_Some (items s !! i) -> exists s' : store, upd i f s = Ret s' /\ wf s' /\
  forall j, items s' !! j = if decide (j = i) then f <$> items s !! i else items s !! j.
Proof.
  intros [W U] [a Ha]. unfold upd. rewrite Ha. eexists. split; [done|]. cbn [items].
  assert (forall j, <[i:=f a]> (items s) !! j = if decide (j = i) then Some (f a) else items s !! j) as Hj.
  { intros j. destruct (decide (j = i)) as [->|]; [apply lookup_insert_eq|by apply lookup_insert_ne]. }
  split; [|done]. split; [done|]. intros j. cbn [pool items]. rewrite U, Hj. destruct (decide (j = i)) as [->|]; [|done].
  rewrite Ha. split; by eexists.
Qed.

(** ** Changes of the list *)

Lemma seg_update (s s' : store) r ids1 i ids2 l1 f l2 r' g :
  seg s r (ids1 ++ i :: ids2) (l1 ++ f :: l2) r' -> NoDup (ids1 ++ i :: ids2) -> length ids1 = length l1 ->
  (forall j, items s' !! j = if decide (j = i) then g <$> items s !! i else items s !! j) -> (forall a, next (g a) = next a) ->
  exists a, items s !! i = Some a /\ fields a = f /\ seg s' r (ids1 ++ i :: ids2) (l1 ++ fields (g a) :: l2) r'.
Proof.
  intros Hs ND Hl Hg Hn. apply seg_app in Hs as (m & H1 & H2); [|done]. cbn in H2. destruct H2 as (-> & a & Ha & Hf & H2).
  apply NoDup_app in ND as (_ & Hd & ND). apply NoDup_cons in ND as [Hi _].
  exists a. split; [done|]. split; [done|]. apply seg_app; [done|]. exists (Some i). split.
  - apply (seg_agree s); [|done]. intros j Hj. rewrite Hg, decide_False; [done|]. intros ->. apply (Hd i Hj). set_solver.
  - cbn. split; [done|]. exists (g a). rewrite Hg, decide_True, Ha by done. split; [done|]. split; [done|]. rewrite Hn.
    apply (seg_agree s); [|done]. intros j Hj. rewrite Hg, decide_False; [done|]. by intros ->.
Qed.

(** A new attribute goes behind the last. *)
Lemma link_correct (s : store) r ids l i a :
  wf s -> element s r ids l -> i ∉ ids -> items s !! i = Some a -> next a = None ->
  exists r' (s' : store), link (last ids) i r s = Ret (r', s') /\ wf s' /\ element s' r' (ids ++ [i]) (l ++ [fields a]) /\
    (forall j, j ∉ ids -> items s' !! j = items s !! j).
Proof.
  intros W [Hs ND] Hi Ha Hn. assert (NoDup (ids ++ [i])) as ND' by (apply NoDup_app; split; [done|]; split; [|apply NoDup_singleton]; set_solver).
  pose proof (seg_length s ids r l None Hs) as Hl. destruct ids as [|k ids _] using rev_ind.
  - destruct l; [|done]. cbn in Hs. subst. exists (Some i), s. split; [done|]. split; [done|]. split; [|done]. split; [|done].
    cbn. split; [done|]. by exists a.
  - destruct l as [|f l _] using rev_ind; [rewrite length_app in Hl; cbn in Hl; lia|]. rewrite !length_app in Hl. cbn in Hl.
    pose proof (seg_live s r _ _ None k Hs ltac:(set_solver)) as [b Hb]. unfold link. rewrite last_snoc.
    destruct (upd_correct s k (set_next (Some i)) W) as (s' & E & W' & Hj); [by exists b|]. rewrite E. cbn [mbind outcome_bind].
    exists r, s'. split; [done|]. split; [done|]. rewrite elem_of_app, list_elem_of_singleton in Hi.
    assert (items s' !! i = Some a) as Ha' by (rewrite Hj, decide_False; [done|naive_solver]).
    split; [split; [|done]|].
    + apply seg_app; [rewrite !length_app; cbn; lia|]. exists (Some i). split; [|cbn; split; [done|by exists a]].
      apply NoDup_app in ND as (_ & Hd & _). assert (k ∉ ids) as Hk by (intros X; apply (Hd k X); set_solver).
      apply (seg_relink s s' ids k b f r l None); [done|done|lia|done| |].
      * by rewrite Hj, decide_True, Hb.
      * intros j Hin. rewrite Hj, decide_False; [done|]. by intros ->.
    + intros j Hin. rewrite Hj, decide_False; [done|]. set_solver.
Qed.

(** The attribute [i] leaves the list. *)
Lemma bypass_correct (s : store) r ids1 i ids2 l1 f l2 a :
  wf s -> element s r (ids1 ++ i :: ids2) (l1 ++ f :: l2) -> length ids1 = length l1 -> items s !! i = Some a ->
  exists r' (s' : store), bypass (last ids1) (next a) r s = Ret (r', s') /\ wf s' /\ seg s' r' (ids1 ++ ids2) (l1 ++ l2) None /\
    (forall j, j ∉ ids1 -> items s' !! j = items s !! j).
Proof.
  intros W [Hs ND] Hl Ha. pose proof (fun j => seg_live s r _ _ None j Hs) as Hlive.
  apply seg_app in Hs as (m & H1 & H2); [|done]. cbn in H2. destruct H2 as (-> & a' & Ha' & Hf & H2).
  rewrite Ha in Ha'. injection Ha' as <-. destruct ids1 as [|k ids _] using rev_ind.
  - destruct l1; [|done]. exists (next a), s. done.
  - destruct l1 as [|g l1 _] using rev_ind; [rewrite length_app in Hl; cbn in Hl; lia|]. rewrite !length_app in Hl. cbn in Hl.
    destruct (Hlive k ltac:(set_solver)) as [b Hb]. unfold bypass. rewrite last_snoc.
    destruct (upd_correct s k (set_next (next a)) W) as (s' & E & W' & Hj); [by exists b|]. rewrite E. cbn [mbind outcome_bind].
    exists r, s'. split; [done|]. split; [done|]. apply NoDup_app in ND as (ND & Hd & _).
    apply NoDup_app in ND as (_ & Hd1 & _). split.
    + apply seg_app; [rewrite !length_app; cbn; lia|]. exists (next a). split.
      * apply (seg_relink s _ ids k b g r l1 (Some i)); [|done|lia|done| |].
        -- intros X. apply (Hd1 k X). set_solver.
        -- by rewrite Hj, decide_True, Hb.
        -- intros j Hin. rewrite Hj, decide_False; [done|]. intros ->. apply (Hd1 k Hin). set_solver.
      * apply (seg_agree s); [|done]. intros j Hin. rewrite Hj, decide_False; [done|]. intros ->. apply (Hd k); set_solver.
    + intros j Hin. rewrite Hj, decide_False; [done|]. set_solver.
Qed.

(** The same on the list of [XmlParse]. *)
Lemma SetAttribute_found n v l1 f l2 : named n f -> Forall (fun g => ~ named n g) l1 ->
  XMLDocument.SetAttribute (l1 ++ f :: l2) n v = l1 ++ mk_attribute (a_name f) (SetStr v) (a_line f) :: l2.
Proof.
  intros Hf Hn. induction Hn as [|g l1 Hg Hn IH]; cbn; [by rewrite bool_decide_true|].
  rewrite bool_decide_false by done. by rewrite IH.
Qed.
Lemma SetAttribute_missed n v l : Forall (fun g => ~ named n g) l ->
  XMLDocument.SetAttribute l n v = l ++ [mk_attribute (SetStr n) (SetStr v) 0].
Proof. intros Hn. induction Hn as [|g l1 Hg Hn IH]; cbn; [done|]. rewrite bool_decide_false by done. by rewrite IH. Qed.
Lemma DeleteAttribute_found n l1 f l2 : named n f -> Forall (fun g => ~ named n g) l1 ->
  XMLDocument.DeleteAttribute (l1 ++ f :: l2) n = l1 ++ l2.
Proof.
  intros Hf Hn. induction Hn as [|g l1 Hg Hn IH]; cbn; [by rewrite bool_decide_true by (by symmetry)|].
  rewrite bool_decide_false by (by intros X; apply Hg). by rewrite IH.
Qed.
Lemma DeleteAttribute_missed n l : Forall (fun g => ~ named n g) l -> XMLDocument.DeleteAttribute l n = l.
Proof. intros Hn. induction Hn as [|g l1 Hg Hn IH]; cbn; [done|]. rewrite bool_decide_false by (by intros X; apply Hg). by rewrite IH. Qed.
Lemma FindAttribute_found n l1 f l2 : named n f -> Forall (fun g => ~ named n g) l1 ->
  XMLDocument.FindAttribute (l1 ++ f :: l2) n = Some f.
Proof.
  intros Hf Hn. induction Hn as [|g l1 Hg Hn IH]; cbn; [by rewrite bool_decide_true|]. by rewrite bool_decide_false by done.
Qed.
Lemma FindAttribute_missed n l : Forall (fun g => ~ named n g) l -> XMLDocument.FindAttribute l n = None.
Proof. intros Hn. induction Hn as [|g l1 Hg Hn IH]; cbn; [done|]. by rewrite bool_decide_false by done. Qed.

(** ** The operations on the list *)

Lemma FindAttribute_correct (s : store) r ids l n : element s r ids l ->
  exists o, FindAttribute n r s = Ret o /\
    match o with
    | Some i => i ∈ ids /\ fields <$> items s !! i = XMLDocument.FindAttribute l n
    | None => XMLDocument.FindAttribute l n = None
    end.
Proof.
  intros E. unfold FindAttribute. destruct (find_spec s r ids l n E) as (x & Ex & Hx). rewrite Ex. cbn [mbind outcome_bind].
  eexists. split; [done|]. destruct Hx as [ids1 i ids2 l1 f l2 -> -> Hl Hf Hn|Hn]; cbn [snd].
  - split; [set_solver|]. rewrite (FindAttribute_found n l1 f l2 Hf Hn). destruct E as [Hs _].
    apply seg_app in Hs as (m & _ & H2); [|done]. cbn in H2. destruct H2 as (_ & a & -> & <- & _). done.
  - by apply FindAttribute_missed.
Qed.

Lemma SetAttribute_correct (s : store) r ids l n v : wf s -> element s r ids l ->
  exists r' (s' : store) ids', SetAttribute n v r s = Ret (r', s') /\ wf s' /\
    element s' r' ids' (XMLDocument.SetAttribute l n v) /\ moved s ids s' ids'.
Proof.
  intros W E. unfold SetAttribute, FindOrCreateAttribute. destruct (find_spec s r ids l n E) as (x & -> & Hx). cbn [mbind outcome_bind].
  destruct E as [Hs ND]. destruct Hx as [ids1 i ids2 l1 f l2 -> -> Hl Hf Hn|Hn].
  - pose proof (seg_live s r _ _ None i Hs ltac:(set_solver)) as Hi.
    destruct (upd_correct s i (SetValue v) W Hi) as (s' & E1 & W' & Hj). cbn [mbind outcome_bind]. rewrite E1. cbn [mbind outcome_bind].
    destruct (seg_update s s' r ids1 i ids2 l1 f l2 None (SetValue v) Hs ND Hl Hj) as (a & Ha & Hfa & Hs'); [done|].
    exists r, s', (ids1 ++ i :: ids2). split; [done|]. split; [done|]. split.
    + rewrite (SetAttribute_found n v l1 f l2 Hf Hn). split; [|done]. rewrite <-Hfa. exact Hs'.
    + split; [|set_solver|done]. intros j Hj1 _. rewrite Hj, decide_False; [done|]. set_solver.
  - destruct (create_correct s W) as (i & s1 & E1 & Hi & Hit & W1). rewrite E1. cbn [mbind outcome_bind fst snd].
    assert (i ∉ ids) as Hids by (intros X; destruct (seg_live s r ids l None i Hs X); congruence).
    assert (element s1 r ids l) as E0.
    { split; [|done]. apply (seg_agree s); [|done]. intros j Hj. rewrite Hit, lookup_insert_ne; [done|]. by intros ->. }
    destruct (link_correct s1 r ids l i new_attribute W1 E0 Hids) as (r' & s2 & E2 & W2 & [Hs2 ND2] & Hj2); [by rewrite Hit, lookup_insert_eq|done|].
    rewrite E2. cbn [mbind outcome_bind fst snd].
    assert (length ids = length l) as Hl by (by apply (seg_length s ids r l None)).
    destruct (upd_correct s2 i (SetName n) W2) as (s3 & E3 & W3 & Hj3); [by apply (seg_live s2 r' _ _ None i Hs2); set_solver|].
    rewrite E3. cbn [mbind outcome_bind fst snd].
    destruct (seg_update s2 s3 r' ids i [] l _ [] None (SetName n) Hs2 ND2 Hl Hj3) as (a & Ha & Hfa & Hs3); [done|].
    destruct (upd_correct s3 i (SetValue v) W3) as (s4 & E4 & W4 & Hj4); [by apply (seg_live s3 r' _ _ None i Hs3); set_solver|].
    rewrite E4. cbn [mbind outcome_bind].
    destruct (seg_update s3 s4 r' ids i [] l _ [] None (SetValue v) Hs3 ND2 Hl Hj4) as (b & Hb & Hfb & Hs4); [done|].
    exists r', s4, (ids ++ [i]). split; [done|]. split; [done|]. split.
    + rewrite (SetAttribute_missed n v l Hn). split; [|done].
      assert (fields (SetValue v b) = mk_attribute (SetStr n) (SetStr v) 0) as <-; [|done]. cbn. rewrite Hfb. cbn. by rewrite Hfa.
    + split.
      * intros j Hj1 Hj'. assert (j <> i) by set_solver. rewrite Hj4, decide_False by done. rewrite Hj3, decide_False by done. rewrite Hj2, Hit by done.
        by apply lookup_insert_ne.
      * intros j [Hj|Hj]%elem_of_app; [by left|]. apply list_elem_of_singleton in Hj as ->. by right.
      * set_solver.
Qed.

Lemma DeleteAttribute_correct (s : store) r ids l n : wf s -> element s r ids l ->
  exists r' (s' : store) ids', DeleteAttribute n r s = Ret (r', s') /\ wf s' /\
    element s' r' ids' (XMLDocument.DeleteAttribute l n) /\ moved s ids s' ids'.
Proof.
  intros W E. unfold DeleteAttribute. destruct (find_spec s r ids l n E) as (x & -> & Hx). cbn [mbind outcome_bind].
  pose proof E as [Hs ND]. destruct Hx as [ids1 i ids2 l1 f l2 -> -> Hl Hf Hn|Hn].
  - destruct (seg_live s r _ _ None i Hs ltac:(set_solver)) as [a Ha]. unfold deref. rewrite Ha. cbn [mbind outcome_bind].
    destruct (bypass_correct s r ids1 i ids2 l1 f l2 a W E Hl Ha) as (r' & s1 & -> & W1 & Hs1 & Hj1). cbn [mbind outcome_bind fst snd].
    apply NoDup_app in ND as (ND1 & Hd & ND2). apply NoDup_cons in ND2 as [Hi2 ND2].
    assert (i ∉ ids1) as Hi1 by (intros X; apply (Hd i X); set_solver).
    destruct (free_correct s1 i W1) as (s2 & -> & Hit & W2); [by rewrite Hj1, Ha|]. cbn [mbind outcome_bind].
    exists r', s2, (ids1 ++ ids2). split; [done|]. split; [done|]. split.
    + rewrite (DeleteAttribute_found n l1 f l2 Hf Hn). split.
      * apply (seg_agree s1); [|done]. intros j Hj. rewrite Hit, lookup_delete_ne; [done|]. set_solver.
      * apply NoDup_app. split; [done|]. split; [|done]. intros j Hj Hj2. apply (Hd j Hj). set_solver.
    + split.
      * intros j Hj _. rewrite Hit, lookup_delete_ne by set_solver. apply Hj1. set_solver.
      * set_solver.
      * intros j Hj Hj'. assert (j = i) as -> by set_solver. rewrite Hit. apply lookup_delete_eq.
  - exists r, s, ids. split; [done|]. split; [done|]. rewrite (DeleteAttribute_missed n l Hn). split; [done|]. split; [done|by left|done].
Qed.

Lemma destroy_correct ids : forall fuel (s : store) r l, (length ids <= fuel)%nat -> wf s -> element s r ids l ->
  exists s' : store, destroy fuel r s = Ret s' /\ wf s' /\ moved s ids s' [].
Proof.
  induction ids as [|i ids IH]; intros fuel s r [|f l] Hf W [Hs ND]; cbn in Hs; try done.
  - subst. exists s. split; [by destruct fuel|]. split; [done|]. split; set_solver.
  - destruct Hs as (-> & a & Ha & _ & Hs). destruct fuel as [|fuel]; [cbn in Hf; lia|]. cbn [destroy]. unfold deref. rewrite Ha.
    cbn [mbind outcome_bind]. destruct (free_correct s i W) as (s1 & -> & Hit & W1); [by exists a|]. cbn [mbind outcome_bind].
    apply NoDup_cons in ND as [Hi ND]. destruct (IH fuel s1 (next a) l) as (s2 & -> & W2 & [M1 M2 M3]); [cbn in Hf; lia|done| |].
    { split; [|done]. apply (seg_agree s); [|done]. intros j Hj. rewrite Hit, lookup_delete_ne; [done|]. by intros <-. }
    exists s2. split; [done|]. split; [done|]. split; [|set_solver|].
    + intros j Hj _. rewrite M1, Hit, lookup_delete_ne by set_solver. done.
    + intros j Hj _. destruct (decide (j ∈ ids)) as [Hin|Hin]; [by apply M3; [|apply not_elem_of_nil]|].
      rewrite M1 by set_solver. assert (j = i) as -> by set_solver. rewrite Hit. apply lookup_delete_eq.
Qed.

Lemma moved_refl (s : store) ids : moved s ids s ids.
Proof. split; [done|by left|done]. Qed.
Lemma moved_trans (s : store) ids s1 ids1 s2 ids2 : moved s ids s1 ids1 -> moved s1 ids1 s2 ids2 -> moved s ids s2 ids2.
Proof.
  intros [A1 B1 C1] [A2 B2 C2]. split; intros j.
  - intros Hj Hj2. destruct (decide (j ∈ ids1)) as [Hj1|Hj1]; [|by rewrite A2, A1].
    rewrite C2 by done. by destruct (B1 j Hj1).
  - intros Hj2. destruct (decide (j ∈ ids)) as [|Hj]; [by left|]. right. destruct (decide (j ∈ ids1)) as [Hj1|Hj1]; [by destruct (B1 j Hj1)|].
    destruct (B2 j Hj2) as [|E]; [done|]. by rewrite A1 in E.
  - intros Hj Hj2. destruct (decide (j ∈ ids1)) as [Hj1|Hj1]; [by apply C2|]. rewrite A2 by done. by apply C1.
Qed.

(** An attribute taken from the pool, of which nothing has been linked yet. *)
Lemma reserve_correct (s : store) r ids l f : wf s -> element s r ids l ->
  exists i (s1 s2 : store), CreateAttribute s = Ret (i, s1) /\ upd i (set_fields f) s1 = Ret s2 /\ wf s2 /\
    items s !! i = None /\ items s2 = <[i := mk_item f None]> (items s).
Proof.
  intros W E. destruct (create_correct s W) as (i & s1 & E1 & Hi & Hit & W1).
  destruct (upd_correct s1 i (set_fields f) W1) as (s2 & E2 & W2 & Hj); [by rewrite Hit, lookup_insert_eq|].
  exists i, s1, s2. do 4 (split; [done|]). apply map_eq. intros j. rewrite Hj, Hit. destruct (decide (j = i)) as [->|Hne].
  - by rewrite !lookup_insert_eq.
  - by rewrite !lookup_insert_ne.
Qed.
(** The items of an element, next to one that is not of it. *)
Lemma element_aside (s s' : store) r ids l i a : element s r ids l -> items s !! i = None -> items s' = <[i := a]> (items s) ->
  i ∉ ids /\ element s' r ids l.
Proof.
  intros [Hs ND] Hi Hit. assert (i ∉ ids) as Hids by (intros X; destruct (seg_live s r ids l None i Hs X); congruence).
  split; [done|]. split; [|done]. apply (seg_agree s); [|done]. intros j Hj. rewrite Hit, lookup_insert_ne; [done|]. by intros ->.
Qed.

Lemma ParseAttributes_correct name line0 fuel : forall closing (s : store) r ids l d p d' pos closing' l',
  XMLDocument.ParseAttributes fuel name line0 closing l d p = Some (d', pos, closing', l') -> wf s -> element s r ids l ->
  exists r' (s' : store) ids', ParseAttributes fuel name line0 closing (last ids) r d p s = Ret (d', pos, closing', r', s') /\ wf s' /\
    element s' r' ids' l' /\ moved s ids s' ids'.
Proof.
  induction fuel as [|fuel IH]; intros closing s r ids l d p d' pos closing' l'; cbn [XMLDocument.ParseAttributes ParseAttributes]; [done|].
  intros Hp W E. assert (forall x, Some x = Some (d', pos, closing', l') -> x.2 = l -> exists r' (s' : store) ids',
    Ret (x.1.1.1, x.1.1.2, x.1.2, r, s) = Ret (d', pos, closing', r', s') /\ wf s' /\ element s' r' ids' l' /\ moved s ids s' ids') as Hsame.
  { intros x [= ->] Hl. cbn in Hl. subst l'. exists r, s, ids. split; [done|]. split; [done|]. split; [done|apply moved_refl]. }
  destruct (SkipWhiteSpace p (parseCurLineNum d)) as [p1 line]. destruct p1 as [|b p1]; [by apply (Hsame _ Hp)|].
  destruct (IsNameStartChar b).
  2: { destruct (b2z b =? 62); [by apply (Hsame _ Hp)|]. destruct ((b2z b =? 47) && starts_with (bs ">") p1); by apply (Hsame _ Hp). }
  destruct (reserve_correct s r ids l (mk_attribute StrPair.empty StrPair.empty (parseCurLineNum (set_line d line))) W E)
    as (i & s1 & s2 & -> & E2 & W2 & Hi & Hit2). cbn [mbind outcome_bind]. rewrite E2. cbn [mbind outcome_bind].
  assert (forall dd (s3 : store) a, Some (SetError dd XML_ERROR_PARSING_ATTRIBUTE (parseCurLineNum (set_line d line)) (element_name_message name),
      None, closing, l) = Some (d', pos, closing', l') -> wf s3 -> items s3 = <[i := a]> (items s) ->
    exists r' (s' : store) ids', (s4 ← free_attribute i s3; Ret (SetError dd XML_ERROR_PARSING_ATTRIBUTE
      (parseCurLineNum (set_line d line)) (element_name_message name), None, closing, r, s4)) = Ret (d', pos, closing', r', s') /\
      wf s' /\ element s' r' ids' l' /\ moved s ids s' ids') as Hfail.
  { intros dd s3 a [= <- <- <- <-] W3 Hit3. destruct (free_correct s3 i W3) as (s4 & -> & Hit4 & W4); [by rewrite Hit3, lookup_insert_eq|].
    cbn [mbind outcome_bind]. exists r, s4, ids. split; [done|]. split; [done|]. rewrite Hit3, delete_insert_id in Hit4 by done.
    destruct E as [Hs ND]. split; [split; [|done]; apply (seg_agree s); [by rewrite Hit4|done]|].
    split; rewrite ?Hit4; [done|by left|done]. }
  destruct (XMLAttribute_ParseDeep (set_line d line) (b :: p1)) as [d2 [[[aname avalue] rest]|]]; [|by eapply (Hfail d2 s2)].
  destruct (upd_correct s2 i (set_fields (mk_attribute aname avalue (parseCurLineNum (set_line d line)))) W2) as (s3 & E3 & W3 & Hj3);
    [by rewrite Hit2, lookup_insert_eq|]. rewrite E3. cbn [mbind outcome_bind].
  set (f := mk_attribute aname avalue (parseCurLineNum (set_line d line))) in *.
  assert (items s3 = <[i := mk_item f None]> (items s)) as Hit3.
  { apply map_eq. intros j. rewrite Hj3, Hit2. destruct (decide (j = i)) as [->|Hne]; [by rewrite !lookup_insert_eq|by rewrite !lookup_insert_ne]. }
  destruct (element_aside s s3 r ids l i _ E Hi Hit3) as [Hids E3'].
  destruct (FindAttribute_correct s3 r ids l (c_str aname) E3') as (o & -> & Ho). cbn [mbind outcome_bind].
  unfold Attribute in Hp. destruct o as [k|].
  - destruct Ho as [Hk Ho]. destruct (seg_live s3 r ids l None k (el_seg _ _ _ _ E3') Hk) as [c Hc]. rewrite Hc in Ho. cbn in Ho.
    rewrite <-Ho in Hp. by eapply (Hfail d2 s3).
  - rewrite Ho in Hp. destruct (link_correct s3 r ids l i (mk_item f None) W3 E3' Hids) as (r4 & s4 & -> & W4 & E4 & Hj4);
      [by rewrite Hit3, lookup_insert_eq|done|]. cbn [mbind outcome_bind fst snd].
    destruct (IH closing s4 r4 (ids ++ [i]) (l ++ [f]) d2 rest d' pos closing' l' Hp W4 E4) as (r5 & s5 & ids5 & E5 & W5 & El5 & M5).
    exists r5, s5, ids5. rewrite last_snoc in E5. split; [exact E5|]. split; [done|]. split; [done|].
    apply (moved_trans s ids s4 (ids ++ [i])); [|done]. split.
    + intros j Hj Hj'. rewrite Hj4, Hit3 by done. apply lookup_insert_ne. set_solver.
    + intros j [Hj|Hj]%elem_of_app; [by left|]. apply list_elem_of_singleton in Hj as ->. by right.
    + set_solver.
Qed.

(** C24: the attributes of an element are the list they stand for: on any element,
    [SetAttribute], [DeleteAttribute] and [FindAttribute] follow the pointers to do
    what [XmlParse] says on the list, the destructor gives back exactly the items of
    the element, and the pool's items in use stay the attributes that exist. *)
Theorem attribute_lists_refine (s : store) r ids l n v :
  wf s -> element s r ids l ->
  (exists r' (s' : store) ids', SetAttribute n v r s = Ret (r', s') /\ wf s' /\
     element s' r' ids' (XMLDocument.SetAttribute l n v) /\ moved s ids s' ids') /\
  (exists r' (s' : store) ids', DeleteAttribute n r s = Ret (r', s') /\ wf s' /\
     element s' r' ids' (XMLDocument.DeleteAttribute l n) /\ moved s ids s' ids') /\
  (exists o, FindAttribute n r s = Ret o /\
     match o with
     | Some i => i ∈ ids /\ fields <$> items s !! i = XMLDocument.FindAttribute l n
     | None => XMLDocument.FindAttribute l n = None
     end) /\
  (exists s' : store, destroy (length ids) r s = Ret s' /\ wf s' /\ moved s ids s' []).
Proof.
  intros W E. split; [by apply SetAttribute_correct|]. split; [by apply DeleteAttribute_correct|].
  split; [by apply FindAttribute_correct|by apply (destroy_correct ids (length ids) s r l)].
Qed.

(** C26: reading the attributes of a start tag links exactly the attributes [XmlParse]
    reads, with the same position, closing type and error; the attribute that could
    not be read, or whose name is not new, goes back to the pool. *)
Theorem ParseAttributes_links name line0 closing d p (s : store) :
  wf s -> exists d' pos closing' l' r' (s' : store) ids',
    XMLDocument.ParseAttributes (S (length p)) name line0 closing [] d p = Some (d', pos, closing', l') /\
    ParseAttributes (S (length p)) name line0 closing None None d p s = Ret (d', pos, closing', r', s') /\
    wf s' /\ element s' r' ids' l' /\ moved s [] s' ids'.
Proof.
  intros W. destruct (ParseAttributes_spec (S (length p)) name line0 closing [] d p) as (d' & pos & closing' & l' & E & _);
    [lia|split; [done|apply NoDup_nil_2]|].
  destruct (ParseAttributes_correct name line0 _ closing s None [] [] d p d' pos closing' l' E W) as (r' & s' & ids' & E' & Hr);
    [split; [done|constructor]|]. exists d', pos, closing', l', r', s', ids'. done.
Qed.

(** ** The elements of a document *)

(** What happens to the elements of a document: one is parsed from a start tag, an
    attribute is set or deleted, one is destroyed. *)
Inductive operation :=
| Parse (name : StrPair.t) (line0 : Z) (d : doc) (p : bytes)
| Set_ (k : nat) (n v : bytes)
| Delete (k : nat) (n : bytes)
| Destroy (k : nat).
Definition element_at {A} (k : nat) (l : list A) : outcome A := of_access (l !! k).
Definition perform (o : operation) (x : list (option nat) * store) : outcome (list (option nat) * store) :=
  let (roots, s) := x in
  match o with
  | Parse name line0 d p =>
      y ← ParseAttributes (S (length p)) name line0 OPEN None None d p s;
      let '(_, _, _, r, s) := y in Ret (roots ++ [r], s)
  | Set_ k n v => r ← element_at k roots; y ← SetAttribute n v r s; Ret (<[k := y.1]> roots, y.2)
  | Delete k n => r ← element_at k roots; y ← DeleteAttribute n r s; Ret (<[k := y.1]> roots, y.2)
  | Destroy k => r ← element_at k roots; s ← destroy (size (items s)) r s; Ret (<[k := None]> roots, s)
  end.
Definition perform_all (os : list operation) (x : list (option nat) * store) : outcome (list (option nat) * store) :=
  fold_left (fun x o => x ← x; perform o x) os (Ret x).
(** The same on lists of names and values. *)
Definition intend (o : operation) (ls : list (list attribute)) : option (list (list attribute)) :=
  match o with
  | Parse name line0 d p =>
      y ← XMLDocument.ParseAttributes (S (length p)) name line0 OPEN [] d p; Some (ls ++ [y.2])
  | Set_ k n v => l ← ls !! k; Some (<[k := XMLDocument.SetAttribute l n v]> ls)
  | Delete k n => l ← ls !! k; Some (<[k := XMLDocument.DeleteAttribute l n]> ls)
  | Destroy k => l ← ls !! k; Some (<[k := []]> ls)
  end.
Definition intend_all (os : list operation) (ls : list (list attribute)) : option (list (list attribute)) :=
  fold_left (fun ls o => ls ← ls; intend o ls) os (Some ls).

(** The elements have the attributes [ls], in the items [ids]: no two have an item in
    common, and every item in use is an attribute of one. *)
Record represents (ids : nat -> list nat) (x : list (option nat) * store) (ls : list (list attribute)) : Prop := {
  rep_wf : wf x.2;
  rep_length : length x.1 = length ls;
  rep_element : forall k r l, x.1 !! k = Some r -> ls !! k = Some l -> element x.2 r (ids k) l;
  rep_disjoint : forall j k i, (j < length ls)%nat -> (k < length ls)%nat -> i ∈ ids j -> i ∈ ids k -> j = k;
  rep_owned : forall i, is_Some (items x.2 !! i) -> exists k, (k < length ls)%nat /\ i ∈ ids k }.

(** An operation on one element leaves the others as they are. *)
Lemma element_apart (s : store) r ids l ids1 (s' : store) ids1' :
  element s r ids l -> (forall i, i ∈ ids -> i ∉ ids1) -> moved s ids1 s' ids1' ->
  element s' r ids l /\ forall i, i ∈ ids -> i ∉ ids1'.
Proof.
  intros [Hs ND] Hd [M1 M2 M3].
  assert (forall i, i ∈ ids -> i ∉ ids1') as Hd'.
  { intros i Hi Hi'. destruct (M2 i Hi') as [|Hn]; [by apply (Hd i)|]. destruct (seg_live s r ids l None i Hs Hi). congruence. }
  split; [|done]. split; [|done]. apply (seg_agree s); [|done]. intros i Hi. apply M1; auto.
Qed.
Lemma represents_update ids roots (s : store) ls k r' (s' : store) ids' l' :
  represents ids (roots, s) ls -> (k < length ls)%nat -> wf s' -> element s' r' ids' l' -> moved s (ids k) s' ids' ->
  represents (fun j => if decide (j = k) then ids' else ids j) (<[k := r']> roots, s') (<[k := l']> ls).
Proof.
  intros [W L E D O] Hk W' E' M. cbn [fst snd] in *.
  assert (forall j r l, j <> k -> roots !! j = Some r -> ls !! j = Some l ->
    element s' r (ids j) l /\ forall i, i ∈ ids j -> i ∉ ids') as Hother.
  { intros j r l Hj Hr Hl. apply (element_apart s r (ids j) l (ids k) s' ids'); [by apply E| |done].
    intros i H1 H2. apply Hj. apply (D j k i); [by eapply lookup_lt_Some|done..]. }
  assert (forall j i, (j < length ls)%nat -> j <> k -> i ∈ ids j -> i ∉ ids') as Hfree.
  { intros j i Hj Hne. destruct (lookup_lt_is_Some_2 ls j Hj) as [l Hl].
    destruct (lookup_lt_is_Some_2 roots j) as [r Hr]; [by rewrite L|]. by apply (Hother j r l). }
  split; cbn [fst snd]; rewrite ?length_insert; try done.
  - intros j r l. destruct (decide (j = k)) as [->|Hj].
    + rewrite !list_lookup_insert_eq by (rewrite ?L; done). by intros [= <-] [= <-].
    + rewrite !list_lookup_insert_ne by done. intros Hr Hl. by apply Hother.
  - intros j1 j2 i H1 H2. destruct (decide (j1 = k)) as [->|N1], (decide (j2 = k)) as [->|N2]; intros I1 I2; [done|..].
    + by destruct (Hfree j2 i).
    + by destruct (Hfree j1 i).
    + by apply (D j1 j2 i).
  - intros i Hi. destruct (decide (i ∈ ids')) as [Hin|Hin]; [exists k; split; [done|by rewrite decide_True]|].
    destruct M as [M1 M2 M3].
    assert (i ∉ ids k) as Hik by (intros Hik; rewrite (M3 i Hik Hin) in Hi; by destruct Hi).
    rewrite (M1 i Hik Hin) in Hi. destruct (O i Hi) as (j & Hj & Hij). exists j. split; [done|].
    rewrite decide_False; [done|]. by intros ->.
Qed.
Lemma represents_new ids roots (s : store) ls :
  represents ids (roots, s) ls ->
  represents (fun j => if decide (j = length ls) then [] else ids j) (roots ++ [None], s) (ls ++ [[]]).
Proof.
  intros [W L E D O]. cbn [fst snd] in *. split; cbn [fst snd]; rewrite ?length_app; cbn [length]; try done; try lia.
  - intros j r l. destruct (decide (j = length ls)) as [->|Hj].
    + rewrite <-L at 1. rewrite !list_lookup_middle by done. intros [= <-] [= <-]. split; [done|constructor].
    + intros Hr Hl. destruct (decide (j < length ls)%nat) as [Hlt|Hge].
      * rewrite lookup_app_l in Hr by (rewrite L; done). rewrite lookup_app_l in Hl by done. by apply E.
      * apply lookup_lt_Some in Hl. rewrite length_app in Hl. cbn in Hl. lia.
  - intros j k i Hj Hk. destruct (decide (j = length ls)), (decide (k = length ls)); intros H1 H2; [by subst|set_solver..|].
    apply (D j k i); [lia..|done|done].
  - intros i Hi. destruct (O i Hi) as (k & Hk & Hik). exists k. split; [lia|]. rewrite decide_False by lia. done.
Qed.

Lemma insert_last {A} (l : list A) x y : <[length l := y]> (l ++ [x]) = l ++ [y].
Proof. by induction l as [|z l IH]; [|cbn; f_equal]. Qed.
Lemma fold_none {A B} (f : B -> A -> option A) (os : list B) : fold_left (fun x o => x ← x; f o x) os None = None.
Proof. by induction os. Qed.

Lemma perform_correct o ids x ls ls' :
  represents ids x ls -> intend o ls = Some ls' -> exists ids' x', perform o x = Ret x' /\ represents ids' x' ls'.
Proof.
  destruct x as [roots s]. intros R Ho. pose proof R as [W L E _ _]. cbn [fst snd] in *.
  destruct o as [name line0 d p|k n v|k n|k]; cbn [intend perform] in Ho |- *.
  1: { destruct (XMLDocument.ParseAttributes _ _ _ _ _ _ _) as [[[[d' pos] closing'] l']|] eqn:Ep in Ho; [|done].
       cbn in Ho. injection Ho as <-.
       destruct (ParseAttributes_correct name line0 _ OPEN s None [] [] d p d' pos closing' l' Ep W)
         as (r' & s' & ids' & Ep' & W' & El & M); [split; [done|constructor]|]. cbn [last] in Ep'. rewrite Ep'. cbn [mbind outcome_bind].
       eexists _, _. split; [done|]. rewrite <-(insert_last roots None r'), <-(insert_last ls [] l'), L.
       eapply (represents_update (fun j => if decide (j = length ls) then [] else ids j) _ s); [by apply represents_new|rewrite length_app; cbn; lia|done|done|].
       by rewrite decide_True. }
  all: destruct (ls !! k) as [l|] eqn:El; [|done]; cbn in Ho; injection Ho as <-; pose proof (lookup_lt_Some _ _ _ El) as Hk;
    destruct (lookup_lt_is_Some_2 roots k) as [r Hr]; [by rewrite L|]; unfold element_at; rewrite Hr; cbn [of_access mbind outcome_bind];
    pose proof (E k r l Hr El) as Hel.
  - destruct (SetAttribute_correct s r (ids k) l n v W Hel) as (r' & s' & ids' & -> & W' & E' & M). cbn [mbind outcome_bind fst snd].
    eexists _, _. split; [done|]. by eapply (represents_update ids roots s ls k).
  - destruct (DeleteAttribute_correct s r (ids k) l n W Hel) as (r' & s' & ids' & -> & W' & E' & M). cbn [mbind outcome_bind fst snd].
    eexists _, _. split; [done|]. by eapply (represents_update ids roots s ls k).
  - pose proof Hel as [Hs ND].
    destruct (destroy_correct (ids k) (size (items s)) s r l) as (s' & -> & W' & M); [by eapply ids_bound|done|done|]. cbn [mbind outcome_bind].
    eexists _, _. split; [done|]. eapply (represents_update ids roots s ls k None s' [] []); [done|done|done|split; [done|constructor]|done].
Qed.

(** C12: the elements of a document share one pool: whatever sequence of operations is
    done on them, parsing, setting, deleting, destroying, each element has the
    attributes its own operations gave it, no two elements share an item, and every
    item in use belongs to an element, so that none is lost. *)
Theorem elements_apart os ids x ls ls' :
  represents ids x ls -> intend_all os ls = Some ls' ->
  exists ids' x', perform_all os x = Ret x' /\ represents ids' x' ls'.
Proof.
  unfold perform_all, intend_all. revert ids x ls. induction os as [|o os IH]; intros ids x ls R; cbn [fold_left].
  - intros [= <-]. by exists ids, x.
  - cbn. destruct (intend o ls) as [ls1|] eqn:Eo; [|by rewrite fold_none].
    destruct (perform_correct o ids x ls ls1 R Eo) as (ids1 & x1 & -> & R1). by apply (IH ids1).
Qed.

End pool.

(** ** Concrete runs *)

(** A pool with two items per block, and an element that gets three attributes. *)
Definition store0 : store (P := mempool 1) := mk_store ∅ (mk_mempool MemPool.new).
Definition set_two (n v : string) (x : outcome (option nat * store (P := mempool 1))) : outcome (option nat * store (P := mempool 1)) :=
  y ← x; SetAttribute (bs n) (bs v) y.1 y.2.
Definition three : outcome (option nat * store (P := mempool 1)) :=
  set_two "c" "3" (set_two "b" "2" (set_two "a" "1" (Ret (None, store0)))).
Definition texts (l : list attribute) : list (bytes * bytes) := map (fun f => (c_str (a_name f), c_str (a_value f))) l.
Fixpoint read_list (fuel : nat) (r : option nat) (s : store (P := mempool 1)) : list attribute :=
  match r, fuel with
  | Some i, S fuel => match items s !! i with Some a => fields a :: read_list fuel (next a) s | None => [] end
  | _, _ => []
  end.
Lemma store0_wf : wf store0.
Proof. destruct (MemPool.new_pool_wf 2) as [W U]. split; [exact W|]. intros i. cbn. rewrite U. split; [set_solver|by intros []]. Qed.
Lemma three_runs :
  (x ← three; y ← set_two "b" "x" (Ret x); z ← DeleteAttribute (bs "a") y.1 y.2; Ret (texts (read_list 5 z.1 z.2))) =
    Ret [(bs "b", bs "x"); (bs "c", bs "3")] /\
  (x ← three; y ← DeleteAttribute (bs "c") x.1 x.2; s ← destroy 2 y.1 y.2; Ret (size (items s))) = Ret 0%nat.
Proof. split; vm_compute; reflexivity. Qed.

Lemma empty_element (s : store (P := mempool 1)) : element s None [] [].
Proof. split; [done|constructor]. Qed.
Lemma attribute_lists_refine_witness :
  exists r s ids, SetAttribute (bs "a") (bs "1") None store0 = Ret (r, s) /\ wf s /\
    element s r ids [mk_attribute (SetStr (bs "a")) (SetStr (bs "1")) 0].
Proof.
  destruct (attribute_lists_refine store0 None [] [] (bs "a") (bs "1") store0_wf (empty_element store0)) as ((r & s & ids & E & W & El & _) & _).
  exists r, s, ids. exact (conj E (conj W El)).
Defined.
Lemma ParseAttributes_links_witness :
  exists d' pos closing' r' s', ParseAttributes 10 (SetStr (bs "e")) 1 OPEN None None test_doc (bs "a='1' a=2") store0 =
    Ret (d', pos, closing', r', s') /\ wf s'.
Proof.
  destruct (ParseAttributes_links (SetStr (bs "e")) 1 OPEN test_doc (bs "a='1' a=2") store0 store0_wf)
    as (d' & pos & closing' & l' & r' & s' & ids' & _ & E & W & _).
  exists d', pos, closing', r', s'. exact (conj E W).
Defined.
(** Two elements of one document: the first is destroyed, the second keeps its own. *)
Lemma elements_apart_witness :
  exists ids x, perform_all [Parse (SetStr (bs "e")) 1 test_doc (bs "a='1' b='2'>"); Parse (SetStr (bs "f")) 1 test_doc (bs ">");
                             Set_ 1 (bs "c") (bs "3"); Set_ 0 (bs "a") (bs "4"); Destroy 0] ([], store0) = Ret x /\
    represents ids x [[]; [mk_attribute (SetStr (bs "c")) (SetStr (bs "3")) 0]].
Proof.
  refine (elements_apart [Parse (SetStr (bs "e")) 1 test_doc (bs "a='1' b='2'>"); Parse (SetStr (bs "f")) 1 test_doc (bs ">");
                             Set_ 1 (bs "c") (bs "3"); Set_ 0 (bs "a") (bs "4"); Destroy 0] (fun _ => []) ([], store0) [] _ _ _).
  - split; cbn; try done; [exact store0_wf|lia|]. intros i []. done.
  - vm_compute. reflexivity.
Defined.

End Attr.
